(* ===== verification/_CoqProject ===== *)
-Q . S2P
Prelude.v
Text.v
Files.v
Threads.v
Primitives.v
Json.v
Concrete.v
JsonTree.v
Constants.v
Gpg.v
Braid.v
RateLimit.v
BotLog.v
PinCache.v
BootstrapVerify.v
DhtStore.v
Envelope.v
Pow.v
Identity.v
CertCache.v
DhtNode.v
CryptoUtils.v
Ratchet.v
SecureMem.v
Cbnp.v
DeliveryTokens.v
Pir.v
Kyber.v
DhtStart.v
DhtThreads.v
DhtSchedules.v
Mailbox.v
RelayAuth.v
Federation.v
RelayState.v
Relay.v
RelayProps.v
RelayLink.v
RelayStart.v
RelayInv.v
LinkLife.v
RelayTable.v
RelayMain.v
RelayThreads.v
RelaySchedules.v
RelayRaces.v
Handshake.v
Socks.v
WireText.v
Peer.v
PeerThreads.v
Stun.v
Padding.v
ClientStore.v
ClientRelay.v
ClientRelayProps.v
ClientHome.v
ClientDht.v
ClientShell.v
ClientDirect.v
ClientFetch.v
ClientMain.v
Settled.v
Interop.v
InteropFetch.v
EndToEnd.v
FirstMail.v
KeyExposure.v
