(* ===== verification/Prelude.v ===== *)
(** * NullNode: a verification development of the Rust sources under src/

    NullNode is a messenger without accounts: clients own OpenPGP keys, are
    named by fingerprints and Null IDs, talk directly or through relays that
    keep mailboxes, and publish their addresses in a DHT that accepts only
    signed records backed by proof of work.  The development models its
    crates as executable functions and proves what they guarantee, and what
    they do not.

    ** How to read it

    One file models one component.  A definition that translates code ends
    its comment with [Source: path:lines, symbol], the path relative to src/.
    Names are those of the source where Rocq allows it.  Functional behaviour
    comes first in a file, then its invariants, then witnesses that evaluate
    the theorems on concrete inputs under the instances of [Concrete].

    - Words of the machine are [Z], with [wrap], [u8], [u64] and the like
      where the code wraps or cuts; times that the code keeps as [f64] are
      IEEE doubles ([SpecFloat]), monotonic instants are nanoseconds.
    - Rust strings are byte strings ([String.string]); [str_bytes] and
      [bytes_str] go to and from [list Z]; characters are told apart from
      bytes where the code does.
    - A fallible call returns [result]; a method of an object is a state and
      error monad, [st], whose state survives an error as it does in the code.
      A possible panic is [None] or [may_panic].
    - What the environment decides is an argument: clocks, random bytes, the
      outcome of each database statement or write, the iteration order of a
      hash map, the frames that arrive on a connection.

    ** The parts

    Foundations.  [Prelude] has results, the monad, bytes, words and chunks;
    [Text] the methods of [str]; [Files] a disk and the ways a write ends;
    [Threads] handlers that run side by side, a critical section at a time,
    with locks for reading and for writing and what is sent while one is held,
    and the rules to prove something of every schedule and of every fair run;
    [Json] the type [serde_json::Value], [JsonTree] what survives printing and
    parsing;
    [Primitives] the third-party crates as type classes (digests, HMAC, HKDF,
    Argon2id, AES-GCM, ML-KEM, hex, base64, OpenPGP), each with the documented
    laws the code relies on; [Concrete] gives toy instances of all of them,
    so the laws are consistent and the models run.

    Protocol crate (src/protocol).  [Constants]; [Pow], the hashcash (solver
    and check agree, the search returns the first nonce, the bit count is the
    length of the zero prefix); [Braid], the chunked key handshake (any order
    of the chunks rebuilds the key; the duplicate and bounds invariant);
    [Envelope], the signed envelopes; [Gpg], detached signatures, made and
    checked.

    Cryptography (src/crypto, src/crypto-utils).  [Ratchet], the message
    ratchet (a whole conversation decrypts; a forged message ruins a session);
    [Kyber], key files (what is saved is loaded, on every error path);
    [DeliveryTokens]; [Pir], the blind registry (refined by lists of entries);
    [Identity], fingerprints and Null IDs; [CryptoUtils], local key files;
    [SecureMem], keys between guard pages over a memory of bytes and page
    protections (the life of a guarded key; what is locked is a copy); [Cbnp],
    cover traffic.

    DHT (src/dht-core).  [DhtNode] serves connections over [DhtStore], with
    the signature checks and the cache of [CertCache], the limits of
    [RateLimit], the log of [BotLog] and the proof of work of [Pow]: a value
    is stored exactly when no check refuses it, sequence numbers and nonces
    are never used twice, every frame is answered.  [PinCache] and
    [BootstrapVerify] decide whether a bootstrap server is trusted.
    [DhtStart] opens the store and runs the node and the bootstrap program
    (src/bootstrap): when it starts, that it keeps its name, and what a
    restart keeps.  [DhtThreads] cuts the connections of a node into the
    statements they await, the locks they hold and the replies they send (run
    alone they do what [DhtNode] says, lemma [event_alone]); [DhtSchedules] proves
    that under any schedule of them only signed records with their proof of work
    are stored, and that the order of their sequence numbers can be lost
    ([newer_record_overwritten]).

    Relay (src/relay).  [Mailbox], [Federation] and [RelayAuth] are its data;
    [RelayState] joins the mailboxes in memory with the SQL table behind them
    (what is stored is fetched until it is acknowledged, and no other
    recipient is affected); [Relay] has every request, the connection loop and
    the tasks; [RelayProps] says who may change a mailbox ([mail_guarded]) and
    the ways around it ([cert_hijack], [sealed_store_accepted],
    [peer_auth_reflection]).  [RelayLink] connects relays (gossip teaches
    nothing), [RelayStart] is the start of the program
    (a restart keeps the mail and forgets the nonces), [RelayInv] bounds the
    state through every event, by a relation that all requests respect,
    [LinkLife] says what keeps a link alive through them ([link_forgotten]), and
    [RelayTable] follows a message in the table: it waits for its owner.
    [RelayMain] is the program whole: TLS, the accept loop and its connections,
    the background tasks and the interrupt, as steps of a process, which
    simulates the events of [RelayInv] ([step_simulates]); mail outlives any
    number of its lives ([mail_outlives_relay]).
    [RelayThreads] cuts the same handlers, connections and tasks into the
    sections between their locks and statements, with the replies where they are
    sent; one that runs alone does what [Relay] says (lemma [job_alone]).
    [RelaySchedules] proves of every schedule of them that it keeps the sizes and
    leaves the mail to its owner, of every fair run that only peers that do not
    read hold anything up ([schedules_settle]), and that one of them can hold up
    the federation ([unread_reply_stalls_federation]); [RelayRaces] that of two requests with one nonce at most one is granted,
    and what a purge and a store can leave behind ([purge_store_race]).

    Peers (src/p2p).  [Handshake] exchanges greetings with proofs of work:
    its outcome is characterised on every pair of greetings; [Peer] keeps the
    queues per peer, and [PeerThreads] shows that its two mutexes make every
    operation atomic ([peer_manager_linearizable]); [Stun] parses answers of address servers, byte by byte;
    [Socks] reaches a peer directly or through a proxy.

    Client (src/client).  [Padding] hides lengths; [ClientStore] is the
    encrypted database; [ClientRelay] sends and reads messages through a
    relay; [ClientRelayProps] proves that two clients with fresh databases
    read what they send each other, over any exchange.  [ClientHome] has the
    files of a home directory and the commands over them; [ClientDht] the
    registration and the lookups, against the node of [DhtNode] as a server
    ([WireText] relates the texts of both sides); [ClientDirect] the messages
    between two clients and the listener; [ClientFetch] the reading of a
    mailbox, its purge and the onion route; [ClientShell] the PID file, the
    choice of servers and the cache of contacts.  [ClientMain] is the program
    whole, [client_main] from a command line to what it prints, over the files,
    the database and a [Server]; the footprints of [Files] follow every write,
    so that any number of runs keeps a home well-formed and its keys as they
    are ([commands_keep_home]).  [Settled] says what [init] leaves behind and
    that every other command keeps it.

    Together.  [Interop] and [InteropFetch] put the requests of the client
    before the relay: what is stored and what is served.  [EndToEnd] joins
    them: two clients and a relay that exchange printed texts do what
    [ClientRelayProps.deliver] does.  [FirstMail] is the whole story: two empty
    homes, a relay and the rest of a network; [init], [init], [add-contact],
    [send] and [read] as command lines, and the text that was sent is what is
    printed ([first_mail], which lists what this takes).  [KeyExposure] is what such a story costs: a request
    carries the secret key of its sender, and whoever reads one can fetch and
    purge in the sender's name ([request_gives_the_key_away]).

    ** Interfaces

    The classes of [Primitives], and [RelayCodec], [WireCodec], [Format],
    [Tls], [HashOrder] and their like next to their users, are what a
    component relies on in code that is not under src/.  A theorem quantifies
    over their instances; a witness picks the toy ones.  Between components
    the contract is the lemma a file exports: [DhtStore.put] by its equation,
    [RateLimit] by [limiter_run_inv], [Ratchet] by [converse_ok], the mailbox
    by [store_inv], a command of the client by the files it [touches], a home by
    [settled].  A client talks to a server through [ClientDht.Server],
    whose instances are a DHT node, a relay, a listening client in a network
    ([ClientDirect.around_server]) and a network with a relay in it
    ([FirstMail.net_server]).  The laws
    of a text that one program prints and another parses are classes of their
    own ([JsonLaw], [EnvelopeLaw], [StoreRequestLaw], [FetchRequestLaw],
    [RelayTextLaw], [WireText]), next to the theorems that need them.

    ** Bounds and fuel

    [Stun.scan] runs on the length of the datagram, which it consumes by at
    least four bytes a turn, and [stun_response_read] proves that this is
    enough.  [Handshake.hello_search] makes the [HELLO_ATTEMPTS] attempts
    of the code, [Pow.pow_search] the number its caller asks for;
    [Pow.shift_bits] the eight bits of a byte.  [chunks] runs on the length of
    its list.  The other recursions are structural.

    ** What is not modelled

    TCP, TLS and websockets themselves: a connection is the frames it carries
    and the ends its operations have.  How a command line is split into
    arguments (clap), and tracing.  The platforms other than Linux of
    src/crypto/src/secure_mem.rs.  The crates behind the classes: Sequoia, age,
    rustls, x509-parser, serde and the primitives of cryptography.  The tests
    inside the sources, and code that nothing calls and whose effect is that of
    a library alone (the in-memory database of src/client/src/main.rs, with a
    table that nothing reads).  In [Relay] and in
    [DhtNode] a handler is one step; [RelayThreads] and [DhtThreads] have the
    steps of it, [RelayMain] takes each frame at once.  In [RelayThreads] the
    mailboxes and the federation have locks, in [DhtThreads] the seen nonces;
    the other locks guard single sections.  A lock lets a reader in whenever no
    writer is inside, where tokio's queue makes it wait behind a writer that
    came first; [schedules_settle] only asks that a free lock lets somebody in,
    and the theorems on every schedule hold of those the queue allows.  A reply
    that is sent under no lock takes no step of its own.  Some smaller things
    are simpler than in the sources: the listener of a client serves its
    connections one after the other ([ClientMain.serve]) where the code spawns
    them; an AES call that fails in [RelayState.store_message] gives an error
    where the code panics; of limiters that are equally old the first in the
    order of the map is evicted ([Relay.evict_limiter]); what the allocator
    keeps behind a block that is unmapped is not part of [SecureMem]'s memory. *)

From stdpp Require Export base list gmap strings fin_maps pretty.
From Stdlib Require Export ZArith Lia.
From Stdlib Require Export Floats.SpecFloat.
From Stdlib Require Export Ascii.
From Stdlib Require String.

#[global] Set Default Goal Selector "!".
#[global] Open Scope Z_scope.

Declare Scope nn_scope.
Delimit Scope nn_scope with nn.
#[global] Open Scope nn_scope.

(** ** Results and the state-and-error monad *)

Inductive result (E A : Type) : Type :=
| Ok (a : A)
| Err (e : E).

Arguments Ok {E A} a.
Arguments Err {E A} e.

Definition is_ok {E A} (r : result E A) : bool :=
  match r with Ok _ => true | Err _ => false end.

Definition rbind {E A B} (r : result E A) (k : A -> result E B) : result E B :=
  match r with Ok a => k a | Err e => Err e end.

(** [?] on an [Option] turned into a [Result] by [ok_or]. *)
Definition ok_or {E A} (o : option A) (e : E) : result E A :=
  match o with Some a => Ok a | None => Err e end.

(** [Result::unwrap_or]. *)
Definition unwrap_or {E A} (r : result E A) (d : A) : A :=
  match r with Ok a => a | Err _ => d end.

(** [Option::unwrap_or]. *)
Definition opt_or {A} (o : option A) (d : A) : A :=
  match o with Some a => a | None => d end.

Notation "'let?' x := r 'in' k" := (rbind r (fun x => k))
  (at level 10, x pattern, r at level 100, k at level 200) : nn_scope.

(** A method that takes [&mut self] and returns a [Result]: the state reached
    is kept when the method returns early with an error. *)
Definition st (S E A : Type) : Type := S -> S * result E A.

Definition st_ret {S E A} (a : A) : st S E A := fun s => (s, Ok a).
Definition st_fail {S E A} (e : E) : st S E A := fun s => (s, Err e).
Definition st_get {S E} : st S E S := fun s => (s, Ok s).
Definition st_put {S E} (s' : S) : st S E unit := fun _ => (s', Ok tt).
Definition st_modify {S E} (f : S -> S) : st S E unit := fun s => (f s, Ok tt).
Definition st_lift {S E A} (r : result E A) : st S E A := fun s => (s, r).
Definition st_bind {S E A B} (m : st S E A) (k : A -> st S E B) : st S E B :=
  fun s => match m s with
           | (s', Ok a) => k a s'
           | (s', Err e) => (s', Err e)
           end.

Notation "'do' x <- m ; k" := (st_bind m (fun x => k))
  (at level 10, x pattern, m at level 100, k at level 200) : nn_scope.
Notation "'do!' m ; k" := (st_bind m (fun _ => k))
  (at level 10, m at level 100, k at level 200) : nn_scope.

(** [if c { return Err(e) }] *)
Definition st_guard {S E} (c : bool) (e : E) : st S E unit :=
  if c then st_ret tt else st_fail e.

(** What a call returns, when it returns, whatever it started from. *)
Definition yields {S E A} (Q : A -> Prop) (m : st S E A) : Prop := forall s a, (m s).2 = Ok a -> Q a.

Lemma yields_ret {S E A} (Q : A -> Prop) (a : A) : Q a -> yields (S := S) (E := E) Q (st_ret a).
Proof. by intros HQ s b [= <-]. Qed.

Lemma yields_bind {S E A B} (P : A -> Prop) (Q : B -> Prop) (m : st S E A) k :
  yields P m -> (forall a, P a -> yields Q (k a)) -> yields Q (st_bind m k).
Proof.
  intros Hm Hk s b. unfold st_bind. specialize (Hm s). destruct (m s) as [s' [a|e]]; [|done].
  apply Hk. by apply Hm.
Qed.

Lemma yields_any {S E A} (m : st S E A) : yields (fun _ => True) m.
Proof. done. Qed.

Lemma yields_lift {S E A} (r : result E A) : yields (S := S) (fun a => r = Ok a) (st_lift r).
Proof. by intros s a. Qed.

(** ** Machine integers *)

Definition wrap (w : Z) (z : Z) : Z := z mod 2 ^ w.
Definition u8 (z : Z) : Z := wrap 8 z.
Definition u16 (z : Z) : Z := wrap 16 z.
Definition u32 (z : Z) : Z := wrap 32 z.
Definition u64 (z : Z) : Z := wrap 64 z.

(** Two's complement reading of the low [w] bits. *)
Definition swrap (w : Z) (z : Z) : Z := (z + 2 ^ (w - 1)) mod 2 ^ w - 2 ^ (w - 1).
Definition i64 (z : Z) : Z := swrap 64 z.

Definition i64_min : Z := - 2 ^ 63.
Definition i64_max : Z := 2 ^ 63 - 1.

Lemma wrap_small w z : 0 <= z < 2 ^ w -> wrap w z = z.
Proof. intros. unfold wrap. by apply Z.mod_small. Qed.

Lemma wrap_range w z : 0 <= w -> 0 <= wrap w z < 2 ^ w.
Proof. intros. unfold wrap. apply Z.mod_pos_bound. lia. Qed.

(** ** Bytes

    A byte is an integer in [0, 256); a byte slice is a list of them. *)

Abbreviation bytes := (list Z).

Definition byte_ok (b : Z) : Prop := 0 <= b < 256.
Definition bytes_ok (l : bytes) : Prop := Forall byte_ok l.

#[export] Instance byte_ok_dec b : Decision (byte_ok b).
Proof. unfold byte_ok. apply _. Defined.

Definition zlen {A} (l : list A) : Z := Z.of_nat (length l).

(** [uN::to_be_bytes] on [n] bytes, and [uN::from_be_bytes]. *)
Fixpoint be_bytes (n : nat) (z : Z) : bytes :=
  match n with
  | O => []
  | S n' => u8 (Z.shiftr z (8 * Z.of_nat n')) :: be_bytes n' z
  end.

Fixpoint from_be (acc : Z) (l : bytes) : Z :=
  match l with
  | [] => acc
  | b :: l' => from_be (acc * 256 + b) l'
  end.

Definition from_be_bytes (l : bytes) : Z := from_be 0 l.

Lemma be_bytes_length n z : length (be_bytes n z) = n.
Proof. induction n; simpl; congruence. Qed.

Lemma from_be_be_bytes_acc n acc z :
  from_be acc (be_bytes n z) = acc * 2 ^ (8 * Z.of_nat n) + z mod 2 ^ (8 * Z.of_nat n).
Proof.
  revert acc. induction n as [|n IH]; intros acc; cbn [be_bytes from_be].
  - change (2 ^ (8 * Z.of_nat 0)) with 1. rewrite Z.mod_1_r. lia.
  - rewrite IH. unfold u8, wrap.
    rewrite Z.shiftr_div_pow2 by lia.
    set (p := 2 ^ (8 * Z.of_nat n)).
    replace (2 ^ (8 * Z.of_nat (S n))) with (p * 2 ^ 8)
      by (unfold p; rewrite <- Z.pow_add_r by lia; f_equal; lia).
    assert (0 < p) by (unfold p; lia).
    rewrite (Z.rem_mul_r z p (2 ^ 8)) by lia. lia.
Qed.

Lemma from_be_be_bytes n z :
  0 <= z < 2 ^ (8 * Z.of_nat n) -> from_be_bytes (be_bytes n z) = z.
Proof.
  intros Hz. unfold from_be_bytes. rewrite from_be_be_bytes_acc.
  rewrite Z.mod_small by done. lia.
Qed.

(** Slices: [s.chunks(n)]; the last chunk may be shorter. *)
Fixpoint chunks_go {A} (fuel n : nat) (l : list A) : list (list A) :=
  match fuel, l with
  | O, _ => []
  | _, [] => []
  | S fuel', _ => take n l :: chunks_go fuel' n (drop n l)
  end.

Definition chunks {A} (n : nat) (l : list A) : list (list A) :=
  chunks_go (length l) n l.

(** [iter.enumerate()]. *)
Definition enumerate {A} (l : list A) : list (nat * A) := imap pair l.

(** [usize::div_ceil] *)
Definition div_ceil (a b : nat) : nat := ((a + (b - 1)) / b)%nat.

Section chunk_lemmas.
Context {A : Type}.
Implicit Types l : list A.

Lemma chunks_go_fuel fuel fuel' n l :
  (0 < n)%nat -> (length l <= fuel)%nat -> (length l <= fuel')%nat ->
  chunks_go fuel n l = chunks_go fuel' n l.
Proof.
  intros Hn. revert fuel' l.
  induction fuel as [|f IH]; intros f' l H1 H2.
  - destruct l; [|simpl in H1; lia]. by destruct f'.
  - destruct f' as [|f']; [destruct l; [done|simpl in H2; lia]|].
    destruct l as [|x l]; [done|]. cbn [chunks_go]. f_equal.
    apply IH; rewrite length_drop; simpl in *; lia.
Qed.

Lemma chunks_step n l :
  (0 < n)%nat -> l <> [] -> chunks n l = take n l :: chunks n (drop n l).
Proof.
  intros Hn Hl. unfold chunks. destruct l as [|x l]; [done|].
  cbn [length chunks_go]. f_equal.
  apply chunks_go_fuel; [done| |done].
  rewrite length_drop. simpl. lia.
Qed.

Lemma chunks_nil n : chunks n ([] : list A) = [].
Proof. done. Qed.

(** Induction along the chunks of a list. *)
Lemma chunks_ind n (P : list A -> Prop) :
  (0 < n)%nat -> P [] -> (forall l, l <> [] -> P (drop n l) -> P l) -> forall l, P l.
Proof.
  intros Hn H0 HS l. remember (length l) as m eqn:Hm. revert l Hm.
  induction m as [m IH] using lt_wf_ind. intros l ->.
  destruct l as [|x l]; [done|]. apply HS; [done|].
  apply (IH (length (drop n (x :: l)))); [|done].
  rewrite length_drop. simpl. lia.
Qed.

Lemma chunks_concat n l : (0 < n)%nat -> concat (chunks n l) = l.
Proof.
  intros Hn. revert l. apply (chunks_ind n); [done|done|]. intros l Hl IH.
  rewrite chunks_step by done. cbn [concat]. rewrite IH. apply take_drop.
Qed.

Lemma div_ceil_step (a b : nat) :
  (0 < b)%nat -> (0 < a)%nat -> div_ceil a b = S (div_ceil (a - b) b).
Proof.
  intros Hb Ha. unfold div_ceil. destruct (decide (b <= a)%nat) as [Hle|Hgt].
  - replace (a + (b - 1))%nat with ((a - b + (b - 1)) + 1 * b)%nat by lia.
    rewrite Nat.div_add by lia. lia.
  - replace (a - b)%nat with 0%nat by lia.
    rewrite (Nat.div_small (0 + (b - 1)) b) by lia.
    symmetry. apply (Nat.div_unique _ b 1 (a - 1)); lia.
Qed.

Lemma chunks_length n l : (0 < n)%nat -> length (chunks n l) = div_ceil (length l) n.
Proof.
  intros Hn. revert l. apply (chunks_ind n); [done| |intros l Hl IH].
  - rewrite chunks_nil. unfold div_ceil. simpl. rewrite Nat.div_small; lia.
  - rewrite chunks_step by done. cbn [length]. rewrite IH, length_drop.
    rewrite <- div_ceil_step; [done|done|]. destruct l; [done|]. simpl. lia.
Qed.

Lemma chunks_lookup n l i :
  (0 < n)%nat -> (i * n < length l)%nat ->
  chunks n l !! i = Some (take n (drop (i * n) l)).
Proof.
  intros Hn. revert l. induction i as [|i IH]; intros l Hi.
  - rewrite chunks_step; [done..|]. intros ->. simpl in Hi. lia.
  - rewrite chunks_step; [|done|intros ->; simpl in Hi; lia].
    cbn [lookup list_lookup]. rewrite IH by (rewrite length_drop; lia).
    by rewrite drop_drop.
Qed.

Lemma chunks_lookup_None n l i :
  (0 < n)%nat -> (length l <= i * n)%nat -> chunks n l !! i = None.
Proof.
  intros Hn Hi. apply lookup_ge_None_2. rewrite chunks_length by done.
  unfold div_ceil. apply Nat.lt_succ_r. apply Nat.Div0.div_lt_upper_bound. lia.
Qed.
End chunk_lemmas.

(** ** Strings

    A Rust [str] is its sequence of UTF-8 bytes; a Rocq [string] holds the
    same bytes as [ascii] characters. *)

Fixpoint str_bytes (s : string) : bytes :=
  match s with
  | EmptyString => []
  | String c s' => Z.of_N (Ascii.N_of_ascii c) :: str_bytes s'
  end.

Fixpoint bytes_str (l : bytes) : string :=
  match l with
  | [] => EmptyString
  | b :: l' => String (Ascii.ascii_of_N (Z.to_N b)) (bytes_str l')
  end.

(** [str::len]: the number of bytes. *)
Definition slen (s : string) : Z := Z.of_nat (String.length s).

Definition str_is_empty (s : string) : bool :=
  match s with EmptyString => true | _ => false end.

(** [s.split(c)]: always at least one piece. *)
Fixpoint split_on (c : ascii) (s : string) : list string :=
  match s with
  | EmptyString => [EmptyString]
  | String a s' =>
      if Ascii.eqb a c then EmptyString :: split_on c s'
      else match split_on c s' with
           | p :: ps => String a p :: ps
           | [] => [String a EmptyString]
           end
  end.

(** [s.strip_prefix(p)] *)
Fixpoint strip_prefix (p s : string) : option string :=
  match p, s with
  | EmptyString, _ => Some s
  | String a p', String b s' => if Ascii.eqb a b then strip_prefix p' s' else None
  | _, EmptyString => None
  end.

Definition starts_with (s p : string) : bool :=
  match strip_prefix p s with Some _ => true | None => false end.

(** [s.ends_with(p)] *)
Fixpoint ends_with (s p : string) : bool :=
  (s =? p)%string ||
  match s with EmptyString => false | String _ s' => ends_with s' p end.

(** [s.contains(p)] for a string pattern. *)
Fixpoint contains (s p : string) : bool :=
  starts_with s p ||
  match s with EmptyString => false | String _ s' => contains s' p end.

(** [s.chars().all(p)] on ASCII predicates: every byte of a multi-byte
    character is above 127, where the predicates used are false. *)
Fixpoint str_all (p : ascii -> bool) (s : string) : bool :=
  match s with EmptyString => true | String a s' => p a && str_all p s' end.

Definition code (a : ascii) : Z := Z.of_N (Ascii.N_of_ascii a).

(** [char::is_ascii_hexdigit] *)
Definition is_ascii_hexdigit (a : ascii) : bool :=
  ((48 <=? code a) && (code a <=? 57)) ||
  ((65 <=? code a) && (code a <=? 70)) ||
  ((97 <=? code a) && (code a <=? 102)).

(** [&s[a..b]] when both bounds are in range. *)
Definition substr (a n : nat) (s : string) : string := String.substring a n s.

(** [a.max(b)] ... on bytes and the round trip of [str] and its bytes. *)
Lemma bytes_str_bytes s : bytes_str (str_bytes s) = s.
Proof.
  induction s as [|c s IH]; [done|]. cbn [str_bytes bytes_str].
  by rewrite N2Z.id, Ascii.ascii_N_embedding, IH.
Qed.

Lemma str_bytes_ok s : bytes_ok (str_bytes s).
Proof.
  induction s as [|c s IH]; constructor; [|done].
  unfold byte_ok. pose proof (Ascii.N_ascii_bounded c). lia.
Qed.

Lemma str_bytes_str l : bytes_ok l -> str_bytes (bytes_str l) = l.
Proof.
  induction 1 as [|b l Hb _ IH]; [done|]. cbn [bytes_str str_bytes].
  unfold byte_ok in Hb. rewrite Ascii.N_ascii_embedding by lia.
  rewrite IH, Z2N.id by lia. done.
Qed.

Lemma str_bytes_app s t : str_bytes (s +:+ t) = str_bytes s ++ str_bytes t.
Proof. induction s as [|c s IH]; [done|]. cbn [str_bytes]. simpl. by rewrite <- IH. Qed.

Lemma str_bytes_inj s t : str_bytes s = str_bytes t -> s = t.
Proof. intros H. by rewrite <- (bytes_str_bytes s), H, bytes_str_bytes. Qed.

Lemma str_bytes_length s : zlen (str_bytes s) = slen s.
Proof. unfold zlen, slen. f_equal. induction s; simpl; congruence. Qed.

Lemma str_app_assoc (a b c : string) : (a +:+ b) +:+ c = a +:+ (b +:+ c).
Proof. apply str_bytes_inj. by rewrite !str_bytes_app, app_assoc. Qed.

Lemma str_app_nil_r (a : string) : a +:+ "" = a.
Proof. apply str_bytes_inj. by rewrite str_bytes_app, app_nil_r. Qed.

(** ** UTF-8 ([String::from_utf8]) *)

Definition cont (b : Z) : bool := (128 <=? b) && (b <=? 191).
Definition in_range (lo hi b : Z) : bool := (lo <=? b) && (b <=? hi).

(** The second byte a lead byte admits in sequences of three and four bytes
    (no surrogates, no overlong forms, at most U+10FFFF). *)
Definition snd3 (a b : Z) : bool :=
  if a =? 224 then in_range 160 191 b
  else if a =? 237 then in_range 128 159 b else cont b.
Definition snd4 (a b : Z) : bool :=
  if a =? 240 then in_range 144 191 b
  else if a =? 244 then in_range 128 143 b else cont b.

Fixpoint utf8_valid (l : bytes) : bool :=
  match l with
  | [] => true
  | a :: l1 =>
      if in_range 0 127 a then utf8_valid l1
      else if in_range 194 223 a then
        match l1 with b :: l2 => cont b && utf8_valid l2 | _ => false end
      else if in_range 224 239 a then
        match l1 with
        | b :: c :: l3 => snd3 a b && cont c && utf8_valid l3
        | _ => false
        end
      else if in_range 240 244 a then
        match l1 with
        | b :: c :: d :: l4 => snd4 a b && cont c && cont d && utf8_valid l4
        | _ => false
        end
      else false
  end.

(** [String::from_utf8] *)
Definition from_utf8 (l : bytes) : option string :=
  if utf8_valid l then Some (bytes_str l) else None.

(** The invariant of every Rust [str]. *)
Definition str_ok (s : string) : Prop := utf8_valid (str_bytes s) = true.

Lemma from_utf8_str s : str_ok s -> from_utf8 (str_bytes s) = Some s.
Proof. unfold str_ok, from_utf8. intros ->. by rewrite bytes_str_bytes. Qed.

(** ** f64

    IEEE 754 binary64, computed by the Standard Library's [SpecFloat]. *)

Definition f64 : Type := spec_float.
Definition f64_of_Z (z : Z) : f64 := binary_normalize 53 1024 z 0 false.
Definition f64_finite (x : f64) : bool :=
  match x with S754_zero _ | S754_finite _ _ _ => true | _ => false end.
Definition f64_add : f64 -> f64 -> f64 := SFadd 53 1024.
Definition f64_sub : f64 -> f64 -> f64 := SFsub 53 1024.
Definition f64_abs : f64 -> f64 := SFabs.
Definition f64_ltb : f64 -> f64 -> bool := SFltb.
Definition f64_leb : f64 -> f64 -> bool := SFleb.
Definition f64_gtb (a b : f64) : bool := SFltb b a.
Definition f64_geb (a b : f64) : bool := SFleb b a.

(** [x as i64]: truncation towards zero, saturating, NaN to zero. *)
Definition f64_to_i64 (x : f64) : Z :=
  match x with
  | S754_zero _ | S754_nan => 0
  | S754_infinity s => if s then i64_min else i64_max
  | S754_finite s m e =>
      let t := Z.shiftl (Zpos m) e in
      let v := if s then - t else t in
      Z.max i64_min (Z.min i64_max v)
  end.

Example f64_to_i64_trunc :
  f64_to_i64 (S754_finite true 7 (-1)) = -3 /\ f64_to_i64 (f64_of_Z 1700000000) = 1700000000.
Proof. split; reflexivity. Qed.

(** The order of the floats that are numbers is the lexicographic order of
    sign, exponent and mantissa. *)
Definition f64_key (x : f64) : option (Z * Z * Z) :=
  match x with
  | S754_nan => None
  | S754_zero _ => Some (0, 0, 0)
  | S754_infinity s => Some (if s then -2 else 2, 0, 0)
  | S754_finite s m e =>
      Some (if s then (-1, - e, - Zpos m) else (1, e, Zpos m))
  end.

Definition key_le (a b : Z * Z * Z) : Prop :=
  let '(a1, a2, a3) := a in let '(b1, b2, b3) := b in
  a1 < b1 \/ a1 = b1 /\ (a2 < b2 \/ a2 = b2 /\ a3 <= b3).

Lemma f64_leb_key x y :
  f64_leb x y = true <->
  exists a b, f64_key x = Some a /\ f64_key y = Some b /\ key_le a b.
Proof.
  assert (Hopp : forall m m', Pos.compare_cont Eq m m' = Pos.compare m m') by done.
  split.
  - intros Hle. unfold f64_leb, SFleb in Hle.
    destruct x as [s|s| |s m e], y as [s'|s'| |s' m' e']; simpl in Hle; try done;
      (eexists _, _; split; [done|split; [done|]]); unfold key_le; simpl;
      repeat match goal with b : bool |- _ => destruct b end; simpl in *; try done; try lia.
    + destruct (Z.compare_spec e e'); try done; [|lia].
      rewrite Hopp in Hle. destruct (Pos.compare_spec m m'); simpl in Hle; try done; lia.
    + destruct (Z.compare_spec e e'); try done; [|lia].
      rewrite Hopp in Hle. destruct (Pos.compare_spec m m'); simpl in Hle; try done; lia.
  - intros (a & b & Ha & Hb & Hk). unfold f64_leb, SFleb.
    destruct x as [s|s| |s m e], y as [s'|s'| |s' m' e']; simpl in *; try done;
      injection Ha as <-; injection Hb as <-;
      repeat match goal with b : bool |- _ => destruct b end;
      unfold key_le in Hk; simpl in *; try done; try lia.
    + rewrite Hopp. destruct (Z.compare_spec e e'); try done; [|lia].
      destruct (Pos.compare_spec m m'); simpl; try done; lia.
    + rewrite Hopp. destruct (Z.compare_spec e e'); try done; [|lia].
      destruct (Pos.compare_spec m m'); simpl; try done; lia.
Qed.

Lemma f64_leb_trans x y z :
  f64_leb x y = true -> f64_leb y z = true -> f64_leb x z = true.
Proof.
  rewrite !f64_leb_key. intros (a & b & Ha & Hb & Hab) (b' & c & Hb' & Hc & Hbc).
  rewrite Hb in Hb'. injection Hb' as <-. exists a, c. split_and!; [done|done|].
  destruct a as [[??]?], b as [[??]?], c as [[??]?]. unfold key_le in *. lia.
Qed.

(** ** Hash maps

    The iteration order of a [HashMap] is unspecified: the first key of a map
    is some key of it. *)
Class HashOrder (A : Type) := {
  first_key : gmap string A -> option string;
  first_key_in m k : first_key m = Some k -> is_Some (m !! k);
  first_key_empty m : first_key m = None -> m = ∅;
}.

Definition list_order (A : Type) : HashOrder A.
Proof.
  refine {| first_key := fun m => fst <$> head (map_to_list m) |}.
  - intros m k. destruct (map_to_list m) as [|[k' x] l] eqn:E; [done|]. intros [= <-].
    exists x. apply elem_of_map_to_list. rewrite E. by left.
  - intros m. destruct (map_to_list m) as [|[k' x] l] eqn:E; [|done]. intros _.
    by apply map_to_list_empty_iff.
Defined.
