(* ===== verification/Text.v ===== *)
(** * String functions of the Rust standard library

    The [str] methods the components use beyond those of the prelude, on the
    byte strings of the prelude, with the facts about them that are shared. *)

From S2P Require Import Prelude.

(** ** Case

    [to_uppercase] and [to_lowercase] are those of ASCII; the sources apply
    them to fingerprints, which are hexadecimal. *)

Definition ascii_upper (a : ascii) : ascii :=
  if (97 <=? code a) && (code a <=? 122) then Ascii.ascii_of_N (Z.to_N (code a - 32)) else a.

Definition ascii_lower (a : ascii) : ascii :=
  if (65 <=? code a) && (code a <=? 90) then Ascii.ascii_of_N (Z.to_N (code a + 32)) else a.

Fixpoint str_map (f : ascii -> ascii) (s : string) : string :=
  match s with EmptyString => EmptyString | String a s' => String (f a) (str_map f s') end.

Definition to_uppercase : string -> string := str_map ascii_upper.
Definition to_lowercase : string -> string := str_map ascii_lower.

(** [a.eq_ignore_ascii_case(b)] *)
Definition eq_ignore_ascii_case (a b : string) : bool :=
  String.eqb (to_lowercase a) (to_lowercase b).

(** ** Searching and cutting *)

(** [s.chars().filter(p).collect()] *)
Fixpoint str_filter (p : ascii -> bool) (s : string) : string :=
  match s with
  | EmptyString => EmptyString
  | String a s' => if p a then String a (str_filter p s') else str_filter p s'
  end.

(** [s.replace(' ', "")] *)
Definition remove_spaces : string -> string := str_filter (fun a => negb (Ascii.eqb a " "%char)).

(** [s.replace("0x", "")]: occurrences from the left, not rescanned. *)
Fixpoint remove_0x (s : string) : string :=
  match s with
  | String "0"%char (String "x"%char s') => remove_0x s'
  | String a s' => String a (remove_0x s')
  | EmptyString => EmptyString
  end.

(** [s.trim_end_matches(c)] *)
Fixpoint trim_end (c : ascii) (s : string) : string :=
  match s with
  | EmptyString => EmptyString
  | String a s' =>
      match trim_end c s' with
      | EmptyString => if Ascii.eqb a c then EmptyString else String a EmptyString
      | t => String a t
      end
  end.

(** [s.chars().take(n)] on an ASCII string, [&s[n..]] and [&s[a..a+n]]. *)
Fixpoint str_take (n : nat) (s : string) : string :=
  match n, s with
  | S n', String a s' => String a (str_take n' s')
  | _, _ => EmptyString
  end.

Fixpoint str_drop (n : nat) (s : string) : string :=
  match n, s with
  | S n', String _ s' => str_drop n' s'
  | O, s => s
  | _, EmptyString => EmptyString
  end.

Definition str_slice (a n : nat) (s : string) : string := str_take n (str_drop a s).

(** [s.find(c)] and [s.rfind(c)] for a character: the byte offset. *)
Fixpoint str_find (c : ascii) (s : string) : option nat :=
  match s with
  | EmptyString => None
  | String a s' => if Ascii.eqb a c then Some O else S <$> str_find c s'
  end.

Fixpoint str_rfind (c : ascii) (s : string) : option nat :=
  match s with
  | EmptyString => None
  | String a s' =>
      match str_rfind c s' with
      | Some i => Some (S i)
      | None => if Ascii.eqb a c then Some O else None
      end
  end.

(** ** Hexadecimal formatting: [{:0wx}] of an integer of [w] digits. *)

Definition hex_digit (d : Z) : ascii :=
  Ascii.ascii_of_N (Z.to_N (if d <? 10 then 48 + d else 87 + d)).

Fixpoint hex_fixed (w : nat) (n : Z) : string :=
  match w with
  | O => EmptyString
  | S w' => String (hex_digit (Z.land (Z.shiftr n (4 * Z.of_nat w')) 15)) (hex_fixed w' n)
  end.

(** ** Integer parsing: [s.parse::<u16>()] and the like. *)

Definition digit_val (a : ascii) : option Z :=
  if (48 <=? code a) && (code a <=? 57) then Some (code a - 48) else None.

Fixpoint parse_digits (max acc : Z) (s : string) : option Z :=
  match s with
  | EmptyString => Some acc
  | String a s' =>
      d ← digit_val a;
      if acc * 10 + d <=? max then parse_digits max (acc * 10 + d) s' else None
  end.

(** An optional [+], then at least one digit, at most [max]. *)
Definition parse_unsigned (max : Z) (s : string) : option Z :=
  match s with
  | EmptyString => None
  | String "+"%char EmptyString => None
  | String "+"%char s' => parse_digits max 0 s'
  | _ => parse_digits max 0 s
  end.

(** ** Facts *)

Lemma slen_app s t : slen (s +:+ t) = slen s + slen t.
Proof.
  unfold slen. induction s as [|a s IH]; [done|].
  change (String a s +:+ t) with (String a (s +:+ t)). cbn [String.length]. lia.
Qed.

Lemma slen_nonneg s : 0 <= slen s.
Proof. unfold slen. lia. Qed.

Lemma str_all_app p s t : str_all p (s +:+ t) = str_all p s && str_all p t.
Proof.
  induction s as [|a s IH]; [done|].
  change (String a s +:+ t) with (String a (s +:+ t)). cbn [str_all].
  by rewrite IH, andb_assoc.
Qed.

Lemma str_all_impl p q s :
  (forall a, p a = true -> q a = true) -> str_all p s = true -> str_all q s = true.
Proof.
  intros Hi. induction s as [|a s IH]; [done|]. cbn [str_all].
  rewrite !andb_true_iff. naive_solver.
Qed.

Lemma str_take_length n s : slen (str_take n s) = Z.min (Z.of_nat n) (slen s).
Proof.
  unfold slen. revert s. induction n as [|n IH]; intros [|a s]; cbn [str_take String.length]; try lia.
  specialize (IH s). lia.
Qed.

Lemma str_drop_length n s : slen (str_drop n s) = Z.max 0 (slen s - Z.of_nat n).
Proof.
  unfold slen. revert s. induction n as [|n IH]; intros [|a s]; cbn [str_drop String.length]; try lia.
  specialize (IH s). lia.
Qed.

Lemma str_slice_length a n s :
  Z.of_nat a + Z.of_nat n <= slen s -> slen (str_slice a n s) = Z.of_nat n.
Proof. intros. unfold str_slice. rewrite str_take_length, str_drop_length. lia. Qed.

Lemma str_all_take p n s : str_all p s = true -> str_all p (str_take n s) = true.
Proof.
  revert s. induction n as [|n IH]; intros [|a s]; cbn [str_take str_all]; try done.
  rewrite !andb_true_iff. intros [? ?]. auto.
Qed.

Lemma str_all_drop p n s : str_all p s = true -> str_all p (str_drop n s) = true.
Proof.
  revert s. induction n as [|n IH]; intros [|a s]; cbn [str_drop str_all]; try done.
  rewrite !andb_true_iff. intros [? ?]. auto.
Qed.

Lemma str_all_slice p a n s : str_all p s = true -> str_all p (str_slice a n s) = true.
Proof. intros. by apply str_all_take, str_all_drop. Qed.

Lemma str_filter_all p s : str_all p (str_filter p s) = true.
Proof.
  induction s as [|a s IH]; [done|]. cbn [str_filter]. destruct (p a) eqn:E; [|exact IH].
  cbn [str_all]. by rewrite E.
Qed.

Lemma str_map_length f s : slen (str_map f s) = slen s.
Proof. unfold slen. f_equal. induction s; simpl; congruence. Qed.

Lemma strip_prefix_app p s : strip_prefix p (p +:+ s) = Some s.
Proof.
  induction p as [|a p IH]; [done|]. change (String a p +:+ s) with (String a (p +:+ s)).
  cbn [strip_prefix]. by rewrite Ascii.eqb_refl.
Qed.

(** *** Splitting on a character *)

Definition no_char (c : ascii) (s : string) : bool := str_all (fun a => negb (Ascii.eqb a c)) s.

Lemma split_on_no_char c s : no_char c s = true -> split_on c s = [s].
Proof.
  unfold no_char. induction s as [|a s IH]; [done|]. cbn [str_all split_on].
  rewrite andb_true_iff, negb_true_iff. intros [-> H]. by rewrite IH.
Qed.

Lemma split_on_app c s t :
  no_char c s = true -> split_on c (s +:+ String c t) = s :: split_on c t.
Proof.
  unfold no_char. induction s as [|a s IH]; intros H.
  - change ("" +:+ String c t) with (String c t). cbn [split_on]. by rewrite Ascii.eqb_refl.
  - cbn [str_all] in H. rewrite andb_true_iff, negb_true_iff in H. destruct H as [Ha Hs].
    change (String a s +:+ String c t) with (String a (s +:+ String c t)).
    cbn [split_on]. by rewrite Ha, (IH Hs).
Qed.

(** The pieces of a split, joined again. *)
Fixpoint join (c : ascii) (l : list string) : string :=
  match l with
  | [] => EmptyString
  | [s] => s
  | s :: l' => s +:+ String c (join c l')
  end.

Lemma split_on_ne c s : split_on c s <> [].
Proof.
  destruct s as [|a s]; [done|]. cbn [split_on]. destruct (Ascii.eqb a c); [done|].
  by destruct (split_on c s).
Qed.

Lemma join_split c s : join c (split_on c s) = s.
Proof.
  induction s as [|a s IH]; [done|]. cbn [split_on].
  pose proof (split_on_ne c s) as Hne.
  destruct (Ascii.eqb a c) eqn:E.
  - apply Ascii.eqb_eq in E as ->. destruct (split_on c s) as [|p ps]; [done|].
    cbn [join] in *. by rewrite IH.
  - destruct (split_on c s) as [|p [|p' ps]]; [done| |].
    + cbn [join] in *. by rewrite IH.
    + cbn [join] in *. by rewrite <- IH.
Qed.

Lemma split_on_pieces c s : Forall (fun p => no_char c p = true) (split_on c s).
Proof.
  induction s as [|a s IH]; [by repeat constructor|]. cbn [split_on].
  destruct (Ascii.eqb a c) eqn:E; [constructor; [done|done]|].
  destruct (split_on c s) as [|p ps]; [constructor; [|constructor]|].
  - unfold no_char. simpl. by rewrite E.
  - apply Forall_cons in IH as [Hp Hps]. constructor; [|done].
    unfold no_char in *. cbn [str_all]. by rewrite E.
Qed.

(** *** Decimal numerals *)

Definition is_digit (a : ascii) : bool := (48 <=? code a) && (code a <=? 57).

Lemma pretty_N_char_digit n : (n < 10)%N -> is_digit (pretty_N_char n) = true.
Proof.
  intros. assert (n ∈ (N.of_nat <$> seq 0 10)) as Hin.
  { apply list_elem_of_fmap. exists (N.to_nat n). split; [lia|]. apply elem_of_seq. lia. }
  repeat (apply elem_of_cons in Hin as [->|Hin]; [reflexivity|]). by apply elem_of_nil in Hin.
Qed.

Lemma pretty_N_go_digits n s :
  str_all is_digit s = true -> str_all is_digit (pretty_N_go n s) = true.
Proof.
  revert s. induction (N.lt_wf_0 n) as [n _ IH]; intros s Hs.
  destruct (decide (n = 0)%N) as [->|Hn]; [by rewrite pretty_N_go_0|].
  rewrite pretty_N_go_step by lia. apply IH; [apply N.div_lt; lia|].
  cbn [str_all]. rewrite pretty_N_char_digit by (apply N.mod_lt; lia). done.
Qed.

Lemma pretty_nonneg_digits (z : Z) : 0 <= z -> str_all is_digit (pretty z) = true.
Proof.
  intros. destruct z as [|p|p]; [reflexivity| |lia].
  unfold pretty, pretty_Z. simpl. unfold pretty, pretty_positive, pretty, pretty_N.
  destruct (decide _); [reflexivity|]. by apply pretty_N_go_digits.
Qed.

Lemma digit_val_char n : (n < 10)%N -> digit_val (pretty_N_char n) = Some (Z.of_N n).
Proof.
  intros Hn. destruct n as [|p]; [reflexivity|].
  do 4 (destruct p as [p|p|]; try reflexivity); lia.
Qed.

Lemma parse_pretty_go max n s :
  Z.of_N n <= max -> parse_digits max 0 (pretty_N_go n s) = parse_digits max (Z.of_N n) s.
Proof.
  revert s. induction (N.lt_wf_0 n) as [n _ IH]. intros s Hn.
  destruct (decide (n = 0)%N) as [->|Hne]; [by rewrite pretty_N_go_0|].
  rewrite pretty_N_go_step by lia. pose proof (N.div_mod n 10 ltac:(lia)) as Hdm.
  pose proof (N.mod_lt n 10 ltac:(lia)) as Hm.
  pose proof (N.div_lt n 10 ltac:(lia) ltac:(lia)) as Hlt.
  rewrite IH; [|done|lia]. cbn [parse_digits]. rewrite digit_val_char by done. simpl.
  replace (Z.of_N (n / 10) * 10 + Z.of_N (n `mod` 10)) with (Z.of_N n)
    by (rewrite Hdm at 1; rewrite N2Z.inj_add, N2Z.inj_mul; lia).
  destruct (Z.leb_spec (Z.of_N n) max); [done|lia].
Qed.

(** A number printed is read back. *)
Lemma parse_pretty max (z : Z) : 0 <= z <= max -> parse_unsigned max (pretty z) = Some z.
Proof.
  intros [Hz Hm]. pose proof (pretty_nonneg_digits z Hz) as Hd.
  assert (Hp : parse_digits max 0 (pretty z) = Some z /\ pretty z <> "").
  { destruct z as [|p|p]; [split; [|by vm_compute]| |lia].
    - change (parse_digits max 0 (pretty 0)) with (if 0 <=? max then Some 0 else None).
      destruct (Z.leb_spec 0 max); [done|lia].
    - unfold pretty, pretty_Z. unfold pretty, pretty_positive, pretty, pretty_N.
      destruct (decide _) as [E|_]; [lia|]. split.
      + by rewrite parse_pretty_go by lia.
      + rewrite pretty_N_go_step by lia. intros E. apply (f_equal (fun s => length (str_bytes s))) in E.
        revert E. generalize (N.pos p `div` 10)%N. intros q.
        assert (Hl : forall n s, (length (str_bytes s) <= length (str_bytes (pretty_N_go n s)))%nat).
        { intros n. induction (N.lt_wf_0 n) as [n _ IH]. intros s.
          destruct (decide (n = 0)%N) as [->|Hne]; [by rewrite pretty_N_go_0|].
          rewrite pretty_N_go_step by lia. etrans; [|apply IH, N.div_lt; lia]. cbn. lia. }
        intros E. specialize (Hl q (String (pretty_N_char (N.pos p `mod` 10)) "")). rewrite E in Hl. cbn in Hl. lia. }
  destruct Hp as [Hp Hne]. unfold parse_unsigned. destruct (pretty z) as [|a s]; [done|].
  destruct (decide (a = "+"%char)) as [->|Ha]; [discriminate Hd|].
  destruct a as [[] [] [] [] [] [] [] []]; try exact Hp; done.
Qed.

Lemma digits_no_char c s :
  is_digit c = false -> str_all is_digit s = true -> no_char c s = true.
Proof.
  intros Hc. apply str_all_impl. intros a Ha. apply negb_true_iff.
  destruct (Ascii.eqb a c) eqn:E; [|done]. apply Ascii.eqb_eq in E. congruence.
Qed.

(** A separator that the tails do not contain splits a string uniquely. *)
Lemma sep_inj c s t s' t' :
  no_char c t = true -> no_char c t' = true ->
  s +:+ String c t = s' +:+ String c t' -> s = s' /\ t = t'.
Proof.
  intros Ht Ht'. revert s'. induction s as [|a s IH]; intros [|a' s'] E.
  - simpl in E. by injection E as ->.
  - exfalso. simpl in E. injection E as <- E. subst t.
    unfold no_char in Ht. rewrite str_all_app in Ht. cbn [str_all] in Ht.
    rewrite Ascii.eqb_refl in Ht. simpl in Ht. by rewrite andb_false_r in Ht.
  - exfalso. simpl in E. injection E as -> E. subst t'.
    unfold no_char in Ht'. rewrite str_all_app in Ht'. cbn [str_all] in Ht'.
    rewrite Ascii.eqb_refl in Ht'. simpl in Ht'. by rewrite andb_false_r in Ht'.
  - simpl in E. injection E as <- E. destruct (IH _ E) as [<- <-]. done.
Qed.

(** ** ASCII text is UTF-8 *)

Definition is_ascii (a : ascii) : bool := code a <=? 127.

Lemma utf8_ascii l : Forall (fun b => in_range 0 127 b = true) l -> utf8_valid l = true.
Proof. induction 1 as [|b l Hb _ IH]; [done|]. cbn [utf8_valid]. by rewrite Hb. Qed.

Lemma ascii_str_ok s : str_all is_ascii s = true -> str_ok s.
Proof.
  intros Hs. unfold str_ok. apply utf8_ascii. induction s as [|a s IH]; [constructor|].
  cbn [str_all] in Hs. apply andb_true_iff in Hs as [Ha Hs]. cbn [str_bytes]. constructor; [|by apply IH].
  unfold in_range. unfold is_ascii, code in Ha. rewrite Ha. rewrite andb_true_r. apply Z.leb_le. lia.
Qed.

Lemma hex_ascii a : is_ascii_hexdigit a = true -> is_ascii a = true.
Proof.
  destruct a as [b0 b1 b2 b3 b4 b5 b6 b7].
  destruct b0, b1, b2, b3, b4, b5, b6, b7; (done || discriminate).
Qed.
