(* ===== verification/Files.v ===== *)
(** * Files and their text

    The files of a host as a map from paths to contents, the ways a write
    ends, paths, lines and white space: what the programs that keep files
    share. *)

From S2P Require Import Prelude Text.

(** ** Files *)

Abbreviation disk := (gmap string string).

(** [std::fs::write] and then [set_permissions]: done; done, but the
    permissions could not be set; not opened; cut short after the file was
    truncated. *)
Inductive write_end : Type := Written | Unprotected | NotOpened | CutShort.

Definition write_file {E} (err : string -> E) (w : write_end) (path text : string) (d : disk)
  : disk * result E unit :=
  match w with
  | Written => (<[path := text]> d, Ok tt)
  | Unprotected => (<[path := text]> d, Err (err "permissions"))
  | NotOpened => (d, Err (err "open"))
  | CutShort => (<[path := ""]> d, Err (err "write"))
  end.

Lemma write_file_other {E} (err : string -> E) w path text d path' :
  path' <> path -> (write_file err w path text d).1 !! path' = d !! path'.
Proof. intros Hne. destruct w; simpl; try done; by apply lookup_insert_ne. Qed.

(** ** Which files a call changes *)

(** States with a disk in them. *)
Class OnDisk (S : Type) := the_disk : S -> disk.
#[export] Instance disk_on_disk : OnDisk disk := fun d => d.
#[export] Instance pair_on_disk {S T} `{OnDisk S} : OnDisk (S * T) := fun s => the_disk s.1.

(** Files of [W] are written at will, those of [C] only where there were none,
    all others are as before. *)
Definition touched (W C : list string) (d d' : disk) : Prop :=
  forall p, p ∉ W -> p ∉ C \/ is_Some (d !! p) -> d' !! p = d !! p.

#[export] Instance touched_preorder W C : PreOrder (touched W C).
Proof.
  split; [done|]. intros d1 d2 d3 H12 H23 p Hw Hc. rewrite <- (H12 p Hw Hc). apply H23; [done|].
  rewrite (H12 p Hw Hc). done.
Qed.

Lemma touched_mono W C W' C' d d' : W ⊆ W' -> C ⊆ C' -> touched W C d d' -> touched W' C' d d'.
Proof. intros HW HC Hm p Hp Hc. apply Hm; set_solver. Qed.

(** A call keeps to its files, however it ends. *)
Definition touches {S E A} `{OnDisk S} (W C : list string) (m : st S E A) : Prop :=
  forall s, touched W C (the_disk s) (the_disk (m s).1).

Create HintDb footprint.

Section footprints.
Context {S E : Type} `{OnDisk S} (W C : list string).

Lemma touches_mono W' C' {A} (m : st S E A) : W ⊆ W' -> C ⊆ C' -> touches W C m -> touches W' C' m.
Proof. intros HW HC Hm s. by eapply touched_mono, Hm. Qed.

(** The disk is not touched at all. *)
Lemma touches_pure {A} (m : st S E A) : (forall s, the_disk (m s).1 = the_disk s) -> touches W C m.
Proof. intros Hm s. by rewrite Hm. Qed.

Lemma touches_bind {A B} (m : st S E A) (k : A -> st S E B) :
  touches W C m -> (forall a, touches W C (k a)) -> touches W C (st_bind m k).
Proof.
  intros Hm Hk s. unfold st_bind. specialize (Hm s). destruct (m s) as [s' [a|e]]; cbn [fst] in *; [|done].
  etransitivity; [exact Hm|apply Hk].
Qed.

(** The value of a result is known afterwards. *)
Lemma touches_bind_lift {A B} (r : result E A) (k : A -> st S E B) :
  (forall a, r = Ok a -> touches W C (k a)) -> touches W C (st_bind (st_lift r) k).
Proof. intros Hk s. unfold st_bind, st_lift. destruct r as [a|e]; [by apply Hk|done]. Qed.

Lemma touches_ret {A} (a : A) : touches W C (st_ret (S := S) (E := E) a).
Proof. by apply touches_pure. Qed.
Lemma touches_fail {A} (e : E) : touches W C (st_fail (S := S) (A := A) e).
Proof. by apply touches_pure. Qed.
Lemma touches_lift {A} (r : result E A) : touches W C (st_lift (S := S) r).
Proof. by apply touches_pure. Qed.
Lemma touches_get : touches W C (st_get (S := S) (E := E)).
Proof. by apply touches_pure. Qed.
Lemma touches_guard c (e : E) : touches W C (st_guard (S := S) c e).
Proof. apply touches_pure. intros s. by destruct c. Qed.
End footprints.

Section file_footprints.
Context {E : Type} (W C : list string).

Lemma touches_write (err : string -> E) w path text :
  path ∈ W -> touches (S := disk) W C (write_file err w path text).
Proof. intros Hin d p Hp _. apply write_file_other. by intros ->. Qed.

Lemma touches_delete path : path ∈ W -> touches W C (st_modify (E := E) (delete path : disk -> disk)).
Proof. intros Hin d p Hp _. cbn. apply lookup_delete_ne. by intros ->. Qed.

Lemma touched_insert path text d :
  path ∈ W \/ (path ∈ C /\ d !! path = None) -> touched W C d (<[path := text]> d).
Proof.
  intros Hin p Hw Hc. apply lookup_insert_ne. intros ->. destruct Hin as [|[Hin Hn]]; [done|].
  destruct Hc as [|Hs]; [done|]. rewrite Hn in Hs. by destruct Hs.
Qed.
End file_footprints.

#[export] Hint Resolve touches_ret touches_fail touches_lift touches_get touches_guard : footprint.

(** A file is one of those listed. *)
Ltac listed := apply (bool_decide_unpack _); exact I.

(** Through the structure of a computation. *)
Ltac touches :=
  repeat first
    [ solve [eauto with footprint]
    | apply touches_write; listed
    | apply touches_delete; listed
    | apply touches_bind; [|intros ?]
    | progress cbv beta zeta
    | match goal with |- touches _ _ (match ?c with _ => _ end) => destruct c end ].

(** [Path::join] on a relative name. *)
Definition path_join (dir name : string) : string :=
  if str_is_empty dir || ends_with dir "/" then dir +:+ name else dir +:+ "/" +:+ name.

(** Names with another last byte are other paths. *)
Lemma path_join_last d n : n <> "" -> last (str_bytes (path_join d n)) = last (str_bytes n).
Proof.
  intros Hn. unfold path_join.
  assert (Hs : forall p, last (str_bytes (p +:+ n)) = last (str_bytes n)).
  { intros p. rewrite str_bytes_app, last_app. destruct n as [|c n]; [done|]. cbn [str_bytes].
    fold (code c). destruct (last (code c :: str_bytes n)) eqn:E; [done|].
    by apply last_None in E. }
  destruct (_ || _); [apply Hs|]. rewrite <- str_app_assoc. apply Hs.
Qed.

Lemma path_join_ne d n d' n' :
  n <> "" -> n' <> "" -> last (str_bytes n) <> last (str_bytes n') -> path_join d n <> path_join d' n'.
Proof. intros Hn Hn' Hl E. apply Hl. by rewrite <- (path_join_last d n), E, path_join_last. Qed.

(** ** Lines *)

Definition newline : ascii := Ascii.ascii_of_nat 10.
Definition carriage_return : ascii := Ascii.ascii_of_nat 13.

(** One trailing carriage return goes with the line break. *)
Fixpoint chomp (s : string) : string :=
  match s with
  | EmptyString => EmptyString
  | String a EmptyString => if Ascii.eqb a carriage_return then EmptyString else s
  | String a s' => String a (chomp s')
  end.

(** [s.lines()]: what follows the last line break is a line unless empty. *)
Fixpoint but_last_empty (l : list string) : list string :=
  match l with
  | [] => []
  | [s] => if str_is_empty s then [] else [s]
  | s :: l' => s :: but_last_empty l'
  end.

Definition str_lines (s : string) : list string := chomp <$> but_last_empty (split_on newline s).

(** ** [str::trim]

    The characters with the Unicode property White_Space, in UTF-8. *)

Definition white_space : list bytes :=
  [[9]; [10]; [11]; [12]; [13]; [32]; [0xC2; 0x85]; [0xC2; 0xA0]; [0xE1; 0x9A; 0x80]] ++
  ((fun i => [0xE2; 0x80; 0x80 + Z.of_nat i]) <$> List.seq 0 11) ++
  [[0xE2; 0x80; 0xA8]; [0xE2; 0x80; 0xA9]; [0xE2; 0x80; 0xAF]; [0xE2; 0x81; 0x9F]; [0xE3; 0x80; 0x80]].

Fixpoint strip_any (ws : list bytes) (l : bytes) : option bytes :=
  match ws with
  | [] => None
  | w :: ws' => if bool_decide (take (length w) l = w) then Some (drop (length w) l) else strip_any ws' l
  end.

Fixpoint strip_all (fuel : nat) (ws : list bytes) (l : bytes) : bytes :=
  match fuel with
  | O => l
  | S fuel' => match strip_any ws l with Some l' => strip_all fuel' ws l' | None => l end
  end.

(** [str::trim_end]. *)
Definition trim_end_ws (s : string) : string :=
  bytes_str (reverse (strip_all (length (str_bytes s)) (reverse <$> white_space) (reverse (str_bytes s)))).

Definition trim (s : string) : string :=
  let front := strip_all (length (str_bytes s)) white_space (str_bytes s) in
  bytes_str (reverse (strip_all (length front) (reverse <$> white_space) (reverse front))).

(** ** Facts *)

Definition starts_none (ws : list bytes) (a : Z) : bool :=
  forallb (fun w => match w with b :: _ => negb (b =? a) | [] => false end) ws.

Lemma strip_any_none ws a l : starts_none ws a = true -> strip_any ws (a :: l) = None.
Proof.
  induction ws as [|w ws IH]; [done|]. cbn [starts_none forallb strip_any].
  rewrite andb_true_iff. intros [Hw Hs]. destruct w as [|b w]; [done|].
  apply negb_true_iff, Z.eqb_neq in Hw. rewrite bool_decide_eq_false_2; [by apply IH|].
  cbn. congruence.
Qed.

Lemma strip_all_none fuel ws l :
  match l with a :: _ => starts_none ws a = true | [] => True end -> ws <> [] ->
  Forall (fun w => w <> []) ws -> strip_all fuel ws l = l.
Proof.
  intros Hl _ Hw. destruct fuel as [|fuel]; [done|]. cbn [strip_all].
  destruct l as [|a l]; [|by rewrite strip_any_none].
  enough (strip_any ws [] = None) as -> by done. clear Hl. induction Hw as [|w ws Hw _ IH]; [done|].
  cbn [strip_any]. rewrite bool_decide_eq_false_2; [done|]. destruct w; [done|]. by cbn.
Qed.

(** A byte of a hexadecimal digit neither starts nor ends white space. *)
Lemma hex_not_white a :
  is_ascii_hexdigit a = true ->
  starts_none white_space (code a) = true /\ starts_none (reverse <$> white_space) (code a) = true.
Proof.
  destruct a as [b0 b1 b2 b3 b4 b5 b6 b7].
  destruct b0, b1, b2, b3, b4, b5, b6, b7; try discriminate; intros _; split; vm_compute; reflexivity.
Qed.

Lemma str_all_last p s b l :
  str_all p s = true -> reverse (str_bytes s) = b :: l -> exists a, code a = b /\ p a = true.
Proof.
  intros Hs Hr. assert (Hin : b ∈ str_bytes s).
  { apply elem_of_reverse. rewrite Hr. by apply elem_of_cons; left. }
  clear Hr. induction s as [|a s IH]; [by apply elem_of_nil in Hin|].
  cbn [str_all] in Hs. apply andb_true_iff in Hs as [Ha Hs].
  cbn [str_bytes] in Hin. apply elem_of_cons in Hin as [->|Hin]; [by exists a|]. by apply IH.
Qed.

Lemma trim_hex s : str_all is_ascii_hexdigit s = true -> trim s = s.
Proof.
  intros Hs. unfold trim.
  assert (Hne : Forall (fun w : bytes => w <> []) white_space)
    by (repeat constructor; discriminate).
  rewrite (strip_all_none _ white_space); [|destruct s as [|a s]; [done|]|done|done].
  2: { cbn [str_all] in Hs. apply andb_true_iff in Hs as [Ha _]. by apply hex_not_white. }
  rewrite strip_all_none; [by rewrite reverse_involutive, bytes_str_bytes| |done|].
  - destruct (reverse (str_bytes s)) as [|b l] eqn:Er; [done|].
    destruct (str_all_last _ _ _ _ Hs Er) as (a & <- & Ha). by apply hex_not_white.
  - repeat constructor; discriminate.
Qed.

(** A line break after a number is white space. *)
Lemma trim_number n : 0 <= n -> trim (pretty n +:+ String newline "") = pretty n.
Proof.
  intros Hn. pose proof (pretty_nonneg_digits n Hn) as Hd.
  assert (Hh : str_all is_ascii_hexdigit (pretty n) = true).
  { eapply str_all_impl; [|exact Hd]. intros a Ha. unfold is_digit in Ha. unfold is_ascii_hexdigit.
    by rewrite Ha. }
  assert (Hne : pretty n <> "").
  { intros E. pose proof (parse_pretty n n ltac:(lia)) as Hp. by rewrite E in Hp. }
  set (s := pretty n) in *. clearbody s. unfold trim. rewrite str_bytes_app.
  rewrite (strip_all_none _ white_space).
  - rewrite reverse_app. cbn [str_bytes reverse rev_append app length]. rewrite length_app. cbn [length].
    replace (length (str_bytes s) + 1)%nat with (S (length (str_bytes s))) by lia.
    cbn [strip_all].
    replace (strip_any (reverse <$> white_space) _) with (Some (reverse (str_bytes s))) by reflexivity.
    rewrite strip_all_none; [by rewrite reverse_involutive, bytes_str_bytes| |done|].
    + destruct (reverse (str_bytes s)) as [|b l] eqn:Er; [done|].
      destruct (str_all_last _ _ _ _ Hh Er) as (a & <- & Ha). by apply hex_not_white.
    + repeat constructor; discriminate.
  - destruct s as [|a s]; [done|]. cbn [str_bytes app]. cbn [str_all] in Hh.
    apply andb_true_iff in Hh as [Ha _]. by apply hex_not_white.
  - done.
  - repeat constructor; discriminate.
Qed.

(** Lines written one after the other are read back. *)
Definition line_ok (s : string) : bool :=
  str_all (fun a => negb (Ascii.eqb a newline) && negb (Ascii.eqb a carriage_return)) s.

Lemma chomp_line s : line_ok s = true -> chomp s = s.
Proof.
  induction s as [|a s IH]; [done|]. unfold line_ok. cbn [str_all]. intros [Ha Hs]%andb_true_iff.
  apply andb_true_iff in Ha as [_ Ha]. apply negb_true_iff in Ha. cbn [chomp].
  destruct s; [by rewrite Ha|]. by rewrite IH.
Qed.

Lemma line_no_newline s : line_ok s = true -> no_char newline s = true.
Proof. apply str_all_impl. intros a [H _]%andb_true_iff. exact H. Qed.

Fixpoint write_lines (l : list string) : string :=
  match l with [] => "" | s :: l' => s +:+ String newline (write_lines l') end.

Lemma str_lines_written l : Forall (fun s => line_ok s = true) l -> str_lines (write_lines l) = l.
Proof.
  unfold str_lines. induction 1 as [|s l Hs Hl IH]; [done|]. cbn [write_lines].
  rewrite split_on_app by by apply line_no_newline.
  pose proof (split_on_ne newline (write_lines l)) as Hne. cbn [but_last_empty].
  destruct (split_on newline (write_lines l)) as [|p ps] eqn:E; [done|].
  rewrite fmap_cons, chomp_line by done. by rewrite IH.
Qed.
