(* ===== verification/Threads.v ===== *)
(** * Handlers that run side by side

    A handler as the sequence of its critical sections, so that those of others
    can come between: each changes the shared state at once.  A lock that is held
    over several of them, or while a peer is sent something, is taken for reading
    or for writing and given back; what is sent is there when the peer takes it,
    which may be never.  A configuration is a shared state, who is inside which
    lock, and the threads; a schedule says whose turn it is.  Here are the rules
    to prove something of every schedule from the single sections
    ([play_every]), that every fair run settles ([run_settles]), whoever does not
    read, and that who waits for a lock that is not given back gets nowhere
    ([stalled]). *)

From S2P Require Import Prelude.

Inductive access : Type := Reading | Writing.

(** Readers are let in together. *)
Definition both (a b : access) : bool := match a, b with Reading, Reading => true | _, _ => false end.

Section threads.
Context {L S E : Type} `{EqDecision L}.

(** [Act u k]: the state becomes [u s], and [k s] is what is left to do.
    [Send p]: then the peer has taken what was sent. *)
Inductive prog (A : Type) : Type :=
| Ret (r : result E A)
| Act (u : S -> S) (k : S -> prog A)
| Lock (l : L) (a : access) (p : prog A)
| Unlock (l : L) (p : prog A)
| Send (p : prog A).

#[global] Arguments Ret {A} r.
#[global] Arguments Act {A} u k.
#[global] Arguments Lock {A} l a p.
#[global] Arguments Unlock {A} l p.
#[global] Arguments Send {A} p.

(** One critical section. *)
Definition atom {A} (m : st S E A) : prog A := Act (fun s => (m s).1) (fun s => Ret (m s).2).

(** What follows, whatever the outcome. *)
Fixpoint after {A B} (p : prog A) (k : result E A -> prog B) : prog B :=
  match p with
  | Ret r => k r
  | Act u q => Act u (fun s => after (q s) k)
  | Lock l a p => Lock l a (after p k)
  | Unlock l p => Unlock l (after p k)
  | Send p => Send (after p k)
  end.

(** What follows a success; an error ends it. *)
Definition then_ {A B} (p : prog A) (k : A -> prog B) : prog B :=
  after p (fun r => match r with Ok a => k a | Err e => Ret (Err e) end).

(** Under a lock: it is given back however it ends. *)
Definition locked {A} (l : L) (a : access) (p : prog A) : prog A := Lock l a (after p (fun r => Unlock l (Ret r))).

(** Nobody else runs. *)
Fixpoint alone {A} (p : prog A) : st S E A := fun s =>
  match p with
  | Ret r => (s, r)
  | Act u k => alone (k s) (u s)
  | Lock _ _ p | Unlock _ p | Send p => alone p s
  end.

Lemma alone_atom {A} (m : st S E A) s : alone (atom m) s = m s.
Proof. cbn. by destruct (m s). Qed.

Lemma alone_after {A B} (p : prog A) (k : result E A -> prog B) : forall s,
  alone (after p k) s = alone (k (alone p s).2) (alone p s).1.
Proof. induction p as [r|u q IH|l a p IH|l p IH|p IH]; intros s; cbn; [done|by rewrite IH..]. Qed.

Lemma alone_then {A B} (p : prog A) (k : A -> prog B) s :
  alone (then_ p k) s = st_bind (alone p) (fun a => alone (k a)) s.
Proof. unfold then_, st_bind. rewrite alone_after. by destruct (alone p s) as [s' [a|e]]. Qed.

Lemma alone_locked {A} l a (p : prog A) s : alone (locked l a p) s = alone p s.
Proof. unfold locked. cbn [alone]. rewrite alone_after. cbn. by destruct (alone p s). Qed.

(** ** Handlers out of sections *)

Definition ret {A} (a : A) : prog A := Ret (Ok a).
Definition fail {A} (e : E) : prog A := Ret (Err e).
Definition guard (c : bool) (e : E) : prog unit := if c then ret tt else fail e.

(** The last thing: a reply that is sent. *)
Definition answer {A} (a : A) : prog A := Send (ret a).
Definition ask {A} (f : S -> A) : prog A := atom (fun s => (s, Ok (f s))).
Definition change_to (f : S -> S) : prog unit := atom (st_modify f).

(** A handler that runs alone is this method. *)
Definition same {A} (p : prog A) (m : st S E A) : Prop := forall s, alone p s = m s.

Lemma same_ret {A} (r : result E A) : same (Ret r) (st_lift r).
Proof. done. Qed.
Lemma same_ok {A} (a : A) : same (ret a) (st_ret a).
Proof. done. Qed.
Lemma same_fail {A} e : same (A := A) (fail e) (st_fail e).
Proof. done. Qed.
Lemma same_guard c e : same (guard c e) (st_guard c e).
Proof. by destruct c. Qed.
Lemma same_atom {A} (m : st S E A) : same (atom m) m.
Proof. intros s. apply alone_atom. Qed.
Lemma same_change f : same (change_to f) (st_modify f).
Proof. apply same_atom. Qed.
Lemma same_answer {A} (a : A) : same (answer a) (st_ret a).
Proof. done. Qed.
Lemma same_locked {A} l a (p : prog A) m : same p m -> same (locked l a p) m.
Proof. intros Hp s. by rewrite alone_locked. Qed.
Lemma same_then {A B} (p : prog A) m (k : A -> prog B) k' :
  same p m -> (forall a, same (k a) (k' a)) -> same (then_ p k) (st_bind m k').
Proof.
  intros Hp Hk s. rewrite alone_then. unfold st_bind. rewrite Hp. destruct (m s) as [s' [a|e]]; [apply Hk|done].
Qed.
Lemma alone_ask {A B} (f : S -> A) (k : A -> prog B) s : alone (then_ (ask f) k) s = alone (k (f s)) s.
Proof. rewrite alone_then. unfold st_bind, ask. by rewrite alone_atom. Qed.
Lemma same_ask {A B} (f : S -> A) (k : A -> prog B) m :
  (forall s, alone (k (f s)) s = m s) -> same (then_ (ask f) k) m.
Proof. intros Hk s. rewrite alone_ask. apply Hk. Qed.

(** ** Schedules *)

(** [inside]: who holds which lock, and how. *)
Record config (A : Type) : Type := mkConfig {
  shared : S; inside : list (nat * L * access); pool : list (prog A) }.
#[global] Arguments mkConfig {A} _ _ _.
#[global] Arguments shared {A} _.
#[global] Arguments inside {A} _.
#[global] Arguments pool {A} _.

Definition start {A} (s : S) (ps : list (prog A)) : config A := mkConfig s [] ps.

(** A writer enters when nobody is inside, a reader when no writer is. *)
Definition may_enter (l : L) (a : access) (ins : list (nat * L * access)) : bool :=
  forallb (fun e => negb (bool_decide (e.1.2 = l)) || both a e.2) ins.

Definition leave (i : nat) (l : L) (ins : list (nat * L * access)) : list (nat * L * access) :=
  List.filter (fun e => negb (Nat.eqb e.1.1 i && bool_decide (e.1.2 = l))) ins.

(** The turn of thread [i]: [None] if it has ended, or waits for a lock. *)
Definition advance {A} (i : nat) (c : config A) : option (config A) :=
  p ← pool c !! i;
  match p with
  | Ret _ => None
  | Act u k => Some (mkConfig (u (shared c)) (inside c) (<[i := k (shared c)]> (pool c)))
  | Lock l a p => if may_enter l a (inside c)
                  then Some (mkConfig (shared c) ((i, l, a) :: inside c) (<[i := p]> (pool c)))
                  else None
  | Unlock l p => Some (mkConfig (shared c) (leave i l (inside c)) (<[i := p]> (pool c)))
  | Send p => Some (mkConfig (shared c) (inside c) (<[i := p]> (pool c)))
  end.

(** A turn that cannot be taken is passed on. *)
Definition turn {A} (c : config A) (i : nat) : config A := opt_or (advance i c) c.

Definition play {A} (sched : list nat) (c : config A) : config A := foldl turn c sched.

(** The outcome of a thread that has ended. *)
Definition outcome {A} (i : nat) (c : config A) : option (result E A) :=
  match pool c !! i with Some (Ret r) => Some r | _ => None end.

Definition finished {A} (c : config A) : Prop := Forall (fun p => exists r, p = Ret r) (pool c).

Lemma play_snoc {A} sched i (c : config A) : play (sched ++ [i]) c = turn (play sched c) i.
Proof. apply foldl_snoc. Qed.

(** ** What every section does *)

(** As long as the state satisfies [G], the sections make steps of [R], and the
    outcome satisfies [Q]. *)
Inductive every {A} (G : S -> Prop) (R : S -> S -> Prop) (Q : result E A -> Prop) : prog A -> Prop :=
| every_ret r : Q r -> every G R Q (Ret r)
| every_act u k :
    (forall s, G s -> R s (u s)) -> (forall s, G s -> every G R Q (k s)) -> every G R Q (Act u k)
| every_lock l a p : every G R Q p -> every G R Q (Lock l a p)
| every_unlock l p : every G R Q p -> every G R Q (Unlock l p)
| every_send p : every G R Q p -> every G R Q (Send p).

Lemma every_atom {A} (G : S -> Prop) (R : S -> S -> Prop) (Q : result E A -> Prop) (m : st S E A) :
  (forall s, G s -> R s (m s).1) -> (forall s, G s -> Q (m s).2) -> every G R Q (atom m).
Proof. intros HR HQ. constructor; [done|]. intros s Hs. constructor. by apply HQ. Qed.

Lemma every_after {A B} (G : S -> Prop) (R : S -> S -> Prop) (Q : result E A -> Prop) (Q' : result E B -> Prop) p k :
  every G R Q p -> (forall r, Q r -> every G R Q' (k r)) -> every G R Q' (after p k).
Proof. intros Hp Hk. induction Hp; cbn [after]; [by apply Hk|by constructor..]. Qed.

Lemma every_then {A B} (G : S -> Prop) (R : S -> S -> Prop) (Q : result E A -> Prop) (Q' : result E B -> Prop)
    (p : prog A) (k : A -> prog B) :
  every G R Q p -> (forall a, Q (Ok a) -> every G R Q' (k a)) -> (forall e, Q (Err e) -> Q' (Err e)) ->
  every G R Q' (then_ p k).
Proof.
  intros Hp Hk He. eapply every_after; [exact Hp|]. intros [a|e] Hr; [by apply Hk|]. constructor. by apply He.
Qed.

Lemma every_locked {A} (G : S -> Prop) (R : S -> S -> Prop) (Q : result E A -> Prop) l a (p : prog A) :
  every G R Q p -> every G R Q (locked l a p).
Proof. intros Hp. constructor. eapply every_after; [exact Hp|]. intros r Hr. by repeat constructor. Qed.

Lemma every_impl {A} (G : S -> Prop) (R R' : S -> S -> Prop) (Q Q' : result E A -> Prop) p :
  (forall s s', R s s' -> R' s s') -> (forall r, Q r -> Q' r) -> every G R Q p -> every G R' Q' p.
Proof. intros HR HQ Hp. induction Hp; constructor; auto. Qed.

(** A turn makes one such step. *)
Lemma turn_every {A} (G : S -> Prop) (R : S -> S -> Prop) (Q : result E A -> Prop) i (c : config A) :
  G (shared c) -> Forall (every G R Q) (pool c) ->
  (R (shared c) (shared (turn c i)) \/ shared (turn c i) = shared c) /\ Forall (every G R Q) (pool (turn c i)).
Proof.
  intros HG Hall. unfold turn, advance. destruct (pool c !! i) as [p|] eqn:Ei; [|by split; [right|]].
  cbn [mbind option_bind]. pose proof (Forall_lookup_1 _ _ _ _ Hall Ei) as Hp.
  destruct Hp as [r Hr|u k HR Hk|l a p Hp|l p Hp|p Hp]; cbn [opt_or]; [by split; [right|]|..].
  - split; [left; by apply HR|]. apply Forall_insert; [done|by apply Hk].
  - destruct (may_enter _ _ _); [|by split; [right|]]. split; [by right|]. by apply Forall_insert.
  - split; [by right|]. by apply Forall_insert.
  - split; [by right|]. by apply Forall_insert.
Qed.

(** So does every schedule, as long as the state stays good. *)
Lemma play_every {A} (G : S -> Prop) (R : S -> S -> Prop) (Q : result E A -> Prop) sched : forall (c : config A),
  (forall n, G (shared (play (take n sched) c))) -> Forall (every G R Q) (pool c) ->
  rtc R (shared c) (shared (play sched c)) /\ Forall (every G R Q) (pool (play sched c)).
Proof.
  induction sched as [|i sched IH]; intros c HG Hall; [by split|]. cbn [play foldl].
  destruct (turn_every G R Q i c (HG 0%nat) Hall) as [Hs Hall'].
  destruct (IH (turn c i) (fun n => HG (Datatypes.S n)) Hall') as [Hr Hp]. split; [|exact Hp].
  destruct Hs as [Hs|Hs]; [by eapply rtc_l|by rewrite <- Hs].
Qed.

Lemma play_always {A} (R : S -> S -> Prop) sched (c : config A) :
  Forall (every (fun _ => True) R (fun _ => True)) (pool c) -> rtc R (shared c) (shared (play sched c)).
Proof. intros Hall. by apply (play_every (fun _ => True) R (fun _ => True)). Qed.

(** ** One lock at a time *)

(** Nothing but sections, and what is sent if [ok]. *)
Inductive unlocked {A} (ok : Prop) : prog A -> Prop :=
| un_ret r : unlocked ok (Ret r)
| un_act u k : (forall s, unlocked ok (k s)) -> unlocked ok (Act u k)
| un_send p : ok -> unlocked ok p -> unlocked ok (Send p).

(** A lock is taken when none is held, given back when it is, and given back in
    the end.  Something is sent under a lock only if [ok] says so. *)
Inductive bracketed {A} (ok : L -> Prop) : option (L * access) -> prog A -> Prop :=
| br_ret r : bracketed ok None (Ret r)
| br_act h u k : (forall s, bracketed ok h (k s)) -> bracketed ok h (Act u k)
| br_lock l a p : bracketed ok (Some (l, a)) p -> bracketed ok None (Lock l a p)
| br_unlock l a p : bracketed ok None p -> bracketed ok (Some (l, a)) (Unlock l p)
| br_send h p : (forall l a, h = Some (l, a) -> ok l) -> bracketed ok h p -> bracketed ok h (Send p).

Section rules.
Context (P : Prop) (ok : L -> Prop).

Lemma bracketed_ret {A} (r : result E A) : bracketed ok None (Ret r).
Proof. constructor. Qed.
Lemma unlocked_atom {A} (m : st S E A) : unlocked P (atom m).
Proof. constructor. intros s. constructor. Qed.
Lemma unlocked_after {A B} (p : prog A) (k : result E A -> prog B) :
  unlocked P p -> (forall r, unlocked P (k r)) -> unlocked P (after p k).
Proof. intros Hp Hk. induction Hp; cbn [after]; [apply Hk|by constructor..]. Qed.
Lemma unlocked_then {A B} (p : prog A) (k : A -> prog B) :
  unlocked P p -> (forall a, unlocked P (k a)) -> unlocked P (then_ p k).
Proof. intros Hp Hk. apply unlocked_after; [done|]. intros [a|e]; [apply Hk|constructor]. Qed.
Lemma bracketed_atom {A} (m : st S E A) : bracketed ok None (atom m).
Proof. constructor. intros s. constructor. Qed.

Lemma bracketed_after {A B} h (p : prog A) (k : result E A -> prog B) :
  bracketed ok h p -> (forall r, bracketed ok None (k r)) -> bracketed ok h (after p k).
Proof. intros Hp Hk. induction Hp; cbn [after]; [apply Hk|by constructor..]. Qed.
Lemma bracketed_then {A B} (p : prog A) (k : A -> prog B) :
  bracketed ok None p -> (forall a, bracketed ok None (k a)) -> bracketed ok None (then_ p k).
Proof. intros Hp Hk. apply bracketed_after; [done|]. intros [a|e]; [apply Hk|constructor]. Qed.
Lemma bracketed_locked {A} l a (p : prog A) : unlocked (ok l) p -> bracketed ok None (locked l a p).
Proof.
  intros Hp. constructor. induction Hp; cbn [after]; [by repeat constructor|by constructor|].
  constructor; [|done]. by intros l' a' [= <- <-].
Qed.

Lemma brackets_guard c e : bracketed ok None (guard c e).
Proof. unfold guard, ret, fail. destruct c; constructor. Qed.
Lemma brackets_change f : bracketed ok None (change_to f).
Proof. apply bracketed_atom. Qed.
Lemma free_change f : unlocked P (change_to f).
Proof. apply unlocked_atom. Qed.
Lemma free_guard c e : unlocked P (guard c e).
Proof. unfold guard, ret, fail. destruct c; constructor. Qed.
Lemma brackets_ask {A} (f : S -> A) : bracketed ok None (ask f).
Proof. apply bracketed_atom. Qed.
Lemma free_ask {A} (f : S -> A) : unlocked P (ask f).
Proof. apply unlocked_atom. Qed.
Lemma brackets_ret {A} (a : A) : bracketed ok None (ret a).
Proof. constructor. Qed.
Lemma brackets_send {A} (p : prog A) : bracketed ok None p -> bracketed ok None (Send p).
Proof. by constructor. Qed.
Lemma brackets_answer {A} (a : A) : bracketed ok None (answer a).
Proof. by repeat constructor. Qed.
Lemma free_answer {A} (a : A) : P -> unlocked P (answer a).
Proof. intros HP. by repeat constructor. Qed.
End rules.

(** Who is inside a lock is inside this one, and has yet to give it back. *)
Definition orderly {A} (oks : nat -> L -> Prop) (c : config A) : Prop :=
  (forall i p, pool c !! i = Some p ->
     exists h, bracketed (oks i) h p /\ forall l a, (i, l, a) ∈ inside c <-> h = Some (l, a)) /\
  (forall i l a, (i, l, a) ∈ inside c -> is_Some (pool c !! i)).

Lemma start_orderly {A} oks s (ps : list (prog A)) :
  (forall i p, ps !! i = Some p -> bracketed (oks i) None p) -> orderly oks (start s ps).
Proof.
  intros Hp. split; cbn [start pool inside]; [|by intros i l a ?%elem_of_nil].
  intros i p Hi. exists None. split; [by apply Hp|]. intros l a. by rewrite elem_of_nil.
Qed.

Lemma orderly_insert {A} oks s s' ins ins' i p' h' (ps : list (prog A)) :
  orderly oks (mkConfig s ins ps) -> is_Some (ps !! i) -> bracketed (oks i) h' p' ->
  (forall l a, (i, l, a) ∈ ins' <-> h' = Some (l, a)) ->
  (forall j l a, j <> i -> (j, l, a) ∈ ins' <-> (j, l, a) ∈ ins) ->
  orderly oks (mkConfig s' ins' (<[i := p']> ps)).
Proof.
  intros [Hb Hh] [p Hi] Hp' Hown Hother. cbn [pool inside] in *.
  assert (Hl : (i < length ps)%nat) by (by eapply lookup_lt_Some). split; cbn [pool inside].
  - intros j q. destruct (decide (j = i)) as [->|Hne].
    + rewrite list_lookup_insert_eq by done. intros [= <-]. by exists h'.
    + rewrite list_lookup_insert_ne by done. intros Hq. destruct (Hb j q Hq) as (h & Hq' & Hi').
      exists h. split; [done|]. intros l a. by rewrite Hother.
  - intros j l a Hj. destruct (decide (j = i)) as [->|Hne]; [rewrite list_lookup_insert_eq by done; by eexists|].
    rewrite list_lookup_insert_ne by done. apply Hother in Hj; [|done]. by eapply Hh.
Qed.

Lemma elem_of_leave i l ins j l' a : (j, l', a) ∈ leave i l ins <-> (j, l', a) ∈ ins /\ ~ (j = i /\ l' = l).
Proof.
  unfold leave. rewrite !list_elem_of_In, List.filter_In. cbn [fst snd].
  rewrite negb_true_iff, andb_false_iff, Nat.eqb_neq, bool_decide_eq_false. split.
  - intros [Hin Hn]. split; [done|]. intros [-> ->]. by destruct Hn.
  - intros [Hin Hn]. split; [done|]. destruct (decide (j = i)) as [->|]; [right|by left]. intros ->. by apply Hn.
Qed.

Lemma advance_orderly {A} oks i (c c' : config A) : orderly oks c -> advance i c = Some c' -> orderly oks c'.
Proof.
  destruct c as [s ins ps]. intros Ho. unfold advance. cbn [pool shared inside].
  destruct (ps !! i) as [p|] eqn:Ei; [|done]. cbn [mbind option_bind].
  destruct (proj1 Ho i p Ei) as (h & Hp & Hown). cbn [inside] in Hown.
  assert (Hsome : is_Some (ps !! i)) by by eexists.
  destruct p as [r|u k|l a p|l p|p]; [done|..].
  - intros [= <-]. inversion Hp; subst. by eapply orderly_insert.
  - destruct (may_enter _ _ _); [|done]. intros [= <-]. inversion Hp; subst.
    eapply orderly_insert; [exact Ho|done|done|..].
    + intros l' a'. rewrite elem_of_cons, Hown. split; [intros [[= -> ->]|?]; done|intros [= -> ->]; by left].
    + intros j l' a' Hne. rewrite elem_of_cons. split; [intros [[= -> -> ->]|?]; done|by right].
  - intros [= <-]. inversion Hp as [| | |? a ? Hp'|]; subst.
    eapply orderly_insert; [exact Ho|done|done|..].
    + intros l' a'. rewrite elem_of_leave, Hown. split; [|done]. intros [[= -> ->] Hn]. by destruct Hn.
    + intros j l' a' Hne. rewrite elem_of_leave. split; [by intros [? _]|]. intros Hin. split; [done|]. by intros [-> _].
  - intros [= <-]. inversion Hp; subst. by eapply orderly_insert.
Qed.

Lemma play_orderly {A} oks sched (c : config A) : orderly oks c -> orderly oks (play sched c).
Proof.
  revert c. induction sched as [|i sched IH]; intros c Ho; [done|]. cbn [play foldl]. apply IH.
  unfold turn. destruct (advance i c) as [c'|] eqn:Ea; [|done]. by eapply advance_orderly.
Qed.

(** ** Peers that do not read *)

(** The turn of [i] has to come: it is inside a section or gives a lock back, it
    waits for a lock nobody is inside, or its peer reads. *)
Definition due {A} (deaf : nat -> bool) (c : config A) (i : nat) : bool :=
  match pool c !! i with
  | Some (Act _ _) | Some (Unlock _ _) => true
  | Some (Lock l _ _) => may_enter l Writing (inside c)
  | Some (Send _) => negb (deaf i)
  | Some (Ret _) | None => false
  end.

Definition at_send {A} (i : nat) (c : config A) : Prop := exists p, pool c !! i = Some (Send p).
Definition waits_for {A} (i : nat) (l : L) (c : config A) : Prop := exists a p, pool c !! i = Some (Lock l a p).
Definition holds {A} (i : nat) (l : L) (c : config A) : Prop := exists a, (i, l, a) ∈ inside c.

(** Ended, or not read by its peer, or behind a lock whose holder is not read. *)
Definition settled {A} (oks : nat -> L -> Prop) (deaf : nat -> bool) (c : config A) (i : nat) : Prop :=
  (exists r, outcome i c = Some r) \/
  (deaf i = true /\ at_send i c) \/
  (exists l j, waits_for i l c /\ deaf j = true /\ at_send j c /\ holds j l c /\ oks j l).

Lemma may_enter_Writing l ins : may_enter l Writing ins = false -> exists i a, (i, l, a) ∈ ins.
Proof.
  unfold may_enter. induction ins as [|[[i l'] a] ins IH]; [done|]. cbn [forallb fst snd both].
  rewrite orb_false_r. destruct (bool_decide_reflect (l' = l)) as [->|_]; cbn [negb andb].
  - intros _. exists i, a. by left.
  - intros Hf. destruct (IH Hf) as (j & b & Hin). exists j, b. by right.
Qed.

(** If nobody's turn has to come, everybody is settled. *)
Lemma orderly_settled {A} oks deaf (c : config A) :
  orderly oks c -> (forall i, due deaf c i = false) -> forall i, is_Some (pool c !! i) -> settled oks deaf c i.
Proof.
  intros [Hb Hh] Hdue i [p Hi]. pose proof (Hdue i) as Hd. unfold due in Hd. rewrite Hi in Hd.
  unfold settled, outcome, at_send, waits_for. rewrite Hi.
  destruct p as [r|u k|l a p|l p|p]; try done; [by left; eexists| |right; left; split; [by apply negb_false_iff|by eexists]].
  right; right. apply may_enter_Writing in Hd as (j & b & Hin). exists l, j.
  destruct (Hh j l b Hin) as [q Hq]. destruct (Hb j q Hq) as (h & Hbr & Hown). apply Hown in Hin as Eh.
  pose proof (Hdue j) as Hdj. unfold due in Hdj. rewrite Hq in Hdj. subst h.
  inversion Hbr as [| | | |? q' Hok Hbr']; subst; try done.
  split_and!; [by eexists _, _|by apply negb_false_iff|by eexists|by exists b|by eapply Hok].
Qed.

(** What is left to do after one turn. *)
Definition child {A} (q p : prog A) : Prop :=
  match p with Ret _ => False | Act _ k => exists s, q = k s | Lock _ _ p | Unlock _ p | Send p => q = p end.

Lemma child_acc {A} (p : prog A) : Acc child p.
Proof.
  induction p as [r|u k IH|l a p IH|l p IH|p IH]; constructor; intros q; cbn [child]; [done|..].
  - by intros [s ->].
  - by intros ->.
  - by intros ->.
  - by intros ->.
Qed.

Definition moved {A} (qs ps : list (prog A)) : Prop :=
  exists i p q, ps !! i = Some p /\ child q p /\ qs = <[i := q]> ps.

Lemma moved_acc {A} (ps : list (prog A)) : Acc moved ps.
Proof.
  induction ps as [|p ps IH].
  { constructor. intros qs (i & p & q & Hi & _). by rewrite lookup_nil in Hi. }
  pose proof (child_acc p) as Hp. revert ps IH.
  induction Hp as [p _ IHp]. intros ps Hps. induction Hps as [ps Hps IHps]. constructor.
  intros qs (i & p0 & q & Hi & Hq & ->). destruct i as [|i]; cbn in Hi |- *.
  - injection Hi as ->. apply IHp; [done|by constructor].
  - apply IHps. by exists i, p0, q.
Qed.

(** ** Part of a program, with nobody in between *)

(** Nobody else is inside a lock; [h] is the one this thread is inside. *)
Inductive runs {A} : option (L * access) -> S -> prog A -> option (L * access) -> S -> prog A -> Prop :=
| runs_here h s p : runs h s p h s p
| runs_act h s u k h' s' q : runs h (u s) (k s) h' s' q -> runs h s (Act u k) h' s' q
| runs_lock s l a p h' s' q : runs (Some (l, a)) s p h' s' q -> runs None s (Lock l a p) h' s' q
| runs_unlock s l a p h' s' q : runs None s p h' s' q -> runs (Some (l, a)) s (Unlock l p) h' s' q
| runs_send h s p h' s' q : runs h s p h' s' q -> runs h s (Send p) h' s' q.

Lemma runs_trans {A} h1 h2 h3 s1 s2 s3 (p q r : prog A) :
  runs h1 s1 p h2 s2 q -> runs h2 s2 q h3 s3 r -> runs h1 s1 p h3 s3 r.
Proof. intros Hp Hq. induction Hp; [done|constructor; by apply IHHp..]. Qed.

Lemma runs_after {A B} ok h (p : prog A) (k : result E A -> prog B) s :
  bracketed ok h p -> runs h s (after p k) None (alone p s).1 (k (alone p s).2).
Proof.
  intros Hp. revert s. induction Hp as [r|h u q _ IH|l a p _ IH|l a p _ IH|h p _ _ IH]; intros s; cbn;
    constructor; apply IH.
Qed.

Lemma runs_then {A B} ok (p : prog A) (k : A -> prog B) s s' a :
  bracketed ok None p -> alone p s = (s', Ok a) -> runs None s (then_ p k) None s' (k a).
Proof.
  intros Hp Ha.
  pose proof (runs_after ok None p (fun r => match r with Ok a => k a | Err e => Ret (Err e) end) s Hp) as Hr.
  by rewrite Ha in Hr.
Qed.

Lemma runs_in {A B} h h' (p q : prog A) (k : result E A -> prog B) s s' :
  runs h s p h' s' q -> runs h s (after p k) h' s' (after q k).
Proof. induction 1; cbn; by constructor. Qed.

Lemma runs_then_after {A B C} ok (p : prog A) (k : A -> prog B) (k' : result E B -> prog C) s s' a :
  bracketed ok None p -> alone p s = (s', Ok a) -> runs None s (after (then_ p k) k') None s' (after (k a) k').
Proof. intros Hp Ha. by eapply runs_in, runs_then. Qed.

Lemma runs_end {A} ok (p : prog A) s :
  bracketed ok None p -> runs None s p None (alone p s).1 (Ret (alone p s).2).
Proof.
  intros Hp. remember None as h eqn:Eh. assert (Hg : runs h s p None (alone p s).1 (Ret (alone p s).2)); [|by subst h].
  clear Eh. revert s. induction Hp as [r|h u q _ IH|l a p _ IH|l a p _ IH|h p _ _ IH]; intros s; cbn;
    constructor; apply IH.
Qed.

Lemma runs_alone {A} h s (p : prog A) h' s' q : runs h s p h' s' q -> alone p s = alone q s'.
Proof. by induction 1. Qed.

(** Then some schedule does it. *)
Definition mine (i : nat) (h : option (L * access)) : list (nat * L * access) :=
  match h with Some (l, a) => [(i, l, a)] | None => [] end.

Lemma runs_play {A} i h s (p : prog A) h' s' q : runs h s p h' s' q -> forall ps, ps !! i = Some p ->
  exists sched, play sched (mkConfig s (mine i h) ps) = mkConfig s' (mine i h') (<[i := q]> ps).
Proof.
  assert (Hstep : forall s ins ps p s1 ins1 p1 h' s' q,
    ps !! i = Some p -> advance i (mkConfig s ins ps) = Some (mkConfig s1 ins1 (<[i := p1]> ps)) ->
    (forall ps, ps !! i = Some p1 ->
      exists sched, play sched (mkConfig s1 ins1 ps) = mkConfig s' (mine i h') (<[i := q]> ps)) ->
    exists sched, play sched (mkConfig (A := A) s ins ps) = mkConfig s' (mine i h') (<[i := q]> ps)).
  { intros s1 ins ps p1 s2 ins2 p2 h2 s3 q3 Hi Ha Hq. destruct (Hq (<[i := p2]> ps)) as [sched Hs].
    { apply list_lookup_insert_eq. by eapply lookup_lt_Some. }
    exists (i :: sched). change (play (i :: sched) ?c) with (play sched (turn c i)).
    unfold turn. rewrite Ha. cbn [opt_or]. by rewrite Hs, list_insert_insert_eq. }
  induction 1 as [h s p|h s u k h' s' q _ IH|s l a p h' s' q _ IH|s l a p h' s' q _ IH|h s p h' s' q _ IH];
    intros ps Hi.
  - exists []. cbn. by rewrite list_insert_id.
  - eapply Hstep; [exact Hi| |exact IH]. unfold advance. cbn [pool shared inside]. by rewrite Hi.
  - eapply Hstep; [exact Hi| |exact IH]. unfold advance. cbn [pool shared inside]. by rewrite Hi.
  - eapply Hstep; [exact Hi| |exact IH]. unfold advance. cbn [pool shared inside]. rewrite Hi. cbn.
    by rewrite Nat.eqb_refl, bool_decide_eq_true_2.
  - eapply Hstep; [exact Hi| |exact IH]. unfold advance. cbn [pool shared inside]. by rewrite Hi.
Qed.

Lemma play_app {A} (l l' : list nat) (c : config A) : play (l ++ l') c = play l' (play l c).
Proof. apply foldl_app. Qed.

(** No run of turns goes on for ever. *)
Definition next {A} (c' c : config A) : Prop := exists i, advance i c = Some c'.

Lemma next_moved {A} (c c' : config A) : next c' c -> moved (pool c') (pool c).
Proof.
  intros [i Ha]. unfold advance in Ha. destruct (pool c !! i) as [p|] eqn:Ei; [|done]. cbn [mbind option_bind] in Ha.
  exists i, p. destruct p as [r|u k|l a q|l q|q]; [done|..].
  - injection Ha as <-. eexists. split_and!; [done|by eexists|done].
  - destruct (may_enter _ _ _); [|done]. injection Ha as <-. eexists. by split_and!.
  - injection Ha as <-. eexists. by split_and!.
  - injection Ha as <-. eexists. by split_and!.
Qed.

Lemma next_acc {A} (c : config A) : Acc next c.
Proof.
  remember (pool c) as ps eqn:Ep. revert c Ep. induction (moved_acc ps) as [ps _ IH].
  intros c ->. constructor. intros c' Hc. by apply (IH (pool c')); [apply next_moved|].
Qed.
(** ** Fair runs *)

(** A run of turns in which nobody is passed over for ever whose turn has to
    come: at some later moment it no longer has to, or it comes. *)
Record fair_run {A} (deaf : nat -> bool) (r : nat -> config A) : Prop := {
  run_step n : r (Datatypes.S n) = r n \/ exists i, advance i (r n) = Some (r (Datatypes.S n));
  run_fair n i : exists m, (n <= m)%nat /\
    (due deaf (r m) i = false \/ advance i (r m) = Some (r (Datatypes.S m))) }.

Lemma run_orderly {A} oks deaf (r : nat -> config A) n : fair_run deaf r -> orderly oks (r 0%nat) -> orderly oks (r n).
Proof.
  intros Hr H0. induction n as [|n IH]; [done|].
  destruct (run_step _ _ Hr n) as [->|[i Ha]]; [done|]. by eapply advance_orderly.
Qed.

Lemma length_advance {A} i (c c' : config A) : advance i c = Some c' -> length (pool c') = length (pool c).
Proof.
  unfold advance. destruct (pool c !! i) as [[r|u k|l a p|l p|p]|]; cbn; try done; [..|].
  - intros [= <-]. apply length_insert.
  - destruct (may_enter _ _ _); [|done]. intros [= <-]. apply length_insert.
  - intros [= <-]. apply length_insert.
  - intros [= <-]. apply length_insert.
Qed.

Lemma run_length {A} deaf (r : nat -> config A) n : fair_run deaf r -> length (pool (r n)) = length (pool (r 0%nat)).
Proof.
  intros Hr. induction n as [|n IH]; [done|].
  destruct (run_step _ _ Hr n) as [->|[i Ha]]; [done|]. by rewrite (length_advance _ _ _ Ha).
Qed.

Lemma due_dec {A} deaf (c : config A) : (forall i, due deaf c i = false) \/ exists i, due deaf c i = true.
Proof.
  destruct (existsb (due deaf c) (seq 0 (length (pool c)))) eqn:Eq.
  - right. apply existsb_exists in Eq as (i & _ & Hi). by exists i.
  - left. intros i. destruct (due deaf c i) eqn:Ei; [|done]. exfalso.
    assert (Hin : existsb (due deaf c) (seq 0 (length (pool c))) = true); [|congruence].
    apply existsb_exists. exists i. split; [|done]. apply in_seq.
    unfold due in Ei. destruct (pool c !! i) eqn:Ep; [|done]. apply lookup_lt_Some in Ep. lia.
Qed.

(** A due turn comes, or another before it. *)
Lemma run_moves {A} deaf (r : nat -> config A) n i :
  fair_run deaf r -> due deaf (r n) i = true -> exists m, (n <= m)%nat /\ next (r m) (r n).
Proof.
  intros Hr Hd. destruct (run_fair _ _ Hr n i) as (m & Hm & Hf).
  assert (Hstill : forall d, r (n + d)%nat = r n \/ exists m, (n <= m)%nat /\ next (r m) (r n)).
  { induction d as [|d [IH|IH]]; [left; by rewrite Nat.add_0_r| |by right]. rewrite Nat.add_succ_r.
    destruct (run_step _ _ Hr (n + d)%nat) as [->|[j Ha]]; [by left|]. right. exists (Datatypes.S (n + d)).
    split; [lia|]. exists j. by rewrite <- IH. }
  destruct (Hstill (m - n)%nat) as [Em|?]; [|done]. replace (n + (m - n))%nat with m in Em by lia.
  destruct Hf as [Hf|Ha]; [rewrite Em in Hf; congruence|]. exists (Datatypes.S m). split; [lia|]. exists i. by rewrite <- Em.
Qed.

Lemma run_quiet {A} deaf (r : nat -> config A) : fair_run deaf r ->
  forall n, exists m, (n <= m)%nat /\ forall i, due deaf (r m) i = false.
Proof.
  intros Hr n. remember (r n) as c eqn:Ec. revert n Ec. induction (next_acc c) as [c _ IH]. intros n ->.
  destruct (due_dec deaf (r n)) as [Hq|[i Hi]]; [by exists n|].
  destruct (run_moves deaf r n i Hr Hi) as (m & Hm & Hn).
  destruct (IH (r m) Hn m eq_refl) as (k & Hk & Hq). exists k. split; [lia|done].
Qed.

(** Again and again everybody is settled. *)
Lemma run_settles {A} oks deaf (r : nat -> config A) : fair_run deaf r -> orderly oks (r 0%nat) ->
  forall n, exists m, (n <= m)%nat /\ forall i, (i < length (pool (r 0%nat)))%nat -> settled oks deaf (r m) i.
Proof.
  intros Hr H0 n. destruct (run_quiet deaf r Hr n) as (m & Hm & Hq). exists m. split; [done|]. intros i Hi.
  apply orderly_settled; [by eapply run_orderly|done|]. apply lookup_lt_is_Some. by rewrite (run_length deaf r m Hr).
Qed.

(** A schedule, and then nothing: fair, if nobody's turn is left to come. *)
Lemma played_fair {A} deaf sched (c : config A) :
  (forall i, due deaf (play sched c) i = false) -> fair_run deaf (fun n => play (take n sched) c).
Proof.
  intros Hq. split.
  - intros n. destruct (sched !! n) as [i|] eqn:Ei.
    + rewrite (take_S_r _ _ _ Ei), play_snoc. unfold turn.
      destruct (advance i (play (take n sched) c)) as [c'|] eqn:Ea; [right; by exists i|by left].
    + apply lookup_ge_None in Ei. left. by rewrite !take_ge by lia.
  - intros n i. exists (Nat.max n (length sched)). split; [lia|]. left. rewrite take_ge by lia. apply Hq.
Qed.

(** ** A lock that is not given back *)

(** Every way to the end leads through the lock. *)
Inductive meets {A} (l : L) : prog A -> Prop :=
| meets_here a p : meets l (Lock l a p)
| meets_act u k : (forall s, meets l (k s)) -> meets l (Act u k)
| meets_lock l' a p : meets l p -> meets l (Lock l' a p)
| meets_unlock l' p : meets l p -> meets l (Unlock l' p)
| meets_send p : meets l p -> meets l (Send p).

Lemma meets_in {A B} l (p : prog A) (k : result E A -> prog B) : meets l p -> meets l (after p k).
Proof. induction 1; cbn [after]; by constructor. Qed.
Lemma meets_after {A B} l (p : prog A) (k : result E A -> prog B) : (forall r, meets l (k r)) -> meets l (after p k).
Proof. intros Hk. induction p; cbn [after]; [apply Hk|by constructor..]. Qed.
Lemma meets_locked {A} l a (p : prog A) : meets l (locked l a p).
Proof. constructor. Qed.

(** Thread [j] is inside [l] for writing, and no longer takes a turn. *)
Lemma writer_stays {A} j l more : forall c : config A,
  j ∉ more -> (j, l, Writing) ∈ inside c -> (j, l, Writing) ∈ inside (play more c).
Proof.
  induction more as [|i more IH]; intros c Hj Hin; [done|]. apply not_elem_of_cons in Hj as [Hne Hj].
  cbn [play foldl]. apply IH; [done|]. unfold turn, advance.
  destruct (pool c !! i) as [[r|u k|l' a p|l' p|p]|]; cbn [mbind option_bind opt_or]; try done.
  - destruct (may_enter _ _ _); [|done]. by right.
  - cbn [inside]. apply elem_of_leave. split; [done|]. by intros [-> _].
Qed.

Lemma writer_alone l a j ins : (j, l, Writing) ∈ ins -> may_enter l a ins = false.
Proof.
  intros Hin. destruct (may_enter l a ins) eqn:Eq; [|done]. unfold may_enter in Eq.
  rewrite forallb_forall in Eq. apply list_elem_of_In in Hin. specialize (Eq _ Hin). cbn [fst snd] in Eq.
  rewrite bool_decide_eq_true_2 in Eq by done. by destruct a.
Qed.

(** Who has to meet the lock does not end. *)
Lemma stalled {A} j l more : forall c : config A,
  j ∉ more -> (j, l, Writing) ∈ inside c ->
  forall i p, pool c !! i = Some p -> meets l p ->
  exists q, pool (play more c) !! i = Some q /\ meets l q.
Proof.
  induction more as [|k more IH]; intros c Hj Hin i p Hi Hp; [by exists p|].
  pose proof Hj as [Hne Hj']%not_elem_of_cons. cbn [play foldl].
  pose proof (writer_stays j l [k] c ltac:(by apply not_elem_of_cons; split; [|apply not_elem_of_nil]) Hin) as Hin'.
  assert (Hq : exists q, pool (turn c k) !! i = Some q /\ meets l q).
  { unfold turn, advance. destruct (pool c !! k) as [p'|] eqn:Ek; [|by exists p]. cbn [mbind option_bind].
    destruct (decide (i = k)) as [->|Hik].
    - assert (p' = p) as -> by congruence. assert (Hk : (k < length (pool c))%nat) by (by eapply lookup_lt_Some).
      destruct Hp as [a p|u q Hq|l' a p Hp|l' p Hp|p Hp]; cbn [opt_or].
      + rewrite (writer_alone l a j) by done. cbn [opt_or]. eexists. split; [exact Ek|constructor].
      + cbn [pool]. rewrite list_lookup_insert_eq by done. eexists. split; [done|apply Hq].
      + destruct (may_enter _ _ _); cbn [opt_or pool]; [rewrite list_lookup_insert_eq by done; by eexists|].
        eexists. split; [exact Ek|by constructor].
      + cbn [pool]. rewrite list_lookup_insert_eq by done. by eexists.
      + cbn [pool]. rewrite list_lookup_insert_eq by done. by eexists.
    - exists p. split; [|done]. destruct p' as [r|u q|l' a q|l' q|q]; cbn [opt_or]; try done; cbn [pool];
        try (by rewrite list_lookup_insert_ne).
      destruct (may_enter _ _ _); [|done]. cbn [opt_or pool]. by rewrite list_lookup_insert_ne. }
  destruct Hq as (q & Hq & Hmq). exact (IH (turn c k) Hj' Hin' i q Hq Hmq).
Qed.

Lemma meets_no_outcome {A} i l p (c : config A) : pool c !! i = Some p -> meets l p -> outcome i c = None.
Proof. intros Hi Hp. unfold outcome. rewrite Hi. by destruct Hp. Qed.
End threads.

Arguments prog : clear implicits.
Arguments config : clear implicits.

Notation "'let*' x := p 'in' k" := (then_ p (fun x => k))
  (at level 10, x pattern, p at level 100, k at level 200) : nn_scope.

(** The lemmas that follow the structure of a program. *)
Create HintDb threads.
#[export] Hint Resolve bracketed_ret bracketed_atom bracketed_then bracketed_locked
  unlocked_atom unlocked_then un_ret free_guard brackets_guard brackets_change free_change brackets_ask free_ask
  brackets_ret brackets_answer free_answer : threads.

Create HintDb same.
#[export] Hint Resolve same_ret same_ok same_fail same_guard same_atom same_change same_locked same_answer : same.

Ltac same :=
  repeat (first
    [ solve [eauto with same]
    | apply same_then; [|intros ?]
    | progress cbv zeta
    | match goal with |- same (if ?c then _ else _) _ => destruct c end
    | match goal with |- same (match ?c with _ => _ end) _ => destruct c end ]).

Ltac brackets :=
  repeat (first
    [ solve [eauto with threads]
    | apply bracketed_then; [|intros ?]
    | apply unlocked_then; [|intros ?]
    | apply bracketed_locked
    | apply brackets_send
    | progress cbv zeta
    | match goal with |- bracketed _ _ (if ?c then _ else _) => destruct c end
    | match goal with |- bracketed _ _ (match ?c with _ => _ end) => destruct c end
    | match goal with |- unlocked _ (if ?c then _ else _) => destruct c end
    | match goal with |- unlocked _ (match ?c with _ => _ end) => destruct c end ]).
