(* ===== verification/Primitives.v ===== *)
(** * Interfaces of the third-party crates

    The sources call cryptographic crates (sha2, hmac, blake2, argon2, hkdf,
    aes-gcm, ml-kem, sequoia-openpgp), the codecs hex and base64, and the JSON
    parser.  None of them is under src/: each is a class whose operations are
    parameters of the models and whose laws are the documented behaviour the
    sources rely on.  [Concrete.v] gives instances of all of them. *)

From S2P Require Import Prelude Text.

(** ** Digests *)

(** sha2: [Sha256::digest] and [Sha512::digest]. *)
Class Sha2 := {
  sha256 : bytes -> bytes;
  sha512 : bytes -> bytes;
  sha256_length d : length (sha256 d) = 32%nat;
  sha512_length d : length (sha512 d) = 64%nat;
  sha256_ok d : bytes_ok (sha256 d);
  sha512_ok d : bytes_ok (sha512 d);
}.

(** hmac: HMAC-SHA256 accepts keys of any size. *)
Class Hmac := {
  hmac_sha256 : bytes -> bytes -> bytes;
  hmac_length k d : length (hmac_sha256 k d) = 32%nat;
  hmac_ok k d : bytes_ok (hmac_sha256 k d);
}.

(** blake2: [Blake2bVar] with an eight-byte output. *)
Class Blake2 := {
  blake2b_8 : bytes -> bytes;
  blake2b_8_length d : length (blake2b_8 d) = 8%nat;
  blake2b_8_ok d : bytes_ok (blake2b_8 d);
}.

(** argon2: [Params::new(m, t, p, Some(len))] and
    [hash_password_into(password, salt, out)] on an output of [len] bytes;
    the password is the first list, the salt the second. *)
Class Argon2 := {
  argon2_params : Z -> Z -> Z -> Z -> result string unit;
  argon2id : Z -> Z -> Z -> Z -> bytes -> bytes -> result string bytes;
  argon2id_length m t p len pwd salt h :
    argon2id m t p len pwd salt = Ok h -> zlen h = len;
}.

(** hkdf: extract with no salt, then [expand(info, out)] on an output of the
    given length, which fails only above 255 blocks. *)
Class Hkdf := {
  hkdf_expand : bytes -> bytes -> nat -> option bytes;
  hkdf_expand_ok ikm info n :
    (n <= 255 * 32)%nat ->
    exists out, hkdf_expand ikm info n = Some out /\ length out = n;
  hkdf_expand_bytes ikm info n out : hkdf_expand ikm info n = Some out -> bytes_ok out;
}.

(** ** Authenticated encryption and key encapsulation *)

(** aes-gcm: [encrypt(nonce, pt)] and [decrypt(nonce, ct)] under a key. *)
Class Aead := {
  aes_encrypt : bytes -> bytes -> bytes -> option bytes;
  aes_decrypt : bytes -> bytes -> bytes -> option bytes;
  aes_decrypt_encrypt k n pt ct :
    aes_encrypt k n pt = Some ct -> aes_decrypt k n ct = Some pt;
  aes_encrypt_length k n pt ct :
    aes_encrypt k n pt = Some ct -> length ct = (length pt + 16)%nat;
  aes_encrypt_ok k n pt ct :
    bytes_ok pt -> aes_encrypt k n pt = Some ct -> bytes_ok ct;
  aes_encrypt_total k n pt :
    zlen pt < 2 ^ 32 -> exists ct, aes_encrypt k n pt = Some ct;
}.

(** ml-kem at ML-KEM-1024.  Keys are abstract; a ciphertext is its 1568 bytes
    ([Ciphertext::try_from] fails on any other length); the coins of an
    encapsulation are an argument. *)
Class Kem := {
  enc_key : Type;
  dec_key : Type;
  ek_of : dec_key -> enc_key;
  ek_to_bytes : enc_key -> bytes;
  ek_from_bytes : bytes -> option enc_key;
  dk_to_bytes : dec_key -> bytes;
  dk_from_seed : bytes -> dec_key;
  encapsulate : enc_key -> bytes -> bytes * bytes;
  decapsulate : dec_key -> bytes -> bytes;
  decapsulate_encapsulate dk r ct ss :
    encapsulate (ek_of dk) r = (ct, ss) -> decapsulate dk ct = ss;
  encapsulate_length ek r ct ss :
    encapsulate ek r = (ct, ss) -> length ct = 1568%nat /\ length ss = 32%nat;
  encapsulate_ok ek r ct ss : encapsulate ek r = (ct, ss) -> bytes_ok ct;
  ek_from_to_bytes ek : ek_from_bytes (ek_to_bytes ek) = Some ek;
  ek_to_bytes_length ek : length (ek_to_bytes ek) = 1568%nat;
  dk_from_to_bytes dk : dk_from_seed (dk_to_bytes dk) = dk;
  dk_to_bytes_length dk : length (dk_to_bytes dk) = 64%nat;
  ek_to_bytes_ok ek : bytes_ok (ek_to_bytes ek);
  dk_to_bytes_ok dk : bytes_ok (dk_to_bytes dk);
}.

(** ** Codecs *)

(** hex: [encode] writes two lower-case digits per byte. *)
Class Hex := {
  hex_encode : bytes -> string;
  hex_decode : string -> option bytes;
  hex_decode_encode d : bytes_ok d -> hex_decode (hex_encode d) = Some d;
  hex_encode_length d : slen (hex_encode d) = 2 * zlen d;
  hex_encode_digits d : str_all is_ascii_hexdigit (hex_encode d) = true;
}.

(** base64: the standard alphabet, padded with [=] to groups of four. *)
Definition is_b64_char (a : ascii) : bool :=
  ((65 <=? code a) && (code a <=? 90)) || ((97 <=? code a) && (code a <=? 122)) ||
  is_digit a || (code a =? 43) || (code a =? 47).

Class Base64 := {
  b64_encode : bytes -> string;
  b64_decode : string -> option bytes;
  b64_decode_encode d : bytes_ok d -> b64_decode (b64_encode d) = Some d;
  b64_encode_form d :
    bytes_ok d ->
    exists body pad, b64_encode d = body +:+ pad /\
      str_all is_b64_char body = true /\ slen body = (4 * zlen d + 2) / 3 /\
      str_all (fun a => Ascii.eqb a "="%char) pad = true;
}.

(** ** OpenPGP (sequoia-openpgp) *)

(** The packets of a parsed file: a signature, a public key, of which its
    fingerprint is kept, or another packet. *)
Inductive packet (S : Type) : Type :=
| PktSignature (s : S)
| PktPublicKey (fingerprint : string)
| PktOther.

Arguments PktSignature {S} s.
Arguments PktPublicKey {S} fingerprint.
Arguments PktOther {S}.

Class Sequoia := {
  cert : Type;
  pgp_key : Type;
  pgp_sig : Type;
  cert_from_bytes : string -> result string cert;   (* [Cert::from_bytes] *)
  cert_serialize : cert -> string;                  (* [cert.serialize], lossy UTF-8 *)
  cert_keys : cert -> list pgp_key;                 (* [cert.keys()] *)
  cert_fingerprint : cert -> string;                (* [cert.fingerprint().to_hex()] *)
  packets_of : string -> result string (list (packet pgp_sig));
  hash_context : pgp_sig -> result string unit;     (* [sig.hash_algo().context()] *)
  verify_hash : pgp_key -> pgp_sig -> string -> bool;
}.

(** The secret half: the key pair of a key, a signature over a text at some
    second of the clock, armored, and a certificate written out with its
    secrets.  What a key signs verifies under it; what is written parses. *)
Class SequoiaSecret `{Sequoia} := {
  key_pair : Type;
  key_secret : pgp_key -> result string key_pair;          (* [parts_into_secret], [into_keypair] *)
  sign_stream : key_pair -> Z -> string -> result string bytes;   (* [Armorer], [Signer] *)
  tsk_armored : cert -> result string string;              (* [as_tsk().armored()] *)
  sign_stream_verifies k kp t d b :
    key_secret k = Ok kp -> sign_stream kp t d = Ok b ->
    bytes_ok b /\ exists txt s, from_utf8 b = Some txt /\ txt <> "" /\
      packets_of txt = Ok [PktSignature s] /\ hash_context s = Ok tt /\ verify_hash k s d = true;
  tsk_armored_parses c a : tsk_armored c = Ok a -> a <> "" /\ str_ok a /\ cert_from_bytes a = Ok c;
}.
