(* ===== verification/Json.v ===== *)
(** * JSON values

    The public data type [serde_json::Value] and the accessors the sources use
    on it.  An object is the list of its members, keys distinct; parsing and
    printing belong to the crate and are parameters where they are used. *)

From S2P Require Import Prelude.

(** [serde_json::Number]: a [u64], a negative [i64], or a finite [f64]. *)
Inductive number : Type :=
| PosInt (n : Z)
| NegInt (n : Z)
| Float (x : f64).

Inductive value : Type :=
| VNull
| VBool (b : bool)
| VNumber (n : number)
| VString (s : string)
| VArray (l : list value)
| VObject (m : list (string * value)).

Fixpoint assoc {A} (k : string) (m : list (string * A)) : option A :=
  match m with
  | [] => None
  | (k', v) :: m' => if String.eqb k k' then Some v else assoc k m'
  end.

(** [value.get(key)]: [None] unless the value is an object. *)
Definition get (v : value) (key : string) : option value :=
  match v with VObject m => assoc key m | _ => None end.

Definition as_str (v : value) : option string :=
  match v with VString s => Some s | _ => None end.

Definition as_array (v : value) : option (list value) :=
  match v with VArray l => Some l | _ => None end.

Definition as_i64 (v : value) : option Z :=
  match v with
  | VNumber (PosInt n) => if n <=? i64_max then Some n else None
  | VNumber (NegInt n) => Some n
  | _ => None
  end.

Definition as_u64 (v : value) : option Z :=
  match v with VNumber (PosInt n) => Some n | _ => None end.

Definition as_f64 (v : value) : option f64 :=
  match v with
  | VNumber (PosInt n) | VNumber (NegInt n) => Some (f64_of_Z n)
  | VNumber (Float x) => Some x
  | _ => None
  end.

(** [json!] of a signed and of an unsigned integer. *)
Definition json_int (n : Z) : value :=
  VNumber (if n <? 0 then NegInt n else PosInt n).

Lemma as_i64_json_int n : i64_min <= n <= i64_max -> as_i64 (json_int n) = Some n.
Proof.
  intros. unfold json_int. destruct (Z.ltb_spec n 0); simpl; [done|].
  destruct (Z.leb_spec n i64_max); [done|lia].
Qed.

(** [v.get(k).and_then(|x| x.as_str()).unwrap_or("")] and the like. *)
Definition str_field (v : value) (k : string) : string :=
  opt_or (get v k ≫= as_str) "".
Definition i64_field (v : value) (k : string) (d : Z) : Z :=
  opt_or (get v k ≫= as_i64) d.
Definition u64_field (v : value) (k : string) (d : Z) : Z :=
  opt_or (get v k ≫= as_u64) d.
Definition f64_field (v : value) (k : string) (d : f64) : f64 :=
  opt_or (get v k ≫= as_f64) d.

(** [Display] of a [serde_json::Value] (compact JSON) and of an [f64]; a
    non-negative integer is printed in decimal. *)
Class Format := {
  fmt_value : value -> string;
  fmt_f64 : f64 -> string;
  fmt_value_int n : 0 <= n -> fmt_value (VNumber (PosInt n)) = pretty n;
}.

(** [map.insert(key, v)] on an object: replaces the member or adds it. *)
Fixpoint obj_insert (k : string) (v : value) (m : list (string * value)) : list (string * value) :=
  match m with
  | [] => [(k, v)]
  | (k', v') :: m' => if String.eqb k k' then (k, v) :: m' else (k', v') :: obj_insert k v m'
  end.

Lemma assoc_obj_insert k v m k' :
  assoc k' (obj_insert k v m) = if String.eqb k' k then Some v else assoc k' m.
Proof.
  induction m as [|[k1 v1] m IH]; simpl.
  - done.
  - destruct (String.eqb_spec k k1) as [->|Hne]; simpl.
    + by destruct (String.eqb_spec k' k1).
    + rewrite IH. destruct (String.eqb_spec k' k1) as [->|]; [|done].
      destruct (String.eqb_spec k1 k); congruence.
Qed.

(** ** Text

    [serde_json::to_string] and [from_str] on values.  What the sources rely on
    is stated for objects whose members are strings and [u64] numbers: parsing
    what was printed gives back every member, in whatever order the map keeps
    them. *)

Definition flat (v : value) : Prop :=
  match v with
  | VString _ => True
  | VNumber (PosInt n) => 0 <= n < 2 ^ 64
  | _ => False
  end.

Definition str_object (m : list (string * string)) : value :=
  VObject ((fun kv => (kv.1, VString kv.2)) <$> m).

Class JsonCodec := {
  json_print : value -> string;
  json_parse : string -> option value;
  json_parse_print_flat m :
    NoDup m.*1 -> Forall (fun kv => flat kv.2) m ->
    exists m', json_parse (json_print (VObject m)) = Some (VObject m') /\
      forall k, assoc k m' = assoc k m;
}.

Lemma assoc_fmap {A B} (f : A -> B) k (m : list (string * A)) :
  assoc k ((fun kv => (kv.1, f kv.2)) <$> m) = f <$> assoc k m.
Proof.
  induction m as [|[k' v] m IH]; [done|]. simpl. destruct (String.eqb k k'); [done|exact IH].
Qed.

Lemma json_parse_print `{JsonCodec} m :
  NoDup m.*1 ->
  exists m', json_parse (json_print (str_object m)) = Some (VObject m') /\
    forall k, assoc k m' = VString <$> assoc k m.
Proof.
  intros Hnd. unfold str_object. set (l := (fun kv => _) <$> m).
  destruct (json_parse_print_flat l) as (m' & Hp & Hm).
  - unfold l. rewrite <- list_fmap_compose. erewrite list_fmap_ext; [exact Hnd|done].
  - apply Forall_fmap, Forall_forall. intros kv _. exact I.
  - exists m'. split; [done|]. intros k. rewrite Hm. apply assoc_fmap.
Qed.
