(* ===== verification/Concrete.v ===== *)
(** * Concrete instances of the interfaces

    Executable functions that satisfy the laws of [Primitives.v].  They are
    not cryptography: they show that the laws can hold together and let the
    models be evaluated on concrete inputs. *)

From S2P Require Import Prelude Text Primitives Json.

(** A checksum that depends on every byte and its position. *)
Definition mix (l : bytes) : Z := foldl (fun a b => (a * 31 + b + 7) mod 65521) 17 l.

Definition toy_hash (n : nat) (l : bytes) : bytes :=
  let m := mix l / 3 in let m' := mix (5 :: l) in
  (fun i => u8 (m + Z.of_nat i * m')) <$> seq 0 n.

Lemma toy_hash_length n l : length (toy_hash n l) = n.
Proof. unfold toy_hash. by rewrite length_fmap, length_seq. Qed.

Lemma toy_hash_ok n l : bytes_ok (toy_hash n l).
Proof.
  unfold toy_hash. apply Forall_fmap, Forall_forall. intros i _. simpl.
  unfold byte_ok. apply (wrap_range 8). lia.
Qed.

Definition toy_sha2 : Sha2 := {|
  sha256 := toy_hash 32; sha512 := toy_hash 64;
  sha256_length := toy_hash_length 32; sha512_length := toy_hash_length 64;
  sha256_ok := toy_hash_ok 32; sha512_ok := toy_hash_ok 64 |}.

Definition toy_hmac : Hmac := {|
  hmac_sha256 := fun k d => toy_hash 32 (k ++ 300 :: d);
  hmac_length := fun k d => toy_hash_length 32 _;
  hmac_ok := fun k d => toy_hash_ok 32 _ |}.

Definition toy_blake2 : Blake2 := {|
  blake2b_8 := toy_hash 8;
  blake2b_8_length := toy_hash_length 8;
  blake2b_8_ok := toy_hash_ok 8 |}.

(** Argon2 whose digests start with two zero bytes for one input in four. *)
Definition toy_argon2id (m t p len : Z) (pwd salt : bytes) : result string bytes :=
  if len <? 2 then Err "output too short"
  else
    let b := if mix (pwd ++ salt) mod 4 =? 0 then 0 else 255 in
    Ok (b :: b :: toy_hash (Z.to_nat (len - 2)) (pwd ++ salt)).

Lemma toy_argon2id_length m t p len pwd salt h :
  toy_argon2id m t p len pwd salt = Ok h -> zlen h = len.
Proof.
  unfold toy_argon2id. destruct (Z.ltb_spec len 2); [done|]. intros [= <-].
  unfold zlen. cbn [length]. rewrite toy_hash_length. lia.
Qed.

Definition toy_argon2 : Argon2 := {|
  argon2_params := fun _ _ _ len => if len <? 4 then Err "output too short" else Ok tt;
  argon2id := toy_argon2id; argon2id_length := toy_argon2id_length |}.

Definition toy_hkdf_expand (ikm info : bytes) (n : nat) : option bytes :=
  if (n <=? 255 * 32)%nat then Some (toy_hash n (ikm ++ 300 :: info)) else None.

Lemma toy_hkdf_ok ikm info n :
  (n <= 255 * 32)%nat -> exists out, toy_hkdf_expand ikm info n = Some out /\ length out = n.
Proof.
  intros Hn. unfold toy_hkdf_expand. destruct (Nat.leb_spec n (255 * 32)); [|lia].
  eexists. split; [done|]. apply toy_hash_length.
Qed.

Lemma toy_hkdf_bytes ikm info n out : toy_hkdf_expand ikm info n = Some out -> bytes_ok out.
Proof. unfold toy_hkdf_expand. destruct (_ <=? _)%nat; [|done]. intros [= <-]. apply toy_hash_ok. Qed.

Definition toy_hkdf : Hkdf := {|
  hkdf_expand := toy_hkdf_expand; hkdf_expand_ok := toy_hkdf_ok;
  hkdf_expand_bytes := toy_hkdf_bytes |}.

(** Encryption that appends a tag over key, nonce and text. *)
Definition toy_tag (k n pt : bytes) : bytes := toy_hash 16 (k ++ 300 :: n ++ 301 :: pt).
Definition toy_aes_encrypt (k n pt : bytes) : option bytes := Some (pt ++ toy_tag k n pt).
Definition toy_aes_decrypt (k n ct : bytes) : option bytes :=
  let pt := take (length ct - 16) ct in
  if bool_decide (drop (length ct - 16) ct = toy_tag k n pt) then Some pt else None.

Lemma toy_tag_length k n pt : length (toy_tag k n pt) = 16%nat.
Proof. apply toy_hash_length. Qed.

Lemma toy_decrypt_encrypt k n pt ct :
  toy_aes_encrypt k n pt = Some ct -> toy_aes_decrypt k n ct = Some pt.
Proof.
  intros [= <-]. unfold toy_aes_decrypt. rewrite length_app, toy_tag_length.
  replace (length pt + 16 - 16)%nat with (length pt) by lia.
  rewrite take_app_length, drop_app_length. by rewrite bool_decide_true.
Qed.

Lemma toy_encrypt_length k n pt ct :
  toy_aes_encrypt k n pt = Some ct -> length ct = (length pt + 16)%nat.
Proof. intros [= <-]. by rewrite length_app, toy_tag_length. Qed.

Lemma toy_encrypt_ok k n pt ct :
  bytes_ok pt -> toy_aes_encrypt k n pt = Some ct -> bytes_ok ct.
Proof. intros Hp [= <-]. apply Forall_app. split; [done|apply toy_hash_ok]. Qed.

Lemma toy_encrypt_total k n pt : zlen pt < 2 ^ 32 -> exists ct, toy_aes_encrypt k n pt = Some ct.
Proof. intros _. by eexists. Qed.

Definition toy_aead : Aead := {|
  aes_encrypt := toy_aes_encrypt; aes_decrypt := toy_aes_decrypt;
  aes_decrypt_encrypt := toy_decrypt_encrypt; aes_encrypt_length := toy_encrypt_length;
  aes_encrypt_ok := toy_encrypt_ok; aes_encrypt_total := toy_encrypt_total |}.

(** A key encapsulation with 256 key pairs: the shared secret is a digest of
    the encapsulation key and the ciphertext. *)
Definition byte_val (b : Byte.byte) : Z := Z.of_N (Byte.to_N b).
Definition byte_of (z : Z) : Byte.byte := opt_or (Byte.of_N (Z.to_N z)) Byte.x00.

Lemma byte_of_val b : byte_of (byte_val b) = b.
Proof. unfold byte_of, byte_val. rewrite N2Z.id, Byte.of_to_N. done. Qed.

Lemma byte_val_ok b : byte_ok (byte_val b).
Proof. unfold byte_val, byte_ok. pose proof (Byte.to_N_bounded b). lia. Qed.

Definition toy_ss (ek : Byte.byte) (ct : bytes) : bytes := toy_hash 32 (byte_val ek :: ct).
Definition toy_encapsulate (ek : Byte.byte) (coins : bytes) : bytes * bytes :=
  let ct := toy_hash 1568 coins in (ct, toy_ss ek ct).

Lemma toy_encapsulate_length ek r ct ss :
  toy_encapsulate ek r = (ct, ss) -> length ct = 1568%nat /\ length ss = 32%nat.
Proof. intros [= <- <-]. by rewrite !toy_hash_length. Qed.

Definition toy_kem : Kem.
Proof.
  refine {|
    enc_key := Byte.byte; dec_key := Byte.byte; ek_of := fun dk => dk;
    ek_to_bytes := fun ek => replicate 1568 (byte_val ek);
    ek_from_bytes := fun l => match l with b :: _ => Some (byte_of b) | [] => None end;
    dk_to_bytes := fun dk => replicate 64 (byte_val dk);
    dk_from_seed := fun l => match l with b :: _ => byte_of b | [] => Byte.x00 end;
    encapsulate := toy_encapsulate; decapsulate := toy_ss;
    encapsulate_length := toy_encapsulate_length |}.
  - by intros dk r ct ss [= <- <-].
  - intros ek r ct ss [= <- <-]. apply toy_hash_ok.
  - intros ek. cbn [replicate]. by rewrite byte_of_val.
  - intros ek. apply length_replicate.
  - intros dk. cbn [replicate]. by rewrite byte_of_val.
  - intros dk. apply length_replicate.
  - intros ek. apply Forall_replicate, byte_val_ok.
  - intros dk. apply Forall_replicate, byte_val_ok.
Defined.

(** hex, as the crate writes it: two lower-case digits per byte. *)
Fixpoint hex_enc (l : bytes) : string :=
  match l with
  | [] => EmptyString
  | b :: l' => String (hex_digit (u8 b / 16)) (String (hex_digit (u8 b mod 16)) (hex_enc l'))
  end.

Definition hex_val (a : ascii) : option Z :=
  if is_digit a then Some (code a - 48)
  else if (97 <=? code a) && (code a <=? 102) then Some (code a - 87)
  else if (65 <=? code a) && (code a <=? 70) then Some (code a - 55)
  else None.

Fixpoint hex_dec (s : string) : option bytes :=
  match s with
  | EmptyString => Some []
  | String a (String b s') =>
      x ← hex_val a; y ← hex_val b; l ← hex_dec s'; Some (x * 16 + y :: l)
  | String _ EmptyString => None
  end.

(** A fact about small integers, decided by running through them. *)
Lemma below_forall (n : nat) (P : Z -> bool) :
  forallb (fun i => P (Z.of_nat i)) (seq 0 n) = true ->
  forall z, 0 <= z < Z.of_nat n -> P z = true.
Proof.
  intros Hall z Hz. rewrite forallb_forall in Hall. specialize (Hall (Z.to_nat z)).
  rewrite Z2Nat.id in Hall by lia. apply Hall, in_seq. lia.
Qed.

Lemma hex_val_digit d : 0 <= d < 16 -> hex_val (hex_digit d) = Some d.
Proof.
  intros Hd. enough (bool_decide (hex_val (hex_digit d) = Some d) = true)
    by (by apply bool_decide_eq_true in H).
  revert d Hd. apply (below_forall 16 (fun d => bool_decide (hex_val (hex_digit d) = Some d))).
  vm_compute. reflexivity.
Qed.

Lemma hex_digit_is_hex d : 0 <= d < 16 -> is_ascii_hexdigit (hex_digit d) = true.
Proof. apply (below_forall 16 (fun d => is_ascii_hexdigit (hex_digit d))). vm_compute. reflexivity. Qed.

Lemma u8_div_16 b : 0 <= u8 b / 16 < 16 /\ 0 <= u8 b mod 16 < 16.
Proof.
  pose proof (wrap_range 8 b ltac:(lia)) as Hb. change (wrap 8 b) with (u8 b) in Hb.
  pose proof (Z.div_mod (u8 b) 16). pose proof (Z.mod_pos_bound (u8 b) 16). lia.
Qed.

Definition toy_hex : Hex.
Proof.
  refine {| hex_encode := hex_enc; hex_decode := hex_dec |}.
  - intros d. induction 1 as [|b l Hb _ IH]; [done|]. cbn [hex_enc hex_dec].
    destruct (u8_div_16 b). rewrite !hex_val_digit by lia. simpl. rewrite IH. simpl.
    unfold byte_ok in Hb. assert (u8 b = b) as -> by (apply wrap_small; lia).
    do 2 f_equal. pose proof (Z.div_mod b 16). lia.
  - intros d. unfold slen, zlen. induction d as [|b l IH]; [done|].
    cbn [hex_enc String.length length]. lia.
  - intros d. induction d as [|b l IH]; [done|]. cbn [hex_enc str_all].
    destruct (u8_div_16 b). by rewrite !hex_digit_is_hex, IH.
Defined.

(** base64 with the standard alphabet. *)
Definition b64_char (v : Z) : ascii :=
  Ascii.ascii_of_N (Z.to_N
    (if v <? 26 then 65 + v else if v <? 52 then 71 + v else if v <? 62 then v - 4
     else if v =? 62 then 43 else 47)).

Definition b64_val (a : ascii) : option Z :=
  let c := code a in
  if (65 <=? c) && (c <=? 90) then Some (c - 65)
  else if (97 <=? c) && (c <=? 122) then Some (c - 71)
  else if is_digit a then Some (c + 4)
  else if c =? 43 then Some 62 else if c =? 47 then Some 63 else None.

Fixpoint b64_enc (l : bytes) : string :=
  match l with
  | [] => EmptyString
  | [a] => String (b64_char (a / 4)) (String (b64_char (a mod 4 * 16)) "==")
  | [a; b] =>
      String (b64_char (a / 4)) (String (b64_char (a mod 4 * 16 + b / 16))
        (String (b64_char (b mod 16 * 4)) "="))
  | a :: b :: c :: l' =>
      String (b64_char (a / 4)) (String (b64_char (a mod 4 * 16 + b / 16))
        (String (b64_char (b mod 16 * 4 + c / 64)) (String (b64_char (c mod 64)) (b64_enc l'))))
  end.

Fixpoint b64_dec (s : string) : option bytes :=
  match s with
  | EmptyString => Some []
  | String p (String q (String r (String t s'))) =>
      x ← b64_val p; y ← b64_val q;
      match b64_val r, b64_val t with
      | Some z, Some w =>
          l ← b64_dec s'; Some (x * 4 + y / 16 :: y mod 16 * 16 + z / 4 :: z mod 4 * 64 + w :: l)
      | Some z, None => Some [x * 4 + y / 16; y mod 16 * 16 + z / 4]
      | None, _ => Some [x * 4 + y / 16]
      end
  | _ => None
  end.

Lemma b64_char_ok v :
  0 <= v < 64 -> b64_val (b64_char v) = Some v /\ is_b64_char (b64_char v) = true.
Proof.
  intros Hv.
  enough (bool_decide (b64_val (b64_char v) = Some v) && is_b64_char (b64_char v) = true) as E
    by (by apply andb_true_iff in E as [E%bool_decide_eq_true ?]).
  revert v Hv. apply (below_forall 64 (fun v =>
    bool_decide (b64_val (b64_char v) = Some v) && is_b64_char (b64_char v))).
  vm_compute. reflexivity.
Qed.

(** Induction on groups of three. *)
Lemma list_ind3 {A} (P : list A -> Prop) :
  P [] -> (forall a, P [a]) -> (forall a b, P [a; b]) ->
  (forall a b c l, P l -> P (a :: b :: c :: l)) -> forall l, P l.
Proof.
  intros H0 H1 H2 H3 l. remember (length l) as n eqn:Hn. revert l Hn.
  induction n as [n IH] using lt_wf_ind. intros [|a [|b [|c l]]] ->; [done|done|done|].
  apply H3, (IH (length l)); [|done]. simpl. lia.
Qed.

Lemma div_mod_bounds x k n : 0 < k -> 0 <= x < k * n -> 0 <= x / k < n /\ 0 <= x mod k < k.
Proof.
  intros Hk Hx. split; [|by apply Z.mod_pos_bound].
  split; [apply Z.div_pos; lia|apply Z.div_lt_upper_bound; lia].
Qed.

Lemma b64_group a b :
  byte_ok a -> byte_ok b ->
  0 <= a / 4 < 64 /\ 0 <= a mod 4 * 16 < 64 /\ 0 <= a mod 4 * 16 + b / 16 < 64 /\
  0 <= b mod 16 * 4 < 64 /\ 0 <= b mod 16 * 4 + a / 64 < 64 /\ 0 <= a mod 64 < 64.
Proof.
  unfold byte_ok. intros Ha Hb.
  pose proof (div_mod_bounds a 4 64). pose proof (div_mod_bounds b 16 16).
  pose proof (div_mod_bounds a 64 4). lia.
Qed.

Lemma b64_dec_enc d : bytes_ok d -> b64_dec (b64_enc d) = Some d.
Proof.
  induction d as [|a|a b|a b c l IH] using list_ind3; intros Hd; [done| | |].
  - apply Forall_cons in Hd as [Ha _]. destruct (b64_group a a Ha Ha) as (?&?&?&?&?&?).
    cbn [b64_enc b64_dec]. rewrite (proj1 (b64_char_ok (a / 4) ltac:(lia))).
    rewrite (proj1 (b64_char_ok (a mod 4 * 16) ltac:(lia))). simpl.
    rewrite Z.div_mul by lia. do 2 f_equal. pose proof (Z.div_mod a 4). lia.
  - apply Forall_cons in Hd as [Ha Hd]. apply Forall_cons in Hd as [Hb _].
    destruct (b64_group a b Ha Hb) as (?&?&?&?&?&?).
    cbn [b64_enc b64_dec]. rewrite (proj1 (b64_char_ok (a / 4) ltac:(lia))).
    rewrite (proj1 (b64_char_ok (a mod 4 * 16 + b / 16) ltac:(lia))).
    rewrite (proj1 (b64_char_ok (b mod 16 * 4) ltac:(lia))). simpl.
    unfold byte_ok in *. pose proof (div_mod_bounds b 16 16).
    rewrite Z.div_add_l, (Z.div_small (b / 16)) by lia.
    rewrite (Z.add_comm (a mod 4 * 16)), Z.mod_add, (Z.mod_small (b / 16)), Z.div_mul by lia.
    pose proof (Z.div_mod a 4). pose proof (Z.div_mod b 16). repeat f_equal; lia.
  - apply Forall_cons in Hd as [Ha Hd]. apply Forall_cons in Hd as [Hb Hd].
    apply Forall_cons in Hd as [Hc Hd].
    destruct (b64_group a b Ha Hb) as (?&?&?&?&?&?). destruct (b64_group c b Hc Hb) as (?&?&?&?&?&?).
    cbn [b64_enc b64_dec]. rewrite (proj1 (b64_char_ok (a / 4) ltac:(lia))).
    rewrite (proj1 (b64_char_ok (a mod 4 * 16 + b / 16) ltac:(lia))).
    rewrite (proj1 (b64_char_ok (b mod 16 * 4 + c / 64) ltac:(lia))).
    rewrite (proj1 (b64_char_ok (c mod 64) ltac:(lia))). simpl. rewrite (IH Hd). simpl.
    unfold byte_ok in *. pose proof (div_mod_bounds b 16 16). pose proof (div_mod_bounds c 64 4).
    rewrite Z.div_add_l, (Z.div_small (b / 16)) by lia.
    rewrite (Z.add_comm (a mod 4 * 16)), Z.mod_add, (Z.mod_small (b / 16)) by lia.
    rewrite Z.div_add_l, (Z.div_small (c / 64)) by lia.
    rewrite (Z.add_comm (b mod 16 * 4)), Z.mod_add, (Z.mod_small (c / 64)) by lia.
    pose proof (Z.div_mod a 4). pose proof (Z.div_mod b 16). pose proof (Z.div_mod c 64).
    repeat f_equal; lia.
Qed.

Lemma b64_form_step a b c e body pad n :
  is_b64_char a && is_b64_char b && is_b64_char c && is_b64_char e = true ->
  str_all is_b64_char body = true -> slen body = (4 * n + 2) / 3 ->
  exists body', String a (String b (String c (String e (body +:+ pad)))) = body' +:+ pad /\
    str_all is_b64_char body' = true /\ slen body' = (4 * (n + 3) + 2) / 3.
Proof.
  intros Hc Hb Hn. exists (String a (String b (String c (String e body)))).
  split_and!; [done| |].
  - cbn [str_all]. rewrite Hb. rewrite !andb_true_iff in Hc. rewrite !andb_true_iff. tauto.
  - unfold slen in *. cbn [String.length].
    replace (4 * (n + 3) + 2) with (4 * n + 2 + 4 * 3) by lia. rewrite Z.div_add by lia. lia.
Qed.

Lemma b64_enc_form d :
  bytes_ok d ->
  exists body pad, b64_enc d = body +:+ pad /\
    str_all is_b64_char body = true /\ slen body = (4 * zlen d + 2) / 3 /\
    str_all (fun a => Ascii.eqb a "="%char) pad = true.
Proof.
  induction d as [|a|a b|a b c l IH] using list_ind3; intros Hd.
  - exists "", "". done.
  - apply Forall_cons in Hd as [Ha _]. destruct (b64_group a a Ha Ha) as (?&?&?&?&?&?).
    exists (String (b64_char (a / 4)) (String (b64_char (a mod 4 * 16)) "")), "==".
    split_and!; [done| |done|done]. cbn [str_all].
    rewrite (proj2 (b64_char_ok (a / 4) ltac:(lia))).
    by rewrite (proj2 (b64_char_ok (a mod 4 * 16) ltac:(lia))).
  - apply Forall_cons in Hd as [Ha Hd]. apply Forall_cons in Hd as [Hb _].
    destruct (b64_group a b Ha Hb) as (?&?&?&?&?&?).
    exists (String (b64_char (a / 4)) (String (b64_char (a mod 4 * 16 + b / 16))
             (String (b64_char (b mod 16 * 4)) ""))), "=".
    split_and!; [done| |done|done]. cbn [str_all].
    rewrite (proj2 (b64_char_ok (a / 4) ltac:(lia))).
    rewrite (proj2 (b64_char_ok (a mod 4 * 16 + b / 16) ltac:(lia))).
    by rewrite (proj2 (b64_char_ok (b mod 16 * 4) ltac:(lia))).
  - apply Forall_cons in Hd as [Ha Hd]. apply Forall_cons in Hd as [Hb Hd].
    apply Forall_cons in Hd as [Hc Hd]. destruct (IH Hd) as (body & pad & E & Hb1 & Hn & Hp).
    destruct (b64_group a b Ha Hb) as (?&?&?&?&?&?). destruct (b64_group c b Hc Hb) as (?&?&?&?&?&?).
    cbn [b64_enc]. rewrite E.
    destruct (b64_form_step (b64_char (a / 4)) (b64_char (a mod 4 * 16 + b / 16))
      (b64_char (b mod 16 * 4 + c / 64)) (b64_char (c mod 64)) body pad (zlen l))
      as (body' & -> & ? & ?); [|done|done|].
    + rewrite (proj2 (b64_char_ok (a / 4) ltac:(lia))).
      rewrite (proj2 (b64_char_ok (a mod 4 * 16 + b / 16) ltac:(lia))).
      rewrite (proj2 (b64_char_ok (b mod 16 * 4 + c / 64) ltac:(lia))).
      by rewrite (proj2 (b64_char_ok (c mod 64) ltac:(lia))).
    + exists body', pad. split_and!; [done|done| |done].
      replace (zlen (a :: b :: c :: l)) with (zlen l + 3) by (unfold zlen; cbn [length]; lia).
      done.
Qed.

Definition toy_base64 : Base64 := {|
  b64_encode := b64_enc; b64_decode := b64_dec;
  b64_decode_encode := b64_dec_enc; b64_encode_form := b64_enc_form |}.

(** OpenPGP where a certificate is the name of its key, its fingerprint that
    name, and a signature the key and the data. *)
(** A signature is the hexadecimal form of the key and what it signed. *)
Definition toy_sequoia : Sequoia := {|
  cert := string; pgp_key := string; pgp_sig := string;
  cert_from_bytes := fun s =>
    match strip_prefix "CERT:" s with Some c => Ok c | None => Err "not a certificate" end;
  cert_serialize := fun c => "CERT:" +:+ c;
  cert_keys := fun c => [c];
  cert_fingerprint := fun c => c;
  packets_of := fun s =>
    match strip_prefix "SIG:" s ≫= hex_dec with
    | Some x => Ok [PktSignature (bytes_str x)]
    | None => match strip_prefix "CERT:" s with Some c => Ok [PktPublicKey c] | None => Err "no packets" end
    end;
  hash_context := fun _ => Ok tt;
  verify_hash := fun k s d => String.eqb s (k +:+ ":" +:+ d) |}.

Definition toy_sign (key data : string) : string := "SIG:" +:+ hex_enc (str_bytes (key +:+ ":" +:+ data)).

Lemma toy_sign_ok key data : str_ok (toy_sign key data).
Proof.
  apply ascii_str_ok. unfold toy_sign. cbn [str_all String.append].
  change (str_all is_ascii (hex_enc (str_bytes (key +:+ ":" +:+ data))) = true).
  eapply str_all_impl, (@hex_encode_digits toy_hex). apply hex_ascii.
Qed.

Lemma toy_packets key data :
  @packets_of toy_sequoia (toy_sign key data) = Ok [PktSignature (key +:+ ":" +:+ data)].
Proof.
  cbn [packets_of toy_sequoia]. unfold toy_sign. rewrite strip_prefix_app. cbn [mbind option_bind].
  pose proof (@hex_decode_encode toy_hex (str_bytes (key +:+ ":" +:+ data)) (str_bytes_ok _)) as E.
  cbn [hex_decode hex_encode toy_hex] in E. rewrite E. by rewrite bytes_str_bytes.
Qed.

Lemma toy_verify_hash key data :
  @verify_hash toy_sequoia key (key +:+ ":" +:+ data) data = true.
Proof. apply String.eqb_refl. Qed.

(** A key is its own secret. *)
Definition toy_secret : @SequoiaSecret toy_sequoia.
Proof.
  refine {| key_pair := string; key_secret := fun k : @pgp_key toy_sequoia => Ok (k : string);
            sign_stream := fun k _ data => Ok (str_bytes (toy_sign k data));
            tsk_armored := fun c : @cert toy_sequoia => ok_or (from_utf8 (str_bytes ("CERT:" +:+ c))) "utf8" |}.
  - intros k kp t d b [= <-] [= <-]. split; [apply (str_bytes_ok (toy_sign k d))|].
    exists (toy_sign k d), (k +:+ ":" +:+ d). split; [apply (from_utf8_str (toy_sign k d)), toy_sign_ok|].
    split_and!; [done|apply toy_packets|done|apply toy_verify_hash].
  - intros c a. unfold from_utf8. destruct (utf8_valid (str_bytes ("CERT:" +:+ c))) eqn:Eu; [|done].
    rewrite bytes_str_bytes. intros [= <-]. done.
Defined.

(** Compact printing; a string is quoted. *)
Fixpoint toy_fmt_value (v : value) : string :=
  match v with
  | VNull => "null"
  | VBool b => if b then "true" else "false"
  | VNumber (PosInt n) | VNumber (NegInt n) => pretty n
  | VNumber (Float x) => pretty (f64_to_i64 x)
  | VString s => "'" +:+ s +:+ "'"
  | VArray l => "[" +:+ (fix go l := match l with [] => "]" | v :: l' => toy_fmt_value v +:+ "," +:+ go l' end) l
  | VObject m =>
      "{" +:+ (fix go m := match m with [] => "}" | (k, v) :: m' => "'" +:+ k +:+ "':" +:+ toy_fmt_value v +:+ "," +:+ go m' end) m
  end.

Definition toy_format : Format := {|
  fmt_value := toy_fmt_value;
  fmt_f64 := fun x => pretty (f64_to_i64 x);
  fmt_value_int := fun _ _ => eq_refl |}.

(** A text format for flat objects: members separated by commas, the key in
    hexadecimal, then the value, [s] and hexadecimal, [i] and eight bytes, or
    [b] and a letter. *)
Definition toy_value (v : value) : string :=
  match v with
  | VString s => String "s"%char (hex_enc (str_bytes s))
  | VNumber (PosInt n) => String "i"%char (hex_enc (be_bytes 8 n))
  | VBool b => if b then "bt" else "bf"
  | _ => ""
  end.

Definition toy_member (kv : string * value) : string :=
  hex_enc (str_bytes kv.1) +:+ String ":"%char (toy_value kv.2).

Definition toy_print (v : value) : string :=
  match v with
  | VObject [] => ""
  | VObject m => join ","%char (toy_member <$> m)
  | _ => "?"
  end.

Definition toy_parse_member (s : string) : option (string * value) :=
  match split_on ":"%char s with
  | [k; String "s"%char v] => kb ← hex_dec k; vb ← hex_dec v; Some (bytes_str kb, VString (bytes_str vb))
  | [k; String "i"%char v] =>
      kb ← hex_dec k; vb ← hex_dec v; Some (bytes_str kb, VNumber (PosInt (from_be_bytes vb)))
  | [k; String "b"%char v] => kb ← hex_dec k; Some (bytes_str kb, VBool (String.eqb v "t"))
  | _ => None
  end.

Definition toy_parse (s : string) : option value :=
  if str_is_empty s then Some (VObject [])
  else VObject <$> mapM toy_parse_member (split_on ","%char s).

Lemma hex_enc_hex l : str_all is_ascii_hexdigit (hex_enc l) = true.
Proof. exact (@hex_encode_digits toy_hex l). Qed.

Lemma hex_dec_enc l : bytes_ok l -> hex_dec (hex_enc l) = Some l.
Proof. exact (@hex_decode_encode toy_hex l). Qed.

(** A list of words in hexadecimal digits. *)
Lemma hex_words (l : list string) : mapM hex_dec ((fun w => hex_enc (str_bytes w)) <$> l) = Some (str_bytes <$> l).
Proof.
  induction l as [|w l IH]; [done|]. rewrite !fmap_cons. cbn [mapM].
  rewrite hex_dec_enc by apply str_bytes_ok. simpl. by rewrite IH.
Qed.

Lemma words_of_bytes (l : list string) : bytes_str <$> (str_bytes <$> l) = l.
Proof. induction l as [|w l IH]; [done|]. rewrite !fmap_cons, bytes_str_bytes. by f_equal. Qed.

Lemma hex_no_char c l : is_ascii_hexdigit c = false -> no_char c (hex_enc l) = true.
Proof.
  intros Hc. eapply str_all_impl; [|apply hex_enc_hex]. intros a Ha. apply negb_true_iff.
  destruct (Ascii.eqb a c) eqn:E; [|done]. apply Ascii.eqb_eq in E. congruence.
Qed.

Lemma split_join c l :
  l <> [] -> Forall (fun p => no_char c p = true) l -> split_on c (join c l) = l.
Proof.
  intros Hne Hl. induction Hl as [|p l Hp Hl IH]; [done|]. destruct l as [|q l].
  - cbn [join]. by apply split_on_no_char.
  - cbn [join]. rewrite split_on_app by done. f_equal. by apply IH.
Qed.

Lemma toy_value_no_char c v :
  is_ascii_hexdigit c = false -> c <> "s"%char -> c <> "i"%char -> c <> "t"%char ->
  no_char c (toy_value v) = true.
Proof.
  intros Hc Hs Hi Ht. destruct v as [|b| [n| |] |s | |]; try done; cbn [toy_value]; unfold no_char; cbn [str_all].
  - assert (Hx : forall x, is_ascii_hexdigit x = true \/ x = "t"%char -> negb (Ascii.eqb x c) = true).
    { intros x Hx. apply negb_true_iff, Ascii.eqb_neq. intros ->. destruct Hx; congruence. }
    destruct b; cbn [str_all]; by rewrite !Hx by auto.
  - rewrite (proj2 (Ascii.eqb_neq _ _)) by congruence. by apply hex_no_char.
  - rewrite (proj2 (Ascii.eqb_neq _ _)) by congruence. by apply hex_no_char.
Qed.

Lemma toy_member_split kv :
  split_on ":"%char (toy_member kv) = [hex_enc (str_bytes kv.1); toy_value kv.2].
Proof.
  unfold toy_member. rewrite split_on_app by (by apply hex_no_char).
  by rewrite split_on_no_char by (by apply toy_value_no_char).
Qed.

Lemma be_bytes_ok n z : bytes_ok (be_bytes n z).
Proof.
  induction n as [|n IH]; [constructor|]. cbn [be_bytes]. constructor; [|done].
  unfold byte_ok. apply (wrap_range 8). lia.
Qed.

Lemma toy_member_parse kv : flat kv.2 -> toy_parse_member (toy_member kv) = Some kv.
Proof.
  intros Hf. unfold toy_parse_member. rewrite toy_member_split.
  destruct kv as [k [| | [n| |] |s | |]]; try done; cbn [fst snd toy_value].
  - pose proof (from_be_be_bytes 8 n Hf) as Hb. pose proof (be_bytes_ok 8 n) as Ho.
    set (b := be_bytes 8 n) in *. clearbody b. rewrite !hex_dec_enc by (done || apply str_bytes_ok).
    simpl. rewrite bytes_str_bytes. by rewrite Hb.
  - rewrite !hex_dec_enc by apply str_bytes_ok. simpl. by rewrite !bytes_str_bytes.
Qed.

Lemma toy_member_no_comma kv : no_char ","%char (toy_member kv) = true.
Proof.
  unfold toy_member, no_char. rewrite str_all_app. cbn [str_all].
  pose proof (hex_no_char ","%char (str_bytes kv.1) eq_refl) as H1.
  pose proof (toy_value_no_char ","%char kv.2 eq_refl ltac:(done) ltac:(done) ltac:(done)) as H2.
  unfold no_char in H1, H2. by rewrite H1, H2.
Qed.

Lemma toy_parse_print m :
  NoDup m.*1 -> Forall (fun kv => flat kv.2) m ->
  exists m', toy_parse (toy_print (VObject m)) = Some (VObject m') /\
    forall k, assoc k m' = assoc k m.
Proof.
  intros _ Hf. exists m. split; [|done].
  unfold toy_print. destruct m as [|kv m]; [done|].
  set (l := toy_member <$> kv :: m).
  assert (Hl : Forall (fun p => no_char ","%char p = true) l).
  { unfold l. apply Forall_fmap, Forall_forall. intros x _. apply toy_member_no_comma. }
  unfold toy_parse. rewrite split_join; [|done|done].
  assert (Hne : str_is_empty (join ","%char l) = false).
  { unfold l. rewrite fmap_cons. destruct kv as [k v]. unfold toy_member at 1. cbn [fst].
    destruct (toy_member <$> m); cbn [join]; by destruct (hex_enc (str_bytes k)). }
  rewrite Hne. unfold l. clear Hl Hne l.
  enough (E : mapM toy_parse_member (toy_member <$> kv :: m) = Some (kv :: m)) by (by rewrite E).
  revert Hf. generalize (kv :: m). clear kv m. intros m Hf.
  induction Hf as [|x m Hx _ IH]; [done|]. rewrite fmap_cons. cbn [mapM].
  rewrite toy_member_parse by done. simpl. by rewrite IH.
Qed.

Definition toy_json : JsonCodec := {|
  json_print := toy_print; json_parse := toy_parse; json_parse_print_flat := toy_parse_print |}.
