(* ===== verification/JsonTree.v ===== *)
(** * JSON of any shape, between two programs

    What serde_json promises of a value that one program prints and another
    parses, for values of any depth, and a concrete codec of which it holds. *)

From stdpp Require Import countable.
From S2P Require Import Prelude Text Primitives Json Concrete.

(** ** Values that can be printed, and what is read back

    Numbers of a [Value] are integers of 64 bits or finite doubles; the keys of
    an object are distinct. *)

Definition number_ok (n : number) : Prop :=
  match n with
  | PosInt n => 0 <= n < 2 ^ 64
  | NegInt n => i64_min <= n < 0
  | Float x => f64_finite x = true
  end.

Inductive printable : value -> Prop :=
| printable_null : printable VNull
| printable_bool b : printable (VBool b)
| printable_number n : number_ok n -> printable (VNumber n)
| printable_string s : printable (VString s)
| printable_array l : Forall printable l -> printable (VArray l)
| printable_object m : NoDup m.*1 -> Forall (fun kv => printable kv.2) m -> printable (VObject m).

(** A double that is an integer is read as it was printed; of the others the
    last place may change.  The order of the members of an object is not kept. *)
Definition same_number (n n' : number) : Prop :=
  match n, n' with
  | Float x, Float y => forall z, x = f64_of_Z z -> y = x
  | Float _, _ | _, Float _ => False
  | _, _ => n = n'
  end.

Inductive same_json : value -> value -> Prop :=
| same_null : same_json VNull VNull
| same_bool b : same_json (VBool b) (VBool b)
| same_num n n' : same_number n n' -> same_json (VNumber n) (VNumber n')
| same_string s : same_json (VString s) (VString s)
| same_array l l' : Forall2 same_json l l' -> same_json (VArray l) (VArray l')
| same_object m m' :
    (forall k, option_Forall2 same_json (assoc k m) (assoc k m')) -> same_json (VObject m) (VObject m').

Class JsonLaw `{JsonCodec} : Prop := {
  json_parse_print_tree v :
    printable v -> exists v', json_parse (json_print v) = Some v' /\ same_json v v';
}.

(** ** Reading members *)

Section reading.
Variables (m : list (string * value)) (v : value).
Hypothesis same : same_json (VObject m) v.

Lemma same_members : exists m', v = VObject m' /\ forall k, option_Forall2 same_json (assoc k m) (assoc k m').
Proof. inversion same; subst. by eexists. Qed.

Lemma same_member k w : assoc k m = Some w -> exists w', get v k = Some w' /\ same_json w w'.
Proof.
  intros Hk. destruct same_members as (m' & -> & Hm). specialize (Hm k). rewrite Hk in Hm.
  inversion Hm; subst. cbn [get]. by eexists.
Qed.

Lemma same_absent k : assoc k m = None -> get v k = None.
Proof.
  intros Hk. destruct same_members as (m' & -> & Hm). specialize (Hm k). rewrite Hk in Hm.
  by inversion Hm; subst.
Qed.

Lemma member_string k s : assoc k m = Some (VString s) -> get v k = Some (VString s).
Proof. intros (w & -> & Hw)%same_member. by inversion Hw. Qed.

Lemma member_bool k b : assoc k m = Some (VBool b) -> get v k = Some (VBool b).
Proof. intros (w & -> & Hw)%same_member. by inversion Hw. Qed.

Lemma member_null k : assoc k m = Some VNull -> get v k = Some VNull.
Proof. intros (w & -> & Hw)%same_member. by inversion Hw. Qed.

Lemma member_int k n : assoc k m = Some (json_int n) -> get v k = Some (json_int n).
Proof.
  intros (w & -> & Hw)%same_member. inversion Hw as [| |? n' Hn| | |]; subst. f_equal. f_equal.
  unfold json_int in *. destruct (n <? 0), n'; simpl in Hn; done || congruence.
Qed.

Lemma member_time k z :
  assoc k m = Some (VNumber (Float (f64_of_Z z))) -> get v k = Some (VNumber (Float (f64_of_Z z))).
Proof.
  intros (w & -> & Hw)%same_member. inversion Hw as [| |? n' Hn| | |]; subst.
  destruct n'; simpl in Hn; try done. by rewrite (Hn z).
Qed.

Lemma member_array k l :
  assoc k m = Some (VArray l) -> exists l', get v k = Some (VArray l') /\ Forall2 same_json l l'.
Proof. intros (w & -> & Hw)%same_member. inversion Hw; subst. by eexists. Qed.
End reading.
Arguments same_members {m v}.
Arguments same_member {m v}.
Arguments same_absent {m v}.
Arguments member_string {m v}.
Arguments member_bool {m v}.
Arguments member_null {m v}.
Arguments member_int {m v}.
Arguments member_time {m v}.
Arguments member_array {m v}.

(** ** A concrete codec

    A value as a tree of stdpp, its nodes and leaves as words: strings in
    hexadecimal digits, everything else by its number, in binary. *)

Definition value_tree_ind (P : value -> Prop)
    (Hn : P VNull) (Hb : forall b, P (VBool b)) (Hi : forall n, P (VNumber n)) (Hs : forall s, P (VString s))
    (Ha : forall l, Forall P l -> P (VArray l)) (Ho : forall m, Forall (fun kv => P kv.2) m -> P (VObject m)) :
    forall v, P v :=
  fix go v :=
    match v with
    | VNull => Hn | VBool b => Hb b | VNumber n => Hi n | VString s => Hs s
    | VArray l => Ha l ((fix all l : Forall P l :=
        match l with [] => Forall_nil_2 _ | v :: l' => Forall_cons_2 _ v l' (go v) (all l') end) l)
    | VObject m => Ho m ((fix all m : Forall (fun kv : string * value => P kv.2) m :=
        match m with [] => Forall_nil_2 _ | kv :: m' => Forall_cons_2 _ kv m' (go kv.2) (all m') end) m)
    end.

Lemma same_json_refl v : same_json v v.
Proof.
  induction v as [|b|n|s|l IH|m IH] using value_tree_ind; constructor.
  - by destruct n; simpl.
  - by induction IH; constructor.
  - intros k. induction IH as [|[k' v] m Hv _ IHm]; [constructor|]. cbn [assoc].
    destruct (String.eqb k k'); [by constructor|exact IHm].
Qed.

Definition scalar : Type := unit + bool + Z + Z + (bool + bool + unit + bool * positive * Z).
Abbreviation leaf := (string + scalar)%type.

Definition leaf_of_number (n : number) : scalar :=
  match n with
  | PosInt n => inl (inl (inr n))
  | NegInt n => inl (inr n)
  | Float (S754_zero s) => inr (inl (inl (inl s)))
  | Float (S754_infinity s) => inr (inl (inl (inr s)))
  | Float S754_nan => inr (inl (inr tt))
  | Float (S754_finite s m e) => inr (inr (s, m, e))
  end.

Definition value_of_scalar (x : scalar) : value :=
  match x with
  | inl (inl (inl (inl _))) => VNull
  | inl (inl (inl (inr b))) => VBool b
  | inl (inl (inr n)) => VNumber (PosInt n)
  | inl (inr n) => VNumber (NegInt n)
  | inr (inl (inl (inl s))) => VNumber (Float (S754_zero s))
  | inr (inl (inl (inr s))) => VNumber (Float (S754_infinity s))
  | inr (inl (inr _)) => VNumber (Float S754_nan)
  | inr (inr (s, m, e)) => VNumber (Float (S754_finite s m e))
  end.

Fixpoint to_tree (v : value) : gen_tree leaf :=
  match v with
  | VNull => GenLeaf (inr (inl (inl (inl (inl tt)))))
  | VBool b => GenLeaf (inr (inl (inl (inl (inr b)))))
  | VNumber n => GenLeaf (inr (leaf_of_number n))
  | VString s => GenLeaf (inl s)
  | VArray l => GenNode 0 (to_tree <$> l)
  | VObject m => GenNode 1 ((fun '(k, v) => GenNode 2 [GenLeaf (inl k); to_tree v]) <$> m)
  end.

Fixpoint of_tree (t : gen_tree leaf) : option value :=
  match t with
  | GenLeaf (inl s) => Some (VString s)
  | GenLeaf (inr x) => Some (value_of_scalar x)
  | GenNode 0 l => VArray <$> mapM of_tree l
  | GenNode 1 l =>
      VObject <$> mapM (fun t => match t with
                                 | GenNode 2 [GenLeaf (inl k); t'] => pair k <$> of_tree t'
                                 | _ => None
                                 end) l
  | GenNode _ _ => None
  end.

Lemma of_to_tree v : of_tree (to_tree v) = Some v.
Proof.
  induction v as [|b|n|s|l IH|m IH] using value_tree_ind; try done.
  - by destruct n as [n|n|[| | |]].
  - cbn [to_tree of_tree]. enough (E : mapM of_tree (to_tree <$> l) = Some l) by (by rewrite E).
    induction IH as [|v l Hv _ IHl]; [done|]. rewrite fmap_cons. cbn [mapM]. rewrite Hv. simpl. by rewrite IHl.
  - cbn [to_tree of_tree]. set (f := fun t => _). set (g := fun kv => _).
    enough (E : mapM f (g <$> m) = Some m) by (by rewrite E).
    induction IH as [|[k v] m Hv _ IHm]; [done|]. rewrite fmap_cons. cbn [mapM]. cbn [snd] in Hv.
    assert (f (g (k, v)) = Some (k, v)) as -> by (unfold f, g; by rewrite Hv). simpl. by rewrite IHm.
Qed.

(** *** Words *)

Fixpoint bits (p : positive) : string :=
  match p with
  | xH => ""
  | xO p => String "0" (bits p)
  | xI p => String "1" (bits p)
  end.

Fixpoint of_bits (s : string) : positive :=
  match s with
  | EmptyString => xH
  | String a s => if Ascii.eqb a "1" then xI (of_bits s) else xO (of_bits s)
  end.

Lemma of_bits_bits p : of_bits (bits p) = p.
Proof. induction p as [p IH|p IH|]; cbn [bits of_bits Ascii.eqb]; [by f_equal|by f_equal|done]. Qed.

Abbreviation word := (nat * nat + leaf)%type.

Definition word_text (w : word) : string :=
  match w with
  | inr (inl s) => String "s" (hex_enc (str_bytes s))
  | inr (inr x) => String "x" (bits (encode (inr x : nat * nat + scalar)))
  | inl n => String "x" (bits (encode (inl n : nat * nat + scalar)))
  end.

Definition read_word (t : string) : option word :=
  match t with
  | String a t =>
      if Ascii.eqb a "s" then (fun b => inr (inl (bytes_str b))) <$> hex_dec t
      else (fun w : nat * nat + scalar => match w with inl n => inl n | inr x => inr (inr x) end) <$>
             decode (of_bits t)
  | EmptyString => None
  end.

Lemma read_word_text w : read_word (word_text w) = Some w.
Proof.
  destruct w as [n|[s|x]]; cbn [word_text read_word].
  - change (Ascii.eqb "x" "s") with false. by rewrite of_bits_bits, decode_encode.
  - change (Ascii.eqb "s" "s") with true. rewrite hex_dec_enc by apply str_bytes_ok. simpl.
    by rewrite bytes_str_bytes.
  - change (Ascii.eqb "x" "s") with false. by rewrite of_bits_bits, decode_encode.
Qed.

Lemma word_text_no_comma w : no_char "," (word_text w) = true.
Proof.
  assert (Hb : forall p, no_char "," (bits p) = true).
  { unfold no_char. induction p; simpl; done. }
  destruct w as [n|[s|x]]; unfold no_char in *; cbn [word_text str_all].
  - by rewrite Hb.
  - pose proof (hex_no_char "," (str_bytes s) eq_refl) as Hs. unfold no_char in Hs. by rewrite Hs.
  - by rewrite Hb.
Qed.

(** *** The codec *)

Definition tree_print (v : value) : string := join "," ("" :: (word_text <$> gen_tree_to_list (to_tree v))).

Definition tree_parse (t : string) : option value :=
  ws ← mapM read_word (drop 1 (split_on "," t)); tr ← gen_tree_of_list [] ws; of_tree tr.

Lemma tree_parse_print v : tree_parse (tree_print v) = Some v.
Proof.
  unfold tree_parse, tree_print. rewrite split_join; [|done|].
  2:{ constructor; [done|]. apply Forall_fmap, Forall_forall. intros w _. apply word_text_no_comma. }
  set (ws := gen_tree_to_list _). change (drop 1 _) with (word_text <$> ws).
  assert (E : mapM read_word (word_text <$> ws) = Some ws).
  { clear. induction ws as [|w ws IH]; [done|]. rewrite fmap_cons. cbn [mapM]. rewrite read_word_text. simpl. by rewrite IH. }
  rewrite E. simpl. unfold ws. rewrite <- (app_nil_r (gen_tree_to_list _)), gen_tree_of_to_list. simpl. apply of_to_tree.
Qed.

Definition tree_json : JsonCodec.
Proof.
  refine {| json_print := tree_print; json_parse := tree_parse |}.
  intros m _ _. exists m. by rewrite tree_parse_print.
Defined.

Lemma tree_json_law : @JsonLaw tree_json.
Proof. constructor. intros v _. exists v. split; [apply tree_parse_print|apply same_json_refl]. Qed.

(** A text of the codec: nothing but hexadecimal digits, letters and commas. *)
Lemma tree_text : tree_print (VObject [("ok", VBool true)]) <> "" /\
  tree_parse (tree_print (VArray [VNull; VObject [("a", VNumber (NegInt (-3)))]])) =
    Some (VArray [VNull; VObject [("a", VNumber (NegInt (-3)))]]).
Proof. split; [discriminate|apply tree_parse_print]. Qed.
