(* ===== verification/Constants.v ===== *)
(** * Protocol constants (src/protocol/src/constants.rs) *)

From S2P Require Import Prelude.

(** Source: protocol/src/constants.rs:21-21, K_BUCKET_SIZE. *)
Definition K_BUCKET_SIZE : Z := 8.
(** Source: protocol/src/constants.rs:22-22, MAX_STORE_PER_KEY. *)
Definition MAX_STORE_PER_KEY : Z := 100.
(** Seconds: 24 hours. Source: protocol/src/constants.rs:23-23, STORE_TTL. *)
Definition STORE_TTL : Z := 86400.
(** Seconds: 7 days. Source: protocol/src/constants.rs:24-26, MAX_TTL. *)
Definition MAX_TTL : Z := 604800.
(** Bytes. Source: protocol/src/constants.rs:27-29, MAX_KEY_SIZE. *)
Definition MAX_KEY_SIZE : Z := 256.
(** Seconds: 2 hours. Source: protocol/src/constants.rs:30-30, ADDR_TTL. *)
Definition ADDR_TTL : Z := 7200.
(** Seconds: 5 minutes. Source: protocol/src/constants.rs:31-31, POW_MAX_AGE. *)
Definition POW_MAX_AGE : Z := 300.
(** Bytes. Source: protocol/src/constants.rs:32-32, MAX_VALUE_SIZE. *)
Definition MAX_VALUE_SIZE : Z := 4096.
(** Source: protocol/src/constants.rs:33-33, MAX_TOTAL_KEYS. *)
Definition MAX_TOTAL_KEYS : Z := 1000000.

(** Source: protocol/src/constants.rs:36-36, DHT_POW_MEMORY_COST. *)
Definition DHT_POW_MEMORY_COST : Z := 16384.
(** Source: protocol/src/constants.rs:37-37, DHT_POW_TIME_COST. *)
Definition DHT_POW_TIME_COST : Z := 3.
(** Source: protocol/src/constants.rs:38-38, DHT_POW_PARALLELISM. *)
Definition DHT_POW_PARALLELISM : Z := 1.
(** Source: protocol/src/constants.rs:39-39, DHT_POW_HASH_LEN. *)
Definition DHT_POW_HASH_LEN : Z := 32.
(** Source: protocol/src/constants.rs:40-40, DHT_POW_DIFFICULTY. *)
Definition DHT_POW_DIFFICULTY : Z := 16.
(** Source: protocol/src/constants.rs:42-44, MIN_POW_DIFFICULTY. *)
Definition MIN_POW_DIFFICULTY : Z := 8.
(** Source: protocol/src/constants.rs:46-49, ADDR_POW_DIFFICULTY. *)
Definition ADDR_POW_DIFFICULTY : Z := 12.

(** Source: protocol/src/constants.rs:58-59, POW_SALT. *)
Definition POW_SALT : bytes := str_bytes "nullnode-dht-pow".

(** Source: protocol/src/constants.rs:71-71, CONN_RATE_LIMIT. *)
Definition CONN_RATE_LIMIT : Z := 50.
(** Seconds. Source: protocol/src/constants.rs:72-72, CONN_RATE_WINDOW. *)
Definition CONN_RATE_WINDOW : Z := 60.

(** Source: protocol/src/constants.rs:88-88, MSG_P2P_BRAID_CHUNK. *)
Definition MSG_P2P_BRAID_CHUNK : string := "p2p-braid-chunk".
(** Source: protocol/src/constants.rs:82-82, MSG_P2P_HELLO. *)
Definition MSG_P2P_HELLO : string := "p2p-hello".
(** Source: protocol/src/constants.rs:83-83, MSG_P2P_HELLO_ACK. *)
Definition MSG_P2P_HELLO_ACK : string := "p2p-hello-ack".
(** Source: protocol/src/constants.rs:84-84, MSG_P2P_MESSAGE. *)
Definition MSG_P2P_MESSAGE : string := "p2p-message".
(** Source: protocol/src/constants.rs:85-85, MSG_P2P_ACK. *)
Definition MSG_P2P_ACK : string := "p2p-ack".
(** Source: protocol/src/constants.rs:86-86, MSG_P2P_PING. *)
Definition MSG_P2P_PING : string := "p2p-ping".
(** Source: protocol/src/constants.rs:87-87, MSG_P2P_PONG. *)
Definition MSG_P2P_PONG : string := "p2p-pong".
(** Source: protocol/src/constants.rs:97-97, MSG_P2P_RECEIPT. *)
Definition MSG_P2P_RECEIPT : string := "p2p-receipt".
