(* ===== verification/Gpg.v ===== *)
(** * Detached OpenPGP signatures (src/protocol/src/gpg.rs)

    Only the code of the file is modelled; certificates, keys, packets and the
    signature check itself belong to Sequoia and come through [Sequoia]. *)

From S2P Require Import Prelude Primitives.

Section gpg.
Context `{Sequoia}.

(** The loop over the packets of the signature file: the first signature that
    verifies under the key decides; an unknown hash algorithm stops it.
    Source: protocol/src/gpg.rs:90-107, verify_detached. *)
Fixpoint check_packets (k : pgp_key) (data : string) (pile : list (packet pgp_sig))
  : result string bool :=
  match pile with
  | [] => Ok false
  | PktSignature s :: rest =>
      match hash_context s with
      | Err e => Err ("hash context: " +:+ e)
      | Ok _ => if verify_hash k s data then Ok true else check_packets k data rest
      end
  | (PktPublicKey _ | PktOther) :: rest => check_packets k data rest
  end.

(** Source: protocol/src/gpg.rs:72-108, verify_detached. *)
Definition verify_detached (sig_armored data : string) (c : cert) : result string bool :=
  match packets_of sig_armored with
  | Err e => Err ("parse signature: " +:+ e)
  | Ok pile =>
      match cert_keys c with
      | [] => Err "no key found in certificate"
      | k :: _ => check_packets k data pile
      end
  end.

(** Source: protocol/src/gpg.rs:134-137, cert_from_armored. *)
Definition cert_from_armored (armored : string) : result string cert :=
  match cert_from_bytes armored with
  | Ok c => Ok c
  | Err e => Err ("parse armored cert: " +:+ e)
  end.

(** Source: protocol/src/gpg.rs:124-132, cert_fingerprint and fingerprint_from_cert. *)
Definition fingerprint_from_cert (c : cert) : string := cert_fingerprint c.

(** [data] carries a signature that verifies under the first key of [c]. *)
Definition signed_by (c : cert) (sig_armored data : string) : Prop :=
  exists pile k ks s,
    packets_of sig_armored = Ok pile /\ cert_keys c = k :: ks /\
    PktSignature s ∈ pile /\ verify_hash k s data = true.

(** ** Signing *)

Context `{!SequoiaSecret}.

(** The first key of the certificate signs. Source: protocol/src/gpg.rs:26-70, sign_detached. *)
Definition sign_detached (now : Z) (data : string) (c : cert) : result string string :=
  let? k := ok_or (head (cert_keys c)) "no key found in certificate" in
  let? keypair := key_secret k in
  let? sig_buf := sign_stream keypair now data in
  ok_or (from_utf8 sig_buf) "sig UTF-8".

(** [generated] is what Sequoia's builder made.
    Source: protocol/src/gpg.rs:139-162, generate_keypair. *)
Definition generate_keypair (generated : result string cert) : result string (cert * key_pair) :=
  let? c := match generated with Ok c => Ok c | Err e => Err ("key generation: " +:+ e) end in
  let? k := ok_or (head (cert_keys c)) "no secret key after generation" in
  let? keypair := key_secret k in
  Ok (c, keypair).

Lemma check_packets_true k data pile :
  check_packets k data pile = Ok true ->
  exists s, PktSignature s ∈ pile /\ verify_hash k s data = true.
Proof.
  induction pile as [|[s| |] pile IH]; intros Hc; simpl in Hc; [done| |..].
  - destruct (hash_context s); [|done]. destruct (verify_hash k s data) eqn:E.
    + exists s. split; [by left|done].
    + destruct (IH Hc) as (s' & ? & ?). exists s'. split; [by right|done].
  - destruct (IH Hc) as (s' & ? & ?). exists s'. split; [by right|done].
  - destruct (IH Hc) as (s' & ? & ?). exists s'. split; [by right|done].
Qed.

Lemma verify_detached_sound sig_armored data c :
  verify_detached sig_armored data c = Ok true -> signed_by c sig_armored data.
Proof.
  unfold verify_detached, signed_by. destruct (packets_of sig_armored) as [pile|]; [|done].
  destruct (cert_keys c) as [|k ks]; [done|].
  intros (s & ? & ?)%check_packets_true. naive_solver.
Qed.

(** What a certificate signs verifies under it. *)
Lemma verify_sign now data c txt :
  sign_detached now data c = Ok txt -> verify_detached txt data c = Ok true /\ txt <> "" /\ str_ok txt.
Proof.
  unfold sign_detached, verify_detached. destruct (cert_keys c) as [|k ks] eqn:Ek; [done|]. cbn [head ok_or rbind].
  destruct (key_secret k) as [kp|] eqn:Es; [|done]. cbn [rbind].
  destruct (sign_stream kp now data) as [b|] eqn:Eb; [|done]. cbn [rbind].
  destruct (sign_stream_verifies k kp now data b Es Eb) as (Hok & t & s & Ht & Hne & Hp & Hh & Hv).
  rewrite Ht. intros [= <-]. rewrite Hp. cbn [check_packets]. rewrite Hh, Hv. split_and!; [done|done|].
  unfold from_utf8 in Ht. unfold str_ok. destruct (utf8_valid b) eqn:Eu; [|done]. injection Ht as <-.
  by rewrite str_bytes_str.
Qed.

(** A generated key pair signs for the certificate it comes with. *)
Lemma generated_signs generated c kp now data b :
  generate_keypair generated = Ok (c, kp) -> sign_stream kp now data = Ok b ->
  exists txt, from_utf8 b = Some txt /\ sign_detached now data c = Ok txt.
Proof.
  unfold generate_keypair, sign_detached. destruct generated as [c0|]; [|done]. cbn [rbind].
  destruct (cert_keys c0) as [|k ks] eqn:Ek; [done|]. cbn [head ok_or rbind].
  destruct (key_secret k) as [kp0|] eqn:Es; [|done]. cbn [rbind]. intros [= <- <-] Eb. rewrite Ek.
  cbn [head ok_or rbind]. rewrite Es. cbn [rbind]. rewrite Eb. cbn [rbind].
  destruct (sign_stream_verifies k kp0 now data b Es Eb) as (_ & t & _ & Ht & _). rewrite Ht. by exists t.
Qed.

(** Unsigned data is never accepted, whatever the certificate. *)
Lemma verify_detached_no_signature sig_armored data c :
  (forall s pile, packets_of sig_armored = Ok pile -> PktSignature s ∉ pile) ->
  verify_detached sig_armored data c <> Ok true.
Proof. intros Hn (pile & k & ks & s & Hp & _ & Hin & _)%verify_detached_sound. by eapply Hn. Qed.
End gpg.
