(* ===== verification/Braid.v ===== *)
(** * The SPQR braid handshake (src/protocol/src/braid.rs)

    Splitting of an encapsulation key into 64-byte chunks, the receiving state
    machine [BraidHandshake] and the reconstruction of the key. *)

From S2P Require Import Prelude Primitives Concrete.

(** Source: protocol/src/braid.rs:56-57, BraidHandshake::CHUNK_SIZE. *)
Definition CHUNK_SIZE : nat := 64.

Lemma CHUNK_SIZE_pos : (0 < CHUNK_SIZE)%nat.
Proof. unfold CHUNK_SIZE. lia. Qed.
#[local] Hint Resolve CHUNK_SIZE_pos : core.

(** Source: protocol/src/braid.rs:20-33, BraidChunk. *)
Record BraidChunk : Type := mkBraidChunk {
  chunk_num : Z;          (* u32 *)
  total_chunks : Z;       (* u32 *)
  ek_hash : bytes;
  seed : bytes;
  payload : bytes;
}.

(** Source: protocol/src/braid.rs:35-42, BraidHandshake. *)
Record BraidHandshake : Type := mkBraidHandshake {
  hs_total_chunks : Z;    (* u32 *)
  received_chunks : list BraidChunk;
  hs_ek_hash : bytes;
  complete : bool;
}.

(** [BraidHandshake::new]. Source: protocol/src/braid.rs:45-54, BraidHandshake::new. *)
Definition new : BraidHandshake :=
  mkBraidHandshake 0 [] (replicate 64 0) false.

(** The block that runs on the first chunk. Source: protocol/src/braid.rs:69-73, BraidHandshake::add_chunk. *)
Definition init_on_first (chunk : BraidChunk) (h : BraidHandshake) : BraidHandshake :=
  if hs_total_chunks h =? 0
  then mkBraidHandshake (total_chunks chunk) (received_chunks h) (ek_hash chunk) (complete h)
  else h.

(** [received_chunks.push(chunk)] and the completion test. Source: protocol/src/braid.rs:87-94, BraidHandshake::add_chunk. *)
Definition push_chunk (chunk : BraidChunk) (h : BraidHandshake) : BraidHandshake :=
  let rc := received_chunks h ++ [chunk] in
  mkBraidHandshake (hs_total_chunks h) rc (hs_ek_hash h)
    (if zlen rc =? hs_total_chunks h then true else complete h).

(** Source: protocol/src/braid.rs:80-85, BraidHandshake::add_chunk. *)
Definition is_duplicate (chunk : BraidChunk) (h : BraidHandshake) : bool :=
  existsb (fun c => chunk_num c =? chunk_num chunk) (received_chunks h).

(** [BraidHandshake::add_chunk]. Source: protocol/src/braid.rs:59-95, BraidHandshake::add_chunk. *)
Definition add_chunk (chunk : BraidChunk) : st BraidHandshake string bool :=
  do! st_guard (chunk_num chunk <? total_chunks chunk)
        ("chunk_num " +:+ pretty (chunk_num chunk)
         +:+ " >= total_chunks " +:+ pretty (total_chunks chunk));
  do! st_modify (init_on_first chunk);
  do h <- st_get;
  do! st_guard (bool_decide (hs_ek_hash h = ek_hash chunk)) "ek_hash mismatch";
  do! st_guard (negb (is_duplicate chunk h)) "duplicate chunk";
  do! st_modify (push_chunk chunk);
  do h' <- st_get;
  st_ret (complete h').

(** [key[start..end].copy_from_slice(data)]. Source: protocol/src/braid.rs:105-105, BraidHandshake::reconstruct_enc_key. *)
Definition write_at (start : nat) (data key : bytes) : bytes :=
  take start key ++ data ++ drop (start + length data) key.

(** One turn of the loop. Source: protocol/src/braid.rs:101-107, BraidHandshake::reconstruct_enc_key. *)
Definition place_chunk (key : bytes) (c : BraidChunk) : bytes :=
  let start := chunk_num c * Z.of_nat CHUNK_SIZE in
  let data := take CHUNK_SIZE (payload c) in
  if start + zlen data <=? zlen key then write_at (Z.to_nat start) data key else key.

(** [BraidHandshake::reconstruct_enc_key]. Source: protocol/src/braid.rs:97-109, BraidHandshake::reconstruct_enc_key. *)
Definition reconstruct_enc_key (h : BraidHandshake) (key_len : nat) : bytes :=
  foldl place_chunk (replicate key_len 0) (received_chunks h).

(** [split_key_to_chunks]. Source: protocol/src/braid.rs:120-140, split_key_to_chunks. *)
Definition split_key_to_chunks `{Sha2} (key : bytes) : list BraidChunk :=
  let total := div_ceil (length key) CHUNK_SIZE in
  let hash := sha512 key in
  let sd := take (Nat.min 32 (length key)) key in
  imap (fun i chunk => mkBraidChunk (u32 (Z.of_nat i)) (u32 (Z.of_nat total)) hash sd chunk)
       (chunks CHUNK_SIZE key).

(** The receiving loop: chunks are added in order of arrival. *)
Fixpoint feed (cs : list BraidChunk) (h : BraidHandshake) : BraidHandshake * result string bool :=
  match cs with
  | [] => (h, Ok (complete h))
  | c :: cs' =>
      match add_chunk c h with
      | (h', Ok _) => feed cs' h'
      | (h', Err e) => (h', Err e)
      end
  end.

(** A peer sends any chunks it likes; the results are ignored. *)
Definition run (cs : list BraidChunk) (h : BraidHandshake) : BraidHandshake :=
  foldl (fun h c => fst (add_chunk c h)) h cs.

(** ** Functional behaviour of [add_chunk] *)

Inductive chunk_verdict : Type := Accept | OutOfBounds | HashMismatch | Duplicate.

Definition verdict (c : BraidChunk) (h : BraidHandshake) : chunk_verdict :=
  if negb (chunk_num c <? total_chunks c) then OutOfBounds
  else if bool_decide (hs_ek_hash (init_on_first c h) = ek_hash c) then
    if is_duplicate c h then Duplicate else Accept
  else HashMismatch.

Lemma init_received c h : received_chunks (init_on_first c h) = received_chunks h.
Proof. unfold init_on_first. by destruct (_ =? _). Qed.

Lemma add_chunk_eq c h :
  add_chunk c h =
    match verdict c h with
    | OutOfBounds => (h, Err ("chunk_num " +:+ pretty (chunk_num c)
                              +:+ " >= total_chunks " +:+ pretty (total_chunks c)))
    | HashMismatch => (init_on_first c h, Err "ek_hash mismatch")
    | Duplicate => (init_on_first c h, Err "duplicate chunk")
    | Accept => let h' := push_chunk c (init_on_first c h) in (h', Ok (complete h'))
    end.
Proof.
  unfold add_chunk, verdict, st_bind, st_guard, st_modify, st_get, st_ret, st_fail.
  destruct (chunk_num c <? total_chunks c); cbn [negb]; [|done].
  assert (is_duplicate c (init_on_first c h) = is_duplicate c h) as ->.
  { unfold is_duplicate. by rewrite init_received. }
  case_bool_decide; [|done]. by destruct (is_duplicate c h).
Qed.

(** What every handshake reached from [new] satisfies. *)
Record hs_inv (h : BraidHandshake) : Prop := {
  inv_nodup : NoDup (chunk_num <$> received_chunks h);
  inv_hash : Forall (fun c => ek_hash c = hs_ek_hash h) (received_chunks h);
  inv_start : hs_total_chunks h = 0 <-> received_chunks h = [];
  inv_nonneg : 0 <= hs_total_chunks h;
  inv_complete :
    complete h = true <->
    received_chunks h <> [] /\ hs_total_chunks h <= zlen (received_chunks h);
}.

Definition chunk_ok (c : BraidChunk) : Prop :=
  0 <= chunk_num c < 2 ^ 32 /\ 0 <= total_chunks c < 2 ^ 32.

Lemma new_inv : hs_inv new.
Proof. split; simpl; [constructor|constructor|done|lia|]. split; [done|]. by intros []. Qed.

Lemma is_duplicate_spec c h :
  is_duplicate c h = true <-> chunk_num c ∈ chunk_num <$> received_chunks h.
Proof.
  unfold is_duplicate. rewrite existsb_exists, list_elem_of_fmap.
  split.
  - intros (x & Hx & E%Z.eqb_eq). exists x. by rewrite list_elem_of_In.
  - intros (x & E & Hx). exists x. rewrite <- list_elem_of_In, Z.eqb_eq. done.
Qed.

Lemma init_inv c h : hs_inv h -> chunk_num c < total_chunks c -> 0 <= chunk_num c ->
  let h1 := init_on_first c h in
  NoDup (chunk_num <$> received_chunks h1) /\
  Forall (fun d => ek_hash d = hs_ek_hash h1) (received_chunks h1) /\
  0 < hs_total_chunks h1 /\
  (complete h1 = true <->
     received_chunks h1 <> [] /\ hs_total_chunks h1 <= zlen (received_chunks h1)).
Proof.
  intros [Hnd Hh Hs Hn Hc] Hlt H0. unfold init_on_first.
  destruct (Z.eqb_spec (hs_total_chunks h) 0) as [E|E]; simpl.
  - pose proof (proj1 Hs E) as Hnil. rewrite Hnil in *. simpl.
    split_and!; [constructor|constructor|lia|]. split; [|by intros []].
    intros Hx%Hc. by destruct Hx.
  - split_and!; try done. lia.
Qed.

Lemma started_init_id c h : hs_total_chunks h <> 0 -> init_on_first c h = h.
Proof. intros E. unfold init_on_first. by destruct (Z.eqb_spec (hs_total_chunks h) 0). Qed.

Lemma verdict_spec c h :
  hs_inv h ->
  match verdict c h with
  | Accept => chunk_num c < total_chunks c /\
              (received_chunks h = [] \/ ek_hash c = hs_ek_hash h) /\
              chunk_num c ∉ chunk_num <$> received_chunks h
  | OutOfBounds => total_chunks c <= chunk_num c
  | HashMismatch => received_chunks h <> [] /\ ek_hash c <> hs_ek_hash h
  | Duplicate => chunk_num c ∈ chunk_num <$> received_chunks h
  end.
Proof.
  intros Hi. unfold verdict.
  destruct (Z.ltb_spec (chunk_num c) (total_chunks c)) as [Hlt|Hge]; simpl; [|done].
  case_bool_decide as Hh.
  - pose proof (is_duplicate_spec c h) as Hd. destruct (is_duplicate c h); [by apply Hd|].
    split_and!; [done| |by rewrite <- Hd].
    destruct (decide (hs_total_chunks h = 0)) as [E|E]; [left; by apply Hi|right].
    by rewrite started_init_id in Hh.
  - assert (hs_total_chunks h <> 0) as E.
    { intros E. unfold init_on_first in Hh. by rewrite E in Hh. }
    rewrite started_init_id in Hh by done. split; [|done]. by rewrite <- (inv_start _ Hi).
Qed.

(** An accepted or rejected chunk keeps the invariant, except for a rejected
    chunk that reaches the machine while it is empty, which cannot happen:
    on an empty machine a chunk inside its bounds is accepted. *)
Lemma first_chunk_accepted c h :
  received_chunks h = [] -> hs_total_chunks h = 0 -> chunk_num c < total_chunks c ->
  verdict c h = Accept.
Proof.
  intros Hr Ht Hlt. unfold verdict, init_on_first, is_duplicate.
  rewrite Hr, Ht. simpl. rewrite bool_decide_true by done.
  destruct (Z.ltb_spec (chunk_num c) (total_chunks c)); [done|lia].
Qed.

Lemma push_inv c h1 :
  NoDup (chunk_num <$> received_chunks h1) ->
  Forall (fun d => ek_hash d = hs_ek_hash h1) (received_chunks h1) ->
  0 < hs_total_chunks h1 ->
  (complete h1 = true <->
     received_chunks h1 <> [] /\ hs_total_chunks h1 <= zlen (received_chunks h1)) ->
  hs_ek_hash h1 = ek_hash c -> is_duplicate c h1 = false ->
  hs_inv (push_chunk c h1).
Proof.
  intros Hnd Hh Hpos Hc He Hd. split; unfold push_chunk; simpl.
  - rewrite fmap_app. simpl. apply NoDup_app. split_and!; [done| |apply NoDup_singleton].
    intros x Hx Hin%list_elem_of_singleton. subst.
    rewrite <- is_duplicate_spec in Hx. congruence.
  - apply Forall_app. split; [done|]. by constructor.
  - split; intros E; [lia|]. by destruct (app_cons_not_nil _ _ _ (eq_sym E)).
  - lia.
  - assert (zlen (received_chunks h1 ++ [c]) = zlen (received_chunks h1) + 1) as Hl.
    { unfold zlen. rewrite length_app. simpl. lia. }
    rewrite Hl. destruct (Z.eqb_spec (zlen (received_chunks h1) + 1) (hs_total_chunks h1)).
    + split; [|done]. intros _. split; [|lia].
      intros E. by destruct (app_cons_not_nil _ _ _ (eq_sym E)).
    + rewrite Hc. split.
      * intros [_ ?]. split; [|lia].
        intros E. by destruct (app_cons_not_nil _ _ _ (eq_sym E)).
      * intros [_ ?]. split; [|lia].
        intros E. rewrite E in *. unfold zlen in *. simpl in *. lia.
Qed.

Lemma add_chunk_inv c h : chunk_ok c -> hs_inv h -> hs_inv (fst (add_chunk c h)).
Proof.
  intros [[Hc _] _] Hi. rewrite add_chunk_eq.
  destruct (verdict c h) eqn:Ev; [| done | |]; simpl.
  - unfold verdict in Ev.
    destruct (Z.ltb_spec (chunk_num c) (total_chunks c)); [simpl in Ev|done].
    case_bool_decide as Hh; [|done].
    destruct (is_duplicate c h) eqn:Ed; [done|].
    destruct (init_inv c h) as (? & ? & ? & ?); try done.
    apply push_inv; try done. rewrite <- Ed. unfold is_duplicate. by rewrite init_received.
  - destruct (decide (hs_total_chunks h = 0)) as [E|E]; [|by rewrite started_init_id].
    rewrite first_chunk_accepted in Ev; [done|apply Hi; done|done|].
    unfold verdict in Ev. by destruct (Z.ltb_spec (chunk_num c) (total_chunks c)).
  - destruct (decide (hs_total_chunks h = 0)) as [E|E]; [|by rewrite started_init_id].
    rewrite first_chunk_accepted in Ev; [done|apply Hi; done|done|].
    unfold verdict in Ev. by destruct (Z.ltb_spec (chunk_num c) (total_chunks c)).
Qed.

(** ** Reconstruction *)

Lemma length_write_at start data key :
  (start + length data <= length key)%nat ->
  length (write_at start data key) = length key.
Proof. intros. unfold write_at. rewrite !length_app, length_take, length_drop. lia. Qed.

Lemma lookup_write_at start data key (j : nat) :
  (start + length data <= length key)%nat ->
  write_at start data key !! j =
    if decide (start <= j < start + length data)%nat
    then data !! (j - start)%nat else key !! j.
Proof.
  intros Hle. unfold write_at. case_decide as Hj.
  - rewrite lookup_app_r by (rewrite length_take; lia).
    rewrite length_take, Nat.min_l by lia. rewrite lookup_app_l by lia. done.
  - destruct (decide (j < start)%nat).
    + rewrite lookup_app_l by (rewrite length_take; lia). by rewrite lookup_take_lt.
    + rewrite lookup_app_r by (rewrite length_take; lia).
      rewrite length_take, Nat.min_l by lia. rewrite lookup_app_r by lia.
      rewrite lookup_drop. f_equal. lia.
Qed.

(** The chunk that carries the [i]-th slice of [key]. *)
Definition slice_of (key : bytes) (c : BraidChunk) : Prop :=
  0 <= chunk_num c /\
  (Z.to_nat (chunk_num c) * CHUNK_SIZE < length key)%nat /\
  payload c = take CHUNK_SIZE (drop (Z.to_nat (chunk_num c) * CHUNK_SIZE) key).

(** Position [j] of the key lies in the slice the chunk carries. *)
Definition covers (c : BraidChunk) (j : nat) : Prop :=
  (j / CHUNK_SIZE)%nat = Z.to_nat (chunk_num c).

#[export] Instance covers_dec c j : Decision (covers c j).
Proof. unfold covers. apply _. Defined.

Lemma place_slice key acc c (j : nat) :
  slice_of key c -> length acc = length key -> (j < length key)%nat ->
  length (place_chunk acc c) = length key /\
  (covers c j -> place_chunk acc c !! j = key !! j) /\
  (~ covers c j -> place_chunk acc c !! j = acc !! j).
Proof.
  intros (H0 & Hlt & Hp) Hl Hj. unfold place_chunk, covers.
  set (n := Z.to_nat (chunk_num c)) in *.
  assert (Hst : Z.to_nat (chunk_num c * Z.of_nat CHUNK_SIZE) = (n * CHUNK_SIZE)%nat)
    by (unfold n; lia).
  assert (Hdl : length (take CHUNK_SIZE (payload c))
                = Nat.min CHUNK_SIZE (length key - n * CHUNK_SIZE)).
  { rewrite Hp, !length_take, length_drop. lia. }
  assert (Hfit : (n * CHUNK_SIZE + length (take CHUNK_SIZE (payload c)) <= length acc)%nat)
    by (rewrite Hdl, Hl; lia).
  destruct (Z.leb_spec (chunk_num c * Z.of_nat CHUNK_SIZE
              + zlen (take CHUNK_SIZE (payload c))) (zlen acc)) as [_|Hgt];
    [|unfold zlen in Hgt; unfold n in Hfit; lia].
  rewrite Hst. rewrite length_write_at by done. split; [done|].
  rewrite lookup_write_at by done. rewrite Hdl.
  pose proof (Nat.div_mod_eq j CHUNK_SIZE) as Hdm.
  pose proof (Nat.mod_upper_bound j CHUNK_SIZE ltac:(done)) as Hmod.
  change CHUNK_SIZE with 64%nat in *. split; intros Hc.
  - rewrite decide_True by lia. rewrite Hp.
    rewrite take_take, lookup_take_lt by lia. rewrite lookup_drop. f_equal. lia.
  - rewrite decide_False; [done|]. intros [??]. apply Hc.
    symmetry. apply (Nat.div_unique j 64 n (j - n * 64)); lia.
Qed.

Lemma place_all key cs : Forall (slice_of key) cs -> forall acc (j : nat),
  length acc = length key -> (j < length key)%nat ->
  length (foldl place_chunk acc cs) = length key /\
  (Exists (fun c => covers c j) cs -> foldl place_chunk acc cs !! j = key !! j) /\
  (acc !! j = key !! j -> foldl place_chunk acc cs !! j = key !! j).
Proof.
  induction 1 as [|c cs Hc _ IH]; intros acc j Hl Hj; simpl.
  - split_and!; [done| |done]. intros HE. inversion HE.
  - destruct (place_slice key acc c j Hc Hl Hj) as (Hl' & Hyes & Hno).
    destruct (IH _ j Hl' Hj) as (? & IHy & IHn). split_and!; [done| |].
    + intros [Hcov|Hcov]%Exists_cons; auto.
    + intros Ha. apply IHn. destruct (decide (covers c j)) as [?|?]; [by apply Hyes|].
      by rewrite Hno.
Qed.

(** ** The chunks of a key *)

Section split_lemmas.
Context `{Sha2}.
Variable key : bytes.
Hypothesis key_fits : Z.of_nat (div_ceil (length key) CHUNK_SIZE) < 2 ^ 32.

Let n : nat := div_ceil (length key) CHUNK_SIZE.

Lemma split_length : length (split_key_to_chunks key) = n.
Proof. unfold split_key_to_chunks. rewrite length_imap. by apply chunks_length. Qed.

Lemma split_lookup i c :
  split_key_to_chunks key !! i = Some c ->
  (i * CHUNK_SIZE < length key)%nat /\
  chunk_num c = Z.of_nat i /\ total_chunks c = Z.of_nat n /\ ek_hash c = sha512 key /\
  payload c = take CHUNK_SIZE (drop (i * CHUNK_SIZE) key).
Proof.
  intros Hc. assert (Hi : (i < n)%nat).
  { rewrite <- split_length. by eapply lookup_lt_Some. }
  unfold split_key_to_chunks in Hc. rewrite list_lookup_imap in Hc.
  destruct (decide (i * CHUNK_SIZE < length key)%nat) as [Hlt|Hge].
  - rewrite chunks_lookup in Hc by auto. simpl in Hc. injection Hc as <-. simpl.
    split_and!; try done; unfold u32; apply wrap_small; fold n; fold n in key_fits; lia.
  - rewrite chunks_lookup_None in Hc by (auto || lia). done.
Qed.

Lemma split_elem c :
  c ∈ split_key_to_chunks key ->
  chunk_ok c /\ chunk_num c < total_chunks c /\ total_chunks c = Z.of_nat n /\
  ek_hash c = sha512 key /\ slice_of key c.
Proof.
  intros [i Hi]%list_elem_of_lookup.
  pose proof (lookup_lt_Some _ _ _ Hi) as Hin. rewrite split_length in Hin.
  apply split_lookup in Hi as (Hk & Hnum & Htot & Hh & Hp).
  fold n in key_fits. unfold chunk_ok, slice_of. rewrite Hnum, Htot, Nat2Z.id.
  split_and!; try done; lia.
Qed.

Lemma split_nums : chunk_num <$> split_key_to_chunks key = Z.of_nat <$> seq 0 n.
Proof.
  apply list_eq_same_length with n;
    [by rewrite length_fmap, length_seq|by rewrite length_fmap, split_length|].
  intros i x y Hi Hx Hy. rewrite list_lookup_fmap in Hx. rewrite list_lookup_fmap in Hy.
  rewrite lookup_seq_lt in Hy by done. simpl in Hy.
  destruct (split_key_to_chunks key !! i) as [c|] eqn:Ec; [|done].
  apply split_lookup in Ec as (_ & E & _). simpl in Hx. congruence.
Qed.

Lemma split_nums_nodup : NoDup (chunk_num <$> split_key_to_chunks key).
Proof. rewrite split_nums. apply NoDup_fmap_2; [intros ???; lia|apply NoDup_seq]. Qed.

Lemma split_covers (j : nat) :
  (j < length key)%nat -> Exists (fun c => covers c j) (split_key_to_chunks key).
Proof.
  intros Hj. set (i := (j / CHUNK_SIZE)%nat).
  pose proof (Nat.div_mod_eq j CHUNK_SIZE).
  assert (Hi : (i < length (split_key_to_chunks key))%nat).
  { rewrite split_length. unfold n. rewrite <- (chunks_length CHUNK_SIZE key) by auto.
    apply lookup_lt_is_Some_1. rewrite chunks_lookup; [by eexists|auto|].
    unfold i. lia. }
  apply lookup_lt_is_Some_2 in Hi as [c Hc].
  apply Exists_exists. exists c. split; [by eapply list_elem_of_lookup_2|].
  apply split_lookup in Hc as (_ & E & _). unfold covers. rewrite E. fold i. lia.
Qed.

(** Feeding chunks of the key to a machine that already holds others of them. *)
Lemma feed_accepts cs : forall h,
  (forall c, c ∈ cs -> c ∈ split_key_to_chunks key) ->
  NoDup (chunk_num <$> received_chunks h ++ cs) ->
  hs_inv h ->
  (hs_total_chunks h = 0 \/
   hs_total_chunks h = Z.of_nat n /\ hs_ek_hash h = sha512 key) ->
  exists h', feed cs h = (h', Ok (complete h')) /\ hs_inv h' /\
    received_chunks h' = received_chunks h ++ cs /\
    (cs <> [] -> hs_total_chunks h' = Z.of_nat n).
Proof.
  induction cs as [|c cs IH]; intros h Hin Hnd Hinv Hst.
  - exists h. rewrite app_nil_r. done.
  - destruct (split_elem c) as (Hok & Hlt & Htot & Hh & _); [apply Hin; by left|].
    assert (Hv : verdict c h = Accept).
    { unfold verdict. destruct (Z.ltb_spec (chunk_num c) (total_chunks c)); [|lia]. simpl.
      rewrite bool_decide_true.
      - destruct (is_duplicate c h) eqn:Ed; [|done].
        apply is_duplicate_spec in Ed. rewrite fmap_app in Hnd.
        apply NoDup_app in Hnd as (_ & Hd & _). by destruct (Hd _ Ed); left.
      - unfold init_on_first. destruct (Z.eqb_spec (hs_total_chunks h) 0); simpl; [done|].
        destruct Hst as [?|[_ ->]]; [lia|done]. }
    cbn [feed]. pose proof (add_chunk_inv c h Hok Hinv) as Hinv'.
    rewrite add_chunk_eq, Hv in *. simpl in *.
    destruct (IH (push_chunk c (init_on_first c h))) as (h' & Hf & Hi & Hr & Ht).
    + intros d Hd. apply Hin. by right.
    + simpl. rewrite init_received, <- app_assoc. done.
    + done.
    + right. simpl. unfold init_on_first.
      destruct (Z.eqb_spec (hs_total_chunks h) 0); simpl; [by rewrite Htot, Hh|].
      destruct Hst as [?|?]; [lia|done].
    + exists h'. split_and!; [done|done| |].
      * rewrite Hr. simpl. by rewrite init_received, <- app_assoc.
      * intros _. destruct cs as [|d cs]; [|by apply Ht]. simpl in Hf. injection Hf as <-.
        simpl. unfold init_on_first.
        destruct (Z.eqb_spec (hs_total_chunks h) 0); simpl; [done|].
        destruct Hst as [?|[? _]]; [lia|done].
Qed.
End split_lemmas.

(** ** Properties *)

(** C36: the chunks of a key complete the handshake and rebuild the key in
    every order of arrival: whatever permutation [cs] of the chunks that
    [split_key_to_chunks] makes is fed to a new handshake, every chunk is
    accepted, the handshake reports completion exactly at the last one, and
    [reconstruct_enc_key] returns the key. *)
Theorem braid_any_order `{Sha2} (key : bytes) (cs : list BraidChunk) :
  key <> [] ->
  Z.of_nat (div_ceil (length key) CHUNK_SIZE) < 2 ^ 32 ->
  cs ≡ₚ split_key_to_chunks key ->
  exists h, feed cs new = (h, Ok true) /\ received_chunks h = cs /\
    reconstruct_enc_key h (length key) = key /\
    forall k, (k < length cs)%nat -> exists h', feed (take k cs) new = (h', Ok false).
Proof.
  intros Hne Hfit Hp.
  assert (Hlen : length cs = div_ceil (length key) CHUNK_SIZE)
    by (rewrite (Permutation_length Hp); by apply split_length).
  assert (Hpos : (0 < length cs)%nat).
  { rewrite Hlen, div_ceil_step; [lia|auto|]. destruct key; [done|simpl; lia]. }
  assert (Hsub : forall c, c ∈ cs -> c ∈ split_key_to_chunks key)
    by (intros c; by rewrite Hp).
  assert (Hnd : NoDup (chunk_num <$> cs))
    by (rewrite Hp; by apply split_nums_nodup).
  assert (Hgen : forall k, exists h', feed (take k cs) new = (h', Ok (complete h')) /\
            hs_inv h' /\ received_chunks h' = take k cs /\
            (take k cs <> [] -> hs_total_chunks h' = Z.of_nat (length cs))).
  { intros k. destruct (feed_accepts key Hfit (take k cs) new) as (h' & ? & ? & Hr & Ht).
    - intros c (i & Hi & _)%elem_of_take. apply Hsub. by eapply list_elem_of_lookup_2.
    - simpl. rewrite fmap_take. eapply sublist_NoDup; [done|apply sublist_take].
    - apply new_inv.
    - by left.
    - exists h'. rewrite Hlen. done. }
  destruct (Hgen (length cs)) as (h & Hf & Hi & Hr & Ht). rewrite take_ge in * by done.
  assert (Hcne : cs <> []) by (intros ->; simpl in Hpos; lia).
  exists h. split_and!; [|done| |].
  - rewrite Hf. do 2 f_equal. apply (inv_complete _ Hi). rewrite Hr, Ht by done.
    split; [done|unfold zlen; lia].
  - unfold reconstruct_enc_key. rewrite Hr.
    assert (Hs : Forall (slice_of key) cs).
    { apply Forall_forall. intros c Hc. by apply (split_elem key Hfit c), Hsub. }
    apply list_eq_same_length with (length key); [done| |].
    + destruct key as [|b key']; [done|].
      apply (place_all _ _ Hs _ 0%nat); [apply length_replicate|simpl; lia].
    + intros j x y Hj Hx Hy.
      destruct (place_all key cs Hs (replicate (length key) 0) j) as (_ & Hcov & _);
        [apply length_replicate|done|].
      rewrite Hcov in Hx by (rewrite Hp; by apply split_covers). congruence.
  - intros k Hk. destruct (Hgen k) as (h' & Hf' & Hi' & Hr' & Ht').
    exists h'. rewrite Hf'. do 2 f_equal.
    destruct (complete h') eqn:Ec; [|done].
    apply (inv_complete _ Hi') in Ec as [Hne' Hle]. rewrite Hr' in *.
    rewrite Ht' in Hle by done. unfold zlen in Hle. rewrite length_take in Hle. lia.
Qed.

Theorem braid_any_order_witness :
  let _ := Concrete.toy_sha2 in
  let key := Z.of_nat <$> seq 0 150 in
  exists h, feed (reverse (split_key_to_chunks key)) new = (h, Ok true) /\
    received_chunks h = reverse (split_key_to_chunks key) /\
    reconstruct_enc_key h (length key) = key /\
    forall k, (k < length (reverse (split_key_to_chunks key)))%nat ->
      exists h', feed (take k (reverse (split_key_to_chunks key))) new = (h', Ok false).
Proof.
  intros ? key. apply (braid_any_order key); [done|vm_compute; done|].
  apply reverse_Permutation.
Defined.

Lemma run_inv cs h : Forall chunk_ok cs -> hs_inv h -> hs_inv (run cs h).
Proof.
  intros Hcs. revert h. induction Hcs as [|c cs Hc _ IH]; intros h Hi; [done|].
  simpl. apply IH. by apply add_chunk_inv.
Qed.

(** Whatever chunks a peer sends, in any number and order, the handshake
    holds chunks with pairwise distinct numbers that all carry the hash fixed
    by the first one; it is complete exactly when it holds at least as many
    chunks as the first one announced; and a chunk is refused, with the
    handshake left as it was, exactly when it is outside its own bounds,
    carries another hash, or repeats a number. *)
Theorem braid_invariant (cs : list BraidChunk) (c : BraidChunk) :
  Forall chunk_ok cs -> chunk_ok c ->
  let h := run cs new in
  hs_inv h /\
  match add_chunk c h with
  | (h', Ok b) =>
      chunk_num c < total_chunks c /\
      (received_chunks h = [] \/ ek_hash c = hs_ek_hash h) /\
      chunk_num c ∉ (chunk_num <$> received_chunks h) /\
      received_chunks h' = received_chunks h ++ [c] /\ b = complete h'
  | (h', Err _) =>
      h' = h /\
      (total_chunks c <= chunk_num c \/
       (received_chunks h <> [] /\ ek_hash c <> hs_ek_hash h) \/
       chunk_num c ∈ (chunk_num <$> received_chunks h))
  end.
Proof.
  intros Hcs Hc h. assert (Hi : hs_inv h) by (apply run_inv; [done|apply new_inv]).
  split; [done|]. rewrite add_chunk_eq. pose proof (verdict_spec c h Hi) as Hv.
  destruct (verdict c h); simpl.
  - rewrite init_received. naive_solver.
  - naive_solver.
  - rewrite started_init_id by (rewrite (inv_start _ Hi); naive_solver). naive_solver.
  - rewrite started_init_id; [naive_solver|].
    rewrite (inv_start _ Hi). intros E. rewrite E in Hv. by apply elem_of_nil in Hv.
Qed.

Theorem braid_invariant_witness :
  let c := mkBraidChunk 0 1 [7] [] [1; 2] in
  hs_inv (run [c] new) /\ snd (add_chunk c (run [c] new)) = Err "duplicate chunk".
Proof.
  intros c. destruct (braid_invariant [c] c) as [Hi _].
  - repeat constructor; simpl; lia.
  - split; simpl; lia.
  - split; [exact Hi|reflexivity].
Defined.

(** Completion does not mean that the key has arrived.  The announced
    number of chunks is only read from the first chunk, so a later chunk may
    announce more and carry a number beyond it: sent as the last one expected,
    it completes the handshake while some chunk of the key is missing. *)
Theorem braid_completes_with_missing_chunk (h : BraidHandshake) (forged : BraidChunk) :
  hs_inv h ->
  received_chunks h <> [] ->
  zlen (received_chunks h) + 1 = hs_total_chunks h ->
  hs_total_chunks h <= chunk_num forged < total_chunks forged ->
  Forall (fun c => chunk_num c < hs_total_chunks h) (received_chunks h) ->
  ek_hash forged = hs_ek_hash h ->
  exists h', add_chunk forged h = (h', Ok true) /\ complete h' = true /\
    exists i, 0 <= i < hs_total_chunks h' /\ i ∉ chunk_num <$> received_chunks h'.
Proof.
  intros Hi Hne Hlen [Hlo Hhi] Hb Hek.
  assert (H0 : hs_total_chunks h <> 0) by (by rewrite (inv_start _ Hi)).
  assert (Hd : is_duplicate forged h = false).
  { destruct (is_duplicate forged h) eqn:E; [|done].
    apply is_duplicate_spec, list_elem_of_fmap in E as (c & E & Hc).
    rewrite Forall_forall in Hb. specialize (Hb _ Hc). lia. }
  rewrite add_chunk_eq. unfold verdict. rewrite started_init_id by done.
  destruct (Z.ltb_spec (chunk_num forged) (total_chunks forged)); [simpl|lia].
  rewrite bool_decide_true, Hd by done. eexists. split; [|split].
  - unfold push_chunk. simpl. do 2 f_equal.
    destruct (Z.eqb_spec (zlen (received_chunks h ++ [forged])) (hs_total_chunks h)) as [|n]; [done|].
    destruct n. unfold zlen in *. rewrite length_app. simpl. lia.
  - simpl. destruct (Z.eqb_spec (zlen (received_chunks h ++ [forged])) (hs_total_chunks h)) as [|n]; [done|].
    destruct n. unfold zlen in *. rewrite length_app. simpl. lia.
  - simpl. set (nums := chunk_num <$> received_chunks h).
    set (all := Z.of_nat <$> seq 0 (Z.to_nat (hs_total_chunks h))).
    destruct (decide (Exists (fun i => i ∉ nums) all)) as [E|E].
    + apply Exists_exists in E as (i & Hin & Hnot).
      apply list_elem_of_fmap in Hin as (k & -> & Hk%elem_of_seq).
      exists (Z.of_nat k). split; [lia|]. rewrite fmap_app. simpl.
      rewrite elem_of_app, list_elem_of_singleton. intros [?|?]; [done|lia].
    + exfalso. apply not_Exists_Forall in E; [|intros ?; apply _].
      assert (Hs : all ⊆+ nums).
      { apply NoDup_submseteq.
        - apply NoDup_fmap_2; [intros ???; lia|apply NoDup_seq].
        - intros i Hin. rewrite Forall_forall in E. specialize (E i Hin).
          by destruct (decide (i ∈ nums)). }
      apply submseteq_length in Hs. unfold all, nums in Hs.
      rewrite !length_fmap, length_seq in Hs. unfold zlen in *. lia.
Qed.

Theorem braid_completes_with_missing_chunk_witness :
  let c0 := mkBraidChunk 0 2 [7] [] [1; 2] in
  let forged := mkBraidChunk 5 6 [7] [] [9] in
  let h := run [c0] new in
  exists h', add_chunk forged h = (h', Ok true) /\ complete h' = true /\
    exists i, 0 <= i < hs_total_chunks h' /\ i ∉ chunk_num <$> received_chunks h'.
Proof.
  intros c0 forged h. apply (braid_completes_with_missing_chunk h forged).
  - apply run_inv; [|apply new_inv]. repeat constructor; simpl; lia.
  - done.
  - reflexivity.
  - simpl. lia.
  - repeat constructor.
  - reflexivity.
Defined.
