(* ===== verification/RateLimit.v ===== *)
(** * The sliding-window rate limiter (src/dht-core/src/ratelimit.rs)

    The clock is an argument of each call, and so is the order in which the
    hash map yields its keys. *)

From S2P Require Import Prelude.

(** Source: dht-core/src/ratelimit.rs:24-30, RateLimiter. *)
Record RateLimiter : Type := mkRateLimiter {
  max : Z;
  window : f64;
  max_buckets : Z;
  buckets : gmap string (list f64);
}.

(** Source: dht-core/src/ratelimit.rs:33-47, RateLimiter::new. *)
Definition new (max_per_window : Z) (window_sec : f64) : RateLimiter :=
  mkRateLimiter max_per_window window_sec 100000 ∅.

Definition with_buckets (r : RateLimiter) (b : gmap string (list f64)) : RateLimiter :=
  mkRateLimiter (max r) (window r) (max_buckets r) b.

Definition cutoff (r : RateLimiter) (now : f64) : f64 := f64_sub now (window r).

(** [entries.retain(|&t| t >= cutoff)]. Source: dht-core/src/ratelimit.rs:68-69, RateLimiter::allow. *)
Definition retain (c : f64) (entries : list f64) : list f64 :=
  List.filter (fun t => f64_geb t c) entries.

Section limiter.
Context `{HashOrder (list f64)}.

(** Source: dht-core/src/ratelimit.rs:58-64, RateLimiter::allow. *)
Definition make_room (r : RateLimiter) (key : string) : gmap string (list f64) :=
  if (max_buckets r <=? Z.of_nat (size (buckets r))) && bool_decide (buckets r !! key = None)
  then match first_key (buckets r) with
       | Some oldest => delete oldest (buckets r)
       | None => buckets r
       end
  else buckets r.

(** Source: dht-core/src/ratelimit.rs:49-77, RateLimiter::allow. *)
Definition allow (now : f64) (key : string) (r : RateLimiter) : RateLimiter * bool :=
  let b := make_room r key in
  let entries := retain (cutoff r now) (opt_or (b !! key) []) in
  if max r <=? zlen entries then (with_buckets r (<[key := entries]> b), false)
  else (with_buckets r (<[key := entries ++ [now]]> b), true).

(** One pass over the buckets, then removal of the empty ones; the background
    task runs the same loop. Source: dht-core/src/ratelimit.rs:79-99, RateLimiter::prune. *)
Definition prune (now : f64) (r : RateLimiter) : RateLimiter :=
  with_buckets r (omap (fun entries =>
    match retain (cutoff r now) entries with [] => None | l => Some l end) (buckets r)).

(** ** Bounds *)

Record limiter_inv (r : RateLimiter) : Prop := {
  inv_entries k l : buckets r !! k = Some l -> zlen l <= max r;
  inv_buckets : Z.of_nat (size (buckets r)) <= max_buckets r;
}.

Lemma retain_length c l : zlen (retain c l) <= zlen l.
Proof.
  unfold zlen, retain. induction l as [|t l IH]; simpl; [lia|].
  destruct (f64_geb t c); simpl; lia.
Qed.

Lemma make_room_size r key :
  Z.of_nat (size (buckets r)) <= max_buckets r -> 0 < max_buckets r ->
  Z.of_nat (size (<[key := @nil f64]> (make_room r key))) <= max_buckets r.
Proof.
  intros Hs H0. unfold make_room.
  destruct (Z.leb_spec (max_buckets r) (Z.of_nat (size (buckets r)))) as [Hge|Hlt]; simpl.
  - case_bool_decide as Hk.
    + destruct (first_key (buckets r)) as [o|] eqn:Ef.
      * apply first_key_in in Ef as [l Ho].
        assert (Hne : o <> key) by (intros ->; congruence).
        rewrite map_size_insert_None by (by rewrite lookup_delete_ne).
        rewrite map_size_delete, Ho.
        assert (size (buckets r) <> 0%nat).
        { rewrite map_size_empty_iff. intros E. rewrite E in Ho. by rewrite lookup_empty in Ho. }
        simpl. lia.
      * apply first_key_empty in Ef. rewrite Ef in *. rewrite map_size_insert_None by done.
        rewrite map_size_empty in *. lia.
    + destruct (buckets r !! key) as [l|] eqn:E; [|done].
      rewrite map_size_insert_Some by (by eexists). done.
  - destruct (buckets r !! key) as [l|] eqn:E.
    + rewrite map_size_insert_Some by (by eexists). lia.
    + rewrite map_size_insert_None by done. lia.
Qed.

Lemma size_insert_any (m : gmap string (list f64)) k l l' :
  size (<[k := l]> m) = size (<[k := l']> m).
Proof. rewrite !map_size_insert. done. Qed.

Lemma make_room_lookup r key k l :
  make_room r key !! k = Some l -> buckets r !! k = Some l.
Proof.
  unfold make_room. destruct (_ && _); [|done]. destruct (first_key _); [|done].
  intros Hl. by apply lookup_delete_Some in Hl as [_ ?].
Qed.

Lemma make_room_key r key : make_room r key !! key = buckets r !! key.
Proof.
  unfold make_room. destruct (_ && bool_decide _) eqn:E; [|done].
  apply andb_true_iff in E as [_ E%bool_decide_eq_true].
  destruct (first_key (buckets r)) as [o|]; [|done].
  destruct (decide (o = key)) as [->|?]; [by rewrite lookup_delete_eq|by rewrite lookup_delete_ne].
Qed.

Lemma allow_inv now key r :
  0 < max_buckets r -> 0 <= max r -> limiter_inv r -> limiter_inv (fst (allow now key r)).
Proof.
  intros H0 H1 [He Hb]. unfold allow. rewrite make_room_key.
  set (entries := retain _ _).
  assert (Hlen : zlen entries <= max r).
  { etrans; [apply retain_length|]. destruct (buckets r !! key) eqn:E; [by eapply He|done]. }
  destruct (Z.leb_spec (max r) (zlen entries)) as [Hge|Hlt]; split; simpl.
  - intros k l [[<- <-]|[_ Hl%make_room_lookup]]%lookup_insert_Some; [done|by eapply He].
  - rewrite (size_insert_any _ key _ []). by apply make_room_size.
  - intros k l [[<- <-]|[_ Hl%make_room_lookup]]%lookup_insert_Some; [|by eapply He].
    unfold zlen in *. rewrite length_app. simpl. lia.
  - rewrite (size_insert_any _ key _ []). by apply make_room_size.
Qed.

Lemma prune_inv now r : limiter_inv r -> limiter_inv (prune now r).
Proof.
  intros [He Hb]. split; simpl.
  - intros k l. rewrite lookup_omap. destruct (buckets r !! k) as [l0|] eqn:E; simpl; [|done].
    pose proof (retain_length (cutoff r now) l0) as Hr. specialize (He _ _ E).
    destruct (retain _ l0) as [|t l1]; [done|]. intros [= <-]. lia.
  - etrans; [|exact Hb]. rewrite <- !size_dom. apply inj_le, subseteq_size.
    intros k. rewrite !elem_of_dom, lookup_omap. destruct (buckets r !! k); [by eexists|].
    intros [? ?]. done.
Qed.

(** A history of the limiter: calls and prunings at given times. *)
Inductive event : Type := Allow (now : f64) (key : string) | Prune (now : f64).

Definition step (r : RateLimiter) (e : event) : RateLimiter :=
  match e with Allow now key => fst (allow now key r) | Prune now => prune now r end.

Definition run (es : list event) (r : RateLimiter) : RateLimiter := foldl step r es.

Lemma step_config r e :
  max (step r e) = max r /\ window (step r e) = window r /\ max_buckets (step r e) = max_buckets r.
Proof. destruct e; simpl; [|done]. unfold allow. by destruct (_ <=? _). Qed.

Lemma run_config es r :
  max (run es r) = max r /\ window (run es r) = window r /\ max_buckets (run es r) = max_buckets r.
Proof.
  revert r. induction es as [|e es IH]; intros r; [done|].
  change (run (e :: es) r) with (run es (step r e)).
  destruct (IH (step r e)) as (-> & -> & ->). apply step_config.
Qed.

Lemma limiter_run_inv es r :
  0 < max_buckets r -> 0 <= max r -> limiter_inv r -> limiter_inv (run es r).
Proof.
  revert r. induction es as [|e es IH]; intros r H0 H1 Hi; [done|].
  change (run (e :: es) r) with (run es (step r e)).
  destruct (step_config r e) as (E1 & _ & E3). apply IH; [lia|lia|].
  destruct e; [by apply allow_inv|by apply prune_inv].
Qed.

(** The memory of the limiter is bounded.  Whatever calls and prunings come
    at whatever times, no key holds more than the ceiling of time stamps and
    the map never exceeds its cap on keys, and a call is refused exactly when
    the calls of its key that are still inside the window reach the ceiling;
    an accepted call is recorded after them. *)
Theorem limiter_bounded (m : Z) (w : f64) (es : list event) (now : f64) (key : string) :
  0 <= m ->
  let r := run es (new m w) in
  limiter_inv r /\ Z.of_nat (size (buckets r)) <= 100000 /\
  let kept := retain (cutoff r now) (opt_or (buckets r !! key) []) in
  let (r', ok) := allow now key r in
  (ok = true <-> zlen kept < m) /\
  buckets r' !! key = Some (if ok then kept ++ [now] else kept).
Proof.
  intros Hm r. assert (Hi : limiter_inv r).
  { apply limiter_run_inv; simpl; [lia|lia|]. split; simpl; [|rewrite map_size_empty; lia].
    intros k l Hk. by rewrite lookup_empty in Hk. }
  destruct (run_config es (new m w)) as (E1 & E2 & E3). fold r in E1, E2, E3. simpl in E1, E3.
  split_and!; [done|rewrite <- E3; apply Hi|]. intros kept. unfold allow. rewrite make_room_key.
  fold kept. rewrite E1. destruct (Z.leb_spec m (zlen kept)); simpl; rewrite lookup_insert_eq;
    (split; [|done]); split; try done; lia.
Qed.

(** ** The window *)

(** The times at which the calls of [key] in a history were accepted. *)
Fixpoint accepted (es : list event) (key : string) (r : RateLimiter) : list f64 :=
  match es with
  | [] => []
  | e :: es' =>
      match e with
      | Allow now k => if String.eqb k key && snd (allow now k r) then [now] else []
      | Prune _ => []
      end ++ accepted es' key (step r e)
  end.

Definition event_time (e : event) : f64 := match e with Allow t _ | Prune t => t end.
Definition event_keys (e : event) : list string :=
  match e with Allow _ k => [k] | Prune _ => [] end.

Lemma retain_retain c c' l :
  f64_leb c c' = true -> retain c' (retain c l) = retain c' l.
Proof.
  intros Hc. unfold retain. induction l as [|t l IH]; [done|]. simpl.
  destruct (f64_geb t c) eqn:E; cbn [List.filter].
  - destruct (f64_geb t c'); [by rewrite IH|exact IH].
  - destruct (f64_geb t c') eqn:E'; [exfalso|exact IH].
    change (f64_leb c t = false) in E. by rewrite (f64_leb_trans c c' t) in E.
Qed.

Lemma retain_app c l l' : retain c (l ++ l') = retain c l ++ retain c l'.
Proof. unfold retain. apply List.filter_app. Qed.

Lemma prune_lookup now r k :
  opt_or (buckets (prune now r) !! k) [] = retain (cutoff r now) (opt_or (buckets r !! k) []).
Proof.
  simpl. rewrite lookup_omap. destruct (buckets r !! k) as [l|]; [|done]. simpl.
  by destruct (retain _ l).
Qed.

(** No key is evicted while the map has room for every key of the history. *)
Lemma make_room_id r key :
  (buckets r !! key = None -> Z.of_nat (size (buckets r)) < max_buckets r) ->
  make_room r key = buckets r.
Proof.
  intros Hs. unfold make_room. case_bool_decide as E.
  - specialize (Hs E). destruct (Z.leb_spec (max_buckets r) (Z.of_nat (size (buckets r)))); [lia|done].
  - by rewrite andb_false_r.
Qed.

Lemma step_bucket r e key (D : gset string) c :
  dom (buckets r) ⊆ D -> list_to_set (event_keys e) ⊆ D ->
  Z.of_nat (size D) <= max_buckets r ->
  f64_leb (cutoff r (event_time e)) c = true ->
  dom (buckets (step r e)) ⊆ D /\
  retain c (opt_or (buckets (step r e) !! key) []) =
  retain c (opt_or (buckets r !! key) []) ++ retain c
    (match e with
     | Allow now k => if String.eqb k key && snd (allow now k r) then [now] else []
     | Prune _ => []
     end).
Proof.
  intros Hd Hk Hs Hc. destruct e as [now k|now]; simpl in Hk, Hc.
  - assert (Hk' : k ∈ D) by set_solver.
    assert (Hroom : make_room r k = buckets r).
    { apply make_room_id. intros E. apply not_elem_of_dom in E.
      assert (Hsz : (size ({[k]} ∪ dom (buckets r)) <= size D)%nat) by (apply subseteq_size; set_solver).
      rewrite size_union, size_singleton, size_dom in Hsz by set_solver. lia. }
    simpl. unfold allow. rewrite Hroom.
    set (kept := retain _ (opt_or (buckets r !! k) [])).
    assert (Hkept : retain c kept = retain c (opt_or (buckets r !! k) []))
      by (by apply retain_retain).
    destruct (max r <=? zlen kept); simpl;
      (split; [rewrite dom_insert; set_solver|]);
      destruct (String.eqb_spec k key) as [->|Hne]; simpl;
      rewrite ?lookup_insert_eq, ?lookup_insert_ne by done; simpl;
      rewrite ?retain_app, ?Hkept, ?app_nil_r; done.
  - change (step r (Prune now)) with (prune now r). split.
    + intros k. rewrite elem_of_dom. simpl. rewrite lookup_omap. intros [l Hl]. apply Hd, elem_of_dom.
      destruct (buckets r !! k); [by eexists|done].
    + rewrite prune_lookup, retain_retain by done. by rewrite app_nil_r.
Qed.

Lemma run_bucket es key (D : gset string) c : forall r,
  dom (buckets r) ⊆ D -> list_to_set (es ≫= event_keys) ⊆ D ->
  Z.of_nat (size D) <= max_buckets r ->
  Forall (fun e => f64_leb (cutoff r (event_time e)) c = true) es ->
  retain c (opt_or (buckets (run es r) !! key) []) =
  retain c (opt_or (buckets r !! key) []) ++ retain c (accepted es key r).
Proof.
  induction es as [|e es IH]; intros r Hd Hk Hs Hc; [by rewrite app_nil_r|].
  apply Forall_cons in Hc as [Hc1 Hc2]. cbn [mbind list_bind] in Hk.
  rewrite list_to_set_app in Hk.
  destruct (step_bucket r e key D c) as [Hd' E]; [done|set_solver|done|done|].
  destruct (step_config r e) as (E1 & E2 & E3).
  change (run (e :: es) r) with (run es (step r e)). rewrite IH.
  - rewrite E. cbn [accepted]. by rewrite retain_app, app_assoc.
  - done.
  - set_solver.
  - by rewrite E3.
  - eapply Forall_impl; [exact Hc2|]. intros e'. unfold cutoff. by rewrite E2.
Qed.

(** C39: the window slides as promised.  Over any history on at most 100 000
    keys, prunings included, a call at [now] is accepted exactly when fewer
    than the ceiling of the calls of its key accepted so far lie inside the
    window that ends at [now], provided the clock of the earlier events is
    not ahead of [now]. *)
Theorem limiter_sliding_window (m : Z) (w : f64) (es : list event) (now : f64) (key : string) :
  0 <= m ->
  Z.of_nat (size (list_to_set (C := gset string) (es ≫= event_keys))) <= 100000 ->
  Forall (fun e => f64_leb (f64_sub (event_time e) w) (f64_sub now w) = true) es ->
  let past := accepted es key (new m w) in
  snd (allow now key (run es (new m w))) = true <->
  zlen (retain (f64_sub now w) past) < m.
Proof.
  intros Hm Hsz Hc past. set (r := run es (new m w)).
  destruct (run_config es (new m w)) as (E1 & E2 & _). fold r in E1, E2. simpl in E1, E2.
  assert (Hb : retain (cutoff r now) (opt_or (buckets r !! key) []) =
               retain (f64_sub now w) past).
  { unfold cutoff. rewrite E2. unfold r.
    rewrite (run_bucket es key (list_to_set (es ≫= event_keys)) (f64_sub now w) (new m w)).
    - unfold new. simpl. rewrite lookup_empty. done.
    - simpl. rewrite dom_empty_L. set_solver.
    - done.
    - done.
    - done. }
  unfold allow. rewrite make_room_key, Hb, E1.
  destruct (Z.leb_spec m (zlen (retain (f64_sub now w) past))); simpl; split; try done; lia.
Qed.
End limiter.

Theorem limiter_bounded_witness :
  let _ := list_order (list f64) in
  let r := run [Allow (f64_of_Z 100) "a"] (new 1 (f64_of_Z 60)) in
  let (r', ok) := allow (f64_of_Z 130) "a" r in
  ok = false /\ buckets r' !! "a" = Some [f64_of_Z 100].
Proof.
  intros O r.
  destruct (@limiter_bounded O 1 (f64_of_Z 60) [Allow (f64_of_Z 100) "a"] (f64_of_Z 130) "a")
    as (_ & _ & Hr); [discriminate|].
  fold r in Hr. destruct (allow (f64_of_Z 130) "a" r) as [r' ok] eqn:E.
  assert (Eok : ok = false) by (apply (f_equal snd) in E; revert E; vm_compute; congruence).
  subst ok. split; [reflexivity|]. destruct Hr as [_ ->]. reflexivity.
Defined.

Theorem limiter_sliding_window_witness :
  let _ := list_order (list f64) in
  let es := [Allow (f64_of_Z 100) "a"; Prune (f64_of_Z 110); Allow (f64_of_Z 120) "b"] in
  snd (allow (f64_of_Z 130) "a" (run es (new 2 (f64_of_Z 60)))) = true /\
  accepted es "a" (new 2 (f64_of_Z 60)) = [f64_of_Z 100].
Proof.
  intros O es. split; [|vm_compute; reflexivity].
  apply (@limiter_sliding_window O 2 (f64_of_Z 60) es (f64_of_Z 130) "a").
  - discriminate.
  - vm_compute. discriminate.
  - repeat constructor.
  - vm_compute. reflexivity.
Defined.
