(* ===== verification/BotLog.v ===== *)
(** * The log of suspicious connections (src/dht-core/src/bot_log.rs)

    The log file and its rotated copies, each the list of its lines.  Calls on
    the file system that fail are ignored by the code; here they succeed, and
    the time stamp of a line is an argument. *)

From S2P Require Import Prelude Text.

(** Source: dht-core/src/bot_log.rs:16-19, MAX_LOG_FILE_SIZE. *)
Definition MAX_LOG_FILE_SIZE : Z := 10 * 1024 * 1024.

(** Source: dht-core/src/bot_log.rs:21-22, MAX_ROTATED_FILES. *)
Definition MAX_ROTATED_FILES : nat := 3.

(** File 0 is the log, file [i] its copy [.i].
    Source: dht-core/src/bot_log.rs:24-31, BotLogger. *)
Abbreviation log_files := (gmap nat (list string)).

(** The size of a file: every line ends in a newline. *)
Definition file_size (ls : list string) : Z :=
  foldr (fun l n => slen l + 1 + n) 0 ls.

(** [fs::rename(from, to)]: nothing happens when [from] is missing.
    Source: dht-core/src/bot_log.rs:68-68, BotLogger::rotate_if_needed. *)
Definition rename (from to : nat) (fs : log_files) : log_files :=
  match fs !! from with
  | Some ls => <[to := ls]> (delete from fs)
  | None => fs
  end.

(** [for i in (1..=MAX_ROTATED_FILES).rev()].
    Source: dht-core/src/bot_log.rs:57-69, BotLogger::rotate_if_needed. *)
Fixpoint shift (i : nat) (fs : log_files) : log_files :=
  match i with O => fs | S i' => shift i' (rename i' i fs) end.

(** Source: dht-core/src/bot_log.rs:46-73, BotLogger::rotate_if_needed. *)
Definition rotate_if_needed (fs : log_files) : log_files :=
  match fs !! O with
  | None => fs
  | Some ls =>
      if file_size ls <? MAX_LOG_FILE_SIZE then fs
      else <[O := []]> (shift MAX_ROTATED_FILES fs)
  end.

(** The colon put into the offset of the time stamp.
    Source: dht-core/src/bot_log.rs:77-84, BotLogger::log. *)
Definition with_colon (ts : string) : string :=
  if 5 <? slen ts then
    let n := (String.length ts - 2)%nat in str_take n ts +:+ ":" +:+ str_drop n ts
  else ts.

(** Source: dht-core/src/bot_log.rs:85-86, BotLogger::log. *)
Definition log_line (ts ip : string) (port : Z) (reason : string) (detail : option string)
  : string :=
  with_colon ts +:+ " " +:+ ip +:+ ":" +:+ pretty port +:+
  match detail with Some d => " (" +:+ d +:+ ")" | None => "" end +:+ " " +:+ reason.

(** Source: dht-core/src/bot_log.rs:75-100, BotLogger::log. *)
Definition log (ts ip : string) (port : Z) (reason : string) (detail : option string)
    (fs : log_files) : log_files :=
  let fs := rotate_if_needed fs in
  <[O := opt_or (fs !! O) [] ++ [log_line ts ip port reason detail]]> fs.

(** A request to log. *)
Record entry : Type := mkEntry {
  e_ts : string; e_ip : string; e_port : Z; e_reason : string; e_detail : option string;
}.
Definition entry_line (e : entry) : string :=
  log_line (e_ts e) (e_ip e) (e_port e) (e_reason e) (e_detail e).
Definition log_entry (fs : log_files) (e : entry) : log_files :=
  log (e_ts e) (e_ip e) (e_port e) (e_reason e) (e_detail e) fs.

(** The lines still on disk, oldest first. *)
Definition on_disk (fs : log_files) : list string :=
  opt_or (fs !! 3%nat) [] ++ opt_or (fs !! 2%nat) [] ++ opt_or (fs !! 1%nat) [] ++
  opt_or (fs !! 0%nat) [].

(** Rotation writes down as three renames. *)
Lemma rename_lookup from to fs i :
  from <> to ->
  rename from to fs !! i =
  match fs !! from with
  | Some ls => if decide (i = to) then Some ls else if decide (i = from) then None else fs !! i
  | None => fs !! i
  end.
Proof.
  intros Hne. unfold rename. destruct (fs !! from) as [ls|] eqn:E; [|done].
  destruct (decide (i = to)) as [->|]; [by rewrite lookup_insert_eq|].
  rewrite lookup_insert_ne by done.
  destruct (decide (i = from)) as [->|]; [by rewrite lookup_delete_eq|by rewrite lookup_delete_ne].
Qed.

Lemma shift_lookup fs i :
  shift MAX_ROTATED_FILES fs !! i =
  match i with
  | 0%nat => None
  | 1%nat => match fs !! 0%nat with Some l => Some l
             | None => match fs !! 1%nat, fs !! 2%nat with Some _, _ => None | None, _ => None end end
  | 2%nat => match fs !! 1%nat with Some l => Some l
             | None => match fs !! 2%nat with Some _ => None | None => None end end
  | 3%nat => match fs !! 2%nat with Some l => Some l | None => fs !! 3%nat end
  | _ => fs !! i
  end.
Proof.
  unfold MAX_ROTATED_FILES. cbn [shift].
  destruct (fs !! 2%nat) as [l2|] eqn:E2, (fs !! 1%nat) as [l1|] eqn:E1, (fs !! 0%nat) as [l0|] eqn:E0;
    rewrite !rename_lookup by lia; rewrite ?E0, ?E1, ?E2; simpl;
    destruct i as [|[|[|[|i]]]]; simpl; rewrite ?E0, ?E1, ?E2; done.
Qed.

(** Rotation keeps the lines in order and drops only the oldest file. *)
Lemma rotate_on_disk fs :
  exists old, old ++ on_disk (rotate_if_needed fs) = on_disk fs.
Proof.
  unfold rotate_if_needed. destruct (fs !! 0%nat) as [l0|] eqn:E0; [|by exists []].
  destruct (_ <? _); [by exists []|].
  exists (match fs !! 2%nat with Some _ => opt_or (fs !! 3%nat) [] | None => [] end).
  unfold on_disk. rewrite lookup_insert_eq, !lookup_insert_ne, !shift_lookup, E0 by lia.
  destruct (fs !! 2%nat), (fs !! 1%nat); simpl; rewrite ?app_nil_r; done.
Qed.

(** A file outgrows the limit by at most its last line. *)
Definition file_ok (ls : list string) : Prop := file_size (removelast ls) < MAX_LOG_FILE_SIZE.

Record files_ok (fs : log_files) : Prop := {
  fs_small i ls : fs !! i = Some ls -> file_ok ls;
  fs_few i : is_Some (fs !! i) -> (i <= MAX_ROTATED_FILES)%nat;
}.

Lemma file_ok_nil : file_ok [].
Proof. unfold file_ok. vm_compute. reflexivity. Qed.

Lemma rotate_ok fs : files_ok fs -> files_ok (rotate_if_needed fs).
Proof.
  intros [Hs Hf]. unfold rotate_if_needed. destruct (fs !! 0%nat) as [l0|] eqn:E0; [|done].
  destruct (_ <? _); [done|]. split.
  - intros i ls [[<- <-]|[_ Hi]]%lookup_insert_Some; [apply file_ok_nil|].
    rewrite shift_lookup, E0 in Hi. destruct i as [|[|[|[|i]]]]; [done|by eapply Hs; [simplify_eq]| | |].
    + destruct (fs !! 1%nat) eqn:E1; [by eapply Hs; simplify_eq|by destruct (fs !! 2%nat)].
    + destruct (fs !! 2%nat) eqn:E2; [by eapply Hs; simplify_eq|by eapply Hs].
    + by eapply Hs.
  - intros i [ls Hi]. destruct (decide (i <= 3)%nat) as [|Hgt]; [done|].
    apply lookup_insert_Some in Hi as [[<- _]|[_ Hi]]; [unfold MAX_ROTATED_FILES; lia|].
    rewrite shift_lookup in Hi. destruct i as [|[|[|[|i]]]]; [lia|lia|lia|lia|].
    apply Hf. by eexists.
Qed.

Lemma rotate_room fs ls :
  rotate_if_needed fs !! 0%nat = Some ls -> file_size ls < MAX_LOG_FILE_SIZE.
Proof.
  unfold rotate_if_needed. destruct (fs !! 0%nat) as [l0|] eqn:E0; [|by rewrite E0].
  destruct (Z.ltb_spec (file_size l0) MAX_LOG_FILE_SIZE); [rewrite E0; by intros [= <-]|].
  rewrite lookup_insert_eq. intros [= <-]. vm_compute. reflexivity.
Qed.

Lemma log_entry_step fs e :
  files_ok fs ->
  files_ok (log_entry fs e) /\ exists old, old ++ on_disk (log_entry fs e) = on_disk fs ++ [entry_line e].
Proof.
  intros Hok. pose proof (rotate_ok fs Hok) as [Hs Hf]. destruct (rotate_on_disk fs) as [old Ho].
  unfold log_entry, log, entry_line. set (l := log_line _ _ _ _ _).
  assert (Hroom : file_size (opt_or (rotate_if_needed fs !! 0%nat) []) < MAX_LOG_FILE_SIZE).
  { destruct (rotate_if_needed fs !! 0%nat) eqn:E; [by eapply rotate_room|vm_compute; reflexivity]. }
  split; [split|].
  - intros i ls [[<- <-]|[_ Hi]]%lookup_insert_Some; [|by eapply Hs].
    unfold file_ok. by rewrite removelast_last.
  - intros i [ls [[<- _]|[_ Hi]]%lookup_insert_Some]; [unfold MAX_ROTATED_FILES; lia|].
    apply Hf. by eexists.
  - exists old. rewrite <- Ho. unfold on_disk at 1.
    rewrite lookup_insert_eq, !lookup_insert_ne by lia. simpl. unfold on_disk. by rewrite <- !app_assoc.
Qed.

(** The log on disk is bounded and loses only its oldest lines.  After any
    number of events there are at most four files, none larger than 10 MiB and
    one line, and the lines they hold, oldest file first, are the last lines
    logged, in order and with none missing between them. *)
Theorem log_bounded (es : list entry) :
  let fs := foldl log_entry ∅ es in
  (forall i ls, fs !! i = Some ls -> (i <= 3)%nat /\ file_size (removelast ls) < MAX_LOG_FILE_SIZE) /\
  exists old, old ++ on_disk fs = entry_line <$> es.
Proof.
  assert (H : forall es fs, files_ok fs ->
    files_ok (foldl log_entry fs es) /\
    exists old, old ++ on_disk (foldl log_entry fs es) = on_disk fs ++ (entry_line <$> es)).
  { clear es. induction es as [|e es IH]; intros fs Hok.
    - split; [done|]. exists []. cbn [fmap list_fmap]. by rewrite app_nil_r.
    - destruct (log_entry_step fs e Hok) as [Hok' [old Ho]].
      destruct (IH _ Hok') as [Hok'' [old' Ho']]. split; [done|]. exists (old ++ old').
      cbn [foldl fmap list_fmap]. rewrite <- app_assoc, Ho', app_assoc, Ho, <- app_assoc. done. }
  intros fs. destruct (H es ∅) as [[Hs Hf] [old Ho]].
  { split; [intros i ls Hi|intros i [ls Hi]]; by rewrite lookup_empty in Hi. }
  split.
  - intros i ls Hi. split; [apply Hf; by eexists|by eapply Hs].
  - exists old. unfold fs. rewrite Ho. unfold on_disk. rewrite !lookup_empty. done.
Qed.

(** The type of a message is logged as it came: a line break in it starts a
    line of the sender's making. *)
Example forged_line :
  let nl := String (ascii_of_N 10) "" in
  exists forged, log_line "t" "6.6.6.6" 1 "BAD_TYPE" (Some ("x" +:+ nl +:+ "t 8.8.8.8:1 SCANNER"))
    = "t 6.6.6.6:1 (x" +:+ nl +:+ "t 8.8.8.8:1 SCANNER" +:+ forged.
Proof. eexists. reflexivity. Qed.
