(* ===== verification/PinCache.v ===== *)
(** * Trust on first use (src/dht-core/src/pin_cache.rs)

    The pin files are the disk; each function reads the whole file, and writes
    the whole file.  A file that is missing, unreadable or not valid JSON is
    read as an empty cache, as in the code. *)

From S2P Require Import Prelude Json.

(** What a pin file holds. *)
Inductive pin_file : Type :=
| Missing
| Garbage
| Pins (m : gmap string value).

(** How a write ends: done, not begun (the file could not be opened), or cut
    short after the truncation. *)
Inductive write_end : Type := Written | NotOpened | CutShort.

(** Source: dht-core/src/pin_cache.rs:16-28, pin_cache_load. *)
Definition pin_cache_load (f : pin_file) : gmap string value :=
  match f with Pins m => m | Missing | Garbage => ∅ end.

(** Source: dht-core/src/pin_cache.rs:30-58, pin_cache_save. *)
Definition pin_cache_save (w : write_end) (m : gmap string value) (f : pin_file) : pin_file :=
  match w with Written => Pins m | NotOpened => f | CutShort => Garbage end.

(** Source: dht-core/src/pin_cache.rs:60-63, pin_get. *)
Definition pin_get (f : pin_file) (null_id : string) : option value :=
  pin_cache_load f !! null_id.

(** [obj.get("address").and_then(|v| v.as_str())] *)
Definition pinned_address (obj : value) : option string := get obj "address" ≫= as_str.

(** The pin made at first sight. Source: dht-core/src/pin_cache.rs:80-85, pin_update. *)
Definition fresh_pin (address fingerprint : string) (now : f64) : value :=
  VObject [("address", VString address); ("fp", VString fingerprint);
           ("first_seen", VNumber (Float now)); ("last_verified", VNumber (Float now))].

(** Source: dht-core/src/pin_cache.rs:90-93, pin_update. *)
Definition refresh (obj : value) (now : f64) : value :=
  match obj with
  | VObject m => VObject (obj_insert "last_verified" (VNumber (Float now)) m)
  | v => v
  end.

(** Source: dht-core/src/pin_cache.rs:65-107, pin_update. *)
Definition pin_update (w : write_end) (now : f64) (null_id address fingerprint : string)
    (f : pin_file) : pin_file :=
  let cache := pin_cache_load f in
  match cache !! null_id with
  | None => pin_cache_save w (<[null_id := fresh_pin address fingerprint now]> cache) f
  | Some obj =>
      if bool_decide (pinned_address obj = Some address)
      then pin_cache_save w (<[null_id := refresh obj now]> cache) f
      else f
  end.

(** Source: dht-core/src/pin_cache.rs:109-120, pin_verify_address. *)
Definition pin_verify_address (f : pin_file) (null_id address : string) : bool :=
  match pin_get f null_id with
  | None => true
  | Some obj => bool_decide (pinned_address obj = Some address)
  end.

(** Source: dht-core/src/pin_cache.rs:178-184, bootstrap_pin_check. *)
Definition fresh_seed_pin (cert_fp not_before not_after : string) (now : f64) : value :=
  VObject [("fp", VString cert_fp); ("not_before", VString not_before);
           ("not_after", VString not_after);
           ("first_seen", VNumber (Float now)); ("last_verified", VNumber (Float now))].

(** Source: dht-core/src/pin_cache.rs:129-204, bootstrap_pin_check. *)
Definition bootstrap_pin_check (w : write_end) (now : f64)
    (seed_url cert_fp not_before not_after : string) (f : pin_file) : pin_file * bool :=
  let cache := pin_cache_load f in
  match cache !! seed_url with
  | Some existing => (f, String.eqb (str_field existing "fp") cert_fp)
  | None =>
      (pin_cache_save w (<[seed_url := fresh_seed_pin cert_fp not_before not_after now]> cache) f,
       true)
  end.

(** ** Trust on first use *)

Lemma refresh_address obj now a :
  pinned_address obj = Some a -> pinned_address (refresh obj now) = Some a.
Proof.
  unfold pinned_address. destruct obj; simpl; try done. by rewrite assoc_obj_insert.
Qed.

(** One contact with an identifier. *)
Record contact : Type := mkContact { c_now : f64; c_id : string; c_addr : string; c_fp : string }.

Definition see (f : pin_file) (c : contact) : pin_file :=
  pin_update Written (c_now c) (c_id c) (c_addr c) (c_fp c) f.

Definition pinned (f : pin_file) (id : string) : option (option string) :=
  pinned_address <$> pin_get f id.

Lemma see_pinned f c id :
  pinned (see f c) id =
  if String.eqb id (c_id c)
  then Some (opt_or (pinned f id) (Some (c_addr c)))
  else pinned f id.
Proof.
  unfold see, pin_update, pinned, pin_get.
  destruct (pin_cache_load f !! c_id c) as [obj|] eqn:E.
  - case_bool_decide as Ha; cbn [pin_cache_save pin_cache_load].
    + destruct (String.eqb_spec id (c_id c)) as [->|Hne].
      * rewrite lookup_insert_eq, E. simpl. by rewrite Ha, (refresh_address _ _ _ Ha).
      * by rewrite lookup_insert_ne.
    + destruct (String.eqb_spec id (c_id c)) as [->|Hne]; [|done]. by rewrite E.
  - cbn [pin_cache_save pin_cache_load]. destruct (String.eqb_spec id (c_id c)) as [->|Hne].
    + rewrite lookup_insert_eq, E. done.
    + by rewrite lookup_insert_ne.
Qed.

(** The address of the first contact with an identifier in a history. *)
Definition first_address (cs : list contact) (id : string) : option string :=
  c_addr <$> List.find (fun c => String.eqb id (c_id c)) cs.

Lemma history_pinned cs id f :
  pinned (foldl see f cs) id =
  match pinned f id with
  | Some a => Some a
  | None => Some <$> first_address cs id
  end.
Proof.
  revert f. induction cs as [|c cs IH]; intros f.
  - unfold first_address. simpl. by destruct (pinned f id).
  - cbn [foldl]. rewrite IH, see_pinned. unfold first_address. simpl.
    destruct (String.eqb id (c_id c)); [|done]. by destruct (pinned f id).
Qed.

(** Trust on first use.  Starting with no pin file, after any history of
    contacts whose writes succeed, an address is accepted for an identifier
    exactly when the identifier was never seen or the address is the one of
    its first contact; no later contact, whatever address or fingerprint it
    claims, changes that.  A bootstrap certificate is likewise accepted from
    then on exactly when its fingerprint is the first one seen. *)
Theorem pin_first_use (cs : list contact) (id address : string)
    (now now' : f64) (url fp fp' nb na nb' na' : string) (g : pin_file) :
  (pin_verify_address (foldl see Missing cs) id address = true <->
   match first_address cs id with None => True | Some a => address = a end) /\
  (pin_cache_load g !! url = None ->
   let (g1, ok1) := bootstrap_pin_check Written now url fp nb na g in
   let (g2, ok2) := bootstrap_pin_check Written now' url fp' nb' na' g1 in
   ok1 = true /\ g2 = g1 /\ (ok2 = true <-> fp' = fp)).
Proof.
  split.
  - pose proof (history_pinned cs id Missing) as Hp. unfold pinned, pin_verify_address in *.
    replace (pin_get Missing id) with (@None value) in Hp by (unfold pin_get; simpl; by rewrite lookup_empty).
    simpl in Hp. destruct (pin_get (foldl see Missing cs) id) as [obj|]; simpl in Hp.
    + destruct (first_address cs id) as [a|]; [|done]. injection Hp as ->.
      rewrite bool_decide_eq_true. naive_solver.
    + by destruct (first_address cs id).
  - intros Hn. unfold bootstrap_pin_check. rewrite Hn. cbn [pin_cache_save pin_cache_load].
    rewrite lookup_insert_eq. split_and!; [done|done|].
    change (str_field (fresh_seed_pin fp nb na now) "fp") with fp.
    rewrite String.eqb_eq. naive_solver.
Qed.

Theorem pin_first_use_witness :
  let (g1, ok1) := bootstrap_pin_check Written (f64_of_Z 5) "wss://b" "aa" "" "" Garbage in
  let (g2, ok2) := bootstrap_pin_check Written (f64_of_Z 6) "wss://b" "bb" "" "" g1 in
  ok1 = true /\ g2 = g1 /\ (ok2 = true <-> "bb" = "aa").
Proof.
  destruct (pin_first_use [] "" "" (f64_of_Z 5) (f64_of_Z 6) "wss://b" "aa" "bb" "" "" "" "" Garbage)
    as [_ Hb].
  apply Hb. reflexivity.
Defined.

(** A write that is cut short loses every pin: the next contact pins anew. *)
Lemma cut_short_forgets f id address now fp :
  pin_verify_address f id address = true ->
  pin_get f id <> None ->
  pin_get (pin_update CutShort now id address fp f) id = None.
Proof.
  unfold pin_verify_address, pin_update, pin_get. intros Hv Hn.
  destruct (pin_cache_load f !! id) as [obj|]; [|done]. apply bool_decide_eq_true in Hv.
  rewrite bool_decide_true by done. simpl. by rewrite lookup_empty.
Qed.
