(* ===== verification/BootstrapVerify.v ===== *)
(** * Bootstrap certificates (src/dht-core/src/bootstrap_verify.rs)

    The trust decision on a bootstrap server.  The TLS handshake (rustls) and
    the X.509 parser are third-party code and come through [Tls]. *)

From S2P Require Import Prelude Text Primitives Concrete Json PinCache.

(** Source: dht-core/src/bootstrap_verify.rs:35-35, TRUSTED_DOMAINS. *)
Definition TRUSTED_DOMAINS : list string := ["*.gnoppix.org"; "*.gnoppix.com"].

(** Source: dht-core/src/bootstrap_verify.rs:41-52, domain_matches. *)
Definition domain_matches (cert_domain pattern : string) : bool :=
  let cert_domain := to_lowercase cert_domain in
  let pattern := to_lowercase pattern in
  match strip_prefix "*." pattern with
  | Some base => String.eqb cert_domain base || ends_with cert_domain ("." +:+ base)
  | None => String.eqb cert_domain pattern
  end.

(** Source: dht-core/src/bootstrap_verify.rs:58-69, CertInfo. *)
Record CertInfo : Type := mkCertInfo {
  subject_alt_names : list string;
  subject_cn : option string;
  issuer_cn : option string;
  issuer_org : option string;
  not_before : string;
  not_after : string;
}.

(** What x509-parser makes of a certificate: its extensions, and the common names
    and organisations of its subject and issuer, each of them text or not. *)
Inductive GeneralName : Type := DNSName (name : string) | OtherName.
Inductive ParsedExtension : Type := SubjectAlternativeName (general_names : list GeneralName) | OtherExtension.

Record X509 : Type := mkX509 {
  x_extensions : list (string * ParsedExtension);    (* object identifiers *)
  x_subject_cns : list (option string);
  x_issuer_cns : list (option string);
  x_issuer_orgs : list (option string);
  x_not_before : string;
  x_not_after : string;
}.

Definition OID_X509_EXT_SUBJECT_ALT_NAME : string := "2.5.29.17".

(** rustls and x509-parser: whether a host is a valid server name, the address
    a host literal denotes, the handshake with an address and port under a
    server name (the certificates presented), and the parser of certificates. *)
Class Tls := {
  server_name_ok : string -> bool;
  parse_ip : string -> option string;
  connect : string -> Z -> string -> result string (list bytes);
  parse_x509_certificate : bytes -> result string X509;
}.

(** The DNS names of the extensions for alternative names. *)
Definition dns_names (e : string * ParsedExtension) : list string :=
  match e with
  | (oid, SubjectAlternativeName names) =>
      if String.eqb oid OID_X509_EXT_SUBJECT_ALT_NAME
      then omap (fun n => match n with DNSName s => Some s | OtherName => None end) names else []
  | _ => []
  end.

(** Source: dht-core/src/bootstrap_verify.rs:71-120, extract_cert_info. *)
Definition extract_cert_info `{Tls} (cert_der : bytes) : result string CertInfo :=
  match parse_x509_certificate cert_der with
  | Err e => Err ("failed to parse certificate: " +:+ e)
  | Ok c =>
      Ok (mkCertInfo (x_extensions c ≫= dns_names) (head (x_subject_cns c) ≫= id) (head (x_issuer_cns c) ≫= id)
            (head (x_issuer_orgs c) ≫= id) (x_not_before c) (x_not_after c))
  end.

(** Source: dht-core/src/bootstrap_verify.rs:126-145, cert_has_trusted_domain. *)
Definition cert_has_trusted_domain (c : CertInfo) : bool :=
  existsb (fun san => existsb (domain_matches san) TRUSTED_DOMAINS) (subject_alt_names c) ||
  match subject_cn c with
  | Some cn => existsb (domain_matches cn) TRUSTED_DOMAINS
  | None => false
  end.

(** Source: dht-core/src/bootstrap_verify.rs:153-172, cert_issuer_name_is_trusted. *)
Definition cert_issuer_name_is_trusted (c : CertInfo) : bool :=
  let cn := to_lowercase (opt_or (issuer_cn c) "") in
  let org := to_lowercase (opt_or (issuer_org c) "") in
  if contains org "let's encrypt" || contains cn "let's encrypt" then true
  else contains org "isrg" || contains org "internet security".

(** Source: dht-core/src/bootstrap_verify.rs:147-151, cert_issuer_is_trusted. *)
Definition cert_issuer_is_trusted (c : CertInfo) : bool := cert_issuer_name_is_trusted c.

(** Source: dht-core/src/bootstrap_verify.rs:186-197, verify_bootstrap_cert. *)
Definition split_host_port (seed_url : string) : string * Z :=
  let host_port :=
    match strip_prefix "wss://" seed_url with
    | Some r => r
    | None => opt_or (strip_prefix "https://" seed_url) seed_url
    end in
  match str_rfind ":"%char host_port with
  | Some idx => (str_take idx host_port,
                 opt_or (parse_unsigned 65535 (str_drop (S idx) host_port)) 443)
  | None => (host_port, 443)
  end.

(** The address connected to: a host that is not an IP literal falls back to
    the loopback address. Source: dht-core/src/bootstrap_verify.rs:233-236, verify_bootstrap_cert. *)
Definition connect_addr `{Tls} (host : string) : string := opt_or (parse_ip host) "127.0.0.1".

Section verify.
Context `{Sha2} `{Hex} `{Tls}.

(** Everything up to the pin check; [None] where the code returns [false].
    Source: dht-core/src/bootstrap_verify.rs:217-296, verify_bootstrap_cert. *)
Definition checked_cert (seed_url : string) : option (string * CertInfo) :=
  let (host, port) := split_host_port seed_url in
  if negb (server_name_ok host) then None
  else
    match connect (connect_addr host) port host with
    | Err _ | Ok [] => None
    | Ok (der :: _) =>
        let cert_fp := hex_encode (sha256 der) in
        match extract_cert_info der with
        | Err _ => None
        | Ok info =>
            if negb (cert_has_trusted_domain info) then None
            else if negb (cert_issuer_is_trusted info) then None
            else Some (cert_fp, info)
        end
    end.

(** Source: dht-core/src/bootstrap_verify.rs:178-300, verify_bootstrap_cert. *)
Definition verify_bootstrap_cert (w : write_end) (now : f64) (seed_url : string) (f : pin_file)
  : pin_file * bool :=
  match checked_cert seed_url with
  | None => (f, false)
  | Some (cert_fp, info) =>
      bootstrap_pin_check w now seed_url cert_fp (not_before info) (not_after info) f
  end.

(** What a certificate needs to be trusted before its fingerprint is compared. *)
Definition trusted_cert (info : CertInfo) : Prop :=
  (exists name, (name ∈ subject_alt_names info \/ subject_cn info = Some name) /\
     exists p, p ∈ TRUSTED_DOMAINS /\ domain_matches name p = true) /\
  cert_issuer_name_is_trusted info = true.

Lemma trusted_domain_sound info :
  cert_has_trusted_domain info = true ->
  exists name, (name ∈ subject_alt_names info \/ subject_cn info = Some name) /\
    exists p, p ∈ TRUSTED_DOMAINS /\ domain_matches name p = true.
Proof.
  assert (Hp : forall n, existsb (domain_matches n) TRUSTED_DOMAINS = true ->
    exists p, p ∈ TRUSTED_DOMAINS /\ domain_matches n p = true).
  { intros n (p & Hin & Hm)%existsb_exists. exists p. by rewrite list_elem_of_In. }
  unfold cert_has_trusted_domain. intros [Hs|Hc]%orb_true_iff.
  - apply existsb_exists in Hs as (n & Hin & Hm). exists n. split; [|auto].
    left. by apply list_elem_of_In.
  - destruct (subject_cn info) as [n|]; [|done]. exists n. auto.
Qed.

(** When a bootstrap server is accepted, and whom that was said of.  It is
    accepted only if the handshake presented a certificate with a trusted
    domain name and a trusted issuer whose fingerprint is the pinned one (or
    is being pinned now); a server refused before the pin check leaves the
    pins as they were.  The handshake is made with the loopback address for
    every host that is not an IP literal. *)
Theorem verify_bootstrap_sound (w : write_end) (now : f64) (seed_url : string) (f f' : pin_file)
    (ok : bool) :
  verify_bootstrap_cert w now seed_url f = (f', ok) ->
  (ok = true ->
   exists der rest info,
     connect (connect_addr (split_host_port seed_url).1) (split_host_port seed_url).2
             (split_host_port seed_url).1 = Ok (der :: rest) /\
     extract_cert_info der = Ok info /\ trusted_cert info /\
     (forall pin, pin_cache_load f !! seed_url = Some pin ->
        str_field pin "fp" = hex_encode (sha256 der) /\ f' = f)) /\
  (checked_cert seed_url = None -> f' = f /\ ok = false) /\
  (parse_ip (split_host_port seed_url).1 = None ->
   connect_addr (split_host_port seed_url).1 = "127.0.0.1").
Proof.
  unfold verify_bootstrap_cert, checked_cert, connect_addr.
  destruct (split_host_port seed_url) as [host port]. cbn [fst snd].
  destruct (server_name_ok host); cbn [negb]; [|intros [= <- <-]; split_and!; [done|done|by intros ->]].
  intros Hv. split_and!; [| |by intros ->].
  - intros ->. destruct (connect _ port host) as [[|der rest]|] eqn:Ec; [done| |done].
    destruct (extract_cert_info der) as [info|] eqn:Ef; [|done].
    destruct (cert_has_trusted_domain info) eqn:Ed; [|done].
    destruct (cert_issuer_is_trusted info) eqn:Ei; [|done]. simpl in Hv.
    exists der, rest, info. split_and!; [done|done| |].
    + split; [by apply trusted_domain_sound|done].
    + intros pin Hpin. unfold bootstrap_pin_check in Hv. rewrite Hpin in Hv.
      injection Hv as <- E. by apply String.eqb_eq in E.
  - intros Hn. rewrite Hn in Hv. by injection Hv as <- <-.
Qed.
End verify.

(** A server that answers on the loopback address only. *)
Definition local_tls : Tls := {|
  server_name_ok := fun _ => true;
  parse_ip := fun _ => None;
  connect := fun addr _ _ => if String.eqb addr "127.0.0.1" then Ok [[1; 2; 3]] else Err "refused";
  parse_x509_certificate := fun _ =>
    Ok (mkX509 [(OID_X509_EXT_SUBJECT_ALT_NAME, SubjectAlternativeName [DNSName "bootstrap.gnoppix.org"])] []
          [Some "Let's Encrypt R3"] [] "" "") |}.

Theorem verify_bootstrap_sound_witness :
  let _ := Concrete.toy_sha2 in let _ := Concrete.toy_hex in let _ := local_tls in
  exists der rest info,
    connect "127.0.0.1" 443 "bootstrap.gnoppix.org" = Ok (der :: rest) /\
    extract_cert_info der = Ok info /\ trusted_cert info.
Proof.
  intros S X T.
  destruct (verify_bootstrap_cert Written (f64_of_Z 1) "wss://bootstrap.gnoppix.org" Missing)
    as [f' ok] eqn:E.
  destruct (@verify_bootstrap_sound S X T Written (f64_of_Z 1) "wss://bootstrap.gnoppix.org"
              Missing f' ok E) as [Hok _].
  destruct Hok as (der & rest & info & Hc & Hf & Ht & _).
  - apply (f_equal snd) in E. revert E. vm_compute. congruence.
  - exists der, rest, info. split; [exact Hc|]. split; [exact Hf|exact Ht].
Defined.
