(* ===== verification/DhtStore.v ===== *)
(** * The SQLite store of the DHT (src/dht-core/src/sqlite_store.rs)

    The two tables are finite maps over their primary keys.  Whether a query
    fails is decided by the database and is an argument, as are the clock of
    the process ([now]) and the clock SQLite stamps the nonce log with. *)

From S2P Require Import Prelude.

(** Source: dht-core/src/lib.rs:44-85, DhtError. *)
Inductive DhtError : Type :=
| Storage (m : string)
| Serialization (m : string)
| Database (m : string)
| Io (m : string)
| SignatureInvalid | PowInvalid | InvalidKey | InvalidFingerprint | ValueTooLarge
| StaleSequence | NonceReplay | StaleTimestamp | RateLimited.

(** Source: dht-core/src/sqlite_store.rs:16-17, MAX_VALUE_SIZE. *)
Definition STORE_MAX_VALUE_SIZE : Z := 4096.

(** Source: dht-core/src/sqlite_store.rs:19-29, KvRecord. *)
Record KvRecord : Type := mkKvRecord {
  value : string;
  salt : string;
  seq : Z;              (* i64 *)
  publisher_fp : string;
  stored_at : f64;
  expires_at : f64;
  sig : string;
}.

(** The tables [kv_store] and [nonce_log] ([recorded_at] by key and nonce).
    Source: dht-core/src/sqlite_store.rs:82-141, DhtStore::init_tables. *)
Record DhtStore : Type := mkDhtStore {
  kv_store : gmap string KvRecord;
  nonce_log : gmap (string * Z) Z;
}.

Definition empty_store : DhtStore := mkDhtStore ∅ ∅.

(** The statements a method awaits, each of which may fail. *)
Inductive query : Type := QSelect | QNonce | QSeq | QTransaction | QDelete | QCount.

Abbreviation faults := (query -> bool).
Definition no_faults : faults := fun _ => true.

Definition db_error : DhtError := Database "query failed".

Section store.
Variable io : faults.

(** [.await?] on a statement. *)
Definition await (q : query) : st DhtStore DhtError unit := st_guard (io q) db_error.

(** Source: dht-core/src/sqlite_store.rs:143-167, DhtStore::get. *)
Definition get (now : f64) (key : string) : st DhtStore DhtError (option KvRecord) :=
  do! await QSelect;
  do s <- st_get;
  st_ret (match kv_store s !! key with
          | Some r => if f64_gtb (expires_at r) now then Some r else None
          | None => None
          end).

(** Source: dht-core/src/sqlite_store.rs:286-297, DhtStore::is_nonce_seen. *)
Definition is_nonce_seen (key : string) (nonce : Z) : st DhtStore DhtError bool :=
  do! await QNonce;
  do s <- st_get;
  st_ret (bool_decide (is_Some (nonce_log s !! (key, nonce)))).

(** [INSERT OR IGNORE INTO nonce_log]. Source: dht-core/src/sqlite_store.rs:224-230, DhtStore::put. *)
Definition insert_nonce (clock : Z) (key : string) (nonce : Z) (s : DhtStore) : DhtStore :=
  mkDhtStore (kv_store s)
    (match nonce_log s !! (key, nonce) with
     | Some _ => nonce_log s
     | None => <[(key, nonce) := clock]> (nonce_log s)
     end).

(** [INSERT OR REPLACE INTO kv_store]. Source: dht-core/src/sqlite_store.rs:232-246, DhtStore::put. *)
Definition replace_row (key : string) (r : KvRecord) (s : DhtStore) : DhtStore :=
  mkDhtStore (<[key := r]> (kv_store s)) (nonce_log s).

(** [SELECT seq FROM kv_store WHERE key = ?], expired rows included.
    Source: dht-core/src/sqlite_store.rs:203-209, DhtStore::put. *)
Definition select_seq (key : string) : st DhtStore DhtError (option Z) :=
  do! await QSeq;
  do s <- st_get;
  st_ret (seq <$> kv_store s !! key).

(** The arguments of [put]. *)
Record put_args : Type := mkPutArgs {
  p_key : string; p_value : string; p_salt : string; p_seq : Z;
  p_fp : string; p_ttl : Z; p_sig : string; p_nonce : Z;
}.

(** The row a put writes. Source: dht-core/src/sqlite_store.rs:200-201, DhtStore::put. *)
Definition row_of (now : f64) (a : put_args) : KvRecord :=
  mkKvRecord (p_value a) (p_salt a) (p_seq a) (p_fp a) now (f64_add now (f64_of_Z (p_ttl a))) (p_sig a).

(** The transaction: both statements are committed or neither is.
    Source: dht-core/src/sqlite_store.rs:221-248, DhtStore::put. *)
Definition put_transaction (now : f64) (clock : Z) (a : put_args) : st DhtStore DhtError unit :=
  do! await QTransaction;
  st_modify (fun s => replace_row (p_key a) (row_of now a)
                        (insert_nonce clock (p_key a) (p_nonce a) s)).

(** Source: dht-core/src/sqlite_store.rs:169-251, DhtStore::put. *)
Definition put (now : f64) (clock : Z) (a : put_args) : st DhtStore DhtError bool :=
  if STORE_MAX_VALUE_SIZE <? slen (p_value a) then st_ret false
  else
    do seen <- is_nonce_seen (p_key a) (p_nonce a);
    if (seen : bool) then st_ret false
    else
      do existing <- select_seq (p_key a);
      if match existing with Some e => p_seq a <=? e | None => false end then st_ret false
      else
        do! put_transaction now clock a;
        st_ret true.

(** Source: dht-core/src/sqlite_store.rs:253-261, DhtStore::delete_expired. *)
Definition delete_expired (now : f64) : st DhtStore DhtError Z :=
  do! await QDelete;
  do s <- st_get;
  let kept := filter (fun kr => f64_leb (expires_at kr.2) now = false) (kv_store s) in
  do! st_put (mkDhtStore kept (nonce_log s));
  st_ret (Z.of_nat (size (kv_store s)) - Z.of_nat (size kept)).

(** Source: dht-core/src/sqlite_store.rs:263-273, DhtStore::count_keys. *)
Definition count_keys (now : f64) : st DhtStore DhtError Z :=
  do! await QCount;
  do s <- st_get;
  st_ret (Z.of_nat (size (filter (fun kr => f64_gtb (expires_at kr.2) now = true) (kv_store s)))).

(** Source: dht-core/src/sqlite_store.rs:275-284, DhtStore::has_key. *)
Definition has_key (key : string) : st DhtStore DhtError bool :=
  do! await QSelect;
  do s <- st_get;
  st_ret (bool_decide (is_Some (kv_store s !! key))).

(** Source: dht-core/src/sqlite_store.rs:299-310, DhtStore::record_nonce. *)
Definition record_nonce (clock : Z) (key : string) (nonce : Z) : st DhtStore DhtError unit :=
  do! await QTransaction;
  st_modify (insert_nonce clock key nonce).

(** Source: dht-core/src/sqlite_store.rs:312-323, DhtStore::prune_old_nonces. *)
Definition prune_old_nonces (cutoff : Z) : st DhtStore DhtError Z :=
  do! await QDelete;
  do s <- st_get;
  let kept := filter (fun kr => kr.2 <? cutoff = false) (nonce_log s) in
  do! st_put (mkDhtStore (kv_store s) kept);
  st_ret (Z.of_nat (size (nonce_log s)) - Z.of_nat (size kept)).
End store.

(** ** One put *)

(** The three reasons for refusing. *)
Definition acceptable (a : put_args) (s : DhtStore) : Prop :=
  slen (p_value a) <= STORE_MAX_VALUE_SIZE /\
  nonce_log s !! (p_key a, p_nonce a) = None /\
  forall r, kv_store s !! p_key a = Some r -> seq r < p_seq a.

Definition stored (now : f64) (clock : Z) (a : put_args) (s : DhtStore) : DhtStore :=
  mkDhtStore (<[p_key a := row_of now a]> (kv_store s))
             (<[(p_key a, p_nonce a) := clock]> (nonce_log s)).

Lemma put_eq io now clock a s :
  (exists b, put io now clock a s = (s, Ok false) /\ b = false /\ ~ acceptable a s) \/
  (exists e, put io now clock a s = (s, Err e)) \/
  (put io now clock a s = (stored now clock a s, Ok true) /\ acceptable a s).
Proof.
  unfold put, is_nonce_seen, select_seq, put_transaction, await, st_bind, st_get, st_guard,
    st_ret, st_fail, st_modify, acceptable.
  destruct (Z.ltb_spec STORE_MAX_VALUE_SIZE (slen (p_value a))) as [Hl|Hl].
  { left. exists false. split_and!; [done|done|]. intros [? _]. lia. }
  destruct (io QNonce); [|right; left; by eexists]. case_bool_decide as Hn.
  { left. exists false. split_and!; [done|done|]. intros (_ & E & _). rewrite E in Hn. by destruct Hn. }
  destruct (io QSeq); [|right; left; by eexists].
  assert (E : nonce_log s !! (p_key a, p_nonce a) = None) by (by apply eq_None_not_Some).
  destruct (kv_store s !! p_key a) as [r|] eqn:Er; simpl.
  - destruct (Z.leb_spec (p_seq a) (seq r)) as [Hs|Hs].
    { left. exists false. split_and!; [done|done|]. intros (_ & _ & Hr). specialize (Hr r eq_refl). lia. }
    destruct (io QTransaction); [|right; left; by eexists].
    right; right. split; [|split_and!; [done|done|by intros ? [= <-]]].
    unfold insert_nonce, replace_row. simpl. by rewrite E.
  - destruct (io QTransaction); [|right; left; by eexists].
    right; right. split; [|split_and!; done].
    unfold insert_nonce, replace_row. simpl. by rewrite E.
Qed.

Lemma put_no_faults now clock a s :
  acceptable a s -> put no_faults now clock a s = (stored now clock a s, Ok true).
Proof.
  intros Ha. destruct (put_eq no_faults now clock a s) as [(b & _ & _ & Hn)|[[e E]|[E _]]]; [done| |done].
  exfalso. unfold put, is_nonce_seen, select_seq, put_transaction, await, st_bind, st_get, st_guard,
    st_ret, st_modify, no_faults in E.
  destruct (_ <? _); [done|]. destruct (bool_decide _); [done|]. by destruct (match _ with Some _ => _ | None => _ end).
Qed.

(** A put is all or nothing and get returns what was put.  With the
    database working, a put is stored exactly when the value fits, the nonce is
    new for the key and the sequence number is above the stored one; a put that
    is refused or fails at any statement leaves both tables as they were; a
    stored record is returned field by field until it expires and the other
    keys are not touched. *)
Theorem put_get (io : faults) (now now' : f64) (clock : Z) (a : put_args) (s : DhtStore) :
  let (s', r) := put io now clock a s in
  match r with
  | Ok true =>
      acceptable a s /\
      get no_faults now' (p_key a) s' =
        (s', Ok (if f64_gtb (f64_add now (f64_of_Z (p_ttl a))) now'
                 then Some (row_of now a) else None)) /\
      nonce_log s' !! (p_key a, p_nonce a) = Some clock /\
      forall k, k <> p_key a -> kv_store s' !! k = kv_store s !! k
  | Ok false => s' = s /\ ~ acceptable a s
  | Err _ => s' = s
  end /\
  (acceptable a s -> put no_faults now clock a s = (stored now clock a s, Ok true)).
Proof.
  destruct (put_eq io now clock a s) as [(b & -> & _ & Hn)|[[e ->]|[-> Ha]]];
    (split; [|apply put_no_faults]); [done|done|].
  split_and!; [done| | |].
  - unfold get, st_bind, await, st_guard, st_get, st_ret. simpl. by rewrite lookup_insert_eq.
  - simpl. by rewrite lookup_insert_eq.
  - intros k Hk. simpl. by rewrite lookup_insert_ne.
Qed.

(** ** The statements of a put

    The methods take the pool by shared reference and every statement is
    awaited, so the statements of others can come between the checks of a put
    and its transaction. *)

Definition put_checks (io : faults) (a : put_args) : st DhtStore DhtError bool :=
  if STORE_MAX_VALUE_SIZE <? slen (p_value a) then st_ret false
  else
    do seen <- is_nonce_seen io (p_key a) (p_nonce a);
    if (seen : bool) then st_ret false
    else
      do existing <- select_seq io (p_key a);
      st_ret (negb (match existing with Some e => p_seq a <=? e | None => false end)).

(** [put] is its checks followed by its transaction. *)
Lemma put_split io now clock a s :
  put io now clock a s =
  (do ok <- put_checks io a;
   if (ok : bool) then do! put_transaction io now clock a; st_ret true else st_ret false) s.
Proof.
  unfold put, put_checks, is_nonce_seen, select_seq, await, st_bind, st_get, st_guard, st_ret, st_fail.
  destruct (_ <? _); [done|]. destruct (io QNonce); [|done]. destruct (bool_decide _); [done|].
  destruct (io QSeq); [|done]. destruct (seq <$> _) as [e|]; [|done]. by destruct (_ <=? _).
Qed.

(** Checks that pass find the put acceptable. *)
Lemma put_checks_acceptable io a s s' : put_checks io a s = (s', Ok true) -> acceptable a s.
Proof.
  unfold put_checks, is_nonce_seen, select_seq, await, st_bind, st_get, st_guard, st_ret, st_fail.
  destruct (Z.ltb_spec STORE_MAX_VALUE_SIZE (slen (p_value a))) as [|Hv]; [done|].
  destruct (io QNonce); [|done]. destruct (bool_decide_reflect (is_Some (nonce_log s !! (p_key a, p_nonce a)))) as [|Hn]; [done|].
  destruct (io QSeq); [|done]. intros [= _ Hs]. split_and!; [done|by apply eq_None_not_Some|].
  intros r Hr. rewrite Hr in Hs. cbn in Hs. apply negb_true_iff, Z.leb_gt in Hs. exact Hs.
Qed.

(** ** Histories *)

(** [OCommit]: the transaction of a put that passed its checks at some earlier
    moment; [OPut]: a put that nobody comes between. *)
Inductive op : Type :=
| OPut (io : faults) (now : f64) (clock : Z) (a : put_args)
| OCommit (io : faults) (now : f64) (clock : Z) (a : put_args)
| ORecord (io : faults) (clock : Z) (key : string) (nonce : Z)
| ODelete (io : faults) (now : f64)
| OPrune (io : faults) (cutoff : Z).

Definition exec (s : DhtStore) (o : op) : DhtStore :=
  match o with
  | OPut io now clock a => fst (put io now clock a s)
  | OCommit io now clock a => fst (put_transaction io now clock a s)
  | ORecord io clock key nonce => fst (record_nonce io clock key nonce s)
  | ODelete io now => fst (delete_expired io now s)
  | OPrune io cutoff => fst (prune_old_nonces io cutoff s)
  end.

Definition execs (os : list op) (s : DhtStore) : DhtStore := foldl exec s os.

(** A nonce that is recorded keeps its time stamp. *)
Lemma insert_nonce_keeps clock k n s kn t :
  nonce_log s !! kn = Some t -> nonce_log (insert_nonce clock k n s) !! kn = Some t.
Proof.
  intros Hl. unfold insert_nonce. cbn [nonce_log]. destruct (nonce_log s !! (k, n)) eqn:E; [done|].
  rewrite lookup_insert_ne; [done|]. intros <-. congruence.
Qed.

Lemma insert_nonce_has clock k n s :
  nonce_log (insert_nonce clock k n s) !! (k, n) = Some (opt_or (nonce_log s !! (k, n)) clock).
Proof.
  unfold insert_nonce. cbn [nonce_log]. destruct (nonce_log s !! (k, n)) eqn:E; [done|]. by rewrite lookup_insert_eq.
Qed.

(** What a transaction leaves. *)
Lemma transaction_eq io now clock a s :
  put_transaction io now clock a s =
    (replace_row (p_key a) (row_of now a) (insert_nonce clock (p_key a) (p_nonce a) s), Ok tt) \/
  exists e, put_transaction io now clock a s = (s, Err e).
Proof.
  unfold put_transaction, await, st_bind, st_guard, st_modify, st_ret, st_fail.
  destruct (io QTransaction); [by left|right; by eexists].
Qed.

(** A nonce stays in the log unless a pruning reaches its time stamp. *)
Lemma exec_nonce s o kn t :
  nonce_log s !! kn = Some t ->
  nonce_log (exec s o) !! kn = Some t \/ exists io c, o = OPrune io c /\ t < c.
Proof.
  intros Hl. destruct o as [io now clock a|io now clock a|io clock k n|io now|io c]; simpl.
  - left. destruct (put_eq io now clock a s) as [(b & -> & _)|[[e ->]|[-> (_ & E & _)]]]; [done|done|].
    simpl. rewrite lookup_insert_ne; [done|]. intros <-. congruence.
  - left. destruct (transaction_eq io now clock a s) as [->|[e ->]]; [by apply insert_nonce_keeps|done].
  - left. unfold record_nonce, st_bind, await, st_guard, st_modify, st_ret, st_fail.
    destruct (io QTransaction); [by apply insert_nonce_keeps|done].
  - left. unfold delete_expired, st_bind, await, st_guard, st_get, st_put, st_ret, st_fail.
    by destruct (io QDelete).
  - destruct (decide (t < c)) as [Hc|Hc]; [right; by exists io, c|left].
    unfold prune_old_nonces, st_bind, await, st_guard, st_get, st_put, st_ret, st_fail.
    destruct (io QDelete); [|done]. simpl. apply map_lookup_filter_Some. split; [done|].
    simpl. by apply Z.ltb_ge; lia.
Qed.

Lemma execs_nonce os s kn t :
  nonce_log s !! kn = Some t ->
  nonce_log (execs os s) !! kn = Some t \/ exists io c, OPrune io c ∈ os /\ t < c.
Proof.
  revert s. induction os as [|o os IH]; intros s Hl; [by left|].
  change (execs (o :: os) s) with (execs os (exec s o)).
  destruct (exec_nonce s o kn t Hl) as [Hl'|(io & c & -> & Hc)].
  - destruct (IH _ Hl') as [?|(io & c & Hin & Hc)]; [by left|].
    right. exists io, c. split; [by right|done].
  - right. exists io, c. split; [by left|done].
Qed.

(** What lets the sequence number of a key fall below [q]. *)
Definition lowers (k : string) (q : Z) (o : op) : Prop :=
  match o with
  | ODelete _ _ => True
  | OCommit _ _ _ c => p_key c = k /\ p_seq c < q
  | _ => False
  end.

Definition at_least (k : string) (q : Z) (s : DhtStore) : Prop :=
  exists r, kv_store s !! k = Some r /\ q <= seq r.

Lemma replace_row_least k q k' r s :
  (k' = k -> q <= seq r) -> at_least k q s -> at_least k q (replace_row k' r s).
Proof.
  intros Hq (r0 & Hl & Hr). unfold at_least, replace_row. cbn [kv_store]. destruct (decide (k' = k)) as [->|Hne].
  - exists r. rewrite lookup_insert_eq. split; [done|by apply Hq].
  - exists r0. by rewrite lookup_insert_ne.
Qed.

Lemma exec_seq s o k q : at_least k q s -> at_least k q (exec s o) \/ lowers k q o.
Proof.
  intros Hl. destruct o as [io now clock a|io now clock a|io clock k' n|io now|io c]; simpl; [| | |by right|].
  - left. destruct (put_eq io now clock a s) as [(b & -> & _)|[[e ->]|[-> (_ & _ & Hs)]]]; [done|done|].
    destruct Hl as (r & Hl & Hr). unfold at_least. simpl. destruct (decide (p_key a = k)) as [<-|Hne].
    + exists (row_of now a). rewrite lookup_insert_eq. split; [done|]. specialize (Hs r Hl). simpl. lia.
    + exists r. by rewrite lookup_insert_ne.
  - destruct (transaction_eq io now clock a s) as [->|[e ->]]; [|by left].
    destruct (decide (p_key a = k /\ p_seq a < q)) as [Hlow|Hn]; [by right|left].
    apply replace_row_least; [|done]. intros Hk. cbn [row_of seq]. destruct (Z.lt_ge_cases (p_seq a) q); [|done].
    by destruct Hn.
  - left. unfold record_nonce, st_bind, await, st_guard, st_modify, st_ret, st_fail. by destruct (io QTransaction).
  - left. unfold prune_old_nonces, st_bind, await, st_guard, st_get, st_put, st_ret, st_fail. by destruct (io QDelete).
Qed.

Lemma execs_seq os k q : forall s, at_least k q s -> at_least k q (execs os s) \/ exists o, o ∈ os /\ lowers k q o.
Proof.
  induction os as [|o os IH]; intros s Hl; [by left|]. change (execs (o :: os) s) with (execs os (exec s o)).
  destruct (exec_seq s o k q Hl) as [Hl'|Hlow]; [|right; exists o; by split; [left|]].
  destruct (IH _ Hl') as [?|(o' & Hin & Hlow)]; [by left|]. right. exists o'. by split; [right|].
Qed.

(** C32: replay protection, and where it ends.  A put of [a] has run its
    transaction; then any statements follow, of the tasks and of other puts,
    which may have passed their checks long before their transaction, with
    whatever faults; then another put [b] of the same key passes its checks.  If
    it has the same nonce, a pruning came whose cutoff lies beyond the time the
    nonce was recorded.  If its sequence number is no higher, expired rows were
    deleted or the transaction of a put with a lower number than [a]'s came: one
    that had passed its checks before [a] was stored, since a put that nobody
    comes between does not lower the number. *)
Theorem store_replay (s s1 : DhtStore) (os : list op) (io io' : faults) (now : f64)
    (clock : Z) (a b : put_args) :
  put_transaction io now clock a s = (s1, Ok tt) ->
  p_key b = p_key a ->
  snd (put_checks io' b (execs os s1)) = Ok true ->
  (p_nonce b = p_nonce a ->
     exists io'' c, OPrune io'' c ∈ os /\ opt_or (nonce_log s !! (p_key a, p_nonce a)) clock < c) /\
  (p_seq b <= p_seq a ->
     (exists io'' t, ODelete io'' t ∈ os) \/
     exists io'' t clock'' c, OCommit io'' t clock'' c ∈ os /\ p_key c = p_key a /\ p_seq c < p_seq a).
Proof.
  intros Hc Hk H2. destruct (transaction_eq io now clock a s) as [E|[e E]]; rewrite E in Hc; [|done].
  injection Hc as <-. set (s1 := replace_row _ _ _) in *.
  destruct (put_checks io' b (execs os s1)) as [s2 r2] eqn:E2. cbn in H2. subst r2.
  apply put_checks_acceptable in E2 as (_ & Hn & Hs). rewrite Hk in Hn, Hs. split.
  - intros Hnonce. rewrite Hnonce in Hn.
    destruct (execs_nonce os s1 (p_key a, p_nonce a) _ (insert_nonce_has clock (p_key a) (p_nonce a) s)) as [Hl|Hp];
      [congruence|done].
  - intros Hseq. destruct (execs_seq os (p_key a) (p_seq a) s1) as [(r & Hl & Hr)|(o & Hin & Hlow)].
    + exists (row_of now a). unfold s1, replace_row. cbn [kv_store]. rewrite lookup_insert_eq. split; [done|].
      cbn [row_of seq]. lia.
    + specialize (Hs r Hl). lia.
    + destruct o as [| io2 t2 c2 c| |io2 t2|]; try done; [right|left]; [|by eexists _, _].
      destruct Hlow as [Hkc Hq]. by exists io2, t2, c2, c.
Qed.

(** ** Interleaved puts *)

(** The sequence number can fall when two puts run at once.  Let both puts
    of one key be acceptable, the second with the lower number: if the second
    runs its transaction after the first has run its own, having passed its
    checks before, it is stored over the newer record, whereas run one after
    the other the second is refused. *)
Theorem put_race (s : DhtStore) (now : f64) (clock : Z) (a b : put_args) :
  acceptable a s -> acceptable b s -> p_key a = p_key b -> p_seq b < p_seq a ->
  let (s1, okb) := put_checks no_faults b s in
  let (s2, oka) := put no_faults now clock a s1 in
  let (s3, _) := put_transaction no_faults now clock b s2 in
  okb = Ok true /\ oka = Ok true /\
  (seq <$> kv_store s2 !! p_key a) = Some (p_seq a) /\
  (seq <$> kv_store s3 !! p_key a) = Some (p_seq b) /\
  put no_faults now clock b s2 = (s2, Ok false).
Proof.
  intros Ha Hb Hk Hseq.
  assert (Hc : put_checks no_faults b s = (s, Ok true)).
  { pose proof (put_no_faults now clock b s Hb) as E. rewrite put_split in E. unfold st_bind in E.
    destruct (put_checks no_faults b s) as [s1 [[|]|e]] eqn:Ec; [|done|done].
    f_equal. revert Ec. unfold put_checks, is_nonce_seen, select_seq, await, st_bind, st_get, st_guard, st_ret, no_faults.
    destruct (_ <? _); [done|]. destruct (bool_decide _); [done|]. by intros [= <- _]. }
  rewrite Hc, (put_no_faults now clock a s Ha).
  unfold put_transaction, await, st_bind, st_guard, st_modify, st_ret, no_faults. simpl.
  split_and!; [done|done|by rewrite lookup_insert_eq| |].
  - by rewrite Hk, lookup_insert_eq.
  - fold no_faults. destruct (put_eq no_faults now clock b (stored now clock a s)) as
      [(? & E & _)|[[e E]|[E (_ & _ & Hr)]]]; [done| |].
    + exfalso. revert E.
      unfold put, is_nonce_seen, select_seq, put_transaction, await, st_bind, st_get, st_guard,
        st_ret, st_modify, no_faults.
      destruct (_ <? _); [done|]. destruct (bool_decide _); [done|].
      by destruct (match _ with Some _ => _ | None => _ end).
    + exfalso. rewrite <- Hk in Hr. simpl in Hr. specialize (Hr (row_of now a)).
      rewrite lookup_insert_eq in Hr. specialize (Hr eq_refl). simpl in Hr. lia.
Qed.

Definition arg (n q : Z) : put_args := mkPutArgs "k" "v" "s" q "FP" 3600 "sig" n.

Theorem store_replay_witness :
  let os := [ORecord no_faults 1500 "k" 8; OCommit no_faults (f64_of_Z 1001) 1001 (arg 9 4);
             ODelete no_faults (f64_of_Z 9000); OPrune no_faults 2000] in
  (exists io c, OPrune io c ∈ os /\ 1000 < c) /\
  ((exists io t, ODelete io t ∈ os) \/ exists io t clock c, OCommit io t clock c ∈ os /\ p_key c = "k" /\ p_seq c < 5).
Proof.
  intros os.
  destruct (store_replay empty_store _ os no_faults no_faults (f64_of_Z 1000) 1000 (arg 7 5) (arg 7 5) eq_refl eq_refl)
    as [Hn Hs].
  - vm_compute. reflexivity.
  - split; [by apply Hn|by apply Hs].
Defined.

Theorem put_race_witness :
  let (s1, okb) := put_checks no_faults (arg 1 5) empty_store in
  let (s2, oka) := put no_faults (f64_of_Z 9) 9 (arg 2 6) s1 in
  let (s3, _) := put_transaction no_faults (f64_of_Z 9) 9 (arg 1 5) s2 in
  (seq <$> kv_store s3 !! "k") = Some 5.
Proof.
  assert (Hacc : forall n q, acceptable (arg n q) empty_store).
  { intros n q. split; [discriminate|]. split; [reflexivity|]. intros r Hr. discriminate Hr. }
  pose proof (put_race empty_store (f64_of_Z 9) 9 (arg 2 6) (arg 1 5) (Hacc 2 6) (Hacc 1 5)
                eq_refl eq_refl) as Hr.
  destruct (put_checks no_faults (arg 1 5) empty_store) as [s1 okb].
  destruct (put no_faults (f64_of_Z 9) 9 (arg 2 6) s1) as [s2 oka].
  destruct (put_transaction no_faults (f64_of_Z 9) 9 (arg 1 5) s2) as [s3 ?].
  destruct Hr as (_ & _ & _ & E & _). exact E.
Defined.
