(* ===== verification/Envelope.v ===== *)
(** * Wire envelopes (src/protocol/src/envelope.rs)

    The envelope of the DHT protocol, the payloads parsed from it, the replies
    built for it and its signature.  Message identifiers and time stamps come
    from the generator and the clock and are arguments. *)

From S2P Require Import Prelude Text Primitives Concrete Constants Json Gpg.

(** Source: protocol/src/envelope.rs:14-27, DhtPut. *)
Record DhtPut : Type := mkDhtPut {
  put_key : string;
  put_value : string;
  put_salt : string;
  put_seq : Z;             (* i64 *)
  put_ttl : Z;             (* i64 *)
  put_nonce : Z;           (* i64 *)
  put_publisher_cert : string;
}.

(** Source: protocol/src/envelope.rs:29-33, DhtGet. *)
Record DhtGet : Type := mkDhtGet { get_key : string }.

(** Source: protocol/src/envelope.rs:51-61, DhtAddrRecord. *)
Record DhtAddrRecord : Type := mkDhtAddrRecord {
  ar_null_id : string;
  ar_address : string;
  ar_ttl : Z;              (* i64 *)
  ar_publisher_fp : string;
  ar_publisher_cert : string;
}.

(** Source: protocol/src/envelope.rs:63-72, WireEnvelope. *)
Record WireEnvelope : Type := mkWireEnvelope {
  msg_type : string;
  payload : value;
  msg_id : string;
  ts : f64;
  sig : string;
}.

(** [to_json] and [from_json] are serde's derived encoder and decoder. *)
Class WireCodec := {
  to_json : WireEnvelope -> string;
  from_json : string -> result string WireEnvelope;
}.

(** Source: protocol/src/envelope.rs:85-88, WireEnvelope::payload_field. *)
Definition payload_field (e : WireEnvelope) (key : string) : option value :=
  match payload e with VObject m => assoc key m | _ => None end.

(** Source: protocol/src/envelope.rs:90-93, WireEnvelope::payload_str. *)
Definition payload_str (e : WireEnvelope) (key : string) : option string :=
  v ← payload_field e key; as_str v.

(** Source: protocol/src/envelope.rs:95-98, WireEnvelope::payload_i64. *)
Definition payload_i64 (e : WireEnvelope) (key : string) : option Z :=
  v ← payload_field e key; as_i64 v.

(** Source: protocol/src/envelope.rs:150-161, parse_dht_put. *)
Definition parse_dht_put (e : WireEnvelope) : option DhtPut :=
  key ← payload_str e "key";
  value ← payload_str e "value";
  salt ← payload_str e "salt";
  Some {| put_key := key; put_value := value; put_salt := salt;
          put_seq := opt_or (payload_i64 e "seq") 0;
          put_ttl := opt_or (payload_i64 e "ttl") STORE_TTL;
          put_nonce := opt_or (payload_i64 e "nonce") 0;
          put_publisher_cert := opt_or (payload_str e "publisher_cert") "" |}.

(** Source: protocol/src/envelope.rs:163-168, parse_dht_get. *)
Definition parse_dht_get (e : WireEnvelope) : option DhtGet :=
  key ← payload_str e "key"; Some (mkDhtGet key).

(** Source: protocol/src/envelope.rs:170-179, parse_dht_addr_record. *)
Definition parse_dht_addr_record (e : WireEnvelope) : option DhtAddrRecord :=
  null_id ← payload_str e "null_id";
  address ← payload_str e "address";
  publisher_fp ← payload_str e "publisher_fp";
  Some {| ar_null_id := null_id; ar_address := address;
          ar_ttl := opt_or (payload_i64 e "ttl") ADDR_TTL;
          ar_publisher_fp := publisher_fp;
          ar_publisher_cert := opt_or (payload_str e "publisher_cert") "" |}.

(** The payload of a reply. Source: protocol/src/envelope.rs:181-195, build_dht_found. *)
Definition build_dht_found (id : string) (now : f64) (key value salt : string) (seq : Z)
  : WireEnvelope :=
  {| msg_type := "dht-found";
     payload := VObject [("key", VString key); ("value", VString value);
                         ("salt", VString salt); ("seq", json_int seq)];
     msg_id := id; ts := now; sig := "" |}.

(** Source: protocol/src/envelope.rs:197-209, build_dht_error. *)
Definition build_dht_error (id : string) (now : f64) (key message : string) : WireEnvelope :=
  {| msg_type := "dht-error";
     payload := VObject [("key", VString key); ("message", VString message)];
     msg_id := id; ts := now; sig := "" |}.

(** The identifier made of a random [u128]. Source: protocol/src/envelope.rs:211-217, uuid_hex. *)
Definition uuid_hex (n : Z) : string := str_take 16 (hex_fixed 32 n).

Section signing.
Context `{Format} `{Sequoia}.

(** Source: protocol/src/envelope.rs:100-113, WireEnvelope::signing_data. *)
Definition signing_data (e : WireEnvelope) : string :=
  msg_type e +:+ "|" +:+ fmt_value (payload e) +:+ "|" +:+ msg_id e +:+ "|" +:+ fmt_f64 (ts e).

(** Source: protocol/src/envelope.rs:126-129, WireEnvelope::set_signature. *)
Definition set_signature (e : WireEnvelope) (s : string) : WireEnvelope :=
  mkWireEnvelope (msg_type e) (payload e) (msg_id e) (ts e) s.

(** Signing leaves the envelope as it was when the signer fails; the signer
    is sequoia's and an argument. Source: protocol/src/envelope.rs:115-124, WireEnvelope::sign_gpg. *)
Definition sign_gpg (sign_detached : string -> result string string) (e : WireEnvelope)
  : WireEnvelope * result string unit :=
  match sign_detached (signing_data e) with
  | Err er => (e, Err er)
  | Ok s => (set_signature e s, Ok tt)
  end.

(** Source: protocol/src/envelope.rs:131-147, WireEnvelope::verify_gpg and is_signed. *)
Definition verify_gpg (e : WireEnvelope) (c : cert) : result string bool :=
  if str_is_empty (sig e) then Ok false
  else verify_detached (sig e) (signing_data e) c.

Lemma verify_envelope_sound e c :
  verify_gpg e c = Ok true -> sig e <> "" /\ signed_by c (sig e) (signing_data e).
Proof.
  unfold verify_gpg. destruct (sig e) as [|a s] eqn:E; [done|]. simpl.
  intros Hv%verify_detached_sound. done.
Qed.

(** Signing does not change what is signed: a signature that verifies over the
    signing data verifies on the signed envelope. *)
Lemma sign_then_verify sign_detached e e' c :
  (forall data s, sign_detached data = Ok s -> s <> "" /\ verify_detached s data c = Ok true) ->
  sign_gpg sign_detached e = (e', Ok tt) -> verify_gpg e' c = Ok true.
Proof.
  intros Hs. unfold sign_gpg. destruct (sign_detached (signing_data e)) as [s|er] eqn:E; [|done].
  intros [= <-]. destruct (Hs _ _ E) as [Hne Hv]. unfold verify_gpg. simpl.
  destruct s; [done|]. simpl. exact Hv.
Qed.

(** Two envelopes that no verifier tells apart. *)
Definition twin (t id s : string) (time : f64) (n m : Z) (inside : bool) : WireEnvelope :=
  if inside
  then mkWireEnvelope (t +:+ "|" +:+ pretty n) (VNumber (PosInt m)) id time s
  else mkWireEnvelope t (VNumber (PosInt n)) (pretty m +:+ "|" +:+ id) time s.

(** The signature does not bind the fields of an envelope one by one.  The
    signing data joins the fields with [|] without escaping it, so text can
    move between the message type, the payload and the identifier: the two
    envelopes below differ in all three and every signature is judged alike
    on both. *)
Theorem signing_data_ambiguous (t id s : string) (time : f64) (n m : Z) (c : cert) :
  0 <= n -> 0 <= m ->
  let e1 := twin t id s time n m true in
  let e2 := twin t id s time n m false in
  msg_type e1 <> msg_type e2 /\ msg_id e1 <> msg_id e2 /\
  signing_data e1 = signing_data e2 /\ verify_gpg e1 c = verify_gpg e2 c.
Proof.
  intros Hn Hm e1 e2.
  assert (E : signing_data e1 = signing_data e2).
  { unfold signing_data, e1, e2, twin. simpl. rewrite !fmt_value_int by done.
    by rewrite !str_app_assoc. }
  split_and!; [| |done|unfold verify_gpg; by rewrite E].
  - intros Ht. apply (f_equal slen) in Ht. unfold e1, e2, twin in Ht. simpl in Ht.
    rewrite !slen_app in Ht. change (slen "|") with 1 in Ht.
    pose proof (slen_nonneg (pretty n)). lia.
  - intros Ht. apply (f_equal slen) in Ht. unfold e1, e2, twin in Ht. simpl in Ht.
    rewrite !slen_app in Ht. change (slen "|") with 1 in Ht.
    pose proof (slen_nonneg (pretty m)). lia.
Qed.
End signing.

Theorem signing_data_ambiguous_witness :
  let _ := Concrete.toy_format in
  let e1 := twin "dht-put" "id" "" (f64_of_Z 9) 1 2 true in
  let e2 := twin "dht-put" "id" "" (f64_of_Z 9) 1 2 false in
  msg_type e1 <> msg_type e2 /\ signing_data e1 = signing_data e2.
Proof.
  intros F e1 e2.
  destruct (@signing_data_ambiguous F Concrete.toy_sequoia "dht-put" "id" "" (f64_of_Z 9) 1 2
              ("key" : @cert Concrete.toy_sequoia)) as (Ht & _ & E & _);
    [discriminate|discriminate|].
  split; [exact Ht|exact E].
Defined.

(** ** Parsing what is sent *)

(** Every payload with the three mandatory strings parses; the optional
    members default. *)
Lemma parse_dht_put_Some e p :
  parse_dht_put e = Some p <->
  payload_str e "key" = Some (put_key p) /\
  payload_str e "value" = Some (put_value p) /\
  payload_str e "salt" = Some (put_salt p) /\
  put_seq p = opt_or (payload_i64 e "seq") 0 /\
  put_ttl p = opt_or (payload_i64 e "ttl") STORE_TTL /\
  put_nonce p = opt_or (payload_i64 e "nonce") 0 /\
  put_publisher_cert p = opt_or (payload_str e "publisher_cert") "".
Proof.
  unfold parse_dht_put. destruct p. simpl. split.
  - destruct (payload_str e "key"); [|done]. simpl.
    destruct (payload_str e "value"); [|done]. simpl.
    destruct (payload_str e "salt"); [|done]. simpl. intros [= <- <- <- <- <- <- <-]. done.
  - intros (-> & -> & -> & -> & -> & -> & ->). done.
Qed.

(** A reply is read back field by field. *)
Lemma found_fields id now k v s q :
  i64_min <= q <= i64_max ->
  let e := build_dht_found id now k v s q in
  payload_str e "key" = Some k /\ payload_str e "value" = Some v /\
  payload_str e "salt" = Some s /\ payload_i64 e "seq" = Some q.
Proof. intros Hq e. split_and!; try done. by apply as_i64_json_int. Qed.
