(* ===== verification/Pow.v ===== *)
(** * Proof of work (src/protocol/src/pow.rs)

    Argon2id hashcash over ["{data}:{nonce}"] under a salt that carries the
    secret of the node, and the digests used for names. *)

From S2P Require Import Prelude Text Primitives Concrete Constants.

(** The inner loop on a non-zero byte: leading zero bits by shifting left in a
    [u8].  Eight turns empty any byte. Source: protocol/src/pow.rs:22-26, leading_zero_bits. *)
Fixpoint shift_bits (fuel : nat) (b bits : Z) : Z :=
  match fuel with
  | O => bits
  | S f =>
      if (0 <? b) && (Z.land b 128 =? 0) then shift_bits f (u8 (Z.shiftl b 1)) (bits + 1)
      else bits
  end.

(** The loop over the bytes. Source: protocol/src/pow.rs:15-31, leading_zero_bits. *)
Fixpoint lzb_loop (hash : bytes) (bits : Z) : Z :=
  match hash with
  | [] => bits
  | b :: rest => if b =? 0 then lzb_loop rest (bits + 8) else shift_bits 8 b bits
  end.

(** Source: protocol/src/pow.rs:15-31, leading_zero_bits. *)
Definition leading_zero_bits (hash : bytes) : Z := lzb_loop hash 0.

(** Source: protocol/src/pow.rs:33-44, PowError. *)
Inductive PowError : Type :=
| Argon2Params (e : string)
| Argon2Hash (e : string)
| DifficultyTooHigh
| DifficultyTooLow (d m : Z).

(** Source: protocol/src/pow.rs:46-55, node_pow_salt. *)
Definition node_pow_salt (node_secret : bytes) : bytes := POW_SALT ++ node_secret.

(** [format!("{}:{}", data, nonce)]. Source: protocol/src/pow.rs:89-92, pow_check. *)
Definition pow_secret (data : string) (nonce : Z) : string := data +:+ ":" +:+ pretty nonce.

Section pow.
Context `{Argon2}.

(** [Params::new] with the constants of the protocol. Source: protocol/src/pow.rs:79-85, pow_check. *)
Definition pow_params : result PowError unit :=
  match argon2_params DHT_POW_MEMORY_COST DHT_POW_TIME_COST DHT_POW_PARALLELISM
                      DHT_POW_HASH_LEN with
  | Ok u => Ok u
  | Err e => Err (Argon2Params e)
  end.

(** One hash. Source: protocol/src/pow.rs:92-100, pow_check. *)
Definition pow_hash (data : string) (nonce : Z) (node_secret : bytes) : result PowError bytes :=
  match argon2id DHT_POW_MEMORY_COST DHT_POW_TIME_COST DHT_POW_PARALLELISM DHT_POW_HASH_LEN
                 (str_bytes (pow_secret data nonce)) (node_pow_salt node_secret) with
  | Ok raw => Ok raw
  | Err e => Err (Argon2Hash e)
  end.

(** Source: protocol/src/pow.rs:57-103, pow_check. *)
Definition pow_check (data : string) (nonce difficulty : Z) (node_secret : bytes)
  : result PowError bool :=
  if difficulty <? MIN_POW_DIFFICULTY then Err (DifficultyTooLow difficulty MIN_POW_DIFFICULTY)
  else
    let? _ := pow_params in
    let? raw := pow_hash data nonce node_secret in
    Ok (difficulty <=? leading_zero_bits raw).

(** [for nonce in start..start + count]. Source: protocol/src/pow.rs:139-151, pow_solve. *)
Fixpoint pow_search (count : nat) (nonce : Z) (data : string) (difficulty : Z)
    (node_secret : bytes) : result PowError (option Z) :=
  match count with
  | O => Ok None
  | S count' =>
      let? raw := pow_hash data nonce node_secret in
      if difficulty <=? leading_zero_bits raw then Ok (Some nonce)
      else pow_search count' (nonce + 1) data difficulty node_secret
  end.

(** Source: protocol/src/pow.rs:105-152, pow_solve. *)
Definition pow_solve (data : string) (difficulty max_attempts : Z) (node_secret : bytes)
  : result PowError (option Z) :=
  if difficulty <? MIN_POW_DIFFICULTY then Err (DifficultyTooLow difficulty MIN_POW_DIFFICULTY)
  else
    let? _ := pow_params in
    pow_search (Z.to_nat max_attempts) 0 data difficulty node_secret.
End pow.

(** Source: protocol/src/pow.rs:159-167, sha256_hex. *)
Definition sha256_hex `{Sha2} `{Hex} (data : string) : string :=
  hex_encode (sha256 (str_bytes data)).

(** Source: protocol/src/pow.rs:169-179, blake2b_8_hex. *)
Definition blake2b_8_hex `{Blake2} `{Hex} (data : string) : string :=
  hex_encode (blake2b_8 (str_bytes data)).

(** ** Leading zero bits *)

(** The loop on one byte, checked on all 255 of them. *)
Lemma shift_bits_table b :
  0 < b < 256 -> forall bits, shift_bits 8 b bits = bits + (7 - Z.log2 b).
Proof.
  intros Hb bits.
  assert (H0 : shift_bits 8 b 0 = 7 - Z.log2 b).
  { assert (Hall : forallb (fun n => shift_bits 8 (Z.of_nat n) 0 =? 7 - Z.log2 (Z.of_nat n))
                     (seq 1 255) = true) by (vm_compute; reflexivity).
    rewrite forallb_forall in Hall. specialize (Hall (Z.to_nat b)).
    rewrite Z2Nat.id in Hall by lia. apply Z.eqb_eq, Hall, in_seq. lia. }
  assert (Hacc : forall f b bits, shift_bits f b bits = bits + shift_bits f b 0).
  { intros f. induction f as [|f IH]; intros b' bits'; cbn [shift_bits]; [lia|].
    destruct (_ && _); [|lia]. rewrite (IH _ (bits' + 1)), (IH _ (0 + 1)). lia. }
  rewrite Hacc, H0. lia.
Qed.

Lemma lzb_loop_acc hash bits : lzb_loop hash bits = bits + lzb_loop hash 0.
Proof.
  revert bits. induction hash as [|b l IH]; intros bits; cbn [lzb_loop]; [lia|].
  destruct (b =? 0); [rewrite IH, (IH (0 + 8)); lia|].
  assert (Hacc : forall f b bits, shift_bits f b bits = bits + shift_bits f b 0).
  { intros f. induction f as [|f IHf]; intros b' bits'; cbn [shift_bits]; [lia|].
    destruct (_ && _); [|lia]. rewrite (IHf _ (bits' + 1)), (IHf _ (0 + 1)). lia. }
  apply Hacc.
Qed.

Lemma from_be_acc l acc :
  from_be acc l = acc * 2 ^ (8 * zlen l) + from_be 0 l.
Proof.
  revert acc. induction l as [|b l IH]; intros acc; cbn [from_be].
  - change (2 ^ (8 * zlen [])) with 1. lia.
  - rewrite IH, (IH (0 * 256 + b)). unfold zlen. cbn [length].
    replace (8 * Z.of_nat (S (length l))) with (8 + 8 * Z.of_nat (length l)) by lia.
    rewrite Z.pow_add_r by lia. change (2 ^ 8) with 256. lia.
Qed.

Lemma from_be_bytes_range l : bytes_ok l -> 0 <= from_be_bytes l < 2 ^ (8 * zlen l).
Proof.
  unfold from_be_bytes, zlen. induction 1 as [|b l Hb Hl IH]; [done|].
  cbn [from_be length]. rewrite from_be_acc. unfold zlen, byte_ok in *.
  replace (8 * Z.of_nat (S (length l))) with (8 + 8 * Z.of_nat (length l)) by lia.
  rewrite Z.pow_add_r by lia. change (2 ^ 8) with 256. nia.
Qed.

Lemma leading_zero_bits_range l : bytes_ok l -> 0 <= leading_zero_bits l <= 8 * zlen l.
Proof.
  unfold leading_zero_bits, zlen. induction 1 as [|b l Hb Hl IH]; [done|].
  cbn [lzb_loop length]. unfold byte_ok in Hb. destruct (Z.eqb_spec b 0).
  - rewrite lzb_loop_acc. lia.
  - rewrite shift_bits_table by lia.
    pose proof (Z.log2_nonneg b). pose proof (Z.log2_lt_pow2 b 8). lia.
Qed.

(** The difficulty test is the hashcash test.  The byte and bit loops count
    exactly the zero bits in front of the digest: it has at least [d] of them
    if and only if the digest, read as a big-endian integer, is below
    [2 ^ (bits - d)]. *)
Theorem leading_zero_bits_spec (hash : bytes) (d : Z) :
  bytes_ok hash -> 0 <= d <= 8 * zlen hash ->
  (d <= leading_zero_bits hash <-> from_be_bytes hash < 2 ^ (8 * zlen hash - d)).
Proof.
  intros Hok. revert d. induction Hok as [|b l Hb Hl IH]; intros d Hd.
  - unfold zlen in *. simpl in *. replace d with 0 by lia. split; [done|]. intros _. reflexivity.
  - unfold leading_zero_bits, from_be_bytes in *. cbn [lzb_loop from_be].
    pose proof (from_be_bytes_range l Hl) as Hr. unfold from_be_bytes in Hr.
    rewrite from_be_acc. unfold byte_ok in Hb. rewrite Z.mul_0_l, Z.add_0_l.
    assert (Hz : zlen (b :: l) = 1 + zlen l) by (unfold zlen; cbn [length]; lia).
    rewrite Hz in *. pose proof (leading_zero_bits_range l Hl) as Hlr.
    unfold leading_zero_bits in Hlr.
    assert (0 <= zlen l) by (unfold zlen; lia).
    destruct (Z.eqb_spec b 0) as [->|Hne].
    + rewrite lzb_loop_acc, Z.mul_0_l, Z.add_0_l. destruct (decide (d < 8)) as [Hlt|Hge].
      * split; [intros _|lia]. eapply Z.lt_le_trans; [apply Hr|].
        apply Z.pow_le_mono_r; lia.
      * replace (8 * (1 + zlen l) - d) with (8 * zlen l - (d - 8)) by lia.
        rewrite <- IH by lia. lia.
    + rewrite shift_bits_table by lia.
      pose proof (Z.log2_spec b) as Hlog. pose proof (Z.log2_lt_pow2 b 8) as Hl8.
      set (k := Z.log2 b) in *. assert (0 <= k < 8) by (pose proof (Z.log2_nonneg b); lia).
      specialize (Hlog ltac:(lia)). set (L := 8 * zlen l) in *.
      assert (HL : 0 < 2 ^ L) by lia.
      split; intros Hcmp.
      * assert (2 ^ (Z.succ k) * 2 ^ L <= 2 ^ (8 * (1 + zlen l) - d)).
        { rewrite <- Z.pow_add_r by lia. apply Z.pow_le_mono_r; lia. }
        nia.
      * destruct (decide (d <= 0 + (7 - k))) as [|Hgt]; [done|].
        assert (2 ^ (8 * (1 + zlen l) - d) <= 2 ^ k * 2 ^ L).
        { rewrite <- Z.pow_add_r by lia. apply Z.pow_le_mono_r; lia. }
        nia.
Qed.

Theorem leading_zero_bits_spec_witness :
  11 <= leading_zero_bits [0; 16; 255] <-> from_be_bytes [0; 16; 255] < 2 ^ (8 * 3 - 11).
Proof.
  apply (leading_zero_bits_spec [0; 16; 255] 11).
  - repeat constructor; discriminate.
  - split; discriminate.
Defined.

(** ** Search *)

Section search.
Context `{Argon2}.

Definition too_low (difficulty : Z) : bool := difficulty <? MIN_POW_DIFFICULTY.

Lemma pow_search_spec count data difficulty secret : forall start,
  difficulty <? MIN_POW_DIFFICULTY = false -> pow_params = Ok tt ->
  match pow_search count start data difficulty secret with
  | Ok (Some n) =>
      start <= n < start + Z.of_nat count /\
      pow_check data n difficulty secret = Ok true /\
      forall m, start <= m < n -> pow_check data m difficulty secret = Ok false
  | Ok None =>
      forall m, start <= m < start + Z.of_nat count ->
        pow_check data m difficulty secret = Ok false
  | Err e =>
      exists n, start <= n < start + Z.of_nat count /\
        pow_check data n difficulty secret = Err e /\
        forall m, start <= m < n -> pow_check data m difficulty secret = Ok false
  end.
Proof.
  induction count as [|count IH]; intros start Hd Hp; cbn [pow_search]; [intros; lia|].
  specialize (IH (start + 1) Hd Hp).
  assert (Hc : pow_check data start difficulty secret =
    match pow_hash data start secret with
    | Ok raw => Ok (difficulty <=? leading_zero_bits raw)
    | Err e => Err e
    end) by (unfold pow_check; rewrite Hd, Hp; done).
  destruct (pow_hash data start secret) as [raw|e]; simpl.
  - destruct (difficulty <=? leading_zero_bits raw).
    + split_and!; [lia|lia|done|intros; lia].
    + assert (Hext : forall m n, start <= m < n ->
        (forall m, start + 1 <= m < n -> pow_check data m difficulty secret = Ok false) ->
        pow_check data m difficulty secret = Ok false).
      { intros m n Hm Hall. destruct (decide (m = start)) as [->|]; [done|]. apply Hall. lia. }
      destruct (pow_search _ _ _ _ _) as [[n|]|e].
      * destruct IH as (? & ? & Hall). split_and!; [lia|lia|done|]. eauto.
      * intros m Hm. apply (Hext m (start + 1 + Z.of_nat count)); [lia|done].
      * destruct IH as (n & ? & ? & Hall). exists n. split_and!; [lia|lia|done|]. eauto.
  - exists start. split_and!; [lia|lia|done|intros; lia].
Qed.

(** C38: the solver agrees with the verifier.  It returns the least nonce below
    [max_attempts] that [pow_check] accepts, [None] when it accepts none, and
    fails only at the first nonce (or at once) where [pow_check] fails with
    the same error. *)
Theorem pow_solve_spec (data : string) (difficulty max_attempts : Z) (secret : bytes) :
  0 < max_attempts ->
  match pow_solve data difficulty max_attempts secret with
  | Ok (Some n) =>
      0 <= n < max_attempts /\ pow_check data n difficulty secret = Ok true /\
      forall m, 0 <= m < n -> pow_check data m difficulty secret = Ok false
  | Ok None =>
      forall m, 0 <= m < max_attempts -> pow_check data m difficulty secret = Ok false
  | Err e =>
      exists n, 0 <= n < max_attempts /\ pow_check data n difficulty secret = Err e /\
        forall m, 0 <= m < n -> pow_check data m difficulty secret = Ok false
  end.
Proof.
  intros Hmax. unfold pow_solve. destruct (difficulty <? MIN_POW_DIFFICULTY) eqn:Ed.
  { exists 0. split_and!; [lia|lia| |intros; lia]. unfold pow_check. by rewrite Ed. }
  destruct pow_params as [[]|e] eqn:Ep; simpl.
  - pose proof (pow_search_spec (Z.to_nat max_attempts) data difficulty secret 0 Ed Ep) as Hs.
    rewrite Z2Nat.id in Hs by lia. exact Hs.
  - exists 0. split_and!; [lia|lia| |intros; lia]. unfold pow_check. by rewrite Ed, Ep.
Qed.
End search.

Theorem pow_solve_spec_witness :
  let _ := Concrete.toy_argon2 in
  pow_check "x" 2 8 [1; 2] = Ok true /\
  forall m, 0 <= m < 2 -> pow_check "x" m 8 [1; 2] = Ok false.
Proof.
  intros A. pose proof (@pow_solve_spec A "x" 8 20 [1; 2] ltac:(lia)) as Hs.
  assert (E : @pow_solve A "x" 8 20 [1; 2] = Ok (Some 2)) by (vm_compute; reflexivity).
  rewrite E in Hs. exact (proj2 Hs).
Defined.

(** Different work has different input: the string that is hashed
    determines the data and the nonce, whatever the data holds. *)
Theorem pow_secret_injective (data data' : string) (nonce nonce' : Z) :
  0 <= nonce -> 0 <= nonce' ->
  pow_secret data nonce = pow_secret data' nonce' -> data = data' /\ nonce = nonce'.
Proof.
  intros Hn Hn' E. unfold pow_secret in E.
  change (data +:+ String ":" (pretty nonce) = data' +:+ String ":" (pretty nonce')) in E.
  apply sep_inj in E as [-> E].
  - split; [done|]. by apply (inj pretty).
  - by apply digits_no_char; [|apply pretty_nonneg_digits].
  - by apply digits_no_char; [|apply pretty_nonneg_digits].
Qed.

Theorem pow_secret_injective_witness : "a:1" = "a:1" /\ 12 = 12.
Proof. apply (pow_secret_injective "a:1" "a:1" 12 12); [done|done|reflexivity]. Defined.
