(* ===== verification/Identity.v ===== *)
(** * Fingerprints and Null IDs

    The validators and the derivation of a Null ID, as three crates write
    them: crypto (src/crypto/src/lib.rs), dht-core
    (src/dht-core/src/crypto_helpers.rs) and crypto-utils
    (src/crypto-utils/src/lib.rs). *)

From S2P Require Import Prelude Text Primitives Concrete Pow.

(** ** crypto *)

(** Source: crypto/src/lib.rs:34-50, CryptoError. *)
Inductive CryptoError : Type :=
| InvalidFingerprint (m : string)
| EncryptFailed (m : string)
| DecryptFailed (m : string)
| Serialization (m : string)
| Ratchet (m : string)
| KeyPersistence (m : string)
| PirError (m : string).

(** Source: crypto/src/lib.rs:61-74, validate_fingerprint. *)
Definition crypto_validate_fingerprint (fp : string) : result CryptoError unit :=
  let cleaned := to_uppercase (remove_spaces fp) in
  if negb ((32 <=? slen cleaned) && (slen cleaned <=? 40)) then
    Err (InvalidFingerprint "fingerprint must be 32-40 hex chars")
  else if negb (str_all is_ascii_hexdigit cleaned) then
    Err (InvalidFingerprint "fingerprint contains non-hex characters")
  else Ok tt.

(** The test on the pieces between dashes. Source: crypto/src/lib.rs:77-78, validate_null_id. *)
Definition null_id_parts (nid : string) : bool :=
  match split_on "-"%char nid with
  | [p0; p1; p2] => String.eqb p0 "NN" && (slen p1 =? 4) && (slen p2 =? 4)
  | _ => false
  end.

(** Source: crypto/src/lib.rs:76-84, validate_null_id. *)
Definition crypto_validate_null_id (nid : string) : result CryptoError unit :=
  if null_id_parts nid then Ok tt
  else Err (InvalidFingerprint "null ID must be NN-XXXX-XXXX format").

Section derivation.
Context `{Blake2} `{Base64}.

(** Source: crypto/src/lib.rs:99-110, null_id. *)
Definition null_id (fingerprint : string) : string :=
  let b64 := b64_encode (blake2b_8 (str_bytes fingerprint)) in
  let b64 := str_take 8 (trim_end "="%char b64) in
  "NN-" +:+ str_slice 0 4 b64 +:+ "-" +:+ str_slice 4 4 b64.

(** Source: crypto/src/lib.rs:86-97, validate_null_id_strict. *)
Definition crypto_validate_null_id_strict (nid fingerprint : string) : result CryptoError unit :=
  let? _ := crypto_validate_null_id nid in
  let? _ := crypto_validate_fingerprint fingerprint in
  let expected := null_id fingerprint in
  if negb (String.eqb nid expected) then
    Err (InvalidFingerprint ("null ID " +:+ nid +:+
           " does not match fingerprint-derived ID " +:+ expected))
  else Ok tt.

(** ** dht-core *)

(** Source: dht-core/src/crypto_helpers.rs:91-98, validate_fingerprint. *)
Definition validate_fingerprint (fp : string) : bool :=
  if negb (slen fp =? 32) && negb (slen fp =? 40) then false else str_all is_ascii_hexdigit fp.

(** Source: dht-core/src/crypto_helpers.rs:100-107, validate_null_id. *)
Definition validate_null_id (nid : string) : bool :=
  match split_on "-"%char nid with
  | [p0; p1; p2] =>
      if negb (String.eqb p0 "NN") then false else (slen p1 =? 4) && (slen p2 =? 4)
  | _ => false
  end.

(** Source: dht-core/src/crypto_helpers.rs:121-139, compute_null_id. *)
Definition compute_null_id (fingerprint : string) : string :=
  let result := blake2b_8 (str_bytes fingerprint) in
  let b32 := b64_encode result in
  let b32 := trim_end "="%char b32 in
  let b32 := str_take 8 b32 in
  "NN-" +:+ str_slice 0 4 b32 +:+ "-" +:+ str_slice 4 4 b32.

Context `{Hmac}.

(** Source: dht-core/src/crypto_helpers.rs:141-149, constant_time_compare. *)
Definition constant_time_compare (a b : string) : bool :=
  bool_decide (hmac_sha256 (str_bytes "constant-time-compare") (str_bytes a) =
               hmac_sha256 (str_bytes "constant-time-compare") (str_bytes b)).

(** Source: dht-core/src/crypto_helpers.rs:109-119, validate_null_id_strict. *)
Definition validate_null_id_strict (nid fingerprint : string) : bool :=
  if negb (validate_null_id nid) then false
  else if negb (validate_fingerprint fingerprint) then false
  else constant_time_compare (compute_null_id fingerprint) nid.
End derivation.

(** ** crypto-utils *)

(** Source: crypto-utils/src/lib.rs:93-102, validate_fingerprint. *)
Definition utils_validate_fingerprint (fp : string) : bool :=
  let cleaned := remove_0x (remove_spaces fp) in
  (32 <=? slen cleaned) && (slen cleaned <=? 40) && str_all is_ascii_hexdigit cleaned.

(** Source: crypto-utils/src/lib.rs:247-258, null_id_from_fingerprint. *)
Definition null_id_from_fingerprint `{Blake2} `{Hex} (fp : string) : string :=
  let cleaned := to_lowercase (remove_spaces fp) in
  let hex := blake2b_8_hex cleaned in
  "NN-" +:+ to_uppercase (str_slice 0 4 hex) +:+ "-" +:+ to_uppercase (str_slice 4 4 hex).

(** ** Shape of a Null ID *)

Definition dash : ascii := "-"%char.

(** [NN-XXXX-XXXX]: two groups of four bytes, none a dash. *)
Definition null_id_form (nid : string) : Prop :=
  exists a b, nid = "NN-" +:+ a +:+ "-" +:+ b /\
    slen a = 4 /\ slen b = 4 /\ no_char dash a = true /\ no_char dash b = true.

Lemma split_null_id a b :
  no_char dash a = true -> no_char dash b = true ->
  split_on "-"%char ("NN-" +:+ a +:+ "-" +:+ b) = ["NN"; a; b].
Proof.
  intros Ha Hb. change ("NN-" +:+ a +:+ "-" +:+ b) with ("NN" +:+ String dash (a +:+ String dash b)).
  rewrite (split_on_app dash "NN") by done. rewrite (split_on_app dash a) by done.
  by rewrite split_on_no_char.
Qed.

Lemma null_id_parts_spec nid : null_id_parts nid = true <-> null_id_form nid.
Proof.
  unfold null_id_parts, null_id_form. split.
  - pose proof (join_split "-"%char nid) as Hj. pose proof (split_on_pieces "-"%char nid) as Hp.
    destruct (split_on "-"%char nid) as [|p0 [|p1 [|p2 [|]]]]; try done.
    rewrite !andb_true_iff, String.eqb_eq, !Z.eqb_eq. intros [[-> H1] H2].
    rewrite !Forall_cons in Hp. destruct Hp as (_ & Hp1 & Hp2 & _).
    exists p1, p2. split_and!; [|done..]. rewrite <- Hj. done.
  - intros (a & b & -> & Ha & Hb & Hda & Hdb). rewrite split_null_id by done.
    rewrite Ha, Hb. done.
Qed.

Lemma validate_null_id_parts nid : validate_null_id nid = null_id_parts nid.
Proof.
  unfold validate_null_id, null_id_parts.
  destruct (split_on "-"%char nid) as [|p0 [|p1 [|p2 [|]]]]; try done.
  by destruct (String.eqb p0 "NN").
Qed.

Lemma str_app_cons a s t : String a s +:+ t = String a (s +:+ t).
Proof. done. Qed.

Lemma trim_end_body c body pad :
  str_all (fun a => negb (Ascii.eqb a c)) body = true ->
  str_all (fun a => Ascii.eqb a c) pad = true -> trim_end c (body +:+ pad) = body.
Proof.
  intros Hb Hp. induction body as [|a s IH].
  - change ("" +:+ pad) with pad. induction pad as [|a s IH]; [done|]. cbn [str_all trim_end] in *.
    apply andb_true_iff in Hp as [Ha Hs]. by rewrite (IH Hs), Ha.
  - rewrite str_app_cons. cbn [str_all trim_end] in *. apply andb_true_iff in Hb as [Ha Hs].
    rewrite (IH Hs). apply negb_true_iff in Ha. rewrite Ha. by destruct s.
Qed.

Lemma b64_char_no c a :
  is_b64_char c = false -> is_b64_char a = true -> negb (Ascii.eqb a c) = true.
Proof.
  intros Hc Ha. apply negb_true_iff. destruct (Ascii.eqb a c) eqn:E; [|done].
  apply Ascii.eqb_eq in E. congruence.
Qed.

Section derived.
Context `{Blake2} `{Base64}.

Lemma null_id_groups fp :
  exists a b, null_id fp = "NN-" +:+ a +:+ "-" +:+ b /\ slen a = 4 /\ slen b = 4 /\
    str_all is_b64_char a = true /\ str_all is_b64_char b = true.
Proof.
  unfold null_id.
  destruct (b64_encode_form (blake2b_8 (str_bytes fp))) as (body & pad & -> & Hb & Hl & Hp);
    [apply blake2b_8_ok|].
  rewrite trim_end_body; [|eapply str_all_impl; [|exact Hb]; intros ?; by apply b64_char_no|done].
  unfold zlen in Hl. rewrite blake2b_8_length in Hl. change ((4 * Z.of_nat 8 + 2) / 3) with 11 in Hl.
  eexists _, _. split; [done|].
  assert (Ht : slen (str_take 8 body) = 8) by (rewrite str_take_length; lia).
  split_and!; [apply str_slice_length; lia|apply str_slice_length; lia| |];
    by apply str_all_slice, str_all_take.
Qed.

Lemma null_id_wf fp : null_id_form (null_id fp).
Proof.
  destruct (null_id_groups fp) as (a & b & E & Ha & Hb & Hca & Hcb).
  exists a, b. split_and!; [done|done|done| |];
    (eapply str_all_impl; [|done]; intros ?; by apply b64_char_no).
Qed.

(** A Null ID is accepted by the strict check exactly when it is the one
    derived from the fingerprint: derived identifiers always have the form
    [NN-XXXX-XXXX] (so the derivation cannot cut a string that is too short,
    and the syntax check never refuses a derived identifier), the syntax check
    accepts exactly the strings of that form, and dht-core and crypto derive
    the same identifier. *)
Theorem null_id_strict_spec `{Hmac} (nid fp : string) :
  (crypto_validate_null_id_strict nid fp = Ok tt <->
   crypto_validate_fingerprint fp = Ok tt /\ nid = null_id fp) /\
  (validate_null_id nid = true <-> null_id_form nid) /\
  null_id_form (null_id fp) /\ slen (null_id fp) = 12 /\
  compute_null_id fp = null_id fp /\
  (validate_fingerprint fp = true -> validate_null_id_strict (null_id fp) fp = true).
Proof.
  assert (Hwf : null_id_parts (null_id fp) = true) by apply null_id_parts_spec, null_id_wf.
  split_and!.
  - unfold crypto_validate_null_id_strict, crypto_validate_null_id.
    destruct (null_id_parts nid) eqn:E; simpl.
    + destruct (crypto_validate_fingerprint fp) as [[]|]; simpl; [|naive_solver].
      destruct (String.eqb_spec nid (null_id fp)) as [->|Hne]; simpl; naive_solver.
    + split; [done|]. intros [_ ->]. congruence.
  - by rewrite validate_null_id_parts, null_id_parts_spec.
  - apply null_id_wf.
  - destruct (null_id_groups fp) as (a & b & -> & Ha & Hb & _). rewrite !slen_app, Ha, Hb. done.
  - done.
  - intros Hv. unfold validate_null_id_strict. rewrite validate_null_id_parts, Hwf, Hv. simpl.
    apply bool_decide_eq_true. done.
Qed.
End derived.
