(* ===== verification/CertCache.v ===== *)
(** * The certificate cache and signature checks (src/dht-core/src/crypto_helpers.rs)

    The process-wide cache from fingerprints to armored certificates, and the
    two verifiers that read and fill it.  [Instant::now()] is an argument; the
    order in which the map is scanned decides between entries of equal age. *)

From S2P Require Import Prelude Text Primitives Concrete Gpg Identity.

(** Source: dht-core/src/crypto_helpers.rs:21-23, CERT_CACHE_MAX_ENTRIES. *)
Definition CERT_CACHE_MAX_ENTRIES : Z := 1000.

(** [None] until the first insertion.
    Source: dht-core/src/crypto_helpers.rs:25-31, CERT_CACHE. *)
Abbreviation cert_map := (gmap string (string * Z)).
Definition cert_cache : Type := option cert_map.

(** [cache.iter().min_by_key(ts)]: the first of the least. *)
Fixpoint min_by_ts (best : string * (string * Z)) (l : list (string * (string * Z)))
  : string * (string * Z) :=
  match l with
  | [] => best
  | e :: l' => min_by_ts (if e.2.2 <? best.2.2 then e else best) l'
  end.

(** Source: dht-core/src/crypto_helpers.rs:58-58, cache_cert. *)
Definition lru_key (m : cert_map) : option string :=
  match map_to_list m with [] => None | e :: l => Some (min_by_ts e l).1 end.

(** Source: dht-core/src/crypto_helpers.rs:56-61, cache_cert. *)
Definition evict (m : cert_map) : cert_map :=
  if CERT_CACHE_MAX_ENTRIES <? Z.of_nat (size m)
  then match lru_key m with Some k => delete k m | None => m end
  else m.

(** Source: dht-core/src/crypto_helpers.rs:43-62, cache_cert. *)
Definition cache_cert (now : Z) (fingerprint armored : string) (c : cert_cache) : cert_cache :=
  let m := opt_or c ∅ in
  Some (evict (<[to_uppercase fingerprint := (armored, now)]> m)).

(** The access time is refreshed under a second lock.
    Source: dht-core/src/crypto_helpers.rs:64-89, get_cached_cert. *)
Definition get_cached_cert (now : Z) (fingerprint : string) (c : cert_cache)
  : cert_cache * option string :=
  match c with
  | None => (c, None)
  | Some m =>
      match m !! to_uppercase fingerprint with
      | None => (c, None)
      | Some (armored, _) => (Some (<[to_uppercase fingerprint := (armored, now)]> m), Some armored)
      end
  end.

Section verify.
Context `{Sequoia} `{Base64}.

(** [String::from_utf8(STANDARD.decode(b64_sig))].
    Source: dht-core/src/crypto_helpers.rs:178-186, verify_signature. *)
Definition decode_sig (b64_sig : string) : option string :=
  raw ← b64_decode b64_sig; from_utf8 raw.

(** Source: dht-core/src/crypto_helpers.rs:151-161, sign_data. *)
Definition sign_data (sign_detached : string -> result string string) (data : string)
  : result string string :=
  let? sig_armored := sign_detached data in
  Ok (b64_encode (str_bytes sig_armored)).

(** Source: dht-core/src/crypto_helpers.rs:163-210, verify_signature. *)
Definition verify_signature (now : Z) (data b64_sig fingerprint : string) (c : cert_cache)
  : cert_cache * bool :=
  if negb (validate_fingerprint fingerprint) then (c, false)
  else
    match decode_sig b64_sig with
    | None => (c, false)
    | Some sig_armored =>
        let (c', found) := get_cached_cert now fingerprint c in
        match found with
        | None => (c', false)
        | Some cert_armored =>
            match cert_from_bytes cert_armored with
            | Err _ => (c', false)
            | Ok crt =>
                if negb (eq_ignore_ascii_case (fingerprint_from_cert crt) fingerprint)
                then (c', false)
                else (c', unwrap_or (verify_detached sig_armored data crt) false)
            end
        end
    end.

(** The certificate given is cached under its own fingerprint before the
    signature is looked at.
    Source: dht-core/src/crypto_helpers.rs:212-241, verify_signature_with_cert. *)
Definition verify_signature_with_cert (now : Z) (data b64_sig : string) (crt : cert)
    (c : cert_cache) : cert_cache * bool :=
  match decode_sig b64_sig with
  | None => (c, false)
  | Some sig_armored =>
      let fp := fingerprint_from_cert crt in
      let c' := cache_cert now fp (cert_serialize crt) c in
      (c', unwrap_or (verify_detached sig_armored data crt) false)
  end.

Lemma unwrap_ok_true {E} (r : result E bool) : unwrap_or r false = true -> r = Ok true.
Proof. by destruct r as [[]|]. Qed.

Lemma verify_signature_sound now data b64 fp c c' :
  verify_signature now data b64 fp c = (c', true) ->
  exists sig m armored t crt,
    decode_sig b64 = Some sig /\ c = Some m /\ m !! to_uppercase fp = Some (armored, t) /\
    cert_from_bytes armored = Ok crt /\
    to_lowercase (cert_fingerprint crt) = to_lowercase fp /\ signed_by crt sig data.
Proof.
  unfold verify_signature. destruct (validate_fingerprint fp); [|done].
  destruct (decode_sig b64) as [sig|]; [|done]. unfold get_cached_cert.
  destruct c as [m|]; [|done]. destruct (m !! to_uppercase fp) as [[armored t]|] eqn:El; [|done].
  destruct (cert_from_bytes armored) as [crt|] eqn:Ec; [|done]. simpl.
  destruct (eq_ignore_ascii_case _ _) eqn:Ef; [|done]. simpl. intros [= _ Hv].
  apply unwrap_ok_true, verify_detached_sound in Hv. apply String.eqb_eq in Ef.
  exists sig, m, armored, t, crt. done.
Qed.

Lemma verify_with_cert_sound now data b64 crt c c' :
  verify_signature_with_cert now data b64 crt c = (c', true) ->
  exists sig, decode_sig b64 = Some sig /\ signed_by crt sig data.
Proof.
  unfold verify_signature_with_cert. destruct (decode_sig b64) as [sig|]; [|done].
  intros [= _ Hv]. apply unwrap_ok_true, verify_detached_sound in Hv. by exists sig.
Qed.
End verify.

(** ** The bound and the eviction *)

Lemma min_by_ts_in best l : min_by_ts best l ∈ best :: l.
Proof.
  revert best. induction l as [|e l IH]; intros best; simpl; [by left|].
  specialize (IH (if e.2.2 <? best.2.2 then e else best)).
  apply elem_of_cons in IH as [->|IH]; [|by right; right].
  destruct (_ <? _); [by right; left|by left].
Qed.

Lemma min_by_ts_min best l e :
  e ∈ best :: l -> (min_by_ts best l).2.2 <= e.2.2.
Proof.
  revert best e. induction l as [|x l IH]; intros best e He; simpl.
  - apply list_elem_of_singleton in He as ->. lia.
  - set (b := if x.2.2 <? best.2.2 then x else best).
    assert (Hb : b.2.2 <= best.2.2 /\ b.2.2 <= x.2.2)
      by (unfold b; destruct (Z.ltb_spec x.2.2 best.2.2); lia).
    pose proof (IH b b (list_elem_of_here b l)) as Hbb.
    apply elem_of_cons in He as [->|He]; [lia|].
    apply elem_of_cons in He as [->|He]; [lia|]. apply IH. by right.
Qed.

Lemma lru_key_spec m k :
  lru_key m = Some k ->
  exists armored t, m !! k = Some (armored, t) /\
    forall k' a t', m !! k' = Some (a, t') -> t <= t'.
Proof.
  unfold lru_key. destruct (map_to_list m) as [|e l] eqn:E; [done|]. intros [= <-].
  assert (Hin : min_by_ts e l ∈ map_to_list m) by (rewrite E; apply min_by_ts_in).
  destruct (min_by_ts e l) as [k [a t]] eqn:Em. simpl. exists a, t.
  split; [by apply elem_of_map_to_list in Hin|].
  intros k' a' t' Hl. apply elem_of_map_to_list in Hl. rewrite E in Hl.
  pose proof (min_by_ts_min e l (k', (a', t')) Hl) as Hm. by rewrite Em in Hm.
Qed.

Lemma lru_key_None m : lru_key m = None -> m = ∅.
Proof.
  unfold lru_key. destruct (map_to_list m) eqn:E; [|done]. intros _.
  by apply map_to_list_empty_iff.
Qed.

Definition cache_bounded (c : cert_cache) : Prop :=
  Z.of_nat (size (opt_or c ∅)) <= CERT_CACHE_MAX_ENTRIES.

Lemma evict_bounded m : Z.of_nat (size m) <= CERT_CACHE_MAX_ENTRIES + 1 ->
  Z.of_nat (size (evict m)) <= CERT_CACHE_MAX_ENTRIES.
Proof.
  unfold evict. intros Hs. destruct (Z.ltb_spec CERT_CACHE_MAX_ENTRIES (Z.of_nat (size m))); [|lia].
  destruct (lru_key m) as [k|] eqn:E.
  - apply lru_key_spec in E as (a & t & El & _). rewrite map_size_delete, El.
    unfold CERT_CACHE_MAX_ENTRIES in *. simpl. lia.
  - apply lru_key_None in E as ->. rewrite map_size_empty in *. unfold CERT_CACHE_MAX_ENTRIES in *. lia.
Qed.

Lemma cache_cert_bounded now fp a c : cache_bounded c -> cache_bounded (cache_cert now fp a c).
Proof.
  unfold cache_bounded, cache_cert. intros Hb. simpl. apply evict_bounded.
  rewrite map_size_insert. destruct (opt_or c ∅ !! to_uppercase fp); simpl; lia.
Qed.

Lemma get_cached_bounded now fp c : cache_bounded c -> cache_bounded (get_cached_cert now fp c).1.
Proof.
  unfold cache_bounded, get_cached_cert. destruct c as [m|]; [|done]. simpl.
  destruct (m !! to_uppercase fp) as [[a t]|] eqn:E; [|done]. simpl.
  by rewrite map_size_insert_Some by (by eexists).
Qed.

Section cache.
Context `{Sequoia} `{Base64}.

Inductive cache_op : Type :=
| CCache (now : Z) (fp armored : string)
| CGet (now : Z) (fp : string)
| CVerify (now : Z) (data sig fp : string)
| CVerifyWith (now : Z) (data sig : string) (crt : cert).

Definition cache_step (c : cert_cache) (o : cache_op) : cert_cache :=
  match o with
  | CCache now fp a => cache_cert now fp a c
  | CGet now fp => (get_cached_cert now fp c).1
  | CVerify now d s fp => (verify_signature now d s fp c).1
  | CVerifyWith now d s crt => (verify_signature_with_cert now d s crt c).1
  end.

Lemma cache_step_bounded c o : cache_bounded c -> cache_bounded (cache_step c o).
Proof.
  intros Hb. destruct o as [now fp a|now fp|now d s fp|now d s crt]; simpl.
  - by apply cache_cert_bounded.
  - by apply get_cached_bounded.
  - unfold verify_signature. destruct (validate_fingerprint fp); [|done].
    destruct (decode_sig s); [|done]. simpl.
    pose proof (get_cached_bounded now fp c Hb) as Hg.
    destruct (get_cached_cert now fp c) as [c' [a|]]; [|done]. simpl in Hg.
    destruct (cert_from_bytes a); [|done]. by destruct (eq_ignore_ascii_case _ _).
  - unfold verify_signature_with_cert. destruct (decode_sig s); [|done]. by apply cache_cert_bounded.
Qed.

Lemma cache_steps_bounded os c : cache_bounded c -> cache_bounded (foldl cache_step c os).
Proof.
  revert c. induction os as [|o os IH]; intros c Hb; [done|]. apply IH. by apply cache_step_bounded.
Qed.

(** The cache is bounded and evicts the least recently used entry.  After
    any use of it, verifications included, it holds at most 1000 certificates;
    the next insertion keeps every other entry unless the cache overflows, and
    then drops one whose last access is no later than that of every entry
    kept. *)
Theorem cert_cache_lru (os : list cache_op) (now : Z) (fp armored k : string) (v : string * Z) :
  let c := foldl cache_step None os in
  let c' := cache_cert now fp armored c in
  cache_bounded c /\ cache_bounded c' /\
  (opt_or c ∅ !! k = Some v -> k <> to_uppercase fp ->
   opt_or c' ∅ !! k = Some v \/
   (Z.of_nat (size (opt_or c ∅)) = CERT_CACHE_MAX_ENTRIES /\
    opt_or c' ∅ !! k = None /\
    forall k' v', opt_or c' ∅ !! k' = Some v' -> v.2 <= v'.2)).
Proof.
  intros c c'. assert (Hc : cache_bounded c) by (apply cache_steps_bounded; unfold cache_bounded; vm_compute; done).
  assert (Hc' : cache_bounded c') by (by apply cache_cert_bounded).
  split_and!; [done|done|]. intros Hk Hne. unfold c', cache_cert. simpl.
  set (m := <[to_uppercase fp := (armored, now)]> (opt_or c ∅)).
  assert (Hm : m !! k = Some v) by (unfold m; by rewrite lookup_insert_ne).
  unfold evict. destruct (Z.ltb_spec CERT_CACHE_MAX_ENTRIES (Z.of_nat (size m))) as [Hover|]; [|by left].
  destruct (lru_key m) as [o|] eqn:Eo; [|by left].
  destruct (decide (o = k)) as [->|Hok]; [right|left; by rewrite lookup_delete_ne].
  split_and!.
  - unfold m in Hover. rewrite map_size_insert in Hover. unfold cache_bounded in Hc.
    destruct (opt_or c ∅ !! to_uppercase fp); simpl in Hover; lia.
  - apply lookup_delete_eq.
  - intros k' [a t'] Hl. apply lookup_delete_Some in Hl as [_ Hl].
    apply lru_key_spec in Eo as (a0 & t0 & E0 & Hmin). rewrite Hm in E0. injection E0 as ->.
    simpl. by eapply Hmin.
Qed.

(** What the verifiers vouch for.  A signature accepted for a fingerprint
    is a detached signature over the data, made by the first key of a cached
    certificate that carries this very fingerprint; a signature accepted with a
    given certificate is one made by its first key.  Nothing is accepted for a
    fingerprint whose certificate was never cached. *)
Theorem verify_signature_spec (now : Z) (data b64 fp : string) (crt : cert) (c : cert_cache) :
  ((verify_signature now data b64 fp c).2 = true ->
   exists sig m armored t crt',
     decode_sig b64 = Some sig /\ c = Some m /\ m !! to_uppercase fp = Some (armored, t) /\
     cert_from_bytes armored = Ok crt' /\
     to_lowercase (cert_fingerprint crt') = to_lowercase fp /\ signed_by crt' sig data) /\
  ((verify_signature_with_cert now data b64 crt c).2 = true ->
   exists sig, decode_sig b64 = Some sig /\ signed_by crt sig data) /\
  (opt_or c ∅ !! to_uppercase fp = None -> (verify_signature now data b64 fp c) = (c, false)).
Proof.
  split_and!.
  - intros Hv. destruct (verify_signature now data b64 fp c) as [c' ok] eqn:E. simpl in Hv. subst ok.
    by apply verify_signature_sound in E.
  - intros Hv. destruct (verify_signature_with_cert now data b64 crt c) as [c' ok] eqn:E. simpl in Hv.
    subst ok. by apply verify_with_cert_sound in E.
  - intros Hn. unfold verify_signature. destruct (validate_fingerprint fp); [|done].
    destruct (decode_sig b64); [|done]. unfold get_cached_cert. destruct c as [m|]; [|done].
    simpl in Hn. by rewrite Hn.
Qed.
End cache.
