(* ===== verification/DhtNode.v ===== *)
(** * The DHT node (src/dht-core/src/dht_node.rs, src/dht-core/src/types.rs)

    The connection handler and the three requests it serves.  Every request is
    answered by one envelope; clocks, random numbers and the outcome of the
    database statements are part of the context of a request. *)

From stdpp Require Import sorting.
From S2P Require Import Prelude Text Primitives Concrete Constants Json Gpg.
From S2P Require Import RateLimit DhtStore Envelope Pow Identity CertCache.

(** ** Node identifiers (types.rs) *)

Section ids.
Context `{Sha2}.

(** Source: dht-core/src/types.rs:70-77, DhtNode::node_id_from_nid. *)
Definition node_id_from_nid (nid : string) : Z :=
  from_be_bytes (take 16 (sha256 (str_bytes nid))).

(** Source: dht-core/src/types.rs:79-86, DhtNode::hash_key. *)
Definition hash_key (key : string) : Z :=
  from_be_bytes (take 16 (sha256 (str_bytes key))).
End ids.

(** Source: dht-core/src/types.rs:88-91, DhtNode::xor_distance. *)
Definition xor_distance (a b : Z) : Z := Z.lxor a b.

(** ** State *)

Record Node : Type := mkNode {
  store : DhtStore;
  seen_nonces : gmap string (gset Z);
  get_limiter : RateLimiter;
  conn_limiter : RateLimiter;
  certs : cert_cache;
}.

(** Source: dht-core/src/dht_node.rs:82-120, DhtNodeRuntime::new. *)
Definition new_node (s : DhtStore) : Node :=
  mkNode s ∅ (RateLimit.new 30 (f64_of_Z 60))
    (RateLimit.new CONN_RATE_LIMIT (f64_of_Z CONN_RATE_WINDOW)) None.

Definition set_store (n : Node) (s : DhtStore) : Node :=
  mkNode s (seen_nonces n) (get_limiter n) (conn_limiter n) (certs n).
Definition set_certs (n : Node) (c : cert_cache) : Node :=
  mkNode (store n) (seen_nonces n) (get_limiter n) (conn_limiter n) c.
Definition set_get_limiter (n : Node) (r : RateLimiter) : Node :=
  mkNode (store n) (seen_nonces n) r (conn_limiter n) (certs n).
Definition set_conn_limiter (n : Node) (r : RateLimiter) : Node :=
  mkNode (store n) (seen_nonces n) (get_limiter n) r (certs n).

(** [nonces.entry(key).or_default().insert(nonce)].
    Source: dht-core/src/dht_node.rs:502-503, DhtNodeRuntime::handle_put. *)
Definition remember_nonce (key : string) (nonce : Z) (n : Node) : Node :=
  mkNode (store n)
    (<[key := {[nonce]} ∪ opt_or (seen_nonces n !! key) ∅]> (seen_nonces n))
    (get_limiter n) (conn_limiter n) (certs n).

(** What a request reads besides the node: the clock at each reading, the
    random message identifier and salt, and the database. *)
Record context : Type := mkContext {
  x_now : f64;          (* freshness check *)
  x_reply_now : f64;    (* ts of the reply *)
  x_reply_id : string;  (* msg_id of the reply *)
  x_limit_now : f64;    (* rate limiter *)
  x_seq_now : f64;      (* sequence number of an address record *)
  x_store_now : f64;    (* DhtStore::put, get, count_keys *)
  x_clock : Z;          (* SQLite clock *)
  x_instant : Z;        (* cert cache *)
  x_rand : Z;           (* rand::random::<u32>() *)
  x_io : faults;
}.

Section handlers.
Context `{Sequoia} `{Base64} `{Blake2} `{Argon2} `{HashOrder (list f64)}.
Variable node_fingerprint : string.
Variable stealth_mode : bool.

Definition dht_error (x : context) (key m : string) : WireEnvelope :=
  build_dht_error (x_reply_id x) (x_reply_now x) key m.
Definition dht_found (x : context) (key v salt : string) (seq : Z) : WireEnvelope :=
  build_dht_found (x_reply_id x) (x_reply_now x) key v salt seq.

(** Source: dht-core/src/dht_node.rs:653-663, DhtNodeRuntime::stealth_response. *)
Definition stealth_response (x : context) : WireEnvelope := dht_found x "" "" "" 0.

Definition str_of (e : WireEnvelope) (k : string) : string := opt_or (payload_str e k) "".
Definition int_of (e : WireEnvelope) (k : string) (d : Z) : Z := opt_or (payload_i64 e k) d.

(** Source: dht-core/src/dht_node.rs:681-705, verify_dht_put_signature. *)
Definition verify_dht_put_signature (now : Z) (sign_data sig publisher_fp : string)
    (e : WireEnvelope) (c : cert_cache) : cert_cache * bool :=
  match payload_str e "publisher_cert" with
  | Some armored =>
      match cert_from_bytes armored with
      | Ok crt => verify_signature_with_cert now sign_data sig crt c
      | Err _ => verify_signature now sign_data sig publisher_fp c
      end
  | None => verify_signature now sign_data sig publisher_fp c
  end.

(** ** dht-put *)

(** The fields of the request. Source: dht-core/src/dht_node.rs:381-387, DhtNodeRuntime::handle_put. *)
Definition put_ttl (e : WireEnvelope) : Z := Z.min (int_of e "ttl" STORE_TTL) STORE_TTL.

(** The store is full and the key new; a failing count reads as zero.
    Source: dht-core/src/dht_node.rs:420-430, DhtNodeRuntime::handle_put. *)
Definition store_full (x : context) (key : string) (n : Node) : bool :=
  let exists_ := unwrap_or (has_key (x_io x) key (store n)).2 false in
  if exists_ then false
  else MAX_TOTAL_KEYS <=? unwrap_or (count_keys (x_io x) (x_store_now x) (store n)).2 0.

(** Source: dht-core/src/dht_node.rs:439-446, DhtNodeRuntime::handle_put. *)
Definition nonce_replayed (key : string) (nonce : Z) (n : Node) : bool :=
  match seen_nonces n !! key with Some s => bool_decide (nonce ∈ s) | None => false end.

(** Source: dht-core/src/dht_node.rs:453-453, DhtNodeRuntime::handle_put. *)
Definition put_difficulty (seq : Z) : Z := if seq =? 0 then 8 else DHT_POW_DIFFICULTY.

(** [format!("{key}{value_b64}{salt}{seq}")]. Source: dht-core/src/dht_node.rs:454-454, DhtNodeRuntime::handle_put. *)
Definition put_pow_data (key value salt : string) (seq : Z) : string :=
  key +:+ value +:+ salt +:+ pretty seq.

(** Source: dht-core/src/dht_node.rs:455-461, DhtNodeRuntime::handle_put. *)
Definition pow_ok (data : string) (nonce difficulty : Z) : bool :=
  unwrap_or (pow_check data (u64 nonce) difficulty (str_bytes node_fingerprint)) false.

(** Source: dht-core/src/dht_node.rs:492-492, DhtNodeRuntime::handle_put. *)
Definition put_sign_data (key value salt : string) (seq nonce : Z) : string :=
  key +:+ "|" +:+ value +:+ "|" +:+ salt +:+ "|" +:+ pretty seq +:+ "|" +:+ pretty nonce.

(** The checks before the signature, in order; [None] when all pass.
    Source: dht-core/src/dht_node.rs:389-486, DhtNodeRuntime::handle_put. *)
Definition put_refusal (x : context) (e : WireEnvelope) (n : Node) : option string :=
  let key := str_of e "key" in
  let value_b64 := str_of e "value" in
  let salt := str_of e "salt" in
  let seq := int_of e "seq" 0 in
  let ttl := put_ttl e in
  let nonce := int_of e "nonce" 0 in
  let publisher_fp := str_of e "publisher_fp" in
  if negb (validate_null_id key) then Some "invalid key format"
  else if MAX_KEY_SIZE <? slen key then Some "key too long"
  else if (ttl <=? 0) || (MAX_TTL <? ttl) then Some "ttl out of range"
  else if store_full x key n then Some "DHT store full (max keys reached)"
  else if MAX_VALUE_SIZE <? slen value_b64 then Some "value too large"
  else if nonce_replayed key nonce n then Some "nonce replay"
  else if negb (pow_ok (put_pow_data key value_b64 salt seq) nonce (put_difficulty seq))
       then Some "insufficient proof-of-work"
  else if str_is_empty (Envelope.sig e) then Some "missing signature"
  else if negb (validate_fingerprint publisher_fp) then Some "invalid publisher fingerprint"
  else if negb (String.eqb (compute_null_id publisher_fp) key)
       then Some ("key mismatch: expected " +:+ compute_null_id publisher_fp)
  else None.

(** Source: dht-core/src/dht_node.rs:500-500, DhtNodeRuntime::handle_put. *)
Definition put_arguments (e : WireEnvelope) : put_args :=
  mkPutArgs (str_of e "key") (str_of e "value") (str_of e "salt") (int_of e "seq" 0)
    (str_of e "publisher_fp") (put_ttl e) (Envelope.sig e) (int_of e "nonce" 0).

(** Source: dht-core/src/dht_node.rs:371-519, DhtNodeRuntime::handle_put. *)
Definition handle_put (x : context) (e : WireEnvelope) (n : Node) : Node * WireEnvelope :=
  let a := put_arguments e in
  let key := p_key a in
  match put_refusal x e n with
  | Some m => (n, dht_error x key m)
  | None =>
      let (c', verified) :=
        verify_dht_put_signature (x_instant x)
          (put_sign_data key (p_value a) (p_salt a) (p_seq a) (p_nonce a))
          (p_sig a) (p_fp a) e (certs n) in
      let n := set_certs n c' in
      if negb verified then (n, dht_error x key "signature verification failed")
      else
        let (s', r) := put (x_io x) (x_store_now x) (x_clock x) a (store n) in
        let n := set_store n s' in
        match r with
        | Ok true => (remember_nonce key (p_nonce a) n, dht_found x key (p_value a) (p_salt a) (p_seq a))
        | Ok false => (n, dht_error x key "stale sequence")
        | Err _ => (n, dht_error x key "storage error")
        end
  end.

(** ** dht-get. Source: dht-core/src/dht_node.rs:521-562, DhtNodeRuntime::handle_get. *)
Definition handle_get (x : context) (e : WireEnvelope) (n : Node) : WireEnvelope :=
  let key := str_of e "key" in
  if negb (validate_null_id key) then
    if stealth_mode then stealth_response x else dht_error x key "invalid key format"
  else
    match (get (x_io x) (x_store_now x) key (store n)).2 with
    | Ok (Some r) => dht_found x key (DhtStore.value r) (DhtStore.salt r) (DhtStore.seq r)
    | Ok None => dht_error x key "not found"
    | Err _ => dht_error x key "storage error"
    end.

(** ** dht-addr-record *)

(** Source: dht-core/src/dht_node.rs:597-597, DhtNodeRuntime::handle_addr_record. *)
Definition addr_sign_data (null_id address : string) (ttl : Z) : string :=
  null_id +:+ "|" +:+ address +:+ "|" +:+ pretty ttl.

(** Source: dht-core/src/dht_node.rs:598-608, DhtNodeRuntime::handle_addr_record. *)
Definition verify_addr_signature (now : Z) (sign_data sig publisher_fp : string)
    (e : WireEnvelope) (c : cert_cache) : cert_cache * bool :=
  match payload_str e "publisher_cert" with
  | Some armored =>
      match cert_from_bytes armored with
      | Ok crt => verify_signature_with_cert now sign_data sig crt c
      | Err _ => (c, false)
      end
  | None => verify_signature now sign_data sig publisher_fp c
  end.

(** Source: dht-core/src/dht_node.rs:620-620, DhtNodeRuntime::handle_addr_record. *)
Definition addr_pow_data (null_id address : string) (ttl : Z) : string :=
  null_id +:+ address +:+ pretty ttl.

(** The row stored: a random salt, and the clock in whole seconds as the
    sequence number. Source: dht-core/src/dht_node.rs:634-636, DhtNodeRuntime::handle_addr_record. *)
Definition addr_arguments (x : context) (e : WireEnvelope) : put_args :=
  mkPutArgs (str_of e "null_id") (str_of e "address") ("addr:" +:+ pretty (x_rand x))
    (f64_to_i64 (x_seq_now x)) (str_of e "publisher_fp") (int_of e "ttl" ADDR_TTL)
    (Envelope.sig e) (int_of e "nonce" 0).

(** Source: dht-core/src/dht_node.rs:564-651, DhtNodeRuntime::handle_addr_record. *)
Definition handle_addr_record (x : context) (e : WireEnvelope) (n : Node) : Node * WireEnvelope :=
  let a := addr_arguments x e in
  let null_id := p_key a in
  let expected_nid := compute_null_id (p_fp a) in
  if negb (validate_null_id null_id) then (n, dht_error x null_id "invalid null_id format")
  else if negb (validate_fingerprint (p_fp a)) then
    (n, dht_error x null_id "invalid publisher fingerprint")
  else if negb (String.eqb expected_nid null_id) then
    (n, dht_error x null_id ("null_id mismatch: expected " +:+ expected_nid))
  else
    let (c', verified) :=
      verify_addr_signature (x_instant x) (addr_sign_data null_id (p_value a) (p_ttl a))
        (p_sig a) (p_fp a) e (certs n) in
    let n := set_certs n c' in
    if negb verified then (n, dht_error x null_id "signature verification failed")
    else if negb (pow_ok (addr_pow_data null_id (p_value a) (p_ttl a)) (p_nonce a)
                         ADDR_POW_DIFFICULTY)
    then (n, dht_error x null_id "insufficient proof-of-work")
    else
      let (s', r) := put (x_io x) (x_store_now x) (x_clock x) a (store n) in
      let n := set_store n s' in
      match r with
      | Ok true => (n, dht_found x null_id (p_value a) (p_salt a) (p_seq a))
      | Ok false => (n, dht_error x null_id "stale sequence")
      | Err _ => (n, dht_error x null_id "storage error")
      end.

(** ** The connection *)

Context `{WireCodec}.

(** Source: dht-core/src/dht_node.rs:256-265, DhtNodeRuntime::handle_connection. *)
Inductive frame : Type := FText (raw : string) | FClose | FOther | FError.

(** The peer, the node, the failures in a row, the replies and the log. *)
Record session : Type := mkSession {
  s_node : Node;
  s_failures : Z;
  s_sent : list WireEnvelope;
  s_log : list (string * option string);
}.

Definition MAX_FAILURES : Z := 10.

(** A refused message counts, in 32 bits that wrap; the tenth in a row is logged.
    Source: dht-core/src/dht_node.rs:269-287, DhtNodeRuntime::handle_connection. *)
Definition fail_once (what : string) (reply : WireEnvelope) (s : session) : session :=
  let f := u32 (s_failures s + 1) in
  mkSession (s_node s) f (s_sent s ++ [reply])
    (s_log s ++ (if f =? MAX_FAILURES then [("SCANNER", Some (what +:+ " x10"))] else [])).

Definition answer (n : Node) (reply : WireEnvelope) (log : list (string * option string))
    (s : session) : session :=
  mkSession n 0 (s_sent s ++ [reply]) (s_log s ++ log).

(** [(now - env.ts).abs() > POW_MAX_AGE]. Source: dht-core/src/dht_node.rs:289-291, DhtNodeRuntime::handle_connection. *)
Definition stale (x : context) (e : WireEnvelope) : bool :=
  f64_gtb (f64_abs (f64_sub (x_now x) (ts e))) (f64_of_Z POW_MAX_AGE).

(** Source: dht-core/src/dht_node.rs:313-357, DhtNodeRuntime::handle_connection. *)
Definition dispatch (peer_ip : string) (x : context) (e : WireEnvelope) (s : session) : session :=
  let n := s_node s in
  if String.eqb (msg_type e) "dht-put" then
    let (n', r) := handle_put x e n in answer n' r [] s
  else if String.eqb (msg_type e) "dht-get" then
    let (l', ok) := RateLimit.allow (x_limit_now x) peer_ip (get_limiter n) in
    let n' := set_get_limiter n l' in
    if negb ok then
      answer n' (if stealth_mode then stealth_response x else dht_error x "" "rate limited")
        [("GET_RATE_LIMITED", Some "dht-get rate limit exceeded")] s
    else answer n' (handle_get x e n') [] s
  else if String.eqb (msg_type e) "dht-addr-record" then
    let (n', r) := handle_addr_record x e n in answer n' r [] s
  else
    answer n (if stealth_mode then stealth_response x
              else dht_error x (str_of e "key") ("unexpected type: " +:+ msg_type e))
      [("BAD_TYPE", Some (msg_type e))] s.

(** Source: dht-core/src/dht_node.rs:267-312, DhtNodeRuntime::handle_connection. *)
Definition handle_text (peer_ip : string) (x : context) (raw : string) (s : session) : session :=
  match from_json raw with
  | Err er =>
      fail_once "bad_envelope"
        (if stealth_mode then stealth_response x else dht_error x "" ("bad envelope: " +:+ er)) s
  | Ok e =>
      if stale x e then
        fail_once "stale_timestamp"
          (if stealth_mode then stealth_response x
           else dht_error x (str_of e "key") "stale timestamp") s
      else dispatch peer_ip x e s
  end.

(** Source: dht-core/src/dht_node.rs:222-369, DhtNodeRuntime::handle_connection. *)
Fixpoint handle_connection (peer_ip : string) (fs : list (context * frame)) (s : session)
  : session :=
  match fs with
  | [] => s
  | (x, FText raw) :: fs' => handle_connection peer_ip fs' (handle_text peer_ip x raw s)
  | (_, FOther) :: fs' => handle_connection peer_ip fs' s
  | (_, FClose) :: _ | (_, FError) :: _ => s
  end.

(** The entry written when a connection ends.
    Source: dht-core/src/dht_node.rs:359-366, DhtNodeRuntime::handle_connection. *)
Definition final_log (s : session) : list (string * option string) :=
  s_log s ++ (if 5 <=? s_failures s
              then [("SUSPECT", Some (pretty (s_failures s) +:+ " consecutive failures"))]
              else []).

(** A connection is served when the limiter of its address lets it in.
    Source: dht-core/src/dht_node.rs:193-220, DhtNodeRuntime::start. *)
Definition accept (now : f64) (peer_ip : string) (fs : list (context * frame)) (n : Node)
  : Node * list WireEnvelope :=
  let (l', allowed) := RateLimit.allow now peer_ip (conn_limiter n) in
  let n := set_conn_limiter n l' in
  if negb allowed then (n, [])
  else
    let s := handle_connection peer_ip fs (mkSession n 0 [] []) in
    (s_node s, s_sent s).
End handlers.

(** ** Background pruning of the nonces in memory *)

(** The 64 greatest of a set. Source: dht-core/src/dht_node.rs:176-186, DhtNodeRuntime::start. *)
Definition prune_set (s : gset Z) : gset Z :=
  if (64 <? Z.of_nat (size s)) then
    let all := merge_sort Z.le (elements s) in
    list_to_set (drop (length all - 64) all)
  else s.

(** Source: dht-core/src/dht_node.rs:161-191, DhtNodeRuntime::start. *)
Definition prune_nonces (n : Node) : Node :=
  mkNode (store n) (filter (fun ks => ks.2 <> ∅) (prune_set <$> seen_nonces n))
    (get_limiter n) (conn_limiter n) (certs n).

(** ** What a stored put has passed *)

Section put_props.
Context `{Sequoia} `{Base64} `{Blake2} `{Argon2} `{HashOrder (list f64)}.
Variable node_fingerprint : string.

(** The signature of a put: made over the data by the first key of some
    certificate, either the one the envelope carries or a cached one. *)
Definition put_signed (sign_data sig publisher_fp : string) (e : WireEnvelope) : Prop :=
  exists text crt, decode_sig sig = Some text /\ signed_by crt text sign_data /\
    ((exists armored, payload_str e "publisher_cert" = Some armored /\
        cert_from_bytes armored = Ok crt) \/
     to_lowercase (cert_fingerprint crt) = to_lowercase publisher_fp).

Lemma verify_put_sound now d s fp e c c' :
  verify_dht_put_signature now d s fp e c = (c', true) -> put_signed d s fp e.
Proof.
  unfold verify_dht_put_signature, put_signed.
  assert (Hfp : verify_signature now d s fp c = (c', true) ->
    exists text crt, decode_sig s = Some text /\ signed_by crt text d /\
      to_lowercase (cert_fingerprint crt) = to_lowercase fp).
  { intros (text & m & a & t & crt & Ht & _ & _ & _ & Hf & Hs)%verify_signature_sound. eauto. }
  destruct (payload_str e "publisher_cert") as [armored|] eqn:Ep.
  - destruct (cert_from_bytes armored) as [crt|] eqn:Ec.
    + intros (text & Ht & Hs)%verify_with_cert_sound. exists text, crt. eauto 10.
    + intros (text & crt & ? & ? & ?)%Hfp. exists text, crt. auto.
  - intros (text & crt & ? & ? & ?)%Hfp. exists text, crt. auto.
Qed.

(** Everything the checks of [handle_put] establish. *)
Record put_granted (x : context) (e : WireEnvelope) (n : Node) : Prop := {
  granted_key : str_of e "key" = compute_null_id (str_of e "publisher_fp");
  granted_fp : validate_fingerprint (str_of e "publisher_fp") = true;
  granted_ttl : 0 < put_ttl e <= STORE_TTL;
  granted_value : slen (str_of e "value") <= MAX_VALUE_SIZE;
  granted_nonce : nonce_replayed (str_of e "key") (int_of e "nonce" 0) n = false;
  granted_pow :
    pow_check (put_pow_data (str_of e "key") (str_of e "value") (str_of e "salt") (int_of e "seq" 0))
      (u64 (int_of e "nonce" 0)) (put_difficulty (int_of e "seq" 0)) (str_bytes node_fingerprint)
    = Ok true;
  granted_space : store_full x (str_of e "key") n = false;
}.

Lemma put_refusal_None x e n :
  put_refusal node_fingerprint x e n = None -> Envelope.sig e <> "" /\ put_granted x e n.
Proof.
  unfold put_refusal. intros Hr.
  destruct (validate_null_id _); [|done]. destruct (MAX_KEY_SIZE <? _); [done|]. cbn [negb] in Hr.
  destruct (_ || _) eqn:Et; [done|]. destruct (store_full x _ n) eqn:Ef; [done|].
  destruct (Z.ltb_spec MAX_VALUE_SIZE (slen (str_of e "value"))); [done|].
  destruct (nonce_replayed _ _ n) eqn:En; [done|].
  destruct (pow_ok _ _ _ _) eqn:Ep; [|done]. cbn [negb] in Hr.
  destruct (str_is_empty (Envelope.sig e)) eqn:Es; [done|].
  destruct (validate_fingerprint _) eqn:Ev; [|done]. cbn [negb] in Hr.
  destruct (String.eqb_spec (compute_null_id (str_of e "publisher_fp")) (str_of e "key")) as [Hk|];
    [|done].
  apply orb_false_iff in Et as [Et1%Z.leb_gt Et2%Z.ltb_ge].
  split; [intros E; by rewrite E in Es|].
  split; try done.
  - split; [done|]. unfold put_ttl. lia.
  - by apply unwrap_ok_true.
Qed.

(** The two ways a put ends. *)
Lemma handle_put_cases x e n n' r :
  handle_put node_fingerprint x e n = (n', r) ->
  (msg_type r = "dht-error" /\ store n' = store n /\ seen_nonces n' = seen_nonces n) \/
  (let a := put_arguments e in
   r = dht_found x (p_key a) (p_value a) (p_salt a) (p_seq a) /\
   put_granted x e n /\
   put_signed (put_sign_data (p_key a) (p_value a) (p_salt a) (p_seq a) (p_nonce a))
     (p_sig a) (p_fp a) e /\
   acceptable a (store n) /\
   store n' = stored (x_store_now x) (x_clock x) a (store n) /\
   seen_nonces n' = <[p_key a := {[p_nonce a]} ∪ opt_or (seen_nonces n !! p_key a) ∅]> (seen_nonces n)).
Proof.
  unfold handle_put. destruct (put_refusal node_fingerprint x e n) as [m|] eqn:Er.
  { intros [= <- <-]. by left. }
  destruct (verify_dht_put_signature _ _ _ _ _ _) as [c' ok] eqn:Ev.
  destruct ok; cbn [negb]; [|intros [= <- <-]; by left].
  destruct (put_eq (x_io x) (x_store_now x) (x_clock x) (put_arguments e) (store (set_certs n c')))
    as [(b & Hp & _)|[[er Hp]|[Hp Ha]]]; rewrite Hp.
  - intros [= <- <-]. by left.
  - intros [= <- <-]. by left.
  - intros [= <- <-]. right. apply verify_put_sound in Ev.
    apply put_refusal_None in Er as [_ Hg]. done.
Qed.

Lemma handle_put_other x e n :
  get_limiter (handle_put node_fingerprint x e n).1 = get_limiter n.
Proof.
  unfold handle_put. destruct (put_refusal _ _ _ _); [done|].
  destruct (verify_dht_put_signature _ _ _ _ _ _) as [c' [|]]; [|done]. cbn [negb].
  destruct (put _ _ _ _ _) as [s' [[|]|]]; done.
Qed.

(** C30: what reaches the store, and what the publisher is told.  A put is
    answered "dht-found" exactly when it is stored; then its key is the Null ID
    of its fingerprint, its time to live, its value and its proof of work are
    within the limits, its nonce was seen neither in memory nor in the
    database, its sequence number is above the stored one, and it carries a
    valid signature over the data.  In every other case the answer is
    "dht-error" and the store and the nonces are as before. *)
Theorem put_stored_iff_granted (x : context) (e : WireEnvelope) (n : Node) :
  let (n', r) := handle_put node_fingerprint x e n in
  let a := put_arguments e in
  (msg_type r = "dht-found" /\
   put_granted x e n /\
   put_signed (put_sign_data (p_key a) (p_value a) (p_salt a) (p_seq a) (p_nonce a))
     (p_sig a) (p_fp a) e /\
   acceptable a (store n) /\
   store n' = stored (x_store_now x) (x_clock x) a (store n) /\
   (get no_faults (x_store_now x) (p_key a) (store n')).2 =
     Ok (if f64_gtb (f64_add (x_store_now x) (f64_of_Z (p_ttl a))) (x_store_now x)
         then Some (row_of (x_store_now x) a) else None)) \/
  (msg_type r = "dht-error" /\ store n' = store n /\ seen_nonces n' = seen_nonces n).
Proof.
  destruct (handle_put node_fingerprint x e n) as [n' r] eqn:Eh.
  apply handle_put_cases in Eh as [Hl|(-> & Hg & Hs & Ha & Hst & _)]; [by right|left].
  split_and!; try done. rewrite Hst.
  unfold get, st_bind, await, st_guard, st_get, st_ret, no_faults. simpl. by rewrite lookup_insert_eq.
Qed.

(** C31: anyone can publish under any identity.  The certificate that comes with
    the envelope is used to check the signature, but nothing compares it with
    the fingerprint the record is published for: when the other checks pass and
    the database works, a put signed by any key at all is stored under the Null
    ID of the victim, with the victim as its publisher. *)
Theorem put_forged (x : context) (e : WireEnvelope) (n : Node) (armored text : string)
    (attacker : cert) :
  payload_str e "publisher_cert" = Some armored ->
  cert_from_bytes armored = Ok attacker ->
  to_lowercase (cert_fingerprint attacker) <> to_lowercase (str_of e "publisher_fp") ->
  put_refusal node_fingerprint x e n = None ->
  decode_sig (Envelope.sig e) = Some text ->
  let a := put_arguments e in
  verify_detached text (put_sign_data (p_key a) (p_value a) (p_salt a) (p_seq a) (p_nonce a)) attacker
    = Ok true ->
  x_io x = no_faults ->
  acceptable a (store n) ->
  exists n', handle_put node_fingerprint x e n = (n', dht_found x (p_key a) (p_value a) (p_salt a) (p_seq a)) /\
    kv_store (store n') !! compute_null_id (str_of e "publisher_fp") = Some (row_of (x_store_now x) a) /\
    DhtStore.publisher_fp (row_of (x_store_now x) a) = str_of e "publisher_fp".
Proof.
  intros Hc Hp _ Hr Hd a Hv Hio Ha. unfold handle_put. rewrite Hr. fold a.
  unfold verify_dht_put_signature. rewrite Hc, Hp. unfold verify_signature_with_cert.
  change (p_sig a) with (Envelope.sig e). rewrite Hd. fold a in Hv. rewrite Hv. cbn [unwrap_or negb].
  rewrite Hio, put_no_faults by done. eexists. split; [done|].
  apply put_refusal_None in Hr as [_ [Hk _ _ _ _ _ _]]. split; [|done].
  cbn. change (p_key a) with (str_of e "key"). rewrite Hk. apply lookup_insert_eq.
Qed.
End put_props.

(** ** Address records *)

Section addr_props.
Context `{Sequoia} `{Base64} `{Blake2} `{Argon2}.
Variable node_fingerprint : string.

(** The outcome of the signature check with a certificate in the envelope does
    not depend on the node. *)
Lemma verify_addr_with_cert now now' d s fp e c c' armored :
  payload_str e "publisher_cert" = Some armored ->
  (verify_addr_signature now d s fp e c).2 = (verify_addr_signature now' d s fp e c').2.
Proof.
  intros Hc. unfold verify_addr_signature. rewrite Hc. destruct (cert_from_bytes armored); [|done].
  unfold verify_signature_with_cert. by destruct (decode_sig s).
Qed.

(** The two ways an address record ends. *)
Lemma addr_cases x e n n' r :
  handle_addr_record node_fingerprint x e n = (n', r) ->
  let a := addr_arguments x e in
  (msg_type r = "dht-error" /\ store n' = store n) \/
  (r = dht_found x (p_key a) (p_value a) (p_salt a) (p_seq a) /\
   validate_null_id (p_key a) = true /\ validate_fingerprint (p_fp a) = true /\
   compute_null_id (p_fp a) = p_key a /\
   (verify_addr_signature (x_instant x) (addr_sign_data (p_key a) (p_value a) (p_ttl a))
      (p_sig a) (p_fp a) e (certs n)).2 = true /\
   pow_ok node_fingerprint (addr_pow_data (p_key a) (p_value a) (p_ttl a)) (p_nonce a)
     ADDR_POW_DIFFICULTY = true /\
   acceptable a (store n) /\ store n' = stored (x_store_now x) (x_clock x) a (store n)).
Proof.
  intros Hh a. unfold handle_addr_record in Hh. fold a in Hh.
  destruct (validate_null_id (p_key a)); cbn [negb] in Hh; [|left; by injection Hh as <- <-].
  destruct (validate_fingerprint (p_fp a)); cbn [negb] in Hh; [|left; by injection Hh as <- <-].
  destruct (String.eqb_spec (compute_null_id (p_fp a)) (p_key a)); cbn [negb] in Hh;
    [|left; by injection Hh as <- <-].
  destruct (verify_addr_signature _ _ _ _ _ _) as [c' ok] eqn:Ev.
  destruct ok; cbn [negb] in Hh; [|left; by injection Hh as <- <-].
  destruct (pow_ok _ _ _ _) eqn:Ep; cbn [negb] in Hh; [|left; by injection Hh as <- <-].
  destruct (put_eq (x_io x) (x_store_now x) (x_clock x) a (store (set_certs n c')))
    as [(b & Hp & _)|[[er Hp]|[Hp Ha]]]; rewrite Hp in Hh; injection Hh as <- <-;
    [by left|by left|right; split_and!; done].
Qed.

(** An address record is stored only under the Null ID of its fingerprint,
    with an accepted proof of work and signature; but the signature covers
    neither the nonce nor a time, so whoever holds a published record can
    publish it again: any later envelope with the same identity, address, time
    to live, certificate and signature, whatever its nonce, is stored again
    with a newer sequence number and a new expiry as soon as the proof of work
    for that nonce is done.  Its time to live is not limited either. *)
Theorem addr_record_replay (x x' : context) (e e' : WireEnvelope) (n n1 n2 : Node)
    (r : WireEnvelope) (armored : string) :
  handle_addr_record node_fingerprint x e n = (n1, r) ->
  msg_type r = "dht-found" ->
  payload_str e "publisher_cert" = Some armored ->
  payload_str e' "publisher_cert" = Some armored ->
  (forall k, k ∈ ["null_id"; "address"; "publisher_fp"] -> payload_str e' k = payload_str e k) ->
  payload_i64 e' "ttl" = payload_i64 e "ttl" ->
  Envelope.sig e' = Envelope.sig e ->
  let a := addr_arguments x e in
  let a' := addr_arguments x' e' in
  compute_null_id (p_fp a) = p_key a /\
  pow_ok node_fingerprint (addr_pow_data (p_key a) (p_value a) (p_ttl a)) (p_nonce a)
    ADDR_POW_DIFFICULTY = true /\
  (pow_ok node_fingerprint (addr_pow_data (p_key a) (p_value a) (p_ttl a)) (p_nonce a')
     ADDR_POW_DIFFICULTY = true ->
   x_io x' = no_faults -> acceptable a' (store n2) ->
   exists n3, handle_addr_record node_fingerprint x' e' n2 =
       (n3, dht_found x' (p_key a) (p_value a) (p_salt a') (p_seq a')) /\
     kv_store (store n3) !! p_key a = Some (row_of (x_store_now x') a')).
Proof.
  intros Hh Hr Hc Hc' Hk Ht Hs a a'.
  destruct (addr_cases x e n n1 r Hh) as [[E _]|(_ & Hnid & Hfp & Hnk & Hv & Hp & Ha & Hst)];
    [congruence|]. fold a in Hnid, Hfp, Hnk, Hv, Hp, Ha, Hst.
  split_and!; [done|done|]. intros Hp' Hio Ha'.
  assert (E1 : p_key a' = p_key a).
  { unfold a, a'. simpl. unfold str_of. rewrite Hk; [done|]. by left. }
  assert (E2 : p_value a' = p_value a).
  { unfold a, a'. simpl. unfold str_of. rewrite Hk; [done|]. by right; left. }
  assert (E3 : p_fp a' = p_fp a).
  { unfold a, a'. simpl. unfold str_of. rewrite Hk; [done|]. by right; right; left. }
  assert (E4 : p_ttl a' = p_ttl a) by (unfold a, a'; simpl; unfold int_of; by rewrite Ht).
  assert (E5 : p_sig a' = p_sig a) by done.
  unfold handle_addr_record. fold a'. rewrite E1, E2, E3, E4, E5, Hnid, Hfp, Hnk.
  rewrite String.eqb_refl. cbn [negb].
  assert (Hv' : (verify_addr_signature (x_instant x') (addr_sign_data (p_key a) (p_value a) (p_ttl a))
            (p_sig a) (p_fp a) e' (certs n2)).2 = true).
  { rewrite <- Hv. unfold verify_addr_signature. rewrite Hc, Hc'.
    destruct (cert_from_bytes armored); [|done].
    unfold verify_signature_with_cert. by destruct (decode_sig (p_sig a)). }
  destruct (verify_addr_signature (x_instant x') _ _ _ e' (certs n2)) as [c' ok]. simpl in Hv'.
  subst ok. cbn [negb]. rewrite Hp'. cbn [negb]. rewrite Hio, put_no_faults by done.
  eexists. split; [done|].
  change (<[p_key a' := row_of (x_store_now x') a']> (kv_store (store n2)) !! p_key a
          = Some (row_of (x_store_now x') a')).
  rewrite E1. apply lookup_insert_eq.
Qed.
End addr_props.

(** ** The connection *)

Section connection_props.
Context `{Sequoia} `{Base64} `{Blake2} `{Argon2} `{HashOrder (list f64)} `{WireCodec}.
Variable node_fingerprint : string.
Variable stealth_mode : bool.
Abbreviation text := (handle_text node_fingerprint stealth_mode).
Abbreviation conn := (handle_connection node_fingerprint stealth_mode).

(** The texts received before the connection ends. *)
Fixpoint texts (fs : list (context * frame)) : list (context * string) :=
  match fs with
  | [] | (_, FClose) :: _ | (_, FError) :: _ => []
  | (x, FText raw) :: fs' => (x, raw) :: texts fs'
  | (_, FOther) :: fs' => texts fs'
  end.

Lemma conn_texts ip fs s :
  conn ip fs s = foldl (fun s xr => text ip xr.1 xr.2 s) s (texts fs).
Proof.
  revert s. induction fs as [|[x f] fs IH]; intros s; [done|].
  destruct f as [raw| | |]; cbn [handle_connection texts foldl]; [|done|apply IH|done].
  by rewrite IH.
Qed.

Lemma text_one_reply ip x raw s : exists r, s_sent (text ip x raw s) = s_sent s ++ [r].
Proof.
  unfold handle_text. destruct (from_json raw) as [e|er]; [|by eexists].
  destruct (stale x e); [by eexists|]. unfold dispatch.
  destruct (String.eqb _ _); [destruct (handle_put _ _ _ _); by eexists|].
  destruct (String.eqb _ _).
  { destruct (allow _ _ _) as [l [|]]; by eexists. }
  destruct (String.eqb _ _); [destruct (handle_addr_record _ _ _ _); by eexists|by eexists].
Qed.

(** A text that is no envelope, or one too far from the clock. *)
Definition hostile (xr : context * string) : Prop :=
  match from_json xr.2 with Err _ => True | Ok e => stale xr.1 e = true end.

Lemma text_hostile ip x raw s :
  hostile (x, raw) ->
  s_node (text ip x raw s) = s_node s /\ s_failures (text ip x raw s) = u32 (s_failures s + 1) /\
  exists what, s_log (text ip x raw s) =
    s_log s ++ (if u32 (s_failures s + 1) =? MAX_FAILURES then [("SCANNER", Some (what +:+ " x10"))] else []).
Proof.
  unfold hostile, handle_text. cbn [fst snd]. destruct (from_json raw) as [e|er].
  - intros ->. split_and!; [done|done|by exists "stale_timestamp"].
  - intros _. split_and!; [done|done|by exists "bad_envelope"].
Qed.

Lemma hostile_run ip ts : forall s,
  Forall hostile ts -> 0 <= s_failures s -> s_failures s + zlen ts < 2 ^ 32 ->
  let s' := foldl (fun s xr => text ip xr.1 xr.2 s) s ts in
  s_node s' = s_node s /\ s_failures s' = s_failures s + zlen ts /\
  exists what, s_log s' = s_log s ++
    (if bool_decide (s_failures s < MAX_FAILURES <= s_failures s + zlen ts)
     then [("SCANNER", Some (what +:+ " x10"))] else []).
Proof.
  unfold zlen. induction ts as [|[x raw] ts IH]; intros s Ht Hpos Hmax.
  - simpl. split_and!; [done|lia|]. exists "". rewrite bool_decide_false by lia. by rewrite app_nil_r.
  - apply Forall_cons in Ht as [Hh Ht]. cbn [foldl].
    destruct (text_hostile ip x raw s Hh) as (E1 & E2 & w1 & E3). cbn [length] in Hmax.
    assert (Eu : u32 (s_failures s + 1) = s_failures s + 1) by (apply wrap_small; lia). rewrite Eu in E2, E3.
    assert (Hpos' : 0 <= s_failures (text ip x raw s)) by (rewrite E2; lia).
    destruct (IH (text ip x raw s) Ht Hpos' ltac:(lia)) as (F1 & F2 & w2 & F3).
    cbn [fst snd]. cbn [length]. split_and!; [congruence|lia|]. rewrite F3, E3, E2.
    unfold MAX_FAILURES. destruct (Z.eqb_spec (s_failures s + 1) 10).
    + exists w1. rewrite bool_decide_false by lia. rewrite bool_decide_true by lia. by rewrite app_nil_r.
    + exists w2. rewrite app_nil_r. destruct (decide (s_failures s + 1 < 10 <= s_failures s + 1 + Z.of_nat (length ts))).
      * rewrite !bool_decide_true by lia. done.
      * rewrite !bool_decide_false by lia. done.
Qed.

Lemma replies_from ip ts : forall s, exists l,
  s_sent (foldl (fun s xr => text ip xr.1 xr.2 s) s ts) = s_sent s ++ l /\ length l = length ts.
Proof.
  induction ts as [|[x raw] ts IH]; intros s; [exists []; by rewrite app_nil_r|]. cbn [foldl fst snd].
  destruct (IH (text ip x raw s)) as (l & -> & Hl). destruct (text_one_reply ip x raw s) as [r ->].
  exists (r :: l). rewrite <- app_assoc. split; [done|]. cbn. by rewrite Hl.
Qed.

(** C37: the protocol of a connection.  Every text received before the
    connection ends is answered by exactly one envelope, in order: what was sent
    when the k-th text had been handled is the first k replies of all, and the
    reply at its place is the one its handling sent, in the session that the
    texts before it left.  A peer that sends nothing but malformed or stale
    envelopes, fewer than 2^32 of them, changes nothing in the node, is logged as
    a scanner exactly once, when its tenth message comes, and as a suspect at the
    end when there were at least five. *)
Theorem connection_replies (ip : string) (fs : list (context * frame)) (n : Node) :
  let s := conn ip fs (mkSession n 0 [] []) in
  let after l := foldl (fun s xr => text ip xr.1 xr.2 s) (mkSession n 0 [] []) l in
  length (s_sent s) = length (texts fs) /\
  (forall before x raw later, texts fs = before ++ (x, raw) :: later ->
     s_sent (after before) = take (length before) (s_sent s) /\
     exists r, s_sent s !! length before = Some r /\
       s_sent (text ip x raw (after before)) = s_sent (after before) ++ [r]) /\
  (Forall hostile (texts fs) -> zlen (texts fs) < 2 ^ 32 ->
   let k := zlen (texts fs) in
   s_node s = n /\ s_failures s = k /\
   exists what,
     final_log s = (if bool_decide (10 <= k) then [("SCANNER", Some (what +:+ " x10"))] else []) ++
                   (if 5 <=? k then [("SUSPECT", Some (pretty k +:+ " consecutive failures"))] else [])).
Proof.
  intros s after. set (s0 := mkSession n 0 [] []). split_and!.
  - unfold s. fold s0. rewrite conn_texts. destruct (replies_from ip (texts fs) s0) as (l & -> & Hl). exact Hl.
  - intros before x raw later Et. unfold s. fold s0. rewrite conn_texts, Et, foldl_app. cbn [foldl fst snd].
    destruct (replies_from ip before s0) as (l1 & Eb & Hl1). fold s0 in after. change (s_sent (after before) = s_sent s0 ++ l1) in Eb. fold (after before).
    destruct (text_one_reply ip x raw (after before)) as [r Er].
    destruct (replies_from ip later (text ip x raw (after before))) as (l2 & E2 & _).
    rewrite E2, Er, Eb, <- app_assoc. cbn [s_sent s0 app]. rewrite <- Hl1.
    split; [by rewrite take_app_length|]. exists r. split; [by apply list_lookup_middle|done].
  - intros Hh Hmax k. unfold s. fold s0. rewrite conn_texts.
    destruct (hostile_run ip (texts fs) s0 Hh ltac:(simpl; lia) ltac:(simpl; lia)) as (Eb & E2 & w & E3).
    fold k in E2, E3. unfold MAX_FAILURES in E3. simpl in Eb, E2, E3.
    split_and!; [done|done|]. exists w. unfold final_log. rewrite E2, E3. f_equal.
    destruct (decide (10 <= k)); [by rewrite !bool_decide_true by lia|by rewrite !bool_decide_false by lia].
Qed.

(** ** Nonces in memory and in the database *)

(** Every nonce remembered in memory is in the database. *)
Definition nonces_backed (n : Node) : Prop :=
  forall k s z, seen_nonces n !! k = Some s -> z ∈ s -> is_Some (nonce_log (store n) !! (k, z)).

Lemma stored_log_mono now clock a s kn :
  is_Some (nonce_log s !! kn) -> is_Some (nonce_log (stored now clock a s) !! kn).
Proof.
  intros Hl. simpl. destruct (decide (kn = (p_key a, p_nonce a))) as [->|?];
    [rewrite lookup_insert_eq; by eexists|by rewrite lookup_insert_ne].
Qed.

Lemma put_backed x e n : nonces_backed n -> nonces_backed (handle_put node_fingerprint x e n).1.
Proof.
  intros Hb. destruct (handle_put node_fingerprint x e n) as [n' r] eqn:E.
  apply handle_put_cases in E as [(_ & Hs & Hn)|(_ & _ & _ & _ & Hs & Hn)];
    intros k s z; cbn [fst]; rewrite Hs, Hn; [apply Hb|].
  set (a := put_arguments e). intros [[<- <-]|[Hne Hk]]%lookup_insert_Some Hz.
  - apply elem_of_union in Hz as [Hz%elem_of_singleton|Hz].
    + subst z. simpl. rewrite lookup_insert_eq. by eexists.
    + apply stored_log_mono. destruct (seen_nonces n !! p_key a) as [s0|] eqn:E0; [|set_solver].
      by eapply Hb.
  - apply stored_log_mono. by eapply Hb.
Qed.

Lemma addr_backed x e n : nonces_backed n -> nonces_backed (handle_addr_record node_fingerprint x e n).1.
Proof.
  intros Hb. destruct (handle_addr_record node_fingerprint x e n) as [n' r] eqn:E.
  assert (Hn : seen_nonces n' = seen_nonces n).
  { revert E. unfold handle_addr_record. destruct (validate_null_id _); [|by intros [= <- <-]].
    destruct (validate_fingerprint _); [|by intros [= <- <-]].
    destruct (String.eqb _ _); [|by intros [= <- <-]].
    destruct (verify_addr_signature _ _ _ _ _ _) as [c' [|]]; [|by intros [= <- <-]].
    destruct (pow_ok _ _ _ _); [|by intros [= <- <-]]. cbn [negb].
    destruct (put _ _ _ _ _) as [s' [[|]|]]; by intros [= <- <-]. }
  apply addr_cases in E as [(_ & Hs)|(_ & _ & _ & _ & _ & _ & _ & Hs)]; intros k s z; cbn [fst];
    rewrite Hs, Hn; [apply Hb|]. intros Hk Hz. apply stored_log_mono. by eapply Hb.
Qed.

Lemma text_backed ip x raw s : nonces_backed (s_node s) -> nonces_backed (s_node (text ip x raw s)).
Proof.
  intros Hb. unfold handle_text. destruct (from_json raw) as [e|er]; [|done].
  destruct (stale x e); [done|]. unfold dispatch.
  destruct (String.eqb _ _).
  { pose proof (put_backed x e (s_node s) Hb) as Hp. by destruct (handle_put _ _ _ _). }
  destruct (String.eqb _ _); [by destruct (allow _ _ _) as [l [|]]|].
  destruct (String.eqb _ _); [|done].
  pose proof (addr_backed x e (s_node s) Hb) as Hp. by destruct (handle_addr_record _ _ _ _).
Qed.
End connection_props.

Lemma prune_set_spec (s : gset Z) :
  prune_set s ⊆ s /\ Z.of_nat (size (prune_set s)) <= 64.
Proof.
  unfold prune_set. destruct (Z.ltb_spec 64 (Z.of_nat (size s))) as [Hlt|]; [|done].
  set (all := merge_sort Z.le (elements s)).
  assert (Hp : all ≡ₚ elements s) by apply merge_sort_Permutation.
  split.
  - intros z Hz. apply elem_of_list_to_set in Hz.
    assert (Hi : z ∈ all) by (rewrite <- (take_drop (length all - 64) all); apply elem_of_app; by right).
    rewrite Hp in Hi. by apply elem_of_elements.
  - rewrite size_list_to_set.
    + rewrite length_drop. lia.
    + eapply sublist_NoDup; [|apply sublist_drop]. rewrite Hp. apply NoDup_elements.
Qed.

Lemma prune_nonces_lookup n k s :
  seen_nonces (prune_nonces n) !! k = Some s ->
  s <> ∅ /\ Z.of_nat (size s) <= 64 /\ exists s', seen_nonces n !! k = Some s' /\ s ⊆ s'.
Proof.
  unfold prune_nonces. simpl. rewrite map_lookup_filter_Some, lookup_fmap.
  intros [Hl Hne]. destruct (seen_nonces n !! k) as [s'|] eqn:E; [|done]. injection Hl as <-.
  destruct (prune_set_spec s'). split_and!; [done|done|]. by exists s'.
Qed.

Lemma prune_backed n : nonces_backed n -> nonces_backed (prune_nonces n).
Proof.
  intros Hn k s z Hs Hz. apply prune_nonces_lookup in Hs as (_ & _ & s' & Hs' & Hsub). simpl.
  eapply Hn; set_solver.
Qed.

Lemma new_node_backed s0 : nonces_backed (new_node s0).
Proof. intros k s z Hs. simpl in Hs. by rewrite lookup_empty in Hs. Qed.

Section backed.
Context `{Sequoia} `{Base64} `{Blake2} `{Argon2} `{HashOrder (list f64)} `{WireCodec}.
Variable fp : string.
Variable stealth : bool.

Lemma conn_backed ip fs s :
  nonces_backed (s_node s) -> nonces_backed (s_node (handle_connection fp stealth ip fs s)).
Proof.
  rewrite conn_texts. revert s. induction (texts fs) as [|t ts IH]; intros s Hs; [done|].
  cbn [foldl]. apply IH. by apply text_backed.
Qed.

(** A nonce in the database is not stored again. *)
Lemma logged_not_stored x e n :
  is_Some (nonce_log (store n) !! (str_of e "key", int_of e "nonce" 0)) ->
  store (handle_put fp x e n).1 = store n.
Proof.
  intros [t Ht]. destruct (handle_put fp x e n) as [n' r] eqn:E.
  apply handle_put_cases in E as [(_ & Hs & _)|(_ & _ & _ & (_ & Hn & _) & _)]; [done|].
  simpl in Hn. congruence.
Qed.

Lemma replayed_logged n k z :
  nonces_backed n -> nonce_replayed k z n = true -> is_Some (nonce_log (store n) !! (k, z)).
Proof.
  intros Hb Hr. unfold nonce_replayed in Hr. destruct (seen_nonces n !! k) as [s|] eqn:Es; [|done].
  apply bool_decide_eq_true in Hr. by eapply Hb.
Qed.
End backed.

(** Forgetting nonces is safe.  The background task leaves every key at
    most 64 nonces and no empty set, and only forgets nonces; every nonce held
    in memory, at any moment of any mix of connections and prunings that starts
    with none, is in the database, so a put whose nonce was forgotten is still
    not stored. *)
Theorem prune_keeps_replay_protection `{Sequoia} `{Base64} `{Blake2} `{Argon2}
    `{HashOrder (list f64)} `{WireCodec} (fp : string) (stealth : bool) (s0 : DhtStore)
    (history : list (option (string * list (context * frame)))) (x : context) (e : WireEnvelope) :
  let n := foldl (fun n h => match h with
                   | Some (ip, fs) => s_node (handle_connection fp stealth ip fs (mkSession n 0 [] []))
                   | None => prune_nonces n
                   end) (new_node s0) history in
  nonces_backed n /\
  (forall k s, seen_nonces (prune_nonces n) !! k = Some s ->
     s <> ∅ /\ Z.of_nat (size s) <= 64 /\
     exists s', seen_nonces n !! k = Some s' /\ s ⊆ s') /\
  (nonce_replayed (str_of e "key") (int_of e "nonce" 0) n = true ->
   store (handle_put fp x e (prune_nonces n)).1 = store n).
Proof.
  intros n.
  assert (Hb : nonces_backed n).
  { unfold n. clear n. generalize (new_node_backed s0). generalize (new_node s0).
    induction history as [|h hs IH]; intros m Hm; [done|]. cbn [foldl]. apply IH.
    destruct h as [[ip fs]|]; [by apply conn_backed|by apply prune_backed]. }
  split_and!; [done|apply prune_nonces_lookup|]. intros Hr.
  apply (logged_not_stored fp x e (prune_nonces n)). exact (replayed_logged n _ _ Hb Hr).
Qed.

(** ** Witnesses *)

Section concrete.
#[local] Existing Instances toy_argon2 toy_blake2 toy_base64 toy_sequoia.

Definition victim_fp : string := "AABBCCDDEEFF00112233445566778899".
Definition victim_id : string := "NN-Bdmt-gVUp".

Definition calm (now : Z) : context :=
  mkContext (f64_of_Z now) (f64_of_Z now) "0123456789abcdef" (f64_of_Z now) (f64_of_Z now)
    (f64_of_Z now) now now 7 no_faults.

Definition b64_sig (key data : string) : string := b64_encode (str_bytes (toy_sign key data)).

Definition forged_put : WireEnvelope :=
  mkWireEnvelope "dht-put"
    (VObject [("key", VString victim_id); ("value", VString "v"); ("salt", VString "s");
              ("seq", json_int 0); ("nonce", json_int 1); ("publisher_fp", VString victim_fp);
              ("publisher_cert", VString "CERT:EVIL")])
    "id" (f64_of_Z 1000) (b64_sig "EVIL" (put_sign_data victim_id "v" "s" 0 1)).

Lemma empty_acceptable a :
  slen (p_value a) <= STORE_MAX_VALUE_SIZE -> acceptable a empty_store.
Proof. intros Hs. split_and!; [exact Hs|reflexivity|]. intros r Hr. discriminate Hr. Qed.

Theorem put_forged_witness :
  exists n', handle_put "NODE" (calm 1000) forged_put (new_node empty_store)
      = (n', dht_found (calm 1000) victim_id "v" "s" 0) /\
    DhtStore.publisher_fp (row_of (f64_of_Z 1000) (put_arguments forged_put)) = victim_fp.
Proof.
  destruct (put_forged "NODE" (calm 1000) forged_put (new_node empty_store) "CERT:EVIL"
              (toy_sign "EVIL" (put_sign_data victim_id "v" "s" 0 1)) ("EVIL" : @cert toy_sequoia))
    as (n' & Hp & _ & Hf).
  - reflexivity.
  - reflexivity.
  - vm_compute. discriminate.
  - vm_compute. reflexivity.
  - vm_compute. reflexivity.
  - vm_compute. reflexivity.
  - reflexivity.
  - apply empty_acceptable. vm_compute. discriminate.
  - exists n'. split; [exact Hp|exact Hf].
Defined.

Definition addr_env (nonce : Z) : WireEnvelope :=
  mkWireEnvelope "dht-addr-record"
    (VObject [("null_id", VString victim_id); ("address", VString "wss://a"); ("ttl", json_int 99999999);
              ("nonce", json_int nonce); ("publisher_fp", VString victim_fp);
              ("publisher_cert", VString ("CERT:" +:+ victim_fp))])
    "id" (f64_of_Z 1000) (b64_sig victim_fp (addr_sign_data victim_id "wss://a" 99999999)).

Theorem addr_record_replay_witness :
  let n1 := (handle_addr_record "NODE" (calm 1000) (addr_env 1) (new_node empty_store)).1 in
  exists n3, handle_addr_record "NODE" (calm 2000) (addr_env 3) n1 =
      (n3, dht_found (calm 2000) victim_id "wss://a" "addr:7" 2000) /\
    kv_store (store n3) !! victim_id = Some (row_of (f64_of_Z 2000) (addr_arguments (calm 2000) (addr_env 3))).
Proof.
  intros n1.
  destruct (addr_record_replay "NODE" (calm 1000) (calm 2000) (addr_env 1) (addr_env 3)
              (new_node empty_store) n1 n1
              (handle_addr_record "NODE" (calm 1000) (addr_env 1) (new_node empty_store)).2
              ("CERT:" +:+ victim_fp)) as (_ & _ & Hr).
  - apply surjective_pairing.
  - vm_compute. reflexivity.
  - reflexivity.
  - reflexivity.
  - intros k Hk. repeat (apply elem_of_cons in Hk as [->|Hk]; [reflexivity|]). by apply elem_of_nil in Hk.
  - reflexivity.
  - reflexivity.
  - apply Hr.
    + vm_compute. reflexivity.
    + reflexivity.
    + split_and!.
      * vm_compute. discriminate.
      * vm_compute. reflexivity.
      * intros r Hr'. assert (E : (DhtStore.seq <$> kv_store (store n1) !! victim_id) = Some 1000)
          by (vm_compute; reflexivity).
        change (kv_store (store n1) !! victim_id = Some r) in Hr'. rewrite Hr' in E.
        simpl in E. injection E as ->. reflexivity.
Defined.
End concrete.
