(* ===== verification/CryptoUtils.v ===== *)
(** * Local key files (src/crypto-utils/src/lib.rs)

    Import, export and trust of certificates kept under the home directory,
    and the overwriting loop of [secure_delete].  The file system is a map
    from paths to contents; whether a call on it fails is decided by the
    environment and is an argument. *)

From S2P Require Import Prelude Text Primitives Concrete Identity.

(** Source: crypto-utils/src/lib.rs:20-31, CryptoUtilsError. *)
Inductive CryptoUtilsError : Type :=
| OpenPgp (m : string)
| Io (m : string)
| UtilsInvalidFingerprint (m : string)
| InvalidTrustLevel (m : string).

(** What the process sees of the machine: its files and its home directory. *)
Record machine : Type := mkMachine {
  files : gmap string string;
  home_dir : option string;
}.

Definition write_file (path contents : string) (m : machine) : machine :=
  mkMachine (<[path := contents]> (files m)) (home_dir m).

(** [home.join(p)] *)
Definition in_home (m : machine) (p : string) : result CryptoUtilsError string :=
  match home_dir m with Some h => Ok (h +:+ "/" +:+ p) | None => Err (Io "home dir not found") end.

Definition read_to_string (m : machine) (path : string) : result CryptoUtilsError string :=
  match files m !! path with Some s => Ok s | None => Err (Io "not found") end.

Section utils.
Context `{Sequoia}.

(** Source: crypto-utils/src/lib.rs:108-111, fingerprint_from_cert. *)
Definition utils_fingerprint_from_cert (c : cert) : string := to_uppercase (cert_fingerprint c).

(** Source: crypto-utils/src/lib.rs:113-118, parse_cert_armored. *)
Definition parse_cert_armored (armored : string) : result CryptoUtilsError cert :=
  match cert_from_bytes armored with
  | Ok c => Ok c
  | Err e => Err (OpenPgp ("parse cert: " +:+ e))
  end.

(** Source: crypto-utils/src/lib.rs:120-135, get_own_fingerprint. *)
Definition get_own_fingerprint (m : machine) : result CryptoUtilsError string :=
  let? path := in_home m ".nullnode/gnupg/own_cert.asc" in
  let? armored := read_to_string m path in
  let? c := parse_cert_armored armored in
  Ok (utils_fingerprint_from_cert c).

(** Source: crypto-utils/src/lib.rs:137-146, export_pubkey. *)
Definition export_pubkey (m : machine) : result CryptoUtilsError string :=
  let? path := in_home m ".nullnode/gnupg/own_cert.asc" in
  read_to_string m path.

(** Only the hexadecimal characters of the fingerprint reach the file name.
    Source: crypto-utils/src/lib.rs:163-165, import_pubkey. *)
Definition safe_fp (fp : string) : string := str_filter is_ascii_hexdigit fp.

(** Source: crypto-utils/src/lib.rs:167-174, import_pubkey. *)
Definition cert_path (fp : string) : string := ".nullnode/gnupg/" +:+ safe_fp fp +:+ ".asc".

(** [io] tells whether a write to a path succeeds.
    Source: crypto-utils/src/lib.rs:148-179, import_pubkey. *)
Definition import_pubkey (io : string -> bool) (armored : string)
  : st machine CryptoUtilsError string :=
  do c <- st_lift (parse_cert_armored armored);
  let fp := utils_fingerprint_from_cert c in
  do! st_guard (utils_validate_fingerprint fp) (UtilsInvalidFingerprint fp);
  do m <- st_get;
  do path <- st_lift (in_home m (cert_path fp));
  do! st_guard (io path) (Io "write failed");
  do! st_modify (write_file path armored);
  st_ret fp.

(** The loop over the packets ends at the first public key; a certificate with
    its secrets has none. Source: crypto-utils/src/lib.rs:180-205, get_fingerprint_from_armored. *)
Definition get_fingerprint_from_armored (armored : string) : result CryptoUtilsError string :=
  match packets_of armored with
  | Err e => Err (OpenPgp ("parse armored: " +:+ e))
  | Ok pile =>
      match omap (fun p => match p with PktPublicKey fp => Some fp | _ => None end) pile with
      | fp :: _ => Ok (to_uppercase fp)
      | [] => Err (OpenPgp "no public key found in armored data")
      end
  end.

(** Source: crypto-utils/src/lib.rs:218-218, set_key_trust. *)
Definition valid_trusts : list string := ["ultimate"; "marginal"; "never"; "unknown"].

(** Opening creates the file; the entry is appended.
    Source: crypto-utils/src/lib.rs:207-241, set_key_trust. *)
Definition set_key_trust (io : string -> bool) (fingerprint trust_level : string)
  : st machine CryptoUtilsError unit :=
  do! st_guard (utils_validate_fingerprint fingerprint) (UtilsInvalidFingerprint fingerprint);
  do! st_guard (bool_decide (trust_level ∈ valid_trusts)) (InvalidTrustLevel trust_level);
  do m <- st_get;
  do path <- st_lift (in_home m ".nullnode/gnupg/trust_map.txt");
  let entry := to_uppercase fingerprint +:+ ": " +:+ trust_level +:+ String (ascii_of_N 10) "" in
  do! st_guard (io path) (Io "open failed");
  st_modify (write_file path (opt_or (files m !! path) "" +:+ entry)).

(** An imported key goes by the name that was read from it before, when its first
    public key is that of the certificate. *)
Lemma imported_name io armored c pile m m' fp :
  packets_of armored = Ok pile ->
  head (omap (fun p => match p with PktPublicKey fp => Some fp | _ => None end) pile) = Some (cert_fingerprint c) ->
  cert_from_bytes armored = Ok c -> import_pubkey io armored m = (m', Ok fp) ->
  get_fingerprint_from_armored armored = Ok fp.
Proof.
  intros Hp Hh Hc Hi. unfold get_fingerprint_from_armored. rewrite Hp.
  destruct (omap _ pile) as [|k ks]; [done|]. injection Hh as ->.
  unfold import_pubkey, st_bind, st_lift, st_guard, st_get, st_modify, st_ret, st_fail, parse_cert_armored in Hi.
  rewrite Hc in Hi. repeat (case_match; simplify_eq; try done).
Qed.
End utils.

(** ** Secure deletion *)

(** Source: crypto-utils/src/lib.rs:73-73, secure_delete. *)
Definition BUF_LEN : nat := 8192.

(** The overwriting loop: the contents of the file, the position of the write
    cursor, the bytes still to write; [rng i] is the i-th random byte.
    Source: crypto-utils/src/lib.rs:74-80, secure_delete. *)
Fixpoint overwrite (fuel : nat) (rng : nat -> Z) (disk : bytes) (pos remaining : nat) : bytes :=
  match fuel with
  | O => disk
  | S f =>
      if (remaining =? 0)%nat then disk
      else
        let chunk := Nat.min remaining BUF_LEN in
        let data := rng <$> seq pos chunk in
        overwrite f rng (take pos disk ++ data ++ drop (pos + chunk) disk)
                  (pos + chunk) (remaining - chunk)
  end.

(** What the blocks of the file hold when it is unlinked: one turn of the loop
    per buffer, at most one per byte. Source: crypto-utils/src/lib.rs:39-87, secure_delete. *)
Definition secure_delete_blocks (rng : nat -> Z) (disk : bytes) : bytes :=
  let size := length disk in
  if (0 <? size)%nat then overwrite size rng (take 1 [0] ++ drop 1 disk) 0 size else disk.

Lemma BUF_LEN_pos : (0 < BUF_LEN)%nat.
Proof. apply Nat.ltb_lt. reflexivity. Qed.

Lemma overwrite_spec rng fuel : forall disk pos remaining,
  (remaining <= fuel)%nat -> length disk = (pos + remaining)%nat ->
  take pos disk = rng <$> seq 0 pos ->
  overwrite fuel rng disk pos remaining = rng <$> seq 0 (pos + remaining).
Proof.
  induction fuel as [|f IH]; intros disk pos remaining Hf Hl Ht.
  - assert (remaining = 0%nat) as -> by lia. rewrite Nat.add_0_r in *. cbn [overwrite].
    rewrite <- Ht, take_ge; [done|lia].
  - cbn [overwrite]. destruct (Nat.eqb_spec remaining 0) as [->|Hne].
    { rewrite Nat.add_0_r. rewrite Nat.add_0_r in Hl. rewrite <- Ht, take_ge; [done|lia]. }
    set (chunk := Nat.min remaining BUF_LEN).
    assert (Hc : (0 < chunk <= remaining)%nat) by (unfold chunk; pose proof BUF_LEN_pos; lia).
    assert (Hlt : length (take pos disk) = pos) by (rewrite length_take; lia).
    assert (Hld : length (rng <$> seq pos chunk) = chunk) by (by rewrite length_fmap, length_seq).
    rewrite IH.
    + f_equal. f_equal. lia.
    + lia.
    + rewrite !length_app, Hlt, Hld, length_drop. lia.
    + rewrite app_assoc, take_app_le by (rewrite length_app, Hlt, Hld; lia).
      rewrite take_ge by (rewrite length_app, Hlt, Hld; lia).
      rewrite Ht, <- fmap_app. f_equal. by rewrite seq_app.
Qed.

(** The local key store writes nowhere but where it should.  Importing any
    certificate, hostile ones included, changes no file but one directly under
    [.nullnode/gnupg], whose name is hexadecimal digits and [.asc] and which
    then holds the certificate as given; every failure leaves the files as they
    were.  Deleting a file securely replaces every byte of it by a random one
    before it is unlinked. *)
Theorem key_store_writes `{Sequoia} (io : string -> bool) (armored : string) (m m' : machine)
    (r : result CryptoUtilsError string) (rng : nat -> Z) (disk : bytes) :
  import_pubkey io armored m = (m', r) ->
  match r with
  | Err _ => m' = m
  | Ok fp => exists home name,
      home_dir m = Some home /\ str_all is_ascii_hexdigit name = true /\
      files m' = <[home +:+ "/.nullnode/gnupg/" +:+ name +:+ ".asc" := armored]> (files m) /\
      utils_validate_fingerprint fp = true
  end /\
  secure_delete_blocks rng disk = rng <$> seq 0 (length disk).
Proof.
  intros Hi. split.
  - unfold import_pubkey, st_bind, st_lift, st_guard, st_get, st_modify, st_ret, st_fail in Hi.
    destruct (parse_cert_armored armored) as [c|]; [|by injection Hi as <- <-].
    destruct (utils_validate_fingerprint _) eqn:Ev; [|by injection Hi as <- <-].
    unfold in_home in Hi. destruct (home_dir m) as [h|] eqn:Eh; [|by injection Hi as <- <-].
    destruct (io _); [|by injection Hi as <- <-].
    injection Hi as <- <-. exists h, (safe_fp (utils_fingerprint_from_cert c)).
    split; [done|]. split; [|by split].
    apply str_filter_all.
  - unfold secure_delete_blocks. destruct disk as [|b disk]; [done|].
    cbn [length Nat.ltb Nat.leb]. rewrite overwrite_spec; [done|lia| |done].
    rewrite length_app, length_drop. simpl. lia.
Qed.

Theorem key_store_writes_witness :
  let _ := Concrete.toy_sequoia in
  let m := mkMachine ∅ (Some "/home/u") in
  let fp := "AABBCCDDEEFF00112233445566778899" in
  let r := import_pubkey (fun _ => true) ("CERT:" +:+ fp) m in
  snd r = Ok fp /\ secure_delete_blocks (fun i => Z.of_nat i + 7) [1; 2; 3] = [7; 8; 9].
Proof.
  intros Q m fp r.
  destruct (@key_store_writes Q (fun _ => true) ("CERT:" +:+ fp) m (fst r) (snd r)
              (fun i => Z.of_nat i + 7) [1; 2; 3]) as [_ E].
  - apply surjective_pairing.
  - split; [vm_compute; reflexivity|]. rewrite E. reflexivity.
Defined.
