(* ===== verification/Ratchet.v ===== *)
(** * The message ratchet (src/crypto/src/lib.rs)

    [DoubleRatchetSession]: creation from a shared secret, the two ways of
    encrypting and the one way of decrypting.  The nonce and the coins of an
    encapsulation are random and are arguments. *)

From S2P Require Import Prelude Text Primitives Concrete Identity.

(** Source: crypto/src/lib.rs:58-59, MAX_SKIP and NONCE_SIZE. *)
Definition NONCE_SIZE : nat := 12.

(** Source: crypto/src/lib.rs:116-128, RatchetState. *)
Record RatchetState : Type := mkRatchetState {
  peer_fp : string;
  peer_nid : string;
  our_fp : string;
  is_initiator : bool;
  root_key : bytes;
  send_chain_key : bytes;
  recv_chain_key : bytes;
  send_message_number : Z;   (* u64 *)
  recv_message_number : Z;   (* u64 *)
  skipped_keys : gmap string bytes;
}.

Definition set_send_chain (ck : bytes) (s : RatchetState) : RatchetState :=
  mkRatchetState (peer_fp s) (peer_nid s) (our_fp s) (is_initiator s) (root_key s) ck
    (recv_chain_key s) (send_message_number s) (recv_message_number s) (skipped_keys s).
Definition set_recv_chain (ck : bytes) (s : RatchetState) : RatchetState :=
  mkRatchetState (peer_fp s) (peer_nid s) (our_fp s) (is_initiator s) (root_key s)
    (send_chain_key s) ck (send_message_number s) (recv_message_number s) (skipped_keys s).
Definition count_sent (s : RatchetState) : RatchetState :=
  mkRatchetState (peer_fp s) (peer_nid s) (our_fp s) (is_initiator s) (root_key s)
    (send_chain_key s) (recv_chain_key s) (u64 (send_message_number s + 1))
    (recv_message_number s) (skipped_keys s).
Definition count_received (s : RatchetState) : RatchetState :=
  mkRatchetState (peer_fp s) (peer_nid s) (our_fp s) (is_initiator s) (root_key s)
    (send_chain_key s) (recv_chain_key s) (send_message_number s)
    (u64 (recv_message_number s + 1)) (skipped_keys s).

Section ratchet.
Context `{Hkdf} `{Aead} `{Kem} `{Base64}.

Abbreviation method := (st RatchetState CryptoError).

(** [hk.expand(info, out)] with its error turned into [CryptoError::Ratchet]. *)
Definition expand (ikm : bytes) (info : string) (n : nat) (e : string) : result CryptoError bytes :=
  ok_or (hkdf_expand ikm (str_bytes info) n) (Ratchet e).

(** Source: crypto/src/lib.rs:135-173, DoubleRatchetSession::new. *)
Definition new (peer_fp peer_nid our_fp : string) (is_initiator : bool) (shared_secret : bytes)
  : result CryptoError RatchetState :=
  if zlen shared_secret <? 32 then Err (Ratchet "shared_secret must be at least 32 bytes")
  else
    let? root_key := expand shared_secret "nullnode-double-ratchet-v1-root" 32 "HKDF root_key" in
    let? chain_keys := expand shared_secret "nullnode-double-ratchet-v1-chains" 64 "HKDF chain_keys" in
    let '(send_ck, recv_ck) :=
      if is_initiator then (take 32 chain_keys, drop 32 chain_keys)
      else (drop 32 chain_keys, take 32 chain_keys) in
    Ok (mkRatchetState peer_fp peer_nid our_fp is_initiator root_key send_ck recv_ck 0 0 ∅).

(** Source: crypto/src/lib.rs:175-184, DoubleRatchetSession::derive_message_key. *)
Definition derive_message_key (chain_key : bytes) : result CryptoError (bytes * bytes) :=
  let? output := expand chain_key "nullnode-double-ratchet-v1-step" 64 "HKDF step" in
  Ok (take 32 output, drop 32 output).

(** Source: crypto/src/lib.rs:195-199, DoubleRatchetSession::encrypt_first. *)
Definition aes_seal (key nonce plaintext : bytes) : result CryptoError bytes :=
  ok_or (aes_encrypt key nonce plaintext) (EncryptFailed "AES-GCM").

(** The chain moves before the text is encrypted; the Kyber arguments of the
    code are not used. Source: crypto/src/lib.rs:186-204, DoubleRatchetSession::encrypt_first. *)
Definition encrypt_first (nonce : bytes) (plaintext : string) : method bytes :=
  do s <- st_get;
  do (msg_key, new_ck) <- st_lift (derive_message_key (send_chain_key s));
  do! st_modify (set_send_chain new_ck);
  do ciphertext <- st_lift (aes_seal msg_key nonce (str_bytes plaintext));
  do! st_modify count_sent;
  st_ret (nonce ++ ciphertext).

(** The Kyber ciphertext and its length in two bytes follow the AES ciphertext.
    Source: crypto/src/lib.rs:206-236, DoubleRatchetSession::encrypt_message. *)
Definition encrypt_message (nonce coins : bytes) (plaintext : string) (recipient : enc_key)
  : method bytes :=
  let (kyber_ct, kyber_ss) := encapsulate recipient coins in
  do s <- st_get;
  do (msg_key, new_ck) <- st_lift (derive_message_key (send_chain_key s ++ kyber_ss));
  do! st_modify (set_send_chain new_ck);
  do ciphertext <- st_lift (aes_seal msg_key nonce (str_bytes plaintext));
  do! st_modify count_sent;
  st_ret (nonce ++ ciphertext ++ kyber_ct ++ be_bytes 2 (u16 (zlen kyber_ct))).

(** One step of the receiving chain and the decryption with its key.
    Source: crypto/src/lib.rs:288-298, DoubleRatchetSession::simple_decrypt. *)
Definition open_with (chain : bytes) (nonce ct : bytes) : method bytes :=
  do (msg_key, new_ck) <- st_lift (derive_message_key chain);
  do! st_modify (set_recv_chain new_ck);
  do pt <- st_lift (ok_or (aes_decrypt msg_key nonce ct) (DecryptFailed "AES-GCM"));
  do! st_modify count_received;
  st_ret pt.

(** Source: crypto/src/lib.rs:288-298, DoubleRatchetSession::simple_decrypt. *)
Definition simple_decrypt (nonce body : bytes) : method bytes :=
  do s <- st_get; open_with (recv_chain_key s) nonce body.

(** The number in the last two bytes of the body.
    Source: crypto/src/lib.rs:254-254, DoubleRatchetSession::decrypt_message. *)
Definition trailer (body : bytes) : Z :=
  from_be_bytes (drop (length body - 2) body).

(** The body has the format of a later message.
    Source: crypto/src/lib.rs:252-255, DoubleRatchetSession::decrypt_message. *)
Definition has_kyber (body : bytes) : bool :=
  (2 <? zlen body) && ((0 <? trailer body) && (trailer body + 2 <=? zlen body)).

(** Source: crypto/src/lib.rs:256-276, DoubleRatchetSession::decrypt_message. *)
Definition kyber_decrypt (our_kyber : dec_key) (nonce body : bytes) : method bytes :=
  let aes_ct_end := Z.to_nat (zlen body - 2 - trailer body) in
  let aes_ct := take aes_ct_end body in
  let kyber_ct := take (length body - 2 - aes_ct_end) (drop aes_ct_end body) in
  do! st_guard (zlen kyber_ct =? 1568) (DecryptFailed "kyber parse");
  do s <- st_get;
  open_with (recv_chain_key s ++ decapsulate our_kyber kyber_ct) nonce aes_ct.

(** Source: crypto/src/lib.rs:238-286, DoubleRatchetSession::decrypt_message. *)
Definition decrypt_message (ciphertext_b64 : string) (our_kyber : dec_key) : method string :=
  do raw <- st_lift (ok_or (b64_decode ciphertext_b64) (DecryptFailed "base64 decode"));
  do! st_guard (negb (zlen raw <? Z.of_nat NONCE_SIZE + 16 + 2)) (DecryptFailed "ciphertext too short");
  let nonce := take NONCE_SIZE raw in
  let body := drop NONCE_SIZE raw in
  do pt <- if has_kyber body then kyber_decrypt our_kyber nonce body
           else simple_decrypt nonce body;
  st_lift (ok_or (from_utf8 pt) (DecryptFailed "utf8")).

(** ** Two sessions *)

(** What the receiver expects next is what the sender will use next. *)
Definition in_step (a b : RatchetState) : Prop :=
  send_chain_key a = recv_chain_key b /\ recv_chain_key a = send_chain_key b.

Lemma derive_total ck :
  exists k ck', derive_message_key ck = Ok (k, ck') /\ length k = 32%nat /\ length ck' = 32%nat.
Proof.
  unfold derive_message_key, expand.
  destruct (hkdf_expand_ok ck (str_bytes "nullnode-double-ratchet-v1-step") 64) as (o & -> & Hl);
    [apply Nat.leb_le; reflexivity|].
  simpl. exists (take 32 o), (drop 32 o). split_and!; [done|rewrite length_take; lia|rewrite length_drop; lia].
Qed.

Lemma new_in_step fa na oa fb nb ob secret a b :
  new fa na oa true secret = Ok a -> new fb nb ob false secret = Ok b ->
  in_step a b /\ length (send_chain_key a) = 32%nat /\ length (recv_chain_key a) = 32%nat.
Proof.
  unfold new. destruct (zlen secret <? 32); [done|].
  unfold expand. destruct (hkdf_expand secret (str_bytes "nullnode-double-ratchet-v1-root") 32); [|done].
  destruct (hkdf_expand_ok secret (str_bytes "nullnode-double-ratchet-v1-chains") 64) as (o & -> & Hl);
    [apply Nat.leb_le; reflexivity|]. simpl. intros [= <-] [= <-]. simpl.
  split_and!; [done|rewrite length_take; lia|rewrite length_drop; lia].
Qed.

Lemma ok_or_Ok {E A} (o : option A) (e : E) a : ok_or o e = Ok a -> o = Some a.
Proof. destruct o; simpl; congruence. Qed.

(** The bytes of an encapsulation's length. *)
Lemma kyber_trailer_bytes (ct : bytes) :
  length ct = 1568%nat -> be_bytes 2 (u16 (zlen ct)) = [6; 32].
Proof. intros Hl. unfold zlen. rewrite Hl. reflexivity. Qed.

Lemma trailer_app (l : bytes) a b : trailer (l ++ [a; b]) = a * 256 + b.
Proof.
  unfold trailer. rewrite length_app. simpl.
  replace (length l + 2 - 2)%nat with (length l) by lia. rewrite drop_app_length. done.
Qed.

Lemma open_with_ok ck k ck' nonce ct pt s :
  derive_message_key ck = Ok (k, ck') -> aes_decrypt k nonce ct = Some pt ->
  open_with ck nonce ct s = (count_received (set_recv_chain ck' s), Ok pt).
Proof.
  intros Hd Ha. unfold open_with, st_bind, st_lift, st_modify, st_ret. rewrite Hd. by rewrite Ha.
Qed.

(** The format of a first message is told from the length it seems to carry. *)
Definition first_ok (raw : bytes) : Prop := has_kyber (drop NONCE_SIZE raw) = false.

Lemma encrypt_first_inv nonce pt s s' raw :
  encrypt_first nonce pt s = (s', Ok raw) ->
  exists k ck ct, derive_message_key (send_chain_key s) = Ok (k, ck) /\
    aes_encrypt k nonce (str_bytes pt) = Some ct /\ raw = nonce ++ ct /\
    s' = count_sent (set_send_chain ck s).
Proof.
  unfold encrypt_first, st_bind, st_get, st_lift, st_modify, st_ret, aes_seal.
  destruct (derive_message_key (send_chain_key s)) as [[k ck]|]; [|done].
  destruct (aes_encrypt k nonce (str_bytes pt)) as [ct|] eqn:E; [|done].
  simpl. intros [= <- <-]. by exists k, ck, ct.
Qed.

Lemma encrypt_message_inv nonce coins pt ek s s' raw :
  encrypt_message nonce coins pt ek s = (s', Ok raw) ->
  exists k ck ct kct kss, encapsulate ek coins = (kct, kss) /\
    derive_message_key (send_chain_key s ++ kss) = Ok (k, ck) /\
    aes_encrypt k nonce (str_bytes pt) = Some ct /\
    raw = nonce ++ (ct ++ kct) ++ be_bytes 2 (u16 (zlen kct)) /\
    s' = count_sent (set_send_chain ck s).
Proof.
  unfold encrypt_message, st_bind, st_get, st_lift, st_modify, st_ret, aes_seal.
  destruct (encapsulate ek coins) as [kct kss] eqn:Ek.
  destruct (derive_message_key (send_chain_key s ++ kss)) as [[k ck]|] eqn:Ed; [|done].
  destruct (aes_encrypt k nonce (str_bytes pt)) as [ct|] eqn:E; [|done].
  cbn [ok_or]. intros [= <- <-]. exists k, ck, ct, kct, kss.
  do 3 (split; [done|]). split; [|done]. by rewrite <- (app_assoc ct kct).
Qed.

Lemma encrypt_first_total nonce pt s :
  slen pt < 2 ^ 32 -> exists s' raw, encrypt_first nonce pt s = (s', Ok raw).
Proof.
  intros Hl. unfold encrypt_first, st_bind, st_get, st_lift, st_modify, st_ret, aes_seal.
  destruct (derive_total (send_chain_key s)) as (k & ck & -> & _).
  destruct (aes_encrypt_total k nonce (str_bytes pt)) as [ct ->]; [by rewrite str_bytes_length|].
  by eexists _, _.
Qed.

Lemma encrypt_message_total nonce coins pt ek s :
  slen pt < 2 ^ 32 -> exists s' raw, encrypt_message nonce coins pt ek s = (s', Ok raw).
Proof.
  intros Hl. unfold encrypt_message, st_bind, st_get, st_lift, st_modify, st_ret, aes_seal.
  destruct (encapsulate ek coins) as [kct kss].
  destruct (derive_total (send_chain_key s ++ kss)) as (k & ck & -> & _).
  destruct (aes_encrypt_total k nonce (str_bytes pt)) as [ct ->]; [by rewrite str_bytes_length|].
  by eexists _, _.
Qed.

(** Decoding the transport brings back nonce and body. *)
Lemma decrypt_raw nonce body dk s :
  bytes_ok (nonce ++ body) -> length nonce = NONCE_SIZE -> (18 <= length body)%nat ->
  decrypt_message (b64_encode (nonce ++ body)) dk s =
  (do pt <- (if has_kyber body then kyber_decrypt dk nonce body else simple_decrypt nonce body);
   st_lift (ok_or (from_utf8 pt) (DecryptFailed "utf8"))) s.
Proof.
  intros Hok Hn Hb. unfold decrypt_message, st_bind at 1 2, st_lift at 1.
  rewrite b64_decode_encode by done. cbn [ok_or]. unfold st_guard.
  assert (Hz : zlen (nonce ++ body) <? Z.of_nat NONCE_SIZE + 16 + 2 = false).
  { apply Z.ltb_ge. unfold zlen. rewrite length_app, Hn. unfold NONCE_SIZE. lia. }
  rewrite Hz. cbn [negb]. unfold st_ret.
  rewrite <- Hn. rewrite take_app_length, drop_app_length. done.
Qed.

(** A later message opens with the key it was sealed with. *)
Lemma kyber_roundtrip nonce coins pt dk sa sa' sb raw :
  bytes_ok nonce -> length nonce = NONCE_SIZE -> str_ok pt ->
  send_chain_key sa = recv_chain_key sb ->
  encrypt_message nonce coins pt (ek_of dk) sa = (sa', Ok raw) ->
  exists sb', decrypt_message (b64_encode raw) dk sb = (sb', Ok pt) /\
    recv_chain_key sb' = send_chain_key sa' /\ send_chain_key sb' = send_chain_key sb /\
    recv_chain_key sa' = recv_chain_key sa.
Proof.
  intros Hno Hn Hu Hck He.
  apply encrypt_message_inv in He as (k & ck & ct & kct & kss & Hk & Hd & Ha & -> & ->).
  destruct (encapsulate_length _ _ _ _ Hk) as [Hkl _].
  pose proof (aes_encrypt_length _ _ _ _ Ha) as Hcl.
  rewrite (kyber_trailer_bytes kct Hkl).
  set (body := (ct ++ kct) ++ [6; 32]).
  assert (Hbl : length body = (length ct + 1570)%nat).
  { unfold body. rewrite !length_app, Hkl. cbn [length]. lia. }
  assert (Htr : trailer body = 1568) by (unfold body; by rewrite trailer_app).
  assert (Hbok : bytes_ok (nonce ++ body)).
  { unfold bytes_ok, body. rewrite !Forall_app. split_and!; [done| | |].
    - eapply aes_encrypt_ok; [|done]. apply str_bytes_ok.
    - by eapply encapsulate_ok.
    - repeat constructor; discriminate. }
  assert (Hhk : has_kyber body = true).
  { unfold has_kyber. rewrite Htr. unfold zlen. rewrite Hbl.
    rewrite !andb_true_iff, !Z.ltb_lt, Z.leb_le. lia. }
  rewrite decrypt_raw by (done || lia). rewrite Hhk.
  assert (Hend : Z.to_nat (zlen body - 2 - trailer body) = length ct).
  { rewrite Htr. unfold zlen. rewrite Hbl. lia. }
  assert (Haes : take (length ct) body = ct) by (unfold body; by rewrite <- app_assoc, take_app_length).
  assert (Hkct : take (length body - 2 - length ct) (drop (length ct) body) = kct).
  { unfold body at 2. rewrite <- app_assoc, drop_app_length, Hbl.
    replace (length ct + 1570 - 2 - length ct)%nat with (length kct) by lia. apply take_app_length. }
  unfold st_bind at 1, kyber_decrypt. rewrite Hend, Haes, Hkct.
  unfold st_bind at 1, st_guard. replace (zlen kct =? 1568) with true
    by (unfold zlen; by rewrite Hkl). unfold st_ret, st_bind at 1, st_get.
  rewrite (decapsulate_encapsulate _ _ _ _ Hk), <- Hck.
  rewrite (open_with_ok _ k ck nonce ct (str_bytes pt)); [|done|by eapply aes_decrypt_encrypt].
  unfold st_lift. rewrite from_utf8_str by done.
  eexists. split; [done|]. done.
Qed.

(** A first message opens too, unless its end looks like a length. *)
Lemma first_roundtrip nonce pt dk sa sa' sb raw :
  bytes_ok nonce -> length nonce = NONCE_SIZE -> str_ok pt ->
  send_chain_key sa = recv_chain_key sb ->
  encrypt_first nonce pt sa = (sa', Ok raw) -> (2 <= slen pt) -> first_ok raw ->
  exists sb', decrypt_message (b64_encode raw) dk sb = (sb', Ok pt) /\
    recv_chain_key sb' = send_chain_key sa' /\ send_chain_key sb' = send_chain_key sb /\
    recv_chain_key sa' = recv_chain_key sa.
Proof.
  intros Hno Hn Hu Hck He Hlen Hf.
  apply encrypt_first_inv in He as (k & ck & ct & Hd & Ha & -> & ->).
  pose proof (aes_encrypt_length _ _ _ _ Ha) as Hcl.
  assert (Hpl : slen pt = Z.of_nat (length (str_bytes pt))) by (by rewrite <- str_bytes_length).
  unfold first_ok in Hf. rewrite <- Hn, drop_app_length in Hf.
  assert (Hbok : bytes_ok (nonce ++ ct)).
  { apply Forall_app. split; [done|]. eapply aes_encrypt_ok; [|done]. apply str_bytes_ok. }
  rewrite decrypt_raw by (done || lia). rewrite Hf.
  unfold st_bind at 1, simple_decrypt, st_bind at 1, st_get. rewrite <- Hck.
  rewrite (open_with_ok _ k ck nonce ct (str_bytes pt)); [|done|by eapply aes_decrypt_encrypt].
  unfold st_lift. rewrite from_utf8_str by done.
  eexists. split; [done|]. done.
Qed.

(** ** Conversations *)

(** A message after the first: who sends it, its randomness, its text. *)
Record message : Type := mkMessage {
  from_initiator : bool;
  m_nonce : bytes;
  m_coins : bytes;
  m_text : string;
}.

Definition message_ok (m : message) : Prop :=
  bytes_ok (m_nonce m) /\ length (m_nonce m) = NONCE_SIZE /\ str_ok (m_text m) /\
  slen (m_text m) < 2 ^ 32.

(** One side sends, the other receives: the new states and what was read. *)
Definition send_to (m : message) (dk_to : dec_key) (from to : RatchetState)
  : RatchetState * RatchetState * result CryptoError string :=
  match encrypt_message (m_nonce m) (m_coins m) (m_text m) (ek_of dk_to) from with
  | (from', Err e) => (from', to, Err e)
  | (from', Ok raw) =>
      let (to', r) := decrypt_message (b64_encode raw) dk_to to in (from', to', r)
  end.

Fixpoint converse (dka dkb : dec_key) (ms : list message) (a b : RatchetState)
  : list (result CryptoError string) :=
  match ms with
  | [] => []
  | m :: ms' =>
      if from_initiator m then
        let '(a', b', r) := send_to m dkb a b in r :: converse dka dkb ms' a' b'
      else
        let '(b', a', r) := send_to m dka b a in r :: converse dka dkb ms' a' b'
  end.

Lemma send_to_ok m dk from to :
  message_ok m -> in_step from to ->
  exists from' to', send_to m dk from to = (from', to', Ok (m_text m)) /\ in_step from' to'.
Proof.
  intros (Hn & Hl & Hs & Ht) [Hst Hrt]. unfold send_to.
  destruct (encrypt_message_total (m_nonce m) (m_coins m) (m_text m) (ek_of dk) from Ht)
    as (from' & raw & He).
  destruct (kyber_roundtrip _ _ _ dk _ _ to _ Hn Hl Hs Hst He) as (to' & Hd & E1 & E2 & E3).
  rewrite He, Hd. exists from', to'. split; [done|]. split; congruence.
Qed.

Lemma in_step_sym a b : in_step a b -> in_step b a.
Proof. intros [? ?]. by split. Qed.

Lemma converse_ok dka dkb ms : forall a b,
  Forall message_ok ms -> in_step a b ->
  converse dka dkb ms a b = (fun m => Ok (m_text m)) <$> ms.
Proof.
  induction ms as [|m ms IH]; intros a b Hms Hab; [done|].
  apply Forall_cons in Hms as [Hm Hms]. cbn [converse fmap list_fmap].
  destruct (from_initiator m).
  - destruct (send_to_ok m dkb a b Hm Hab) as (a' & b' & -> & Hab'). f_equal. by apply IH.
  - destruct (send_to_ok m dka b a Hm (in_step_sym _ _ Hab)) as (b' & a' & -> & Hab').
    f_equal. apply IH; [done|by apply in_step_sym].
Qed.

(** C40: a conversation is read as it was written.  Two sessions made from one
    shared secret, one on each side, read the first message and then every
    later message, in either direction and any number of them, as the text
    that was sent, provided the messages arrive in order and the first one has
    two bytes at least and does not end in what looks like a length. *)
Theorem ratchet_conversation (fa na oa fb nb ob : string) (secret : bytes) (a b a1 : RatchetState)
    (dka dkb : dec_key) (nonce raw : bytes) (text : string) (ms : list message) :
  new fa na oa true secret = Ok a ->
  new fb nb ob false secret = Ok b ->
  bytes_ok nonce -> length nonce = NONCE_SIZE -> str_ok text -> 2 <= slen text ->
  encrypt_first nonce text a = (a1, Ok raw) -> first_ok raw ->
  Forall message_ok ms ->
  exists b1, decrypt_message (b64_encode raw) dkb b = (b1, Ok text) /\
    converse dka dkb ms a1 b1 = (fun m => Ok (m_text m)) <$> ms.
Proof.
  intros Ha Hb Hn Hl Hs Ht He Hf Hms.
  destruct (new_in_step _ _ _ _ _ _ _ _ _ Ha Hb) as [[Hst Hrt] _].
  destruct (first_roundtrip _ _ dkb _ _ b _ Hn Hl Hs Hst He Ht Hf) as (b1 & Hd & E1 & E2 & E3).
  exists b1. split; [done|]. apply converse_ok; [done|]. split; congruence.
Qed.

(** A first message can be taken for a later one.  Its format is told from
    its last two bytes, which are part of the authentication tag: when they
    happen to hold a number that fits, the message is refused and the
    receiving chain stays behind the sending chain. *)
Theorem first_message_misparsed (nonce raw : bytes) (text : string) (dk : dec_key)
    (sa sa' sb : RatchetState) :
  bytes_ok nonce -> length nonce = NONCE_SIZE -> 2 <= slen text ->
  encrypt_first nonce text sa = (sa', Ok raw) ->
  0 < trailer (drop NONCE_SIZE raw) <= zlen (drop NONCE_SIZE raw) - 2 ->
  trailer (drop NONCE_SIZE raw) <> 1568 ->
  send_chain_key sa = recv_chain_key sb ->
  decrypt_message (b64_encode raw) dk sb = (sb, Err (DecryptFailed "kyber parse")) /\
  exists k, derive_message_key (recv_chain_key sb) = Ok (k, send_chain_key sa').
Proof.
  intros Hno Hn Ht He Htr Hne Hck.
  apply encrypt_first_inv in He as (k & ck & ct & Hd & Ha & -> & ->).
  pose proof (aes_encrypt_length _ _ _ _ Ha) as Hcl.
  assert (Hpl : slen text = Z.of_nat (length (str_bytes text))) by (by rewrite <- str_bytes_length).
  rewrite <- Hn, drop_app_length in *. split; [|exists k; by rewrite <- Hck].
  assert (Hbok : bytes_ok (nonce ++ ct)).
  { apply Forall_app. split; [done|]. eapply aes_encrypt_ok; [|done]. apply str_bytes_ok. }
  rewrite decrypt_raw by (done || lia).
  assert (Hhk : has_kyber ct = true).
  { unfold has_kyber. rewrite !andb_true_iff, !Z.ltb_lt, Z.leb_le. lia. }
  rewrite Hhk. unfold st_bind at 1, kyber_decrypt.
  set (e := Z.to_nat (zlen ct - 2 - trailer ct)).
  assert (Hlen : zlen (take (length ct - 2 - e) (drop e ct)) = trailer ct).
  { unfold zlen in *. rewrite length_take, length_drop. unfold e. lia. }
  unfold st_bind, st_guard. rewrite Hlen.
  destruct (Z.eqb_spec (trailer ct) 1568); [done|]. done.
Qed.

(** A forged message desynchronises the session.  The receiving chain moves
    before the message is authenticated and is not put back: any text that
    decodes to 30 bytes or more and ends in two zero bytes, refused as it is,
    leaves the receiver one step ahead of the sender. *)
Theorem forged_message_advances_chain (forged : bytes) (dk : dec_key) (s : RatchetState) :
  bytes_ok forged -> (NONCE_SIZE + 18 <= length forged)%nat ->
  trailer (drop NONCE_SIZE forged) = 0 ->
  (forall k ck, derive_message_key (recv_chain_key s) = Ok (k, ck) ->
     aes_decrypt k (take NONCE_SIZE forged) (drop NONCE_SIZE forged) = None) ->
  exists s' k, decrypt_message (b64_encode forged) dk s = (s', Err (DecryptFailed "AES-GCM")) /\
    derive_message_key (recv_chain_key s) = Ok (k, recv_chain_key s') /\
    recv_message_number s' = recv_message_number s.
Proof.
  intros Hok Hl Ht Ha.
  assert (Htl : length (take NONCE_SIZE forged) = NONCE_SIZE) by (rewrite length_take; lia).
  rewrite <- (take_drop NONCE_SIZE forged) in Hok.
  pose proof (decrypt_raw (take NONCE_SIZE forged) (drop NONCE_SIZE forged) dk s Hok Htl) as Hd.
  rewrite length_drop in Hd. specialize (Hd ltac:(lia)). rewrite take_drop in Hd. rewrite Hd.
  assert (Hk : has_kyber (drop NONCE_SIZE forged) = false).
  { unfold has_kyber. rewrite Ht. by rewrite andb_false_r. }
  rewrite Hk. unfold simple_decrypt, open_with, st_bind, st_get, st_lift, st_modify.
  destruct (derive_total (recv_chain_key s)) as (k & ck & Ek & _). rewrite Ek, (Ha _ _ Ek). simpl.
  by exists (set_recv_chain ck s), k.
Qed.

(** The shortest first messages are refused as well: one of no byte or one byte
    is shorter than the least length accepted. *)
Lemma short_first_message nonce raw text dk sa sa' sb :
  bytes_ok nonce -> length nonce = NONCE_SIZE -> slen text < 2 ->
  encrypt_first nonce text sa = (sa', Ok raw) ->
  decrypt_message (b64_encode raw) dk sb = (sb, Err (DecryptFailed "ciphertext too short")).
Proof.
  intros Hno Hn Ht He. apply encrypt_first_inv in He as (k & ck & ct & Hd & Ha & -> & ->).
  pose proof (aes_encrypt_length _ _ _ _ Ha) as Hcl.
  assert (Hpl : slen text = Z.of_nat (length (str_bytes text))) by (by rewrite <- str_bytes_length).
  unfold decrypt_message, st_bind, st_lift, st_guard. rewrite b64_decode_encode.
  - cbn [ok_or]. assert (E : zlen (nonce ++ ct) <? Z.of_nat NONCE_SIZE + 16 + 2 = true).
    { apply Z.ltb_lt. unfold zlen. rewrite length_app. lia. }
    by rewrite E.
  - apply Forall_app. split; [done|]. eapply aes_encrypt_ok; [|done]. apply str_bytes_ok.
Qed.
End ratchet.

(** ** Witnesses *)

Section concrete.
#[local] Existing Instances toy_hkdf toy_aead toy_kem toy_base64.

Definition secret : bytes := replicate 32 5.
Definition toy_nonce : bytes := replicate 12 3.
Definition session (i : bool) : RatchetState :=
  match new "fp" "NN-AAAA-BBBB" "our" i secret with
  | Ok s => s
  | Err _ => mkRatchetState "" "" "" i [] [] [] 0 0 ∅
  end.

Theorem ratchet_conversation_witness :
  let dk := Byte.x07 : @dec_key toy_kem in
  let first := encrypt_first toy_nonce "hello" (session true) in
  let ms := [mkMessage false toy_nonce [1] "re"; mkMessage true toy_nonce [2] "again";
             mkMessage true toy_nonce [3] "and again"] in
  exists raw b1, first.2 = Ok raw /\
    decrypt_message (b64_encode raw) dk (session false) = (b1, Ok "hello") /\
    converse dk dk ms first.1 b1 = [Ok "re"; Ok "again"; Ok "and again"].
Proof.
  intros dk first ms. destruct first as [a1 [raw|e]] eqn:E; [|exfalso; revert E; vm_compute; discriminate].
  destruct (ratchet_conversation "fp" "NN-AAAA-BBBB" "our" "fp" "NN-AAAA-BBBB" "our" secret
              (session true) (session false) a1 dk dk toy_nonce raw "hello" ms) as (b1 & Hd & Hc).
  - vm_compute. reflexivity.
  - vm_compute. reflexivity.
  - repeat constructor; discriminate.
  - reflexivity.
  - reflexivity.
  - vm_compute. discriminate.
  - exact E.
  - apply (f_equal snd) in E. vm_compute in E. injection E as <-. vm_compute. reflexivity.
  - repeat constructor; try discriminate; reflexivity.
  - exists raw, b1. split; [reflexivity|]. split; [exact Hd|exact Hc].
Defined.

Theorem forged_message_advances_chain_witness :
  exists s' k, decrypt_message (b64_encode (replicate 40 0)) (Byte.x07 : @dec_key toy_kem) (session false)
      = (s', Err (DecryptFailed "AES-GCM")) /\
    derive_message_key (recv_chain_key (session false)) = Ok (k, recv_chain_key s').
Proof.
  destruct (forged_message_advances_chain (replicate 40 0) (Byte.x07 : @dec_key toy_kem) (session false))
    as (s' & k & Hd & Hk & _).
  - apply Forall_replicate. split; [discriminate|reflexivity].
  - vm_compute. lia.
  - reflexivity.
  - intros k ck Hd. vm_compute in Hd. injection Hd as <- _. vm_compute. reflexivity.
  - exists s', k. split; [exact Hd|exact Hk].
Defined.

Theorem first_message_misparsed_witness :
  let nonce := 201 :: 77 :: replicate 10 3 in
  let first := encrypt_first nonce "aaaaaaaaaaaaaaaaaaaaaa" (session true) in
  exists raw, first.2 = Ok raw /\
    decrypt_message (b64_encode raw) (Byte.x07 : @dec_key toy_kem) (session false)
      = (session false, Err (DecryptFailed "kyber parse")).
Proof.
  intros nonce first. destruct first as [a1 [raw|e]] eqn:E; [|exfalso; revert E; vm_compute; discriminate].
  assert (Er : Ok raw = (encrypt_first nonce "aaaaaaaaaaaaaaaaaaaaaa" (session true)).2)
    by (fold first; by rewrite E).
  vm_compute in Er. injection Er as ->.
  eexists. split; [reflexivity|].
  eapply (first_message_misparsed nonce _ "aaaaaaaaaaaaaaaaaaaaaa" (Byte.x07 : @dec_key toy_kem)
            (session true) a1 (session false)).
  - repeat constructor; discriminate.
  - reflexivity.
  - vm_compute. discriminate.
  - exact E.
  - vm_compute. split; [reflexivity|discriminate].
  - vm_compute. discriminate.
  - vm_compute. reflexivity.
Defined.
End concrete.
