(* ===== verification/SecureMem.v ===== *)
(** * Guarded memory (src/crypto/src/secure_mem.rs)

    Memory is a map of pages, each accessible or not and locked or not, and
    the bytes written so far.  An access to a page that is not mapped or not
    accessible is a fault, [None].  Where the allocator places a block, and
    whether a system call succeeds, are arguments. *)

From S2P Require Import Prelude.

(** ** Memory *)

Record page : Type := mkPage { accessible : bool; in_ram : bool }.

Record memory : Type := mkMemory { pages : gmap Z page; cells : gmap Z Z }.

(** Source: crypto/src/secure_mem.rs:24-24, GUARD_PAGE_SIZE. *)
Definition GUARD_PAGE_SIZE : Z := 4096.

Definition page_of (a : Z) : Z := a / GUARD_PAGE_SIZE.

Definition can_access (m : memory) (a : Z) : bool :=
  match pages m !! page_of a with Some p => accessible p | None => false end.

Definition load (m : memory) (a : Z) : option Z :=
  if can_access m a then Some (opt_or (cells m !! a) 0) else None.

Definition store (m : memory) (a b : Z) : option memory :=
  if can_access m a then Some (mkMemory (pages m) (<[a := b]> (cells m))) else None.

Fixpoint load_bytes (m : memory) (a : Z) (n : nat) : option bytes :=
  match n with
  | O => Some []
  | S n' => b ← load m a; l ← load_bytes m (a + 1) n'; Some (b :: l)
  end.

Fixpoint store_bytes (m : memory) (a : Z) (l : bytes) : option memory :=
  match l with
  | [] => Some m
  | b :: l' => m' ← store m a b; store_bytes m' (a + 1) l'
  end.

(** [ptr::copy_nonoverlapping] *)
Definition copy_nonoverlapping (src dst : Z) (n : nat) (m : memory) : option memory :=
  l ← load_bytes m src n; store_bytes m dst l.

(** The pages that hold a part of [len] bytes from [a]. *)
Definition pages_of (a len : Z) : list Z :=
  if len <=? 0 then [] else seqZ (page_of a) (page_of (a + len - 1) - page_of a + 1).

Definition on_pages (f : page -> page) (a len : Z) (m : memory) : memory :=
  mkMemory (foldr (fun p ps => alter f p ps) (pages m) (pages_of a len)) (cells m).

(** The system calls, when they succeed; they act on whole pages. *)
Definition mprotect_none : Z -> Z -> memory -> memory := on_pages (fun p => mkPage false (in_ram p)).
Definition mlock : Z -> Z -> memory -> memory := on_pages (fun p => mkPage (accessible p) true).
Definition munlock : Z -> Z -> memory -> memory := on_pages (fun p => mkPage (accessible p) false).
Definition munmap (a len : Z) (m : memory) : memory :=
  mkMemory (foldr delete (pages m) (pages_of a len)) (cells m).

Definition when (ok : bool) (f : memory -> memory) (m : memory) : memory := if ok then f m else m.

(** The allocator gives out memory that is mapped: pages it did not own yet
    are mapped now.  Freeing changes no byte and no page. *)
Definition give (a len : Z) (m : memory) : memory :=
  mkMemory
    (foldr (fun p ps => match ps !! p with Some _ => ps | None => <[p := mkPage true false]> ps end)
       (pages m) (pages_of a len))
    (cells m).

(** ** The functions of the module *)

Fixpoint zero_loop (ptr : Z) (n : nat) (m : memory) : option memory :=
  match n with
  | O => Some m
  | S n' => m' ← store m ptr 0; zero_loop (ptr + 1) n' m'
  end.

(** Source: crypto/src/secure_mem.rs:26-55, secure_zero_memory. *)
Definition secure_zero_memory (ptr : Z) (len : nat) (m : memory) : option memory :=
  if Nat.eqb len 0 then Some m else zero_loop ptr len m.

(** Source: crypto/src/secure_mem.rs:57-76, lock_memory. *)
Definition lock_memory (ok : bool) (ptr len : Z) (m : memory) : memory * bool :=
  (when ok (mlock ptr len) m, ok).

(** Source: crypto/src/secure_mem.rs:78-93, unlock_memory. *)
Definition unlock_memory (ok : bool) (ptr len : Z) (m : memory) : memory * bool :=
  (when ok (munlock ptr len) m, ok).

(** A [Vec<u8>] is the place and the length of its buffer.
    Source: crypto/src/secure_mem.rs:98-101, SecureKeyMaterial. *)
Record SecureKeyMaterial : Type := mkMaterial { key_at : Z; key_len : nat; is_locked : bool }.

(** The buffer that is locked is a copy made at [copy_at], freed on return.
    Source: crypto/src/secure_mem.rs:105-116, SecureKeyMaterial::new. *)
Definition new_material (ok : bool) (copy_at : Z) (at_ : Z) (len : nat) (lock_pages : bool) (m : memory)
  : option (memory * SecureKeyMaterial) :=
  if lock_pages && negb (Nat.eqb len 0) then
    m' ← copy_nonoverlapping at_ copy_at len (give copy_at (Z.of_nat len) m);
    let (m2, locked) := lock_memory ok copy_at (Z.of_nat len) m' in
    Some (m2, mkMaterial at_ len locked)
  else Some (m, mkMaterial at_ len false).

(** Source: crypto/src/secure_mem.rs:118-121, SecureKeyMaterial::bytes. *)
Definition material_bytes (k : SecureKeyMaterial) (m : memory) : option bytes :=
  load_bytes m (key_at k) (key_len k).

(** Source: crypto/src/secure_mem.rs:133-141, SecureKeyMaterial::purge. *)
Definition purge (ok : bool) (k : SecureKeyMaterial) (m : memory) : option (memory * SecureKeyMaterial) :=
  m' ← secure_zero_memory (key_at k) (key_len k) m;
  if is_locked k
  then Some ((unlock_memory ok (key_at k) (Z.of_nat (key_len k)) m').1, mkMaterial (key_at k) (key_len k) false)
  else Some (m', k).

(** [(n + page - 1) & !(page - 1)] on 64 bits.
    Source: crypto/src/secure_mem.rs:160-163, alloc_guarded. *)
Definition guarded_size (data_size : Z) : Z :=
  let total_size := u64 (u64 (GUARD_PAGE_SIZE * 2) + data_size) in
  Z.land (u64 (total_size + GUARD_PAGE_SIZE - 1)) (u64 (Z.lnot (GUARD_PAGE_SIZE - 1))).

(** The answers of the system to [alloc_guarded]. *)
Record answers : Type := mkAnswers {
  base_at : option Z; first_ok : bool; last_ok : bool; lock_ok : bool }.

Definition isize_max : Z := 2 ^ 63 - 1.

(** [Layout::from_size_align] refuses what does not fit once it is rounded up.
    Source: crypto/src/secure_mem.rs:151-190, alloc_guarded. *)
Definition alloc_guarded (w : answers) (data_size : Z) (m : memory) : memory * option Z :=
  let total_size := guarded_size data_size in
  if isize_max - (GUARD_PAGE_SIZE - 1) <? total_size then (m, None)
  else match base_at w with
  | None => (m, None)
  | Some base =>
      let m0 := give base total_size m in
      let m1 := when (first_ok w) (mprotect_none base GUARD_PAGE_SIZE) m0 in
      let m2 := when (last_ok w) (mprotect_none (base + total_size - GUARD_PAGE_SIZE) GUARD_PAGE_SIZE) m1 in
      let data_ptr := base + GUARD_PAGE_SIZE in
      (when (lock_ok w) (mlock data_ptr data_size) m2, Some data_ptr)
  end.

(** Source: crypto/src/secure_mem.rs:192-214, dealloc_guarded. *)
Definition dealloc_guarded (unlock_ok unmap_ok : bool) (ptr data_size : Z) (m : memory) : memory :=
  let total_size := guarded_size data_size in
  let base := ptr - GUARD_PAGE_SIZE in
  when unmap_ok (munmap base total_size) (when unlock_ok (munlock ptr data_size) m).

(** Source: crypto/src/secure_mem.rs:223-226, GuardedKeyMaterial. *)
Record GuardedKeyMaterial : Type := mkGuarded { g_ptr : Z; g_len : nat }.

(** The key is read from [src] and erased there.
    Source: crypto/src/secure_mem.rs:229-248, GuardedKeyMaterial::new. *)
Definition new_guarded (w : answers) (src : Z) (len : nat) (m : memory)
  : option (memory * option GuardedKeyMaterial) :=
  let (m1, ptr) := alloc_guarded w (Z.of_nat len) m in
  match ptr with
  | None => Some (m1, None)
  | Some ptr =>
      m2 ← copy_nonoverlapping src ptr len m1;
      m3 ← secure_zero_memory src len m2;
      Some (m3, Some (mkGuarded ptr len))
  end.

(** Source: crypto/src/secure_mem.rs:250-253, GuardedKeyMaterial::bytes. *)
Definition guarded_bytes (g : GuardedKeyMaterial) (m : memory) : option bytes :=
  load_bytes m (g_ptr g) (g_len g).

(** Source: crypto/src/secure_mem.rs:267-272, GuardedKeyMaterial::drop. *)
Definition drop_guarded (unlock_ok unmap_ok : bool) (g : GuardedKeyMaterial) (m : memory) : option memory :=
  m' ← secure_zero_memory (g_ptr g) (g_len g) m;
  Some (dealloc_guarded unlock_ok unmap_ok (g_ptr g) (Z.of_nat (g_len g)) m').

(** ** Pages *)

Lemma lookup_foldr_alter (f : page -> page) l (ps : gmap Z page) p :
  NoDup l -> foldr (fun p ps => alter f p ps) ps l !! p = if decide (p ∈ l) then f <$> ps !! p else ps !! p.
Proof.
  induction l as [|q l IH]; intros Hd; [done|]. inversion_clear Hd as [|?? Hq Hd']. cbn [foldr].
  destruct (decide (p = q)) as [->|Hne].
  - rewrite lookup_alter_eq, IH, decide_False by done. by rewrite decide_True by (by left).
  - rewrite lookup_alter_ne, IH by done.
    destruct (decide (p ∈ l)) as [Hl|Hl]; [rewrite decide_True by (by right)|rewrite decide_False]; [done|done|].
    intros [->|]%elem_of_cons; done.
Qed.

Lemma lookup_foldr_delete l (ps : gmap Z page) p :
  foldr delete ps l !! p = if decide (p ∈ l) then None else ps !! p.
Proof.
  induction l as [|q l IH]; [done|]. cbn [foldr].
  destruct (decide (p = q)) as [->|Hne].
  - rewrite lookup_delete_eq. by rewrite decide_True by (by left).
  - rewrite lookup_delete_ne, IH by done.
    destruct (decide (p ∈ l)) as [Hl|Hl]; [rewrite decide_True by (by right)|rewrite decide_False]; [done|done|].
    intros [->|]%elem_of_cons; done.
Qed.

Lemma lookup_give l (ps : gmap Z page) p :
  foldr (fun p ps => match ps !! p with Some _ => ps | None => <[p := mkPage true false]> ps end) ps l !! p =
  match ps !! p with
  | Some q => Some q
  | None => if decide (p ∈ l) then Some (mkPage true false) else None
  end.
Proof.
  induction l as [|q l IH]; [cbn [foldr]; rewrite decide_False by (apply not_elem_of_nil); by destruct (ps !! p)|]. cbn [foldr].
  destruct (foldr _ ps l !! q) as [x|] eqn:E.
  - rewrite IH. destruct (ps !! p) eqn:Ep; [done|].
    destruct (decide (p ∈ l)) as [Hl|Hl]; [by rewrite decide_True by (by right)|].
    rewrite decide_False; [done|]. intros [->|]%elem_of_cons; [|done]. congruence.
  - destruct (decide (p = q)) as [->|Hne].
    + rewrite lookup_insert_eq. rewrite IH in E. destruct (ps !! q); [done|].
      by rewrite decide_True by (by left).
    + rewrite lookup_insert_ne, IH by done. destruct (ps !! p); [done|].
      destruct (decide (p ∈ l)) as [Hl|Hl]; [by rewrite decide_True by (by right)|].
      rewrite decide_False; [done|]. intros [->|]%elem_of_cons; done.
Qed.

Lemma pages_of_nodup a len : NoDup (pages_of a len).
Proof. unfold pages_of. destruct (_ <=? _); [constructor|apply NoDup_seqZ]. Qed.

Lemma elem_of_pages p a len : p ∈ pages_of a len <-> 0 < len /\ page_of a <= p <= page_of (a + len - 1).
Proof.
  unfold pages_of. destruct (Z.leb_spec len 0).
  - rewrite elem_of_nil. lia.
  - rewrite elem_of_seqZ. lia.
Qed.

Lemma page_of_mono a b : a <= b -> page_of a <= page_of b.
Proof. intros. unfold page_of, GUARD_PAGE_SIZE. apply Z.div_le_mono; lia. Qed.

Lemma page_of_base a : a mod GUARD_PAGE_SIZE = 0 -> a = GUARD_PAGE_SIZE * page_of a.
Proof. intros Ha. unfold page_of. pose proof (Z.div_mod a GUARD_PAGE_SIZE). unfold GUARD_PAGE_SIZE in *. lia. Qed.

(** A range is on its pages; a range of whole pages has them to itself. *)
Lemma in_pages x a len : a <= x < a + len -> page_of x ∈ pages_of a len.
Proof. intros. apply elem_of_pages. split; [lia|]. split; apply page_of_mono; lia. Qed.

Lemma whole_pages x a len :
  a mod GUARD_PAGE_SIZE = 0 -> len mod GUARD_PAGE_SIZE = 0 ->
  page_of x ∈ pages_of a len <-> a <= x < a + len.
Proof.
  intros Ha Hl. split; [|apply in_pages]. rewrite elem_of_pages. intros [Hpos [H1 H2]].
  unfold page_of, GUARD_PAGE_SIZE in *.
  pose proof (Z.div_mod a 4096). pose proof (Z.div_mod len 4096). pose proof (Z.div_mod x 4096).
  pose proof (Z.mod_pos_bound x 4096).
  assert ((a + len - 1) / 4096 = a / 4096 + len / 4096 - 1); [|lia].
  symmetry. apply (Z.div_unique _ _ _ 4095); lia.
Qed.

(** ** Accesses *)

Lemma can_access_give a len m x :
  can_access m x = true \/ (pages m !! page_of x = None /\ a <= x < a + len) ->
  can_access (give a len m) x = true.
Proof.
  unfold can_access, give. cbn [pages]. rewrite lookup_give. destruct (pages m !! page_of x) as [p|].
  - by intros [?|[? _]].
  - intros [?|[_ Hx]]; [done|]. by rewrite decide_True by (by apply in_pages).
Qed.

Lemma give_other a len m x :
  page_of x ∉ pages_of a len -> pages (give a len m) !! page_of x = pages m !! page_of x.
Proof.
  intros Hx. unfold give. cbn [pages]. rewrite lookup_give. destruct (pages m !! page_of x); [done|].
  by rewrite decide_False.
Qed.

Lemma on_pages_lookup f a len m p :
  pages (on_pages f a len m) !! p = if decide (p ∈ pages_of a len) then f <$> pages m !! p else pages m !! p.
Proof. apply lookup_foldr_alter, pages_of_nodup. Qed.

Lemma can_access_none a len m x :
  can_access (mprotect_none a len m) x = if decide (page_of x ∈ pages_of a len) then false else can_access m x.
Proof.
  unfold can_access, mprotect_none. rewrite on_pages_lookup. destruct (decide _); [|done].
  by destruct (pages m !! page_of x).
Qed.

Lemma can_access_mlock a len m x : can_access (mlock a len m) x = can_access m x.
Proof.
  unfold can_access, mlock. rewrite on_pages_lookup. destruct (decide _); [|done].
  by destruct (pages m !! page_of x).
Qed.

Lemma can_access_munlock a len m x : can_access (munlock a len m) x = can_access m x.
Proof.
  unfold can_access, munlock. rewrite on_pages_lookup. destruct (decide _); [|done].
  by destruct (pages m !! page_of x).
Qed.

Lemma can_access_munmap a len m x :
  can_access (munmap a len m) x = if decide (page_of x ∈ pages_of a len) then false else can_access m x.
Proof. unfold can_access, munmap. cbn [pages]. rewrite lookup_foldr_delete. by destruct (decide _). Qed.

Lemma can_access_pages m m' x : pages m' = pages m -> can_access m' x = can_access m x.
Proof. unfold can_access. by intros ->. Qed.

Lemma load_some m x : can_access m x = true -> load m x = Some (opt_or (cells m !! x) 0).
Proof. unfold load. by intros ->. Qed.

Lemma load_bytes_spec m a n l :
  load_bytes m a n = Some l <->
  length l = n /\ forall i b, l !! i = Some b -> load m (a + Z.of_nat i) = Some b.
Proof.
  revert a l. induction n as [|n IH]; intros a l; cbn [load_bytes].
  - split; [intros [= <-]; done|]. intros [Hl _]. by destruct l.
  - destruct (load m a) as [b|] eqn:Eb; simpl.
    + destruct (load_bytes m (a + 1) n) as [l0|] eqn:El; simpl.
      * apply IH in El as [Hn Hall]. split.
        -- intros [= <-]. split; [simpl; lia|]. intros [|i] c Hi.
           ++ injection Hi as <-. by replace (a + Z.of_nat 0) with a by lia.
           ++ specialize (Hall i c Hi). by replace (a + Z.of_nat (S i)) with (a + 1 + Z.of_nat i) by lia.
        -- intros [Hn' Hall']. destruct l as [|c l]; [done|]. pose proof (Hall' 0%nat c eq_refl) as H0c.
           simpl in H0c. rewrite Z.add_0_r, Eb in H0c. injection H0c as ->. do 2 f_equal.
           assert (E : Some l0 = Some l); [|by injection E].
           rewrite <- (proj2 (IH (a + 1) l0) (conj Hn Hall)). apply IH. split; [simpl in Hn'; lia|].
           intros i d Hi. specialize (Hall' (S i) d Hi).
           by replace (a + 1 + Z.of_nat i) with (a + Z.of_nat (S i)) by lia.
      * split; [done|]. intros [Hn Hall]. destruct l as [|c l]; [done|].
        assert (load_bytes m (a + 1) n = Some l); [|congruence]. apply IH. split; [simpl in Hn; lia|].
        intros i d Hi. specialize (Hall (S i) d Hi).
        by replace (a + 1 + Z.of_nat i) with (a + Z.of_nat (S i)) by lia.
    + split; [done|]. intros [Hn Hall]. destruct l as [|c l]; [done|].
      specialize (Hall 0%nat c eq_refl). simpl in Hall. rewrite Z.add_0_r in Hall. congruence.
Qed.

Lemma store_bytes_spec m a l :
  (forall x, a <= x < a + zlen l -> can_access m x = true) ->
  exists m', store_bytes m a l = Some m' /\ pages m' = pages m /\
    forall x, cells m' !! x = if decide (a <= x < a + zlen l) then l !! Z.to_nat (x - a) else cells m !! x.
Proof.
  revert m a. induction l as [|b l IH]; intros m a Hacc; cbn [store_bytes].
  - exists m. split_and!; [done..|]. intros x. rewrite decide_False; [done|]. unfold zlen. simpl. lia.
  - unfold store. rewrite Hacc by (unfold zlen; simpl; lia). simpl.
    destruct (IH (mkMemory (pages m) (<[a:=b]> (cells m))) (a + 1)) as (m' & E & Hp & Hc).
    + intros x Hx. apply Hacc. unfold zlen in *. simpl. lia.
    + exists m'. split_and!; [done|done|]. intros x. rewrite Hc. cbn [cells].
      destruct (decide (a + 1 <= x < a + 1 + zlen l)) as [Hx|Hx].
      * rewrite decide_True by (unfold zlen in *; simpl; lia).
        replace (Z.to_nat (x - a)) with (S (Z.to_nat (x - (a + 1)))) by lia. done.
      * destruct (decide (x = a)) as [->|Hne].
        -- rewrite lookup_insert_eq, decide_True by (unfold zlen; simpl; lia). by rewrite Z.sub_diag.
        -- rewrite lookup_insert_ne, decide_False by (unfold zlen in *; simpl in *; lia). done.
Qed.

Lemma zero_loop_store n m a : zero_loop a n m = store_bytes m a (replicate n 0).
Proof. revert m a. induction n as [|n IH]; intros m a; [done|]. cbn. by destruct (store m a 0); cbn. Qed.

(** [secure_zero_memory] zeroes what it is given, and nothing else. *)
Lemma secure_zero_spec m a n :
  (forall x, a <= x < a + Z.of_nat n -> can_access m x = true) ->
  exists m', secure_zero_memory a n m = Some m' /\ pages m' = pages m /\
    forall x, opt_or (cells m' !! x) 0 =
      if decide (a <= x < a + Z.of_nat n) then 0 else opt_or (cells m !! x) 0.
Proof.
  intros Hacc. unfold secure_zero_memory. destruct (Nat.eqb_spec n 0) as [->|Hn].
  - exists m. split_and!; [done..|]. intros x. rewrite decide_False; [done|lia].
  - rewrite zero_loop_store. destruct (store_bytes_spec m a (replicate n 0)) as (m' & E & Hp & Hc).
    + intros x. unfold zlen. rewrite length_replicate. apply Hacc.
    + exists m'. split_and!; [done..|]. intros x. rewrite Hc. unfold zlen. rewrite length_replicate.
      destruct (decide _); [|done]. rewrite lookup_replicate_2 by lia. done.
Qed.

(** ** The layout of a guarded block *)

Lemma land_page_mask x :
  0 <= x < 2 ^ 64 -> Z.land x (u64 (Z.lnot (GUARD_PAGE_SIZE - 1))) = x / GUARD_PAGE_SIZE * GUARD_PAGE_SIZE.
Proof.
  intros Hx. change (u64 (Z.lnot (GUARD_PAGE_SIZE - 1))) with (Z.shiftl (Z.ones 52) 12).
  change GUARD_PAGE_SIZE with (2 ^ 12). rewrite <- Z.shiftr_div_pow2, <- Z.shiftl_mul_pow2 by lia.
  apply Z.bits_inj'. intros k Hk. rewrite Z.land_spec, !Z.shiftl_spec by done.
  destruct (Z.ltb_spec k 12).
  - rewrite !(Z.testbit_neg_r _ (k - 12)) by lia. by rewrite andb_false_r.
  - rewrite Z.shiftr_spec by lia. replace (k - 12 + 12) with k by lia.
    destruct (Z.ltb_spec k 64).
    + rewrite Z.ones_spec_low by lia. by rewrite andb_true_r.
    + rewrite Z.ones_spec_high by lia. rewrite andb_false_r. symmetry.
      apply Z.testbit_false; [lia|]. rewrite Z.div_small; [done|].
      split; [lia|]. eapply Z.lt_le_trans; [apply Hx|]. apply Z.pow_le_mono_r; lia.
Qed.

(** Two guard pages and as many whole pages as the data need. *)
Lemma guarded_size_eq n :
  0 <= n <= 2 ^ 62 -> guarded_size n = GUARD_PAGE_SIZE * (2 + (n + GUARD_PAGE_SIZE - 1) / GUARD_PAGE_SIZE).
Proof.
  intros Hn. assert (Hs : (2 ^ 62 < 2 ^ 63 /\ 2 ^ 63 < 2 ^ 64)%Z) by (split; reflexivity).
  unfold guarded_size. change (u64 (GUARD_PAGE_SIZE * 2)) with 8192.
  unfold u64 at 1 2. rewrite (wrap_small 64 (8192 + n)) by (split; lia).
  unfold GUARD_PAGE_SIZE at 1. rewrite wrap_small by (split; lia).
  rewrite land_page_mask by (split; lia). unfold GUARD_PAGE_SIZE.
  replace (8192 + n + 4096 - 1) with (n + 4096 - 1 + 2 * 4096) by lia.
  rewrite Z.div_add by lia. lia.
Qed.

(** The bytes of the data pages: the data rounded up to whole pages. *)
Definition data_pages (n : Z) : Z := guarded_size n - 2 * GUARD_PAGE_SIZE.

Lemma data_pages_bounds n :
  0 <= n <= 2 ^ 62 ->
  n <= data_pages n < n + GUARD_PAGE_SIZE /\ data_pages n mod GUARD_PAGE_SIZE = 0 /\
  guarded_size n mod GUARD_PAGE_SIZE = 0.
Proof.
  intros Hn. unfold data_pages. rewrite guarded_size_eq by done. unfold GUARD_PAGE_SIZE.
  set (q := (n + 4096 - 1) / 4096).
  pose proof (Z.div_mod (n + 4096 - 1) 4096). pose proof (Z.mod_pos_bound (n + 4096 - 1) 4096).
  fold q in H. split; [lia|]. split.
  - replace (4096 * (2 + q) - 2 * 4096) with (q * 4096) by lia. apply Z.mod_mul. lia.
  - rewrite Z.mul_comm. apply Z.mod_mul. lia.
Qed.

(** The system answers every call, with a block at [base]. *)
Definition granted (base : Z) : answers := mkAnswers (Some base) true true true.

(** The allocator may give the block out: its pages are new, or usable. *)
Definition grantable (base size : Z) (m : memory) : Prop :=
  base mod GUARD_PAGE_SIZE = 0 /\
  forall x, base <= x < base + size -> pages m !! page_of x = None \/ can_access m x = true.

Lemma alloc_guarded_spec base n m :
  0 <= n <= 2 ^ 62 -> grantable base (guarded_size n) m ->
  exists m', alloc_guarded (granted base) n m = (m', Some (base + GUARD_PAGE_SIZE)) /\ cells m' = cells m /\
    forall x, can_access m' x =
      if decide (base <= x < base + guarded_size n)
      then bool_decide (base + GUARD_PAGE_SIZE <= x < base + guarded_size n - GUARD_PAGE_SIZE)
      else can_access m x.
Proof.
  intros Hn [Hb Hg]. destruct (data_pages_bounds n Hn) as (Hd & Hdm & Hm). unfold data_pages in Hd.
  assert (Hs : (2 ^ 63 = 2 * 2 ^ 62)%Z) by reflexivity.
  assert (Hbig : 1000000 < 2 ^ 62) by reflexivity.
  unfold alloc_guarded. unfold isize_max. unfold GUARD_PAGE_SIZE in *.
  destruct (Z.ltb_spec (2 ^ 63 - 1 - (4096 - 1)) (guarded_size n)); [lia|].
  cbn [granted base_at first_ok last_ok lock_ok when].
  eexists. split; [reflexivity|]. split; [done|]. intros x.
  rewrite can_access_mlock, !can_access_none.
  assert (Hl : (base + guarded_size n - 4096) mod 4096 = 0).
  { replace (base + guarded_size n - 4096) with (base + guarded_size n + (-1) * 4096) by lia.
    rewrite Z.mod_add, Z.add_mod, Hb, Hm by lia. reflexivity. }
  rewrite (decide_ext (page_of x ∈ _) _ _ _ (whole_pages x base 4096 Hb eq_refl)).
  rewrite (decide_ext (page_of x ∈ _) _ _ _ (whole_pages x (base + guarded_size n - 4096) 4096 Hl eq_refl)).
  destruct (decide (base <= x < base + guarded_size n)) as [Hx|Hx].
  - case_bool_decide as Hi.
    + rewrite !decide_False by lia. apply can_access_give. destruct (Hg x Hx); tauto.
    + destruct (decide (base + guarded_size n - 4096 <= x < _)); [done|]. rewrite decide_True by lia. done.
  - rewrite !decide_False by lia. unfold can_access. rewrite give_other; [done|].
    rewrite whole_pages by done. lia.
Qed.

Lemma load_bytes_ext m m' a n :
  (forall x, a <= x < a + Z.of_nat n -> load m' x = load m x) -> load_bytes m' a n = load_bytes m a n.
Proof.
  revert a. induction n as [|n IH]; intros a Hl; [done|]. cbn [load_bytes].
  rewrite Hl by lia. rewrite IH; [done|]. intros. apply Hl. lia.
Qed.

Lemma load_bytes_access m a l :
  load_bytes m a (length l) = Some l -> forall x, a <= x < a + zlen l -> can_access m x = true.
Proof.
  intros [_ Hl]%load_bytes_spec x Hx. unfold zlen in Hx.
  destruct (lookup_lt_is_Some_2 l (Z.to_nat (x - a))) as [b Hb]; [lia|].
  specialize (Hl _ _ Hb). rewrite Z2Nat.id in Hl by lia. replace (a + (x - a)) with x in Hl by lia.
  unfold load in Hl. by destruct (can_access m x).
Qed.

Lemma load_bytes_stored m a l x :
  load_bytes m a (length l) = Some l -> a <= x < a + zlen l ->
  opt_or (cells m !! x) 0 = opt_or (l !! Z.to_nat (x - a)) 0.
Proof.
  intros Hl Hx. pose proof (load_bytes_access _ _ _ Hl x Hx) as Ha. apply load_bytes_spec in Hl as [_ Hl].
  destruct (lookup_lt_is_Some_2 l (Z.to_nat (x - a))) as [b Hb]; [unfold zlen in Hx; lia|].
  specialize (Hl _ _ Hb). rewrite Z2Nat.id in Hl by lia. replace (a + (x - a)) with x in Hl by lia.
  rewrite load_some in Hl by done. rewrite Hb. by injection Hl.
Qed.

(** Where [l] has been written, it is read. *)
Lemma load_bytes_written m a l :
  (forall x, a <= x < a + zlen l -> can_access m x = true /\ opt_or (cells m !! x) 0 = opt_or (l !! Z.to_nat (x - a)) 0) ->
  load_bytes m a (length l) = Some l.
Proof.
  intros Hw. apply load_bytes_spec. split; [done|]. intros i b Hi.
  pose proof (lookup_lt_Some _ _ _ Hi). destruct (Hw (a + Z.of_nat i)) as [Ha Hc]; [unfold zlen; lia|].
  rewrite load_some, Hc by done. replace (Z.to_nat (a + Z.of_nat i - a)) with i by lia. by rewrite Hi.
Qed.

Lemma load_bytes_zeroed m a n :
  (forall x, a <= x < a + Z.of_nat n -> can_access m x = true /\ opt_or (cells m !! x) 0 = 0) ->
  load_bytes m a n = Some (replicate n 0).
Proof.
  intros Hz. rewrite <- (length_replicate n 0) at 1. apply load_bytes_written.
  unfold zlen. rewrite length_replicate. intros x Hx. by rewrite lookup_replicate_2 by lia; apply Hz.
Qed.

(** What [GuardedKeyMaterial::new] leaves behind. *)
Definition guarded_at (base src : Z) (key : bytes) (m m1 : memory) : Prop :=
  let n := zlen key in
  let block x := base <= x < base + guarded_size n in
  (forall x, can_access m1 x =
     if decide (block x)
     then bool_decide (base + GUARD_PAGE_SIZE <= x < base + guarded_size n - GUARD_PAGE_SIZE)
     else can_access m x) /\
  (forall x, opt_or (cells m1 !! x) 0 =
     if decide (src <= x < src + n) then 0
     else if decide (base + GUARD_PAGE_SIZE <= x < base + GUARD_PAGE_SIZE + n)
          then opt_or (key !! Z.to_nat (x - (base + GUARD_PAGE_SIZE))) 0
          else opt_or (cells m !! x) 0).

Lemma new_guarded_spec base src key m :
  zlen key <= 2 ^ 62 -> grantable base (guarded_size (zlen key)) m ->
  load_bytes m src (length key) = Some key ->
  src + zlen key <= base \/ base + guarded_size (zlen key) <= src ->
  exists m1, guarded_at base src key m m1 /\
    new_guarded (granted base) src (length key) m =
      Some (m1, Some (mkGuarded (base + GUARD_PAGE_SIZE) (length key))).
Proof.
  intros Hn Hg Hkey Hapart. set (n := zlen key) in *.
  assert (H0n : 0 <= n <= 2 ^ 62) by (unfold n, zlen in *; lia).
  destruct (data_pages_bounds n H0n) as (Hd & _). unfold data_pages in Hd.
  destruct (alloc_guarded_spec base n m H0n Hg) as (ma & Ea & Hcells & Hacc).
  pose proof (load_bytes_access _ _ _ Hkey) as Hsrc. fold n in Hsrc.
  assert (Hsrc' : forall x, src <= x < src + n -> can_access ma x = true).
  { intros x Hx. rewrite Hacc, decide_False by lia. by apply Hsrc. }
  destruct (store_bytes_spec ma (base + GUARD_PAGE_SIZE) key) as (mb & Eb & Hpb & Hcb).
  { intros x Hx. fold n in Hx. unfold GUARD_PAGE_SIZE in *. rewrite Hacc, decide_True by lia.
    apply bool_decide_true. lia. }
  destruct (secure_zero_spec mb src (length key)) as (mc & Ec & Hpc & Hcc).
  { intros x Hx. rewrite (can_access_pages ma) by done. by apply Hsrc'. }
  exists mc. split.
  - split; fold n.
    + intros x. rewrite (can_access_pages ma) by congruence. apply Hacc.
    + intros x. rewrite Hcc. change (Z.of_nat (length key)) with n.
      destruct (decide (src <= x < src + n)); [done|]. rewrite Hcb, Hcells. fold n.
      by destruct (decide (base + GUARD_PAGE_SIZE <= x < _)).
  - unfold new_guarded. change (Z.of_nat (length key)) with n. rewrite Ea. unfold copy_nonoverlapping.
    rewrite (load_bytes_ext m), Hkey; [simpl|].
    + rewrite Eb. simpl. rewrite Ec. done.
    + intros x Hx. change (Z.of_nat (length key)) with n in Hx. unfold load. by rewrite Hsrc', Hsrc, Hcells.
Qed.

(** C26: The life of a guarded key, when the system answers every call: the
    key can be read where [bytes] looks for it, its source is zero, and every
    access to the page before it or to the last page of the block is a fault;
    after the drop its bytes are zero and no address of the block is mapped,
    and no other memory than the source has changed. *)
Theorem guarded_key_lifecycle (base src : Z) (key : bytes) (m : memory) :
  let n := zlen key in
  n <= 2 ^ 62 -> grantable base (guarded_size n) m ->
  load_bytes m src (length key) = Some key ->
  src + n <= base \/ base + guarded_size n <= src ->
  exists m1 g m2,
    new_guarded (granted base) src (length key) m = Some (m1, Some g) /\
    guarded_bytes g m1 = Some key /\
    load_bytes m1 src (length key) = Some (replicate (length key) 0) /\
    (forall x, base <= x < g_ptr g \/ g_ptr g + data_pages n <= x < base + guarded_size n -> load m1 x = None) /\
    drop_guarded true true g m1 = Some m2 /\
    (forall x, base <= x < base + guarded_size n -> load m2 x = None) /\
    (forall x, g_ptr g <= x < g_ptr g + n -> opt_or (cells m2 !! x) 0 = 0) /\
    (forall x, ~ (base <= x < base + guarded_size n) -> ~ (src <= x < src + n) -> load m2 x = load m x).
Proof.
  intros n Hn Hg Hkey Hapart. assert (H0n : 0 <= n <= 2 ^ 62) by (unfold n, zlen in *; lia).
  destruct (data_pages_bounds n H0n) as (Hd & _ & Hmod). pose proof (proj1 Hg) as Hbase.
  destruct (new_guarded_spec base src key m Hn Hg Hkey Hapart) as (m1 & [Hacc Hcells] & En).
  fold n in Hacc, Hcells. unfold data_pages in *.
  assert (Hin : forall x, base + GUARD_PAGE_SIZE <= x < base + GUARD_PAGE_SIZE + n -> can_access m1 x = true).
  { intros x Hx. unfold GUARD_PAGE_SIZE in *. rewrite Hacc, decide_True by lia. apply bool_decide_true. lia. }
  destruct (secure_zero_spec m1 (base + GUARD_PAGE_SIZE) (length key)) as (mz & Ez & Hpz & Hcz); [apply Hin|].
  set (ptr := base + GUARD_PAGE_SIZE) in *. change (Z.of_nat (length key)) with n in *.
  eexists m1, (mkGuarded ptr (length key)), _. split; [exact En|]. unfold guarded_bytes, drop_guarded.
  cbn [g_ptr g_len]. rewrite Ez. change (Z.of_nat (length key)) with n. split_and!.
  - apply load_bytes_written. fold n. intros x Hx. split; [by apply Hin|].
    rewrite Hcells, decide_False, decide_True by (unfold ptr, GUARD_PAGE_SIZE in *; lia). done.
  - apply load_bytes_zeroed. change (Z.of_nat (length key)) with n. intros x Hx. split.
    + rewrite Hacc, decide_False by lia. by apply (load_bytes_access _ _ _ Hkey).
    + by rewrite Hcells, decide_True by done.
  - intros x Hx. unfold load. rewrite Hacc, decide_True by (unfold ptr, GUARD_PAGE_SIZE in *; lia).
    rewrite bool_decide_false; [done|unfold ptr in *; lia].
  - reflexivity.
  - intros x Hx. unfold load, dealloc_guarded, when. rewrite can_access_munmap, decide_True; [done|].
    unfold ptr. rewrite whole_pages; [lia| |done]. by replace (base + GUARD_PAGE_SIZE - GUARD_PAGE_SIZE) with base by lia.
  - intros x Hx. cbn [dealloc_guarded when munmap munlock on_pages cells]. by rewrite Hcz, decide_True by done.
  - intros x Hb Hs. unfold load, dealloc_guarded, when. rewrite can_access_munmap, decide_False.
    + rewrite can_access_munlock, (can_access_pages m1), Hacc, decide_False by done.
      cbn [munmap munlock on_pages cells]. rewrite Hcz, Hcells.
      by rewrite !decide_False by (unfold ptr, GUARD_PAGE_SIZE in *; lia).
    + unfold ptr. rewrite whole_pages; [lia| |done]. by replace (base + GUARD_PAGE_SIZE - GUARD_PAGE_SIZE) with base by lia.
Qed.

(** A write past the key that stays on its last page is not noticed: unless
    the length of the key is a multiple of the page, the first byte after it
    can be written. *)
Lemma overflow_unnoticed base src key m m1 :
  zlen key <= 2 ^ 62 -> zlen key mod GUARD_PAGE_SIZE <> 0 ->
  guarded_at base src key m m1 ->
  exists m2, store m1 (base + GUARD_PAGE_SIZE + zlen key) 255 = Some m2.
Proof.
  intros Hn Hne [Hacc _]. assert (H0n : 0 <= zlen key <= 2 ^ 62) by (unfold zlen in *; lia).
  destruct (data_pages_bounds _ H0n) as (Hd & Hm & _). unfold data_pages in *.
  assert (zlen key <> guarded_size (zlen key) - 2 * GUARD_PAGE_SIZE) by congruence.
  unfold store. rewrite Hacc, decide_True by (unfold GUARD_PAGE_SIZE in *; lia).
  rewrite bool_decide_true by lia. by eexists.
Qed.

(** ** Locked key material *)

Lemma mlock_lookup a len m p :
  pages (mlock a len m) !! p =
  if decide (p ∈ pages_of a len) then (fun q => mkPage (accessible q) true) <$> pages m !! p else pages m !! p.
Proof. apply on_pages_lookup. Qed.

Lemma apart_pages a b n m' :
  (forall x y, a <= x < a + n -> b <= y < b + m' -> page_of x <> page_of y) ->
  forall x, a <= x < a + n -> page_of x ∉ pages_of b m'.
Proof.
  intros Ha x Hx [Hpos [H1 H2]]%elem_of_pages.
  set (y := Z.max b (Z.min (b + m' - 1) (GUARD_PAGE_SIZE * page_of x))).
  apply (Ha x y Hx); [lia|]. unfold y, page_of, GUARD_PAGE_SIZE in *.
  pose proof (Z.div_mod b 4096). pose proof (Z.mod_pos_bound b 4096).
  pose proof (Z.div_mod (b + m' - 1) 4096). pose proof (Z.mod_pos_bound (b + m' - 1) 4096).
  destruct (Z.max_spec b (Z.min (b + m' - 1) (4096 * (x / 4096)))) as [[? ->]|[? ->]].
  - destruct (Z.min_spec (b + m' - 1) (4096 * (x / 4096))) as [[? ->]|[? ->]]; [lia|].
    by rewrite Z.mul_comm, Z.div_mul.
  - destruct (Z.min_spec (b + m' - 1) (4096 * (x / 4096))) as [[? Em]|[? Em]]; [lia|]. lia.
Qed.

(** The copy can be made: its pages are usable, and none holds the key. *)
Definition copy_apart (at_ copy_at n : Z) (m : memory) : Prop :=
  (forall x, copy_at <= x < copy_at + n -> pages m !! page_of x = None \/ can_access m x = true) /\
  (forall x y, at_ <= x < at_ + n -> copy_at <= y < copy_at + n -> page_of x <> page_of y).

Lemma new_material_spec at_ copy_at key m :
  let n := zlen key in
  0 < n -> load_bytes m at_ (length key) = Some key -> copy_apart at_ copy_at n m ->
  exists m1, new_material true copy_at at_ (length key) true m = Some (m1, mkMaterial at_ (length key) true) /\
    pages m1 = pages (mlock copy_at n (give copy_at n m)) /\
    forall x, opt_or (cells m1 !! x) 0 =
      if decide (copy_at <= x < copy_at + n) then opt_or (key !! Z.to_nat (x - copy_at)) 0
      else opt_or (cells m !! x) 0.
Proof.
  intros n Hn Hkey [Hg Hapart]. change (Z.of_nat (length key)) with n.
  pose proof (apart_pages _ _ _ _ Hapart) as Hoff. set (mg := give copy_at n m).
  assert (Hkg : load_bytes mg at_ (length key) = Some key).
  { rewrite (load_bytes_ext m); [done|]. intros x Hx. unfold load, can_access, mg. by rewrite give_other by (by apply Hoff). }
  destruct (store_bytes_spec mg copy_at key) as (mb & Eb & Hpb & Hcb).
  { intros x Hx. fold n in Hx. apply can_access_give. destruct (Hg x Hx); tauto. }
  exists (mlock copy_at n mb). unfold new_material. change (Z.of_nat (length key)) with n.
  destruct (Nat.eqb_spec (length key) 0) as [E|_]; [unfold n, zlen in Hn; lia|]. cbn [negb andb]. fold mg.
  unfold copy_nonoverlapping. rewrite Hkg. simpl. rewrite Eb. split; [done|].
  cbn [mlock on_pages pages cells]. rewrite Hpb. split; [done|]. intros x. rewrite Hcb. fold n. by destruct (decide _).
Qed.

(** [SecureKeyMaterial::new] with locking locks a copy of the key: the
    pages of the key itself are as they were, and once the key is purged the
    copy is still in memory that is locked, though nothing points to it. *)
Theorem lock_leaves_a_copy (at_ copy_at : Z) (key : bytes) (m : memory) :
  let n := zlen key in
  0 < n -> load_bytes m at_ (length key) = Some key -> copy_apart at_ copy_at n m ->
  exists m1 k m2 k',
    new_material true copy_at at_ (length key) true m = Some (m1, k) /\
    material_bytes k m1 = Some key /\ is_locked k = true /\
    (forall x, at_ <= x < at_ + n -> pages m1 !! page_of x = pages m !! page_of x) /\
    purge true k m1 = Some (m2, k') /\
    material_bytes k' m2 = Some (replicate (length key) 0) /\
    load_bytes m2 copy_at (length key) = Some key /\
    (forall x, copy_at <= x < copy_at + n -> exists p, pages m2 !! page_of x = Some p /\ in_ram p = true).
Proof.
  intros n Hn Hkey Hc. destruct (new_material_spec _ _ _ _ Hn Hkey Hc) as (m1 & En & Hp & Hcells).
  destruct Hc as [Hg Hapart]. fold n in Hp, Hcells. pose proof (load_bytes_access _ _ _ Hkey) as Hsrc. fold n in Hsrc.
  pose proof (apart_pages _ _ _ _ Hapart) as Hoff.
  assert (Hoff' : forall x, copy_at <= x < copy_at + n -> page_of x ∉ pages_of at_ n).
  { apply apart_pages. intros x y Hx Hy E. by apply (Hapart y x). }
  assert (Hpk : forall x, at_ <= x < at_ + n -> pages m1 !! page_of x = pages m !! page_of x).
  { intros x Hx. rewrite Hp, mlock_lookup, decide_False by (by apply Hoff). apply give_other. by apply Hoff. }
  assert (Hacc : forall x, copy_at <= x < copy_at + n -> can_access m1 x = true).
  { intros x Hx. rewrite (can_access_pages _ _ _ Hp), can_access_mlock. apply can_access_give. destruct (Hg x Hx); tauto. }
  assert (Hak : forall x, at_ <= x < at_ + n -> can_access m1 x = true).
  { intros x Hx. unfold can_access. rewrite Hpk by done. by apply Hsrc. }
  assert (Hne : forall x, copy_at <= x < copy_at + n -> ~ (at_ <= x < at_ + n)).
  { intros x Hx Hx'. by apply (Hapart x x). }
  destruct (secure_zero_spec m1 at_ (length key) Hak) as (mz & Ez & Hpz & Hcz). change (Z.of_nat (length key)) with n in Hcz.
  eexists m1, _, _, _. split; [exact En|]. unfold material_bytes, purge. cbn [key_at key_len is_locked]. rewrite Ez.
  change (Z.of_nat (length key)) with n. split_and!; [|done|done|reflexivity| | |].
  - apply load_bytes_written. fold n. intros x Hx. split; [by apply Hak|].
    rewrite Hcells, decide_False by (intros Hx'; by apply (Hne x)).
    by apply (load_bytes_stored _ _ _ _ Hkey).
  - apply load_bytes_zeroed. change (Z.of_nat (length key)) with n. intros x Hx. cbn [unlock_memory when fst].
    rewrite can_access_munlock, (can_access_pages m1) by done. split; [by apply Hak|].
    cbn [munlock on_pages cells]. by rewrite Hcz, decide_True.
  - apply load_bytes_written. fold n. intros x Hx. cbn [unlock_memory when fst].
    rewrite can_access_munlock, (can_access_pages m1) by done. split; [by apply Hacc|].
    cbn [munlock on_pages cells]. by rewrite Hcz, decide_False, Hcells, decide_True by (done || by apply Hne).
  - intros x Hx. cbn [unlock_memory when fst]. unfold munlock. rewrite on_pages_lookup, decide_False by (by apply Hoff').
    specialize (Hacc x Hx). unfold can_access in Hacc. rewrite Hpz. rewrite Hp, mlock_lookup, decide_True in * by (by apply in_pages).
    destruct (pages (give copy_at n m) !! page_of x) as [p|]; [|done]. by eexists.
Qed.

(** ** Concrete keys *)

Definition sample_key : bytes := [1; 2; 3].

Definition sample_memory : memory :=
  mkMemory {[ 16 := mkPage true false ]} (list_to_map (zip [65600; 65601; 65602] sample_key)).

Lemma grantable_fresh base size m :
  base mod GUARD_PAGE_SIZE = 0 -> size mod GUARD_PAGE_SIZE = 0 ->
  (forall p, p ∈ pages_of base size -> pages m !! p = None) -> grantable base size m.
Proof. intros Hb Hs Hp. split; [done|]. intros x Hx. left. apply Hp. by apply in_pages. Qed.

Theorem guarded_key_lifecycle_witness :
  exists m1 g m2, new_guarded (granted 81920) 65600 3 sample_memory = Some (m1, Some g) /\
    guarded_bytes g m1 = Some sample_key /\ drop_guarded true true g m1 = Some m2.
Proof.
  destruct (guarded_key_lifecycle 81920 65600 sample_key sample_memory) as (m1 & g & m2 & E & Eg & _ & _ & Ed & _).
  - discriminate.
  - apply grantable_fresh; [reflexivity|reflexivity|]. intros p [_ Hp]%elem_of_pages.
    change (20 <= p <= 22) in Hp. unfold sample_memory. cbn [pages]. apply lookup_singleton_ne. lia.
  - vm_compute. reflexivity.
  - left. discriminate.
  - by exists m1, g, m2.
Defined.

Theorem lock_leaves_a_copy_witness :
  exists m1 k m2 k', new_material true 81920 65600 3 true sample_memory = Some (m1, k) /\
    purge true k m1 = Some (m2, k') /\ load_bytes m2 81920 3 = Some sample_key.
Proof.
  destruct (lock_leaves_a_copy 65600 81920 sample_key sample_memory)
    as (m1 & k & m2 & k' & E & _ & _ & _ & Ep & _ & El & _).
  - reflexivity.
  - vm_compute. reflexivity.
  - assert (Hc : forall x, 81920 <= x < 81923 -> page_of x = 20).
    { intros x Hx. symmetry. apply (Z.div_unique _ _ _ (x - 81920)); unfold GUARD_PAGE_SIZE; lia. }
    assert (Hk : forall x, 65600 <= x < 65603 -> page_of x = 16).
    { intros x Hx. symmetry. apply (Z.div_unique _ _ _ (x - 65536)); unfold GUARD_PAGE_SIZE; lia. }
    split.
    + intros x Hx. left. rewrite (Hc x Hx). reflexivity.
    + intros x y Hx Hy. by rewrite (Hk x Hx), (Hc y Hy).
  - by exists m1, k, m2, k'.
Defined.
