(* ===== verification/Cbnp.v ===== *)
(** * Cover traffic (src/crypto/src/cbnp.rs)

    The packets that hide real messages, their recognition and the delay
    between them.  The secret and the random numbers are arguments, and so is
    the logarithm of the standard library; the instant of the last packet is
    kept by the code but never read. *)

From S2P Require Import Prelude Text Primitives Concrete CryptoUtils Identity Ratchet.

(** Source: crypto/src/cbnp.rs:37-38, COVER_PACKET_SIZE. *)
Definition COVER_PACKET_SIZE : nat := 3200.
(** Source: crypto/src/cbnp.rs:41-41, COVER_TAG_PREFIX. *)
Definition COVER_TAG_PREFIX : Z := 192.

(** Source: crypto/src/cbnp.rs:46-55, CbnpConfig. *)
Record CbnpConfig : Type := mkConfig { lambda_seconds : f64; enabled : bool; max_burst : Z }.

(** Source: crypto/src/cbnp.rs:58-64, CbnpConfig::default. *)
Definition default_config : CbnpConfig := mkConfig (f64_of_Z 30) true 3.

(** Source: crypto/src/cbnp.rs:67-78, CbnpSession. *)
Record CbnpSession : Type := mkSession {
  config : CbnpConfig;
  running : bool;
  count : Z;
  cover_public_key : bytes;
  cover_secret : bytes;
}.

Definition set_running (b : bool) (s : CbnpSession) : CbnpSession :=
  mkSession (config s) b (count s) (cover_public_key s) (cover_secret s).
Definition set_count (n : Z) (s : CbnpSession) : CbnpSession :=
  mkSession (config s) (running s) n (cover_public_key s) (cover_secret s).

Section cbnp.
Context `{Sha2}.

(** Source: crypto/src/cbnp.rs:81-100, CbnpSession::new. *)
Definition new (c : CbnpConfig) (secret : bytes) : CbnpSession :=
  mkSession c false 0 (sha256 (str_bytes "cbnp-cover-pk-v1" ++ secret)) secret.

(** Each chunk of the packet is the digest of the one before it.
    Source: crypto/src/cbnp.rs:118-126, CbnpSession::generate_cover_packet. *)
Fixpoint fill (fill_seed : bytes) (cs : list bytes) : bytes :=
  match cs with
  | [] => []
  | c :: cs' =>
      let out := sha256 (fill_seed ++ str_bytes "cbnp-fill") in
      take (length c `min` 32) out ++ fill out cs'
  end.

(** A packet of [k] bytes after its tag.
    Source: crypto/src/cbnp.rs:102-131, CbnpSession::generate_cover_packet. *)
Definition packet_of_size (k : nat) (secret : bytes) (n : Z) : bytes :=
  let seed_hash := sha256 (str_bytes "cbnp-cover-packet-v1" ++ secret ++ be_bytes 8 n) in
  COVER_TAG_PREFIX :: fill seed_hash (chunks 32 (replicate k 0)).

Definition packet_at : bytes -> Z -> bytes := packet_of_size (COVER_PACKET_SIZE - 1).

(** Source: crypto/src/cbnp.rs:102-131, CbnpSession::generate_cover_packet. *)
Definition generate_cover_packet (s : CbnpSession) : CbnpSession * bytes :=
  (set_count (u64 (count s + 1)) s, packet_at (cover_secret s) (count s)).

(** Source: crypto/src/cbnp.rs:147-150, CbnpSession::is_cover_traffic. *)
Definition is_cover_traffic (packet : bytes) : bool :=
  match packet with b :: _ => b =? COVER_TAG_PREFIX | [] => false end.

(** Source: crypto/src/cbnp.rs:162-165, CbnpSession::stop. *)
Definition stop (s : CbnpSession) : CbnpSession := set_running false s.
(** Source: crypto/src/cbnp.rs:172-175, CbnpSession::start. *)
Definition start (s : CbnpSession) : CbnpSession := set_running true s.

(** Source: crypto/src/cbnp.rs:178-185, generate_cover_burst. *)
Fixpoint generate_cover_burst (s : CbnpSession) (n : nat) : CbnpSession * list bytes :=
  match n with
  | O => (s, [])
  | S n' =>
      let (s1, p) := generate_cover_packet s in
      let (s2, ps) := generate_cover_burst s1 n' in
      (s2, p :: ps)
  end.
End cbnp.

(** [Duration::from_secs_f64] panics on what is not a finite, non-negative
    number of seconds below 2^64; the duration is given by its seconds. *)
Definition from_secs_f64 (x : f64) : option f64 :=
  if SFleb (f64_of_Z 0) x && SFltb x (f64_of_Z (2 ^ 64)) then Some x else None.

(** Source: crypto/src/cbnp.rs:133-145, CbnpSession::next_delay. *)
Definition next_delay (ln : f64 -> f64) (u jitter : f64) (c : CbnpConfig) : option f64 :=
  if negb (enabled c) then Some (f64_of_Z 3600)
  else
    let base_delay := SFdiv 53 1024 (SFopp (ln (f64_sub (f64_of_Z 1) u))) (lambda_seconds c) in
    from_secs_f64 (f64_add base_delay jitter).

(** ** Packets *)

Section packets.
Context `{Sha2}.

Lemma fill_length seed n l :
  (0 < n <= 32)%nat -> length (fill seed (chunks n l)) = length l.
Proof.
  intros Hn. revert seed. revert l. apply (chunks_ind n (fun l => forall seed, length (fill seed (chunks n l)) = length l));
    [lia|done|]. intros l Hl IH seed. rewrite chunks_step by (done || lia). cbn [fill].
  rewrite length_app, IH, !length_take, length_drop, sha256_length. lia.
Qed.

Lemma packet_of_size_shape k secret n :
  length (packet_of_size k secret n) = S k /\ is_cover_traffic (packet_of_size k secret n) = true.
Proof.
  split; [|reflexivity]. unfold packet_of_size. cbn [length]. rewrite fill_length by lia.
  by rewrite length_replicate.
Qed.

Lemma packet_shape secret n :
  length (packet_at secret n) = COVER_PACKET_SIZE /\ is_cover_traffic (packet_at secret n) = true.
Proof. exact (packet_of_size_shape (COVER_PACKET_SIZE - 1) secret n). Qed.

(** The packets of a burst are those of the consecutive counts. *)
Lemma burst_packets s n :
  0 <= count s -> count s + Z.of_nat n < 2 ^ 64 ->
  generate_cover_burst s n =
    (set_count (count s + Z.of_nat n) s,
     (fun i => packet_at (cover_secret s) (count s + Z.of_nat i)) <$> seq 0 n).
Proof.
  revert s. induction n as [|n IH]; intros s Hs Hn.
  - simpl. rewrite Z.add_0_r. by destruct s.
  - cbn [generate_cover_burst generate_cover_packet]. unfold u64. rewrite wrap_small by lia.
    rewrite IH by (cbn; lia). cbn [count cover_secret set_count]. f_equal.
    + destruct s. unfold set_count. simpl. f_equal. lia.
    + cbn [seq]. rewrite fmap_cons. f_equal; [by rewrite Z.add_0_r|].
      rewrite <- fmap_S_seq, <- list_fmap_compose. apply list_fmap_ext. intros _ i _. simpl. f_equal. lia.
Qed.

(** A burst of cover traffic has the number of packets asked for, each of
    the size of a packet and recognised as cover traffic, and the count goes
    on from it; the packets depend on nothing but the secret and the count. *)
Theorem cover_burst_spec (s : CbnpSession) (n : nat) :
  0 <= count s -> count s + Z.of_nat n < 2 ^ 64 ->
  exists ps, generate_cover_burst s n = (set_count (count s + Z.of_nat n) s, ps) /\ length ps = n /\
    Forall (fun p => length p = COVER_PACKET_SIZE /\ is_cover_traffic p = true) ps /\
    forall i, (i < n)%nat -> ps !! i = Some (packet_at (cover_secret s) (count s + Z.of_nat i)).
Proof.
  intros Hs Hn. eexists. rewrite burst_packets by done. split; [reflexivity|].
  split; [by rewrite length_fmap, length_seq|]. split.
  - apply Forall_fmap, Forall_forall. intros i _. exact (packet_shape (cover_secret s) (count s + Z.of_nat i)).
  - intros i Hi. rewrite list_lookup_fmap, lookup_seq_lt by done. reflexivity.
Qed.
End packets.

(** A message of the ratchet whose nonce starts with the byte of the tag is
    taken for cover traffic, as one in 256 is. *)
Lemma message_taken_for_cover `{Hkdf} `{Aead} nonce plaintext s s' raw :
  encrypt_first (COVER_TAG_PREFIX :: nonce) plaintext s = (s', Ok raw) -> is_cover_traffic raw = true.
Proof.
  unfold encrypt_first, st_bind, st_get, st_lift, st_modify, st_ret.
  destruct (derive_message_key _) as [[k ck]|]; [|done].
  destruct (aes_seal _ _ _); [|done]. by intros [= _ <-].
Qed.

(** With [lambda_seconds] zero every delay panics. *)
Lemma zero_lambda_panics ln u jitter b mant e :
  ln (f64_sub (f64_of_Z 1) u) = S754_finite true mant e -> jitter <> S754_infinity true ->
  next_delay ln u jitter (mkConfig (f64_of_Z 0) true b) = None.
Proof.
  intros Hln Hj. unfold next_delay. cbn [enabled negb lambda_seconds]. rewrite Hln.
  change (SFdiv 53 1024 (SFopp (S754_finite true mant e)) (f64_of_Z 0)) with (S754_infinity false).
  by destruct jitter as [|[]| |].
Qed.
