(* ===== verification/DeliveryTokens.v ===== *)
(** * Delivery tokens (src/crypto/src/delivery_tokens.rs)

    Derivation and verification of the tokens that acknowledge messages. *)

From S2P Require Import Prelude Text Primitives Concrete Identity.

(** Source: crypto/src/delivery_tokens.rs:28-35, DELIVERY_TOKEN_SIZE, DELIVERY_KEY_SIZE and DELIVERY_SEED_SIZE. *)
Definition DELIVERY_TOKEN_SIZE : Z := 32.

(** Source: crypto/src/delivery_tokens.rs:37-41, DeliveryMasterSecret. *)
Record DeliveryMasterSecret : Type := mkMaster { master_bytes : bytes }.
(** Source: crypto/src/delivery_tokens.rs:103-107, DeliveryKey. *)
Record DeliveryKey : Type := mkKey { key_bytes : bytes }.
(** Source: crypto/src/delivery_tokens.rs:137-142, DeliveryToken. *)
Record DeliveryToken : Type := mkToken { token_bytes : bytes }.

(** The invariant of [[u8; 32]]. *)
Definition token_ok (t : DeliveryToken) : Prop :=
  length (token_bytes t) = 32%nat /\ bytes_ok (token_bytes t).

(** Successive [update]s of a MAC read their concatenation.
    Source: crypto/src/delivery_tokens.rs:184-185, derive_token_internal. *)
Definition token_input (message_id : Z) : bytes :=
  str_bytes "nullnode-delivery-token-v1" ++ be_bytes 8 message_id.

(** The comparison: the or of the xors of the pairs of bytes.
    Source: crypto/src/delivery_tokens.rs:92-98, DeliveryMasterSecret::verify_token. *)
Definition ct_diff (a b : bytes) : Z :=
  foldl (fun acc ab => Z.lor acc (Z.lxor ab.1 ab.2)) 0 (zip a b).

Section tokens.
Context `{Hmac} `{Hex}.

(** Source: crypto/src/delivery_tokens.rs:177-192, derive_token_internal. *)
Definition derive_token_internal (key : DeliveryKey) (message_id : Z) : DeliveryToken :=
  mkToken (hmac_sha256 (key_bytes key) (token_input message_id)).

(** Source: crypto/src/delivery_tokens.rs:56-66, DeliveryMasterSecret::derive_key. *)
Definition derive_key (m : DeliveryMasterSecret) (contact_id : string) : DeliveryKey :=
  mkKey (take 32 (hmac_sha256 (master_bytes m)
           (str_bytes "nullnode-delivery-key-v1" ++ str_bytes contact_id))).

(** Source: crypto/src/delivery_tokens.rs:68-77, DeliveryMasterSecret::derive_token. *)
Definition derive_token (m : DeliveryMasterSecret) (contact_id : string) (message_id : Z)
  : DeliveryToken :=
  derive_token_internal (derive_key m contact_id) message_id.

(** Source: crypto/src/delivery_tokens.rs:84-99, DeliveryMasterSecret::verify_token. *)
Definition verify_token (m : DeliveryMasterSecret) (contact_id : string) (message_id : Z)
    (token : DeliveryToken) : bool :=
  ct_diff (token_bytes (derive_token m contact_id message_id)) (token_bytes token) =? 0.

(** Source: crypto/src/delivery_tokens.rs:110-124, DeliveryKey::derive_token and verify. *)
Definition key_verify (k : DeliveryKey) (message_id : Z) (token : DeliveryToken) : bool :=
  ct_diff (token_bytes (derive_token_internal k message_id)) (token_bytes token) =? 0.

(** Source: crypto/src/delivery_tokens.rs:155-158, DeliveryToken::to_hex. *)
Definition to_hex (t : DeliveryToken) : string := hex_encode (token_bytes t).

(** Source: crypto/src/delivery_tokens.rs:160-174, DeliveryToken::from_hex. *)
Definition from_hex (s : string) : result CryptoError DeliveryToken :=
  match hex_decode s with
  | None => Err (DecryptFailed "hex decode")
  | Some b =>
      if negb (zlen b =? DELIVERY_TOKEN_SIZE)
      then Err (DecryptFailed ("wrong token size: " +:+ pretty (zlen b) +:+ " != 32"))
      else Ok (mkToken b)
  end.

Lemma ct_diff_acc l acc :
  foldl (fun acc (ab : Z * Z) => Z.lor acc (Z.lxor ab.1 ab.2)) acc l = 0 <->
  acc = 0 /\ Forall (fun ab => ab.1 = ab.2) l.
Proof.
  revert acc. induction l as [|[a b] l IH]; intros acc; cbn [foldl].
  - split; [|by intros []]. intros ->. by split.
  - rewrite IH, Z.lor_eq_0_iff, Z.lxor_eq_0_iff, Forall_cons. simpl. tauto.
Qed.

(** The comparison finds every difference. *)
Lemma ct_diff_eq a b : length a = length b -> (ct_diff a b = 0 <-> a = b).
Proof.
  intros Hl. unfold ct_diff. rewrite ct_diff_acc. split.
  - intros [_ Hf]. revert b Hl Hf. induction a as [|x a IH]; intros [|y b] Hl Hf; try done.
    simpl in *. apply Forall_cons in Hf as [E Hf]. simpl in E. subst y.
    f_equal. apply IH; [lia|done].
  - intros <-. split; [done|]. clear Hl. induction a; simpl; constructor; [done|done].
Qed.

Lemma derived_ok m c i : token_ok (derive_token m c i).
Proof. split; [apply hmac_length|apply hmac_ok]. Qed.

(** Different messages are authenticated under different input. *)
Lemma token_input_inj i j : 0 <= i < 2 ^ 64 -> 0 <= j < 2 ^ 64 -> token_input i = token_input j -> i = j.
Proof.
  intros Hi Hj E. unfold token_input in E. apply app_inv_head in E.
  rewrite <- (from_be_be_bytes 8 i), <- (from_be_be_bytes 8 j) by done. by rewrite E.
Qed.

(** Delivery tokens do what receipts need.  A token is accepted for a
    contact and a message exactly when it is the one derived for them, by the
    holder of the master secret and by the holder of the contact's key alike;
    every derived token survives the trip through hexadecimal and nothing of
    another size is accepted there; and the input of the derivation is
    different for every message number. *)
Theorem delivery_token_spec (m : DeliveryMasterSecret) (contact : string) (i j : Z)
    (t : DeliveryToken) (s : string) :
  token_ok t -> 0 <= i < 2 ^ 64 -> 0 <= j < 2 ^ 64 ->
  (verify_token m contact i t = true <-> t = derive_token m contact i) /\
  (key_verify (derive_key m contact) i t = verify_token m contact i t) /\
  from_hex (to_hex t) = Ok t /\
  (forall t', from_hex s = Ok t' -> length (token_bytes t') = 32%nat) /\
  (i <> j -> token_input i <> token_input j).
Proof.
  intros [Hl Hok] Hi Hj. split_and!.
  - unfold verify_token. rewrite Z.eqb_eq, ct_diff_eq.
    + destruct t as [b]. destruct (derive_token m contact i) as [d]. simpl.
      split; [by intros ->|by intros [= ->]].
    + destruct (derived_ok m contact i) as [-> _]. by rewrite Hl.
  - done.
  - unfold from_hex, to_hex. rewrite hex_decode_encode by done. unfold zlen. rewrite Hl. by destruct t.
  - intros t' Ht. unfold from_hex in Ht. destruct (hex_decode s) as [b|]; [|done].
    destruct (Z.eqb_spec (zlen b) DELIVERY_TOKEN_SIZE) as [E|]; [|done].
    injection Ht as <-. unfold zlen, DELIVERY_TOKEN_SIZE in E. simpl. lia.
  - intros Hne E. apply Hne. by apply token_input_inj.
Qed.
End tokens.

Theorem delivery_token_spec_witness :
  let _ := Concrete.toy_hmac in let _ := Concrete.toy_hex in
  let m := mkMaster (replicate 64 7) in
  let t := derive_token m "NN-AAAA-BBBB" 5 in
  verify_token m "NN-AAAA-BBBB" 5 t = true /\ from_hex (to_hex t) = Ok t.
Proof.
  intros A X m t.
  destruct (@delivery_token_spec A X m "NN-AAAA-BBBB" 5 6 t "") as (Hv & _ & Hx & _).
  - apply derived_ok.
  - split; [discriminate|reflexivity].
  - split; [discriminate|reflexivity].
  - split; [apply Hv; reflexivity|exact Hx].
Defined.
