(* ===== verification/Pir.v ===== *)
(** * Private contact discovery (src/crypto/src/pir.rs)

    The blind registry of bins and the client that queries it.  The random
    mask of a query is an argument. *)

From S2P Require Import Prelude Text Primitives Concrete Identity.

(** Source: crypto/src/pir.rs:38-48, PIR_BIN_SIZE, PIR_ENTRY_SIZE, PIR_MAX_ENTRIES_PER_BIN and PIR_CUCKOO_FANOUT. *)
Definition PIR_ENTRY_SIZE : nat := 224.
Definition PIR_MAX_ENTRIES_PER_BIN : nat := 18.
Definition PIR_BIN_SIZE : nat := PIR_ENTRY_SIZE * PIR_MAX_ENTRIES_PER_BIN.
Definition PIR_CUCKOO_FANOUT : nat := 2.

(** Source: crypto/src/pir.rs:50-59, PirQueryToken. *)
Record PirQueryToken : Type := mkQuery { bin_index : Z; xor_mask : bytes; client_pk : bytes }.

(** Source: crypto/src/pir.rs:61-70, PirResponse. *)
Record PirResponse : Type := mkResponse { bin_data : bytes; dht_pk : bytes; nonce : bytes }.

(** Source: crypto/src/pir.rs:72-79, PirContactEntry. *)
Record PirContactEntry : Type := mkEntry { fingerprint_hash : bytes; metadata : bytes }.

(** Source: crypto/src/pir.rs:82-92, PirContactEntry::new. *)
Definition entry_new (hash meta : bytes) : PirContactEntry :=
  let meta_len := Nat.min (length meta) (PIR_ENTRY_SIZE - 32) in
  mkEntry hash (take 32 hash ++ take meta_len meta ++ replicate (PIR_ENTRY_SIZE - 32 - meta_len) 0).

(** Source: crypto/src/pir.rs:94-97, PirContactEntry::matches. *)
Definition matches (e : PirContactEntry) (hash : bytes) : bool :=
  bool_decide (fingerprint_hash e = hash).

(** Source: crypto/src/pir.rs:99-102, PirContactEntry::to_bytes. *)
Definition to_bytes (e : PirContactEntry) : bytes := metadata e.

(** Source: crypto/src/pir.rs:104-112, PirContactEntry::from_bytes. *)
Definition entry_from_bytes (b : bytes) : PirContactEntry := mkEntry (take 32 b) b.

(** Source: crypto/src/pir.rs:314-322, xor_apply. *)
Definition xor_apply (data mask : bytes) : bytes :=
  let len := Nat.min (length data) (length mask) in
  (fun ab => Z.lxor ab.1 ab.2) <$> zip (take len data) (take len mask).

(** The scan over the chunks of the unmasked bin.
    Source: crypto/src/pir.rs:181-196, PirClient::process_response. *)
Fixpoint scan (target : bytes) (slots : list bytes) : option PirContactEntry :=
  match slots with
  | [] => None
  | b :: rest =>
      if negb (length b =? PIR_ENTRY_SIZE)%nat then scan target rest
      else if bool_decide (take 32 b = target) then Some (entry_from_bytes b)
      else scan target rest
  end.

(** Source: crypto/src/pir.rs:171-197, PirClient::process_response. *)
Definition process_response (r : PirResponse) (mask target : bytes) : option PirContactEntry :=
  scan target (chunks PIR_ENTRY_SIZE (xor_apply (bin_data r) mask)).

(** ** The registry *)

(** Source: crypto/src/pir.rs:240-245, PirRegistry. *)
Abbreviation PirRegistry := (gmap Z bytes).

(** [slot.iter().all(|&b| b == 0)] *)
Definition empty_slot (b : bytes) : bool := forallb (fun x => x =? 0) b.

(** The first empty slot is overwritten. Source: crypto/src/pir.rs:253-259, PirRegistry::add_entry. *)
Fixpoint fill_slot (data : bytes) (slots : list bytes) : option (list bytes) :=
  match slots with
  | [] => None
  | b :: rest => if empty_slot b then Some (data :: rest) else (b ::.) <$> fill_slot data rest
  end.

Definition new_bin : bytes := replicate PIR_BIN_SIZE 0.

(** The bin is made on first use, also when the entry is then refused.
    Source: crypto/src/pir.rs:246-265, PirRegistry::add_entry. *)
Definition add_entry (idx : Z) (e : PirContactEntry) : st PirRegistry CryptoError unit :=
  do reg <- st_get;
  let bin := opt_or (reg !! idx) new_bin in
  do! st_put (<[idx := bin]> reg);
  match fill_slot (to_bytes e) (chunks PIR_ENTRY_SIZE bin) with
  | Some slots => st_modify (fun reg => <[idx := concat slots]> reg)
  | None => st_fail (PirError ("bin " +:+ pretty idx +:+ " is full (max 18 entries)"))
  end.

(** Source: crypto/src/pir.rs:267-270, PirRegistry::get_bin. *)
Definition get_bin (idx : Z) (reg : PirRegistry) : option bytes := reg !! idx.

(** Source: crypto/src/pir.rs:272-285, PirRegistry::handle_query. *)
Definition handle_query (rnd_nonce rnd_pk : bytes) (q : PirQueryToken) (reg : PirRegistry)
  : option PirResponse :=
  b ← get_bin (bin_index q) reg; Some (mkResponse b rnd_pk rnd_nonce).

Section client.
Context `{Sha2}.

(** Source: crypto/src/pir.rs:299-312, cuckoo_hash_bins. *)
Definition cuckoo_hash_bins (hash : bytes) (fanout : nat) : list Z :=
  (fun i => from_be_bytes (take 4 (sha256 (str_bytes "pir-cuckoo-v1" ++ hash ++
                                           be_bytes 4 (Z.of_nat i))))) <$> seq 0 fanout.

(** One token per candidate bin, each with its own random mask.
    Source: crypto/src/pir.rs:144-169, PirClient::query_contact. *)
Definition query_contact (rng : nat -> bytes) (pk hash : bytes) : list PirQueryToken :=
  imap (fun i idx => mkQuery idx (rng i) pk) (cuckoo_hash_bins hash PIR_CUCKOO_FANOUT).

(** Source: crypto/src/pir.rs:199-211, PirClient::prepare_registration. *)
Definition prepare_registration (hash : bytes) : option (Z * PirContactEntry) :=
  chosen ← head (cuckoo_hash_bins hash PIR_CUCKOO_FANOUT); Some (chosen, entry_new hash []).

(** Source: crypto/src/pir.rs:125-142, PirClient::new. *)
Definition client_public (secret : bytes) : bytes :=
  sha256 (str_bytes "pir-ephemeral-pk-v1" ++ secret).
End client.

(** ** What a bin stands for *)

(** An entry as the constructor makes it: 224 bytes that begin with the hash,
    not all zero. *)
Definition entry_ok (e : PirContactEntry) : Prop :=
  length (metadata e) = PIR_ENTRY_SIZE /\ take 32 (metadata e) = fingerprint_hash e /\
  empty_slot (metadata e) = false.

Definition zero_slot : bytes := replicate PIR_ENTRY_SIZE 0.

(** A bin holds the entries [es] in order and then empty slots. *)
Definition bin_holds (bin : bytes) (es : list PirContactEntry) : Prop :=
  (length es <= PIR_MAX_ENTRIES_PER_BIN)%nat /\ Forall entry_ok es /\
  bin = concat ((to_bytes <$> es) ++ replicate (PIR_MAX_ENTRIES_PER_BIN - length es) zero_slot).

Lemma zero_slot_empty : empty_slot zero_slot = true.
Proof. vm_compute. reflexivity. Qed.

Lemma new_bin_holds : bin_holds new_bin [].
Proof. split_and!; [simpl; lia|constructor|]. vm_compute. reflexivity. Qed.

(** Cutting a concatenation of slots of the entry size gives the slots back. *)
Lemma chunks_slots n (slots : list bytes) :
  (0 < n)%nat -> Forall (fun s => length s = n) slots -> chunks n (concat slots) = slots.
Proof.
  intros Hn. induction 1 as [|s slots Hs _ IH]; [done|]. cbn [concat].
  rewrite chunks_step; [|done|destruct s; [simpl in Hs; lia|done]].
  rewrite <- Hs. rewrite take_app_length, drop_app_length. by rewrite Hs, IH.
Qed.

Lemma ENTRY_SIZE_pos : (0 < PIR_ENTRY_SIZE)%nat.
Proof. unfold PIR_ENTRY_SIZE. lia. Qed.

Lemma slots_sized es k :
  Forall entry_ok es ->
  Forall (fun s => length s = PIR_ENTRY_SIZE) ((to_bytes <$> es) ++ replicate k zero_slot).
Proof.
  intros Hes. apply Forall_app. split.
  - apply Forall_fmap. eapply Forall_impl; [exact Hes|]. intros e [Hl _]. exact Hl.
  - apply Forall_replicate. unfold zero_slot. apply length_replicate.
Qed.

Lemma bin_slots bin es :
  bin_holds bin es ->
  chunks PIR_ENTRY_SIZE bin = (to_bytes <$> es) ++ replicate (PIR_MAX_ENTRIES_PER_BIN - length es) zero_slot.
Proof.
  intros (_ & Hes & ->). apply chunks_slots; [apply ENTRY_SIZE_pos|by apply slots_sized].
Qed.

Lemma fill_slots data es k :
  Forall entry_ok es ->
  fill_slot data ((to_bytes <$> es) ++ replicate k zero_slot) =
  match k with
  | O => None
  | S k' => Some ((to_bytes <$> es) ++ data :: replicate k' zero_slot)
  end.
Proof.
  induction 1 as [|e es (_ & _ & He) _ IH].
  - destruct k; [done|]. cbn [fmap list_fmap app replicate fill_slot]. by rewrite zero_slot_empty.
  - rewrite fmap_cons, <- app_comm_cons. cbn [fill_slot]. unfold to_bytes at 1.
    rewrite He, IH. by destruct k.
Qed.

Lemma scan_entries target es k :
  Forall entry_ok es -> empty_slot target = false ->
  scan target ((to_bytes <$> es) ++ replicate k zero_slot) =
  (fun e => entry_from_bytes (metadata e)) <$> List.find (fun e => matches e target) es.
Proof.
  intros Hes Ht. induction Hes as [|e es (Hl & Hh & _) _ IH].
  - cbn [fmap list_fmap app]. induction k as [|k IH]; [done|]. cbn [replicate scan].
    unfold zero_slot at 1. rewrite length_replicate, Nat.eqb_refl. cbn [negb].
    rewrite bool_decide_false; [done|]. intros <-. revert Ht. vm_compute. discriminate.
  - rewrite fmap_cons, <- app_comm_cons. cbn [scan]. change (to_bytes e) with (metadata e).
    rewrite Hl, Nat.eqb_refl. cbn [negb]. rewrite Hh. cbn [List.find].
    unfold matches at 1. destruct (bool_decide_reflect (fingerprint_hash e = target)); [done|]. exact IH.
Qed.

Lemma bin_length bin es : bin_holds bin es -> length bin = PIR_BIN_SIZE.
Proof.
  intros (Hl & Hes & ->). rewrite length_concat.
  pose proof (slots_sized es (PIR_MAX_ENTRIES_PER_BIN - length es) Hes) as Hsl.
  set (sl := (to_bytes <$> es) ++ _) in *.
  assert (Hn : length sl = PIR_MAX_ENTRIES_PER_BIN)
    by (unfold sl; rewrite length_app, length_fmap, length_replicate; lia).
  unfold PIR_BIN_SIZE. rewrite <- Hn. clear -Hsl. induction Hsl as [|s l Hs _ IH]; [done|].
  simpl. rewrite IH, Hs. simpl. lia.
Qed.

Lemma xor_zero_mask bin : xor_apply bin (replicate (length bin) 0) = bin.
Proof.
  unfold xor_apply. rewrite length_replicate, Nat.min_id.
  rewrite (take_ge bin) by done. rewrite take_ge by (by rewrite length_replicate).
  induction bin as [|b bin IH]; [done|]. cbn [length replicate zip_with fmap list_fmap fst snd].
  rewrite Z.lxor_0_r. f_equal. exact IH.
Qed.

(** The registry refines lists of contacts.  A bin that holds [n] contacts
    takes one more while [n < 18], after them and changing no other bin, and
    refuses the next one leaving what it held; a bin is always 4032 bytes; and
    scanning a bin as it is stored finds the first contact with the hash looked
    for, and none if there is none. *)
Theorem registry_refines_lists (reg : PirRegistry) (idx : Z) (es : list PirContactEntry)
    (e : PirContactEntry) (target pk n : bytes) :
  bin_holds (opt_or (reg !! idx) new_bin) es -> entry_ok e -> empty_slot target = false ->
  let (reg', r) := add_entry idx e reg in
  (forall j, j <> idx -> reg' !! j = reg !! j) /\
  (if (length es <? PIR_MAX_ENTRIES_PER_BIN)%nat
   then r = Ok tt /\ exists bin, reg' !! idx = Some bin /\ bin_holds bin (es ++ [e])
   else is_ok r = false /\ exists bin, reg' !! idx = Some bin /\ bin_holds bin es) /\
  forall bin es', bin_holds bin es' ->
    length bin = PIR_BIN_SIZE /\
    process_response (mkResponse bin pk n) (replicate PIR_BIN_SIZE 0) target =
      (fun e => entry_from_bytes (metadata e)) <$> List.find (fun e => matches e target) es'.
Proof.
  intros Hb He Ht. unfold add_entry, st_bind, st_get, st_put, st_modify, st_fail.
  pose proof (bin_slots _ _ Hb) as Hs. destruct Hb as (Hlen & Hes & Hbin). rewrite Hs, fill_slots by done.
  assert (Hscan : forall bin es', bin_holds bin es' -> length bin = PIR_BIN_SIZE /\
    process_response (mkResponse bin pk n) (replicate PIR_BIN_SIZE 0) target =
      (fun e => entry_from_bytes (metadata e)) <$> List.find (fun e => matches e target) es').
  { intros bin es' Hb'. pose proof (bin_slots _ _ Hb') as Hs'. pose proof Hb' as (Hl' & Hes' & Hbin').
    rewrite (bin_length bin es') by done. split; [done|]. unfold process_response. cbn [bin_data].
    rewrite <- (bin_length bin es') by done. rewrite xor_zero_mask, Hs'. by apply scan_entries. }
  destruct (Nat.ltb_spec (length es) PIR_MAX_ENTRIES_PER_BIN) as [Hlt|Hge].
  - destruct (PIR_MAX_ENTRIES_PER_BIN - length es)%nat as [|k] eqn:Ek; [lia|].
    cbv beta iota zeta. split; [|split; [split; [done|]|exact Hscan]].
    + intros j Hj. by rewrite !lookup_insert_ne.
    + eexists. split; [apply lookup_insert_eq|]. split_and!.
      * rewrite length_app. simpl. lia.
      * by apply Forall_app_2; [|constructor].
      * rewrite fmap_app, <- app_assoc, length_app. cbn [length].
        replace (PIR_MAX_ENTRIES_PER_BIN - (length es + 1))%nat with k by lia. done.
  - replace (PIR_MAX_ENTRIES_PER_BIN - length es)%nat with 0%nat by lia.
    cbv beta iota zeta. split; [|split; [split; [done|]|exact Hscan]].
    + intros j Hj. by rewrite lookup_insert_ne.
    + eexists. split; [apply lookup_insert_eq|]. split_and!; done.
Qed.

(** ** The blinded lookup *)

Definition zeros (l : bytes) : Prop := Forall (fun b => b = 0) l.

Lemma xor_apply_zip data mask : xor_apply data mask = zip_with Z.lxor data mask.
Proof.
  unfold xor_apply. revert mask. induction data as [|x d IH]; intros [|m mask]; try done.
  cbn [length Nat.min take zip_with fmap list_fmap fst snd]. f_equal. apply IH.
Qed.

Lemma xor_take k data mask :
  take k (xor_apply data mask) = xor_apply (take k data) (take k mask).
Proof.
  rewrite !xor_apply_zip. revert k mask.
  induction data as [|x d IH]; intros [|k] [|m mask]; try done. simpl. by rewrite IH.
Qed.

Lemma xor_drop k data mask :
  drop k (xor_apply data mask) = xor_apply (drop k data) (drop k mask).
Proof.
  rewrite !xor_apply_zip. revert k mask.
  induction data as [|x d IH]; intros [|k] [|m mask]; try done.
  - simpl. by destruct (drop k d).
  - simpl. apply IH.
Qed.

Lemma xor_length data mask : length data = length mask -> length (xor_apply data mask) = length data.
Proof.
  rewrite xor_apply_zip. revert mask. induction data as [|x d IH]; intros [|m mask] Hl; try done.
  simpl in *. f_equal. apply IH. lia.
Qed.

Lemma lxor_fixed x y : Z.lxor x y = x <-> y = 0.
Proof.
  split; [|intros ->; apply Z.lxor_0_r]. intros E.
  assert (Hy : Z.lxor x (Z.lxor x y) = y) by (rewrite <- Z.lxor_assoc, Z.lxor_nilpotent; apply Z.lxor_0_l).
  rewrite E, Z.lxor_nilpotent in Hy. done.
Qed.

Lemma xor_self_zero a m : length a = length m -> (xor_apply a m = a <-> zeros m).
Proof.
  rewrite xor_apply_zip. unfold zeros. revert m.
  induction a as [|x a IH]; intros [|y m] Hl; try done.
  simpl in Hl. specialize (IH m ltac:(lia)). cbn [zip_with]. rewrite Forall_cons, <- IH, <- (lxor_fixed x y).
  split; [by intros [= ??]|]. intros [??]. by f_equal.
Qed.

(** A lookup does not find what is stored.  The server answers with the bin
    as it is; the client then xors its random mask onto it, so the slot of a
    contact reads as the contact's hash only if the 32 bytes of the mask over
    that slot all happen to be zero. *)
Theorem blinded_lookup (reg : PirRegistry) (q : PirQueryToken) (bin : bytes)
    (es : list PirContactEntry) (i : nat) (e : PirContactEntry) (rn rp : bytes) :
  reg !! bin_index q = Some bin -> bin_holds bin es -> es !! i = Some e ->
  length (xor_mask q) = PIR_BIN_SIZE ->
  exists r slot, handle_query rn rp q reg = Some r /\
    chunks PIR_ENTRY_SIZE (xor_apply (bin_data r) (xor_mask q)) !! i = Some slot /\
    (take 32 slot = fingerprint_hash e <->
     zeros (take 32 (drop (i * PIR_ENTRY_SIZE) (xor_mask q)))).
Proof.
  intros Hr Hb Hi Hm. pose proof (bin_slots _ _ Hb) as Hs.
  pose proof (bin_length _ _ Hb) as Hlen.
  unfold handle_query, get_bin. rewrite Hr. simpl.
  assert (Hin : (i * PIR_ENTRY_SIZE < length bin)%nat).
  { assert (Hc : is_Some (chunks PIR_ENTRY_SIZE bin !! i)).
    { rewrite Hs, lookup_app_l, list_lookup_fmap, Hi; [by eexists|].
      rewrite length_fmap. by eapply lookup_lt_Some. }
    destruct (decide (i * PIR_ENTRY_SIZE < length bin)%nat) as [|Hge]; [done|].
    rewrite chunks_lookup_None in Hc by (apply ENTRY_SIZE_pos || lia). by destruct Hc. }
  assert (Hslot : take PIR_ENTRY_SIZE (drop (i * PIR_ENTRY_SIZE) bin) = to_bytes e).
  { assert (E : chunks PIR_ENTRY_SIZE bin !! i = Some (to_bytes e)).
    { rewrite Hs, lookup_app_l, list_lookup_fmap, Hi; [done|]. rewrite length_fmap. by eapply lookup_lt_Some. }
    rewrite chunks_lookup in E by (done || apply ENTRY_SIZE_pos). by injection E. }
  destruct Hb as (_ & Hes & _).
  assert (He : entry_ok e) by (rewrite Forall_forall in Hes; apply Hes; by eapply list_elem_of_lookup_2).
  destruct He as (Hel & Heh & _).
  assert (Hxl : length (xor_apply bin (xor_mask q)) = PIR_BIN_SIZE).
  { rewrite xor_length; congruence. }
  eexists _, _. split; [done|]. split; [rewrite chunks_lookup; [done|apply ENTRY_SIZE_pos|simpl; lia]|].
  cbn [bin_data]. rewrite xor_drop, !xor_take, !take_take.
  change (32 `min` PIR_ENTRY_SIZE)%nat with 32%nat.
  assert (Hfp : take 32 (drop (i * PIR_ENTRY_SIZE) bin) = fingerprint_hash e).
  { rewrite <- Heh. change (metadata e) with (to_bytes e). rewrite <- Hslot, take_take. done. }
  rewrite Hfp. apply xor_self_zero. rewrite <- Hfp, !length_take, !length_drop. lia.
Qed.

Theorem registry_refines_lists_witness :
  let e := entry_new (replicate 32 9) [1; 2] in
  let (reg', r) := add_entry 4 e ∅ in
  r = Ok tt /\ exists bin, reg' !! 4 = Some bin /\ bin_holds bin [e].
Proof.
  intros e.
  pose proof (registry_refines_lists ∅ 4 [] e (replicate 32 9) [] [] new_bin_holds) as Hr.
  assert (He : entry_ok e) by (split; [reflexivity|split; reflexivity]).
  specialize (Hr He eq_refl). destruct (add_entry 4 e ∅) as [reg' r]. exact (proj1 (proj2 Hr)).
Defined.

Theorem blinded_lookup_witness :
  let e := entry_new (replicate 32 9) [] in
  let bin := to_bytes e ++ replicate (PIR_BIN_SIZE - PIR_ENTRY_SIZE) 0 in
  let q := mkQuery 4 (replicate PIR_BIN_SIZE 77) [] in
  exists r slot, handle_query [] [] q (<[4 := bin]> ∅) = Some r /\
    chunks PIR_ENTRY_SIZE (xor_apply (bin_data r) (xor_mask q)) !! 0%nat = Some slot /\
    take 32 slot <> fingerprint_hash e.
Proof.
  intros e bin q.
  destruct (blinded_lookup (<[4 := bin]> ∅) q bin [e] 0 e [] []) as (r & slot & Hq & Hs & Hz).
  - reflexivity.
  - split; [apply Nat.leb_le; reflexivity|]. split; [|vm_compute; reflexivity].
    constructor; [|constructor]. split; [reflexivity|split; reflexivity].
  - reflexivity.
  - reflexivity.
  - exists r, slot. split; [exact Hq|]. split; [exact Hs|]. rewrite Hz. intros Hn.
    apply Forall_cons in Hn as [Hn _]. discriminate Hn.
Defined.
