(* ===== verification/Kyber.v ===== *)
(** * ML-KEM key pairs (src/crypto/src/kyber.rs)

    Persistence of key pairs, encrypted and not, their transport encoding and
    the table of variants.  The files are a map from paths to contents; whether
    a write succeeds is an argument, as are nonces and fresh keys. *)

From S2P Require Import Prelude Text Primitives Concrete Json Identity.

(** What a call ends with: [None] is a panic. *)
Abbreviation may_panic A := (option (result CryptoError A)).

(** Source: crypto/src/kyber.rs:305-313, MlKemVariant. *)
Inductive MlKemVariant : Type := MlKem768 | MlKem1024.

(** Source: crypto/src/kyber.rs:319-325, MlKemVariant::enc_key_size. *)
Definition enc_key_size (v : MlKemVariant) : Z := match v with MlKem768 => 1184 | MlKem1024 => 1568 end.
(** Source: crypto/src/kyber.rs:327-333, MlKemVariant::ciphertext_size. *)
Definition ciphertext_size (v : MlKemVariant) : Z := match v with MlKem768 => 1088 | MlKem1024 => 1568 end.
(** Source: crypto/src/kyber.rs:335-338, MlKemVariant::shared_secret_size. *)
Definition shared_secret_size (v : MlKemVariant) : Z := 32.
(** Source: crypto/src/kyber.rs:348-351, MlKemVariant::min_ciphertext_len. *)
Definition min_ciphertext_len (v : MlKemVariant) : Z := enc_key_size v + ciphertext_size v + 12 + 16.

Definition persist {A} (m : string) : result CryptoError A := Err (KeyPersistence m).

Section kyber.
Context `{Kem} `{Aead} `{Hkdf} `{Hex} `{Base64} `{Sha2} `{JsonCodec}.

(** Source: crypto/src/kyber.rs:78-85, MlKem1024Keypair. *)
Record keypair : Type := mkKeypair { enc : enc_key; dec : dec_key }.

(** Source: crypto/src/kyber.rs:45-50, extract_braid_seed. *)
Definition extract_braid_seed (enc_key_bytes : bytes) : bytes := take 32 enc_key_bytes.

(** Source: crypto/src/kyber.rs:52-61, ek_hash. *)
Definition ek_hash (enc_key_bytes : bytes) : bytes := take 64 (sha512 enc_key_bytes).

(** Source: crypto/src/kyber.rs:63-67, encode_enc_key. *)
Definition encode_enc_key (k : enc_key) : string := b64_encode (ek_to_bytes k).

(** Source: crypto/src/kyber.rs:69-76, decode_enc_key. *)
Definition decode_enc_key (s : string) : result CryptoError enc_key :=
  let? raw := ok_or (b64_decode s) (KeyPersistence "base64 decode") in
  ok_or (ek_from_bytes raw) (KeyPersistence "invalid enc key bytes").

(** Source: crypto/src/kyber.rs:127-131, MlKem1024Keypair::save. *)
Definition file_key (encryption_key : bytes) : result CryptoError bytes :=
  ok_or (hkdf_expand encryption_key (str_bytes "nullnode-kyber-key-enc-v1") 32)
        (KeyPersistence "HKDF expand failed").

Abbreviation disk := (gmap string string).

(** [std::fs::write]. *)
Definition write_file (io : bool) (path contents : string) : st disk CryptoError unit :=
  do! st_guard io (KeyPersistence "write failed");
  st_modify (fun d => <[path := contents]> d).

(** Source: crypto/src/kyber.rs:113-157, MlKem1024Keypair::save. *)
Definition save (io : bool) (nonce : bytes) (path : string) (encryption_key : bytes) (kp : keypair)
  : st disk CryptoError unit :=
  do aes_key <- st_lift (file_key encryption_key);
  do ciphertext <- st_lift (ok_or (aes_encrypt aes_key nonce (dk_to_bytes (dec kp)))
                                  (KeyPersistence "AES-GCM encrypt"));
  write_file io path (json_print (str_object
    [("enc", hex_encode (ek_to_bytes (enc kp)));
     ("nonce", hex_encode nonce);
     ("dec_encrypted", hex_encode ciphertext)])).

(** [data["k"].as_str()]: a missing member reads as null. *)
Definition field (data : value) (k : string) : result CryptoError string :=
  ok_or (get data k ≫= as_str) (KeyPersistence ("missing " +:+ k +:+ " field")).

Definition unhex (what s : string) : result CryptoError bytes :=
  ok_or (hex_decode s) (KeyPersistence (what +:+ " hex decode")).

Definition read_json (d : disk) (path : string) : result CryptoError value :=
  let? content := ok_or (d !! path) (KeyPersistence "read failed") in
  ok_or (json_parse content) (KeyPersistence "parse failed").

(** Source: crypto/src/kyber.rs:201-212, MlKem1024Keypair::load. *)
Definition make_keypair (enc_bytes dec_bytes : bytes) : result CryptoError keypair :=
  let? e := ok_or (ek_from_bytes enc_bytes) (KeyPersistence "invalid enc key bytes") in
  if negb (zlen dec_bytes =? 64) then persist "invalid seed length"
  else Ok (mkKeypair e (dk_from_seed dec_bytes)).

(** The fields of the file, decoded. Source: crypto/src/kyber.rs:167-186, MlKem1024Keypair::load. *)
Definition load_fields (d : disk) (path : string) : result CryptoError (bytes * bytes * bytes) :=
  let? data := read_json d path in
  let? enc_hex := field data "enc" in
  let? nonce_hex := field data "nonce" in
  let? dec_hex := field data "dec_encrypted" in
  let? enc_bytes := unhex "enc" enc_hex in
  let? nonce_bytes := unhex "nonce" nonce_hex in
  let? dec_ciphertext := unhex "dec_encrypted" dec_hex in
  Ok (enc_bytes, nonce_bytes, dec_ciphertext).

(** [Nonce::from_slice] panics on a nonce that is not 12 bytes.
    Source: crypto/src/kyber.rs:159-213, MlKem1024Keypair::load. *)
Definition load (path : string) (encryption_key : bytes) (d : disk) : may_panic keypair :=
  match load_fields d path with
  | Err e => Some (Err e)
  | Ok (enc_bytes, nonce_bytes, dec_ciphertext) =>
      match file_key encryption_key with
      | Err e => Some (Err e)
      | Ok aes_key =>
          if negb (zlen nonce_bytes =? 12) then None
          else
            match aes_decrypt aes_key nonce_bytes dec_ciphertext with
            | None => Some (persist "AES-GCM decrypt")
            | Some dec_bytes => Some (make_keypair enc_bytes dec_bytes)
            end
      end
  end.

(** [fresh] is the key pair [generate] makes.
    Source: crypto/src/kyber.rs:215-223, MlKem1024Keypair::load_or_generate. *)
Definition load_or_generate (io : bool) (nonce : bytes) (fresh : keypair) (path : string)
    (encryption_key : bytes) (d : disk) : disk * may_panic keypair :=
  match d !! path with
  | Some _ => (d, load path encryption_key d)
  | None =>
      match save io nonce path encryption_key fresh d with
      | (d', Ok _) => (d', Some (Ok fresh))
      | (d', Err e) => (d', Some (Err e))
      end
  end.

(** Source: crypto/src/kyber.rs:238-253, MlKem1024Keypair::save_unencrypted. *)
Definition save_unencrypted (io : bool) (path : string) (kp : keypair) : st disk CryptoError unit :=
  write_file io path (json_print (str_object
    [("enc", hex_encode (ek_to_bytes (enc kp))); ("dec", hex_encode (dk_to_bytes (dec kp)))])).

(** Source: crypto/src/kyber.rs:255-283, MlKem1024Keypair::load_unencrypted. *)
Definition load_unencrypted (path : string) (d : disk) : result CryptoError keypair :=
  let? data := read_json d path in
  let? enc_hex := field data "enc" in
  let? dec_hex := field data "dec" in
  let? enc_bytes := unhex "enc" enc_hex in
  let? dec_bytes := unhex "dec" dec_hex in
  make_keypair enc_bytes dec_bytes.

(** Source: crypto/src/kyber.rs:225-236, MlKem1024Keypair::load_or_generate_unencrypted. *)
Definition load_or_generate_unencrypted (io : bool) (fresh : keypair) (path : string) (d : disk)
  : disk * result CryptoError keypair :=
  match d !! path with
  | Some _ => (d, load_unencrypted path d)
  | None =>
      match save_unencrypted io path fresh d with
      | (d', Ok _) => (d', Ok fresh)
      | (d', Err e) => (d', Err e)
      end
  end.

(** Source: crypto/src/kyber.rs:285-295, MlKem1024Keypair::from_seed. *)
Definition from_seed (seed : bytes) : result CryptoError keypair :=
  if negb (zlen seed =? 64) then Err (Serialization "invalid seed length")
  else let d := dk_from_seed seed in Ok (mkKeypair (ek_of d) d).

(** [fresh] is what the generator makes. Source: crypto/src/kyber.rs:88-92, MlKem1024Keypair::generate. *)
Definition generate (fresh : keypair) : result CryptoError keypair := Ok fresh.

(** Source: crypto/src/kyber.rs:94-101, MlKem1024Keypair::encapsulate. *)
Definition encapsulate_to (coins : bytes) (k : enc_key) : result CryptoError (bytes * bytes) :=
  Ok (encapsulate k coins).

(** Source: crypto/src/kyber.rs:103-111, MlKem1024Keypair::decapsulate. *)
Definition decapsulate_with (ciphertext : bytes) (kp : keypair) : result CryptoError bytes :=
  Ok (decapsulate (dec kp) ciphertext).

(** Source: crypto/src/kyber.rs:354-367, VariantKeypair. *)
Record VariantKeypair : Type := mkVariant {
  variant : MlKemVariant; enc_bytes : bytes; dec_bytes : bytes }.

(** [fresh768] is what the generator of ML-KEM-768 makes, in bytes.
    Source: crypto/src/kyber.rs:371-387, VariantKeypair::generate. *)
Definition generate_variant (fresh : keypair) (fresh768 : bytes * bytes) (v : MlKemVariant)
  : result CryptoError VariantKeypair :=
  match v with
  | MlKem1024 => let? kp := generate fresh in Ok (mkVariant v (ek_to_bytes (enc kp)) (dk_to_bytes (dec kp)))
  | MlKem768 => Ok (mkVariant v fresh768.1 fresh768.2)
  end.

(** Source: crypto/src/kyber.rs:429-443, VariantKeypair::as_1024. *)
Definition as_1024 (v : VariantKeypair) : result CryptoError keypair :=
  match variant v with
  | MlKem768 => persist "keypair is not ML-KEM-1024"
  | MlKem1024 => make_keypair (enc_bytes v) (dec_bytes v)
  end.

(** ** What is written is read back *)

Lemma make_keypair_bytes kp : make_keypair (ek_to_bytes (enc kp)) (dk_to_bytes (dec kp)) = Ok kp.
Proof.
  unfold make_keypair. rewrite ek_from_to_bytes. simpl. unfold zlen.
  rewrite dk_to_bytes_length. simpl. rewrite dk_from_to_bytes. by destruct kp.
Qed.

Lemma field_of data m k v :
  (forall k, assoc k m = VString <$> assoc k data) -> assoc k data = Some v ->
  field (VObject m) k = Ok v.
Proof. intros Hm Hk. unfold field. simpl. by rewrite Hm, Hk. Qed.

Lemma read_written (d : disk) path m :
  NoDup m.*1 ->
  exists m', read_json (<[path := json_print (str_object m)]> d) path = Ok (VObject m') /\
    forall k, assoc k m' = VString <$> assoc k m.
Proof.
  intros Hnd. destruct (json_parse_print m Hnd) as (m' & Hp & Hm). exists m'. split; [|done].
  unfold read_json. rewrite lookup_insert_eq. simpl. by rewrite Hp.
Qed.

Lemma unhex_encode what b : bytes_ok b -> unhex what (hex_encode b) = Ok b.
Proof. intros Hb. unfold unhex. by rewrite hex_decode_encode. Qed.

(** The file of a save that succeeds. *)
Definition saved_text (nonce ct : bytes) (kp : keypair) : string :=
  json_print (str_object
    [("enc", hex_encode (ek_to_bytes (enc kp))); ("nonce", hex_encode nonce);
     ("dec_encrypted", hex_encode ct)]).

(** Saving writes the one file. *)
Lemma save_other io nonce path key kp d p : p <> path -> (save io nonce path key kp d).1 !! p = d !! p.
Proof.
  intros Hp. unfold save, write_file, st_bind, st_lift, st_guard, st_modify, st_ret, st_fail.
  destruct (file_key key); [|done]. destruct (ok_or _ _); [|done]. destruct io; [|done].
  cbn. by rewrite lookup_insert_ne.
Qed.

Lemma save_load nonce key path kp d ct aes_key :
  bytes_ok nonce -> length nonce = 12%nat -> file_key key = Ok aes_key ->
  aes_encrypt aes_key nonce (dk_to_bytes (dec kp)) = Some ct ->
  save true nonce path key kp d = (<[path := saved_text nonce ct kp]> d, Ok tt) /\
  load path key (<[path := saved_text nonce ct kp]> d) = Some (Ok kp).
Proof.
  intros Hno Hnl Hk He. split.
  - unfold save, write_file, st_bind, st_lift, st_guard, st_modify, st_ret. by rewrite Hk, He.
  - unfold saved_text. set (m := [("enc", _); _; _]).
    destruct (read_written d path m) as (m' & Hr & Hm).
    { repeat constructor; set_solver. }
    unfold load, load_fields. rewrite Hr. simpl.
    rewrite !(field_of m m') with (v := _) by done. simpl.
    rewrite !unhex_encode; [|by eapply aes_encrypt_ok, He; apply dk_to_bytes_ok|done|apply ek_to_bytes_ok].
    simpl. rewrite Hk. unfold zlen. rewrite Hnl. simpl.
    rewrite (aes_decrypt_encrypt _ _ _ _ He). by rewrite make_keypair_bytes.
Qed.

Lemma save_load_unencrypted path kp d :
  let (d', r) := save_unencrypted true path kp d in r = Ok tt /\ load_unencrypted path d' = Ok kp.
Proof.
  unfold save_unencrypted, write_file, st_bind, st_guard, st_modify, st_ret.
  split; [done|]. unfold load_unencrypted.
  destruct (read_written d path [("enc", hex_encode (ek_to_bytes (enc kp)));
    ("dec", hex_encode (dk_to_bytes (dec kp)))]) as (m' & Hr & Hm).
  { repeat constructor; set_solver. }
  rewrite Hr. cbn [rbind]. erewrite !field_of by (done || reflexivity). cbn [rbind].
  rewrite !unhex_encode by (apply ek_to_bytes_ok || apply dk_to_bytes_ok). simpl.
  apply make_keypair_bytes.
Qed.

(** What is encapsulated to a key pair it opens, in the sizes of the table. *)
Lemma encapsulated_opens coins kp ct ss :
  enc kp = ek_of (dec kp) -> encapsulate_to coins (enc kp) = Ok (ct, ss) ->
  decapsulate_with ct kp = Ok ss /\ zlen ct = ciphertext_size MlKem1024 /\ zlen ss = shared_secret_size MlKem1024.
Proof.
  unfold encapsulate_to, decapsulate_with. intros -> E. injection E as E.
  destruct (encapsulate_length _ _ _ _ E) as [Hc Hs]. rewrite (decapsulate_encapsulate _ _ _ _ E).
  unfold zlen. by rewrite Hc, Hs.
Qed.

(** A pair of the larger variant is the pair it was made of; one of the smaller
    is no such pair. *)
Lemma variant_kept fresh fresh768 v vk :
  generate_variant fresh fresh768 v = Ok vk ->
  as_1024 vk = match v with MlKem1024 => Ok fresh | MlKem768 => persist "keypair is not ML-KEM-1024" end.
Proof. destruct v; intros [= <-]; [done|]. unfold as_1024. cbn [variant enc_bytes dec_bytes]. apply make_keypair_bytes. Qed.

(** A key pair survives on disk.  After a save that succeeds, loading with
    the same encryption key gives the pair back, encrypted and unencrypted
    alike, and every other file is untouched; a save whose write fails changes
    nothing; loading after [load_or_generate] made a key gives that key; and
    the public key survives its transport encoding. *)
Theorem kyber_persistence (nonce key : bytes) (path : string) (kp : keypair) (d : disk)
    (ct aes_key : bytes) :
  bytes_ok nonce -> length nonce = 12%nat -> file_key key = Ok aes_key ->
  aes_encrypt aes_key nonce (dk_to_bytes (dec kp)) = Some ct ->
  (let (d', r) := save true nonce path key kp d in
   r = Ok tt /\ load path key d' = Some (Ok kp) /\
   (forall p, p <> path -> d' !! p = d !! p)) /\
  (let (d', r) := save_unencrypted true path kp d in
   r = Ok tt /\ load_unencrypted path d' = Ok kp) /\
  (save false nonce path key kp d = (d, Err (KeyPersistence "write failed"))) /\
  (d !! path = None ->
   let (d', r) := load_or_generate true nonce kp path key d in
   r = Some (Ok kp) /\ load path key d' = Some (Ok kp)) /\
  decode_enc_key (encode_enc_key (enc kp)) = Ok (enc kp).
Proof.
  intros Hno Hnl Hk He.
  destruct (save_load nonce key path kp d ct aes_key Hno Hnl Hk He) as [Hs Hl].
  split_and!.
  - rewrite Hs. split_and!; [done|done|]. intros p Hp. by rewrite lookup_insert_ne.
  - apply save_load_unencrypted.
  - unfold save, write_file, st_bind, st_lift, st_guard, st_modify, st_ret, st_fail. by rewrite Hk, He.
  - intros Hn. unfold load_or_generate. rewrite Hn, Hs. done.
  - unfold decode_enc_key, encode_enc_key. rewrite b64_decode_encode by apply ek_to_bytes_ok.
    simpl. by rewrite ek_from_to_bytes.
Qed.

(** A file whose nonce has another length stops the program. *)
Lemma load_bad_nonce_panics path key d e n c k :
  load_fields d path = Ok (e, n, c) -> file_key key = Ok k -> zlen n <> 12 ->
  load path key d = None.
Proof.
  intros Hf Hk Hn. unfold load. rewrite Hf, Hk. destruct (Z.eqb_spec (zlen n) 12); [done|done].
Qed.
End kyber.

Theorem kyber_persistence_witness :
  let _ := toy_kem in let _ := toy_aead in let _ := toy_hkdf in let _ := toy_hex in
  let _ := toy_base64 in let _ := toy_json in
  let kp := mkKeypair Byte.x05 Byte.x05 in
  let (d', r) := save true (replicate 12 1) "k.json" (replicate 32 2) kp ∅ in
  r = Ok tt /\ load "k.json" (replicate 32 2) d' = Some (Ok kp) /\
  (forall p, p <> "k.json" -> d' !! p = (∅ : gmap string string) !! p).
Proof.
  intros K A F X B J kp.
  destruct (file_key (replicate 32 2)) as [ak|e] eqn:Ek; [|exfalso; revert Ek; vm_compute; discriminate].
  destruct (aes_encrypt ak (replicate 12 1) (dk_to_bytes (dec kp))) as [ct|] eqn:Ec; [|discriminate Ec].
  destruct (@kyber_persistence K A F X B J (replicate 12 1) (replicate 32 2) "k.json" kp ∅ ct ak)
    as [Hs _].
  - repeat constructor; discriminate.
  - reflexivity.
  - exact Ek.
  - exact Ec.
  - exact Hs.
Defined.
