(* ===== verification/DhtStart.v ===== *)
(** * The start of a DHT node and the bootstrap program

    [DhtStore::open], [DhtNodeRuntime::new] and [start] (src/dht-core/src/) and
    the program that runs a node (src/bootstrap/src/main.rs): its identity, its
    database, its life from one connection to the next.  SQLite, TLS and the
    listening socket are arguments. *)

From S2P Require Import Prelude Text Files Primitives Concrete Constants Json Gpg RateLimit DhtStore.
From S2P Require Import Envelope Pow Identity CertCache DhtNode.
From S2P Require Kyber.

(** [SqlitePool::connect] on the databases of the host.  A URL without options
    opens a file that exists and makes none ([create_if_missing] is off unless
    [mode=rwc] is asked for). *)
Definition plain_path (p : string) : bool :=
  negb (String.eqb p ":memory:") &&
  str_all (fun a => negb (Ascii.eqb a "?"%char) && negb (Ascii.eqb a "%"%char)) p.

Class Sqlite := {
  sqlite_connect : string -> gmap string DhtStore -> option DhtStore;
  sqlite_existing path t dbs :
    plain_path path = true -> dbs !! path = Some t -> sqlite_connect ("sqlite://" +:+ path) dbs = Some t;
  sqlite_missing path dbs :
    plain_path path = true -> dbs !! path = None -> sqlite_connect ("sqlite://" +:+ path) dbs = None;
}.

(** The fingerprints of the public-key packets of an armored file, secret keys
    apart; [None]: not OpenPGP. *)
Class PublicKeys := { public_keys : string -> option (list string) }.

(** ** Configuration and data of a node (types.rs) *)

(** Source: dht-core/src/types.rs:13-29, NodeConfig. *)
Record NodeConfig : Type := mkNodeConfig {
  c_null_id : string;
  c_host : string;
  c_port : Z;              (* u16 *)
  c_fingerprint : string;
  c_ssl_certfile : string;
  c_ssl_keyfile : string;
  c_stealth_mode : bool;
  c_db_path : option string;
  c_advertised_url : option string;
}.

(** Source: dht-core/src/types.rs:32-44, NodeConfig::default. *)
Definition default_config : NodeConfig := mkNodeConfig "" "0.0.0.0" 0 "" "" "" false None None.

(** The routing table is never filled. Source: dht-core/src/types.rs:56-67, DhtNode. *)
Record DhtNode : Type := mkDhtNode {
  n_null_id : string;
  n_fingerprint : string;
  n_node_id : Z;           (* u128 *)
  n_host : string;
  n_port : Z;
  n_address : string;
}.

(** Source: dht-core/src/dht_node.rs:67-79, DhtNodeRuntime. *)
Record DhtNodeRuntime : Type := mkRuntime {
  r_node : DhtNode;
  r_config : NodeConfig;
  r_stealth : bool;
  r_state : Node;
}.

Section start.
Context `{Sha2} `{Sqlite}.

Abbreviation databases := (gmap string DhtStore).

(** ** DhtStore::open *)

Definition store_path (home : option string) (db_path : option string) : string :=
  match db_path with
  | Some p => p
  | None => path_join (path_join (opt_or home ".") ".nullnode") "dht_store.db"
  end.

(** The tables are made when they are missing and kept when they are not:
    whether the statements succeed. Source: dht-core/src/sqlite_store.rs:82-141, DhtStore::init_tables. *)
Definition init_tables (ok : bool) (s : DhtStore) : result DhtError DhtStore :=
  if ok then Ok s else Err (Database "create table").

(** Source: dht-core/src/sqlite_store.rs:41-68, DhtStore::open. *)
Definition open_store (home : option string) (dir_ok tables_ok : bool) (db_path : option string)
    (dbs : databases) : result DhtError DhtStore :=
  let path := store_path home db_path in
  if negb dir_ok then Err (Io "create_dir_all")
  else
    let? pool := ok_or (sqlite_connect ("sqlite://" +:+ path) dbs) (Database "connect") in
    init_tables tables_ok pool.

(** Source: dht-core/src/sqlite_store.rs:70-80, DhtStore::open_in_memory. *)
Definition open_in_memory (tables_ok : bool) : result DhtError DhtStore := init_tables tables_ok empty_store.

(** ** DhtNodeRuntime *)

(** The advertised address. *)
Definition address_of (c : NodeConfig) : string :=
  match c_advertised_url c with Some u => u | None => c_host c +:+ ":" +:+ pretty (c_port c) end.

(** Stealth is off, whatever the configuration says.
    Source: dht-core/src/dht_node.rs:82-120, DhtNodeRuntime::new. *)
Definition new_runtime (home : option string) (dir_ok tables_ok : bool) (c : NodeConfig) (dbs : databases)
  : result DhtError DhtNodeRuntime :=
  let? store := open_store home dir_ok tables_ok (c_db_path c) dbs in
  Ok (mkRuntime
        (mkDhtNode (c_null_id c) (c_fingerprint c) (node_id_from_nid (c_null_id c)) (c_host c) (c_port c)
           (address_of c))
        c false (new_node store)).

(** TLS takes both files; when they do not load the node serves without.
    Source: dht-core/src/dht_node.rs:126-149, DhtNodeRuntime::start. *)
Definition tls_of (load_dht_tls_acceptor : string -> string -> result string unit) (c : NodeConfig) : bool :=
  if negb (str_is_empty (c_ssl_certfile c)) && negb (str_is_empty (c_ssl_keyfile c))
  then is_ok (load_dht_tls_acceptor (c_ssl_certfile c) (c_ssl_keyfile c)) else false.

(** Source: dht-core/src/dht_node.rs:139-147, DhtNodeRuntime::start. *)
Definition plaintext_warning (c : NodeConfig) : bool :=
  (str_is_empty (c_ssl_certfile c) || str_is_empty (c_ssl_keyfile c)) &&
  negb (String.eqb (c_host c) "127.0.0.1" || String.eqb (c_host c) "0.0.0.0" ||
        match c_advertised_url c with Some _ => true | None => false end).

(** What happens to a node that runs: a connection, the task that prunes. *)
Inductive node_event : Type :=
| Connection (now : f64) (peer_ip : string) (fs : list (context * frame))
| PruneTick.
End start.

Section run.
Context `{Sequoia} `{Base64} `{Blake2} `{Argon2} `{HashOrder (list f64)} `{WireCodec}.

(** One after the other. Source: dht-core/src/dht_node.rs:149-220, DhtNodeRuntime::start. *)
Definition node_step (r : DhtNodeRuntime) (e : node_event) : DhtNodeRuntime :=
  mkRuntime (r_node r) (r_config r) (r_stealth r)
    (match e with
     | Connection now ip fs => (accept (n_fingerprint (r_node r)) (r_stealth r) now ip fs (r_state r)).1
     | PruneTick => prune_nonces (r_state r)
     end).

Definition run_node (es : list node_event) (r : DhtNodeRuntime) : DhtNodeRuntime := foldl node_step r es.
End run.

(** ** The bootstrap program *)

Section bootstrap.
Context `{Sha2} `{Blake2} `{Base64} `{Hex} `{Kem} `{Aead} `{Hkdf} `{JsonCodec} `{Sqlite} `{PublicKeys}.

(** Source: bootstrap/src/main.rs:7-45, Args. *)
Record Args : Type := mkArgs {
  a_host : string;
  a_port : Z;
  a_id : option string;
  a_db : option string;
  a_advertised_url : option string;
  a_allow_no_key : bool;
  a_tls_cert : option string;
  a_tls_key : option string;
}.

(** Source: bootstrap/src/main.rs:153-179, get_gpg_fingerprint. *)
Definition get_gpg_fingerprint (gpg_home : string) (d : disk) : option string :=
  armored ← d !! path_join gpg_home "own_cert.asc";
  keys ← public_keys armored;
  fp ← head keys;
  Some (to_uppercase fp).

(** Source: bootstrap/src/main.rs:129-151, load_or_generate_kyber_id. *)
Definition load_or_generate_kyber_id (io : bool) (fresh : Kyber.keypair) (home : option string) (d : disk)
  : disk * option string :=
  match home with
  | None => (d, None)
  | Some h =>
      match Kyber.load_or_generate_unencrypted io fresh
              (path_join (path_join h ".nullnode") "kyber_keypair.json") d with
      | (d', Ok kp) => (d', Some (compute_null_id (hex_encode (ek_to_bytes (Kyber.enc kp)))))
      | (d', Err _) => (d', None)
      end
  end.

(** What the surroundings decide: the write of a new key pair, the key pair,
    eight random bytes. *)
Record luck : Type := mkLuck { l_io : bool; l_fresh : Kyber.keypair; l_random : bytes }.

(** [None]: the program ends. Source: bootstrap/src/main.rs:56-96, main. *)
Definition choose_id (k : luck) (home : option string) (a : Args) (d : disk) : disk * option string :=
  match a_id a with
  | Some id => (d, Some id)
  | None =>
      let gpg_home := match home with Some h => path_join h ".nullnode/gnupg" | None => "~/.nullnode/gnupg" end in
      match get_gpg_fingerprint gpg_home d with
      | Some fp => (d, Some (compute_null_id fp))
      | None =>
          if a_allow_no_key a then (d, Some (compute_null_id (hex_encode (l_random k))))
          else load_or_generate_kyber_id (l_io k) (l_fresh k) home d
      end
  end.

(** The node has no fingerprint. Source: bootstrap/src/main.rs:98-114, main. *)
Definition config_of (home : option string) (a : Args) (null_id : string) : NodeConfig :=
  mkNodeConfig null_id (a_host a) (a_port a) "" (opt_or (a_tls_cert a) "") (opt_or (a_tls_key a) "") false
    (Some (match a_db a with
           | Some p => p
           | None => match home with
                     | Some h => path_join h ".nullnode/bootstrap_dht.db"
                     | None => "bootstrap_dht.db"
                     end
           end))
    (a_advertised_url a).

(** Up to the loop that accepts: the node and whether it speaks TLS.
    Source: bootstrap/src/main.rs:47-127, main. *)
Definition bootstrap_main (k : luck) (home : option string) (dir_ok tables_ok : bool)
    (load_tls : string -> string -> result string unit) (bind : string -> bool) (a : Args)
    (d : disk) (dbs : gmap string DhtStore) : disk * result DhtError (DhtNodeRuntime * bool) :=
  match choose_id k home a d with
  | (d', None) => (d', Err (Io "exit 1"))
  | (d', Some null_id) =>
      let c := config_of home a null_id in
      (d', let? r := new_runtime home dir_ok tables_ok c dbs in
           let tls := tls_of load_tls c in
           if bind (c_host c +:+ ":" +:+ pretty (c_port c)) then Ok (r, tls) else Err (Io "bind"))
  end.
End bootstrap.

(** ** The first start, and the next *)

Section start_props.
Context `{Sha2} `{Blake2} `{Base64} `{Hex} `{Kem} `{Aead} `{Hkdf} `{JsonCodec} `{Sqlite} `{PublicKeys}.

Definition db_path_of (home : option string) (a : Args) : string :=
  opt_or (c_db_path (config_of home a "")) "".

(** The bootstrap server cannot make its own database.  It starts exactly
    when it has an identity, the statements and the socket succeed, and the
    file of its database exists already; then it serves what the file holds,
    under no fingerprint and without stealth, and in the clear when TLS was
    asked for and cannot be loaded.  A host where it runs for the first time
    has no such file: it ends with an error, however often it is run. *)
Theorem bootstrap_starts_iff (k : luck) (home : option string) (dir_ok tables_ok : bool)
    (load_tls : string -> string -> result string unit) (bind : string -> bool) (a : Args)
    (d : disk) (dbs : gmap string DhtStore) :
  plain_path (db_path_of home a) = true ->
  let r := (bootstrap_main k home dir_ok tables_ok load_tls bind a d dbs).2 in
  (is_ok r = true <->
   is_Some (choose_id k home a d).2 /\ dir_ok = true /\ tables_ok = true /\
   bind (a_host a +:+ ":" +:+ pretty (a_port a)) = true /\ is_Some (dbs !! db_path_of home a)) /\
  (forall node tls, r = Ok (node, tls) ->
     Some (store (r_state node)) = dbs !! db_path_of home a /\
     n_fingerprint (r_node node) = "" /\ r_stealth node = false /\
     tls = tls_of load_tls (r_config node)).
Proof.
  intros Hp. unfold bootstrap_main. destruct (choose_id k home a d) as [d' [id|]]; cbn [snd].
  2: { split; [|done]. split; [done|]. intros [[? ?] _]. done. }
  unfold new_runtime, open_store, init_tables.
  change (store_path home (c_db_path (config_of home a id))) with (db_path_of home a).
  destruct dir_ok; cbn [negb rbind]; [|split; [naive_solver|done]].
  destruct (dbs !! db_path_of home a) as [t|] eqn:E.
  - rewrite (sqlite_existing _ t dbs Hp E). cbn [ok_or rbind].
    destruct tables_ok; cbn [rbind]; [|split; [naive_solver|done]].
    change (c_host (config_of home a id)) with (a_host a).
    change (c_port (config_of home a id)) with (a_port a).
    destruct (bind _); (split; [naive_solver eauto|]); [|done]. by intros node tls [= <- <-].
  - rewrite (sqlite_missing _ dbs Hp E). cbn [ok_or rbind]. split; [|done]. split; [done|].
    intros (_ & _ & _ & _ & [? ?]). done.
Qed.

(** A bootstrap server keeps its name.  Started again on the files its
    first start left, with other random bytes, it has the same Null ID,
    unless it has neither a name given, nor a public key on file, and was told
    to do without; a first start that could not write its key pair has none. *)
Theorem bootstrap_name_stable (k k' : luck) (home : option string) (a : Args) (d d1 : disk) (id : string) :
  choose_id k home a d = (d1, Some id) ->
  (a_id a = None -> a_allow_no_key a = true ->
   is_Some (get_gpg_fingerprint (match home with Some h => path_join h ".nullnode/gnupg"
                                 | None => "~/.nullnode/gnupg" end) d)) ->
  choose_id k' home a d1 = (d1, Some id).
Proof.
  unfold choose_id. destruct (a_id a) as [i|]; [by intros [= <- <-]|]. cbv zeta.
  set (g := match home with Some h => _ | None => _ end).
  destruct (get_gpg_fingerprint g d) as [fp|] eqn:Eg; [intros [= <- <-] _; by rewrite Eg|].
  destruct (a_allow_no_key a); [intros _ Hk; by destruct (Hk eq_refl eq_refl)|]. intros E _.
  unfold load_or_generate_kyber_id in *. destruct home as [h|]; [|done].
  set (path := path_join (path_join h ".nullnode") "kyber_keypair.json") in *.
  unfold Kyber.load_or_generate_unencrypted in *. destruct (d !! path) as [t|] eqn:Ep.
  - destruct (Kyber.load_unencrypted path d) as [kp|e] eqn:El; [|done].
    injection E as <- <-. by rewrite Eg, Ep, El.
  - destruct (l_io k); [|done].
    pose proof (Kyber.save_load_unencrypted path (l_fresh k) d) as Hs.
    destruct (Kyber.save_unencrypted true path (l_fresh k) d) as [d2 [[]|e]] eqn:Ew; [|done].
    injection E as <- <-. destruct Hs as [_ Hl].
    assert (Hd : d2 !! path <> None /\ get_gpg_fingerprint g d2 = get_gpg_fingerprint g d).
    { unfold Kyber.save_unencrypted, Kyber.write_file, st_bind, st_guard, st_modify, st_ret in Ew.
      injection Ew as <-. split; [by rewrite lookup_insert_eq|].
      unfold get_gpg_fingerprint. rewrite lookup_insert_ne; [done|]. by apply path_join_ne. }
    destruct Hd as [Hd ->]. rewrite Eg. destruct (d2 !! path) eqn:E2; [|done]. by rewrite Hl.
Qed.
End start_props.

Section restart.
Context `{Sequoia} `{Base64} `{Blake2} `{Argon2} `{HashOrder (list f64)} `{WireCodec} `{Sha2} `{Sqlite}.

Lemma run_backed es r : nonces_backed (r_state r) -> nonces_backed (r_state (run_node es r)).
Proof.
  unfold run_node. revert r. induction es as [|e es IH]; intros r Hr; [done|]. cbn [foldl]. apply IH.
  destruct e as [now ip fs|]; cbn [node_step r_state]; [|by apply prune_backed].
  unfold accept. destruct (allow _ _ _) as [l [|]]; cbn [negb fst]; [|exact Hr].
  apply conn_backed. exact Hr.
Qed.

(** C24: a node forgets nothing that matters when it restarts.  After whatever
    connections and prunings, the node that opens the same database gives every
    request for a record the same answer, and a put whose nonce the first node
    remembered is still not stored. *)
Theorem restart_keeps_records (home : option string) (c : NodeConfig) (dbs : gmap string DhtStore)
    (r0 r r' : DhtNodeRuntime) (es : list node_event) (x : context) (e : WireEnvelope) :
  let path := store_path home (c_db_path c) in
  plain_path path = true ->
  new_runtime home true true c dbs = Ok r0 -> r = run_node es r0 ->
  new_runtime home true true c (<[path := store (r_state r)]> dbs) = Ok r' ->
  handle_get (r_stealth r') x e (r_state r') = handle_get (r_stealth r) x e (r_state r) /\
  (nonce_replayed (str_of e "key") (int_of e "nonce" 0) (r_state r) = true ->
   store (handle_put (n_fingerprint (r_node r')) x e (r_state r')).1 = store (r_state r)).
Proof.
  intros path Hp Hnew -> H'. set (r := run_node es r0) in *.
  assert (Hst : r_stealth r = false).
  { unfold r. assert (Hf : forall es q, r_stealth (run_node es q) = r_stealth q).
    { unfold run_node. induction es0 as [|v vs IH]; intros q; [done|]. cbn [foldl]. by rewrite IH. }
    rewrite Hf. unfold new_runtime in Hnew. destruct (open_store _ _ _ _ _); [|done]. by injection Hnew as <-. }
  assert (Hb : nonces_backed (r_state r)).
  { apply run_backed. unfold new_runtime in Hnew. destruct (open_store _ _ _ _ _); [|done].
    injection Hnew as <-. apply new_node_backed. }
  assert (E : r_stealth r' = false /\ store (r_state r') = store (r_state r)).
  { unfold new_runtime, open_store in H'. cbn [negb] in H'. fold path in H'.
    rewrite (sqlite_existing path (store (r_state r))) in H' by (done || apply lookup_insert_eq).
    by injection H' as <-. }
  destruct E as [Hst' Hs]. rewrite Hst, Hst'. split; [unfold handle_get; by rewrite Hs|].
  intros Hr. rewrite logged_not_stored; [exact Hs|]. rewrite Hs. by apply replayed_logged.
Qed.
End restart.

(** ** Concrete starts *)

#[local] Existing Instances toy_sha2 toy_blake2 toy_base64 toy_hex toy_kem toy_aead toy_hkdf toy_json.

#[local] Instance toy_sqlite : Sqlite.
Proof.
  refine {| sqlite_connect := fun url dbs => strip_prefix "sqlite://" url ≫= fun p => dbs !! p |}.
  - intros path t dbs _ Hd. rewrite strip_prefix_app. exact Hd.
  - intros path dbs _ Hd. rewrite strip_prefix_app. exact Hd.
Defined.

#[local] Instance toy_public_keys : PublicKeys :=
  {| public_keys := fun s => (fun k => [k]) <$> strip_prefix "CERT:" s |}.

Definition plain_args : Args := mkArgs "0.0.0.0" 9001 None None None false None None.

(** A fresh key pair and random bytes. *)
Definition some_luck (b : Byte.byte) : luck := mkLuck true (Kyber.mkKeypair b b) [1; 2].

Definition no_tls (cert key : string) : result string unit := Err "no".

Theorem bootstrap_starts_iff_witness :
  is_ok (bootstrap_main (some_luck Byte.x05) (Some "/root") true true no_tls (fun _ => true) plain_args
           ∅ ∅).2 = false.
Proof.
  destruct (bootstrap_starts_iff (some_luck Byte.x05) (Some "/root") true true no_tls (fun _ => true) plain_args
              ∅ ∅ ltac:(vm_compute; reflexivity)) as [[Hs _] _].
  destruct (is_ok _); [|reflexivity]. destruct (Hs eq_refl) as (_ & _ & _ & _ & [t Ht]).
  vm_compute in Ht. discriminate Ht.
Defined.

Theorem bootstrap_name_stable_witness :
  let (d1, id) := choose_id (some_luck Byte.x05) (Some "/root") plain_args ∅ in
  id <> None /\ (choose_id (some_luck Byte.x06) (Some "/root") plain_args d1).2 = id.
Proof.
  destruct (choose_id (some_luck Byte.x05) (Some "/root") plain_args ∅) as [d1 [id|]] eqn:E;
    [|vm_compute in E; discriminate E].
  split; [discriminate|].
  rewrite (bootstrap_name_stable (some_luck Byte.x05) (some_luck Byte.x06) (Some "/root") plain_args ∅ d1 id E).
  - reflexivity.
  - discriminate.
Defined.

Section record_run.
#[local] Existing Instances toy_argon2 toy_sequoia.

(** A record, and a node that serves a connection and prunes. *)
Definition kept_store : DhtStore :=
  mkDhtStore {["NN-AAAA-BBBB" := mkKvRecord "dg==" "s" 1 "FP" (f64_of_Z 0) (f64_of_Z 86400) "sig"]} ∅.

Definition kept_config : NodeConfig := mkNodeConfig "NN-X" "0.0.0.0" 9001 "" "" "" true (Some "/db") None.

Definition kept_request : WireEnvelope :=
  mkWireEnvelope "dht-get" (VObject [("key", VString "NN-AAAA-BBBB")]) "m" (f64_of_Z 100) "".

#[local] Instance mute_wire : WireCodec := {| to_json := msg_type; from_json := fun _ => Err "unread" |}.

#[local] Instance record_order : HashOrder (list f64) := list_order _.

Theorem restart_keeps_records_witness :
  exists r0 r', new_runtime None true true kept_config {["/db" := kept_store]} = Ok r0 /\
    let r := run_node [Connection (f64_of_Z 1) "10.0.0.1" [(calm 1, FText "junk")]; PruneTick] r0 in
    new_runtime None true true kept_config (<["/db" := store (r_state r)]> {["/db" := kept_store]}) = Ok r' /\
    msg_type (handle_get (r_stealth r') (calm 100) kept_request (r_state r')) = "dht-found".
Proof.
  destruct (new_runtime None true true kept_config {["/db" := kept_store]}) as [r0|er] eqn:E0;
    [|vm_compute in E0; discriminate E0].
  set (r := run_node [Connection (f64_of_Z 1) "10.0.0.1" [(calm 1, FText "junk")]; PruneTick] r0).
  destruct (new_runtime None true true kept_config (<["/db" := store (r_state r)]> {["/db" := kept_store]}))
    as [r'|er] eqn:E1; [|cbn in E1; rewrite ?lookup_insert_eq in E1; discriminate E1].
  exists r0, r'. split; [reflexivity|]. fold r. split; [exact E1|].
  rewrite (proj1 (restart_keeps_records None kept_config {["/db" := kept_store]} r0 r r'
    [Connection (f64_of_Z 1) "10.0.0.1" [(calm 1, FText "junk")]; PruneTick] (calm 100) kept_request
    eq_refl E0 eq_refl E1)).
  unfold r. clear - E0. injection E0 as <-. vm_compute. reflexivity.
Defined.
End record_run.
