(* ===== verification/DhtThreads.v ===== *)
(** * The DHT node, section by section (src/dht-core/src/dht_node.rs)

    The connections of a node run side by side over one database, one set of
    nonces, the limiters and the cache of certificates.  Here the handlers of
    [DhtNode] are cut into the statements they await, the locks they take and
    the replies they send.  The lock of the nonces is held while the replies to a
    put that is stored and to one whose nonce was seen are sent; every other lock
    guards one section.  A handler that runs alone is the one of [DhtNode] ([event_alone]). *)

From S2P Require Import Prelude Text Primitives Concrete Constants Json Gpg Threads.
From S2P Require Import RateLimit DhtStore Envelope Pow Identity CertCache DhtNode DhtStart.

(** The lock that is held while something is sent.
    Source: dht-core/src/dht_node.rs:77-77, DhtNodeRuntime. *)
Inductive lock : Type := SeenNonces.

#[global] Instance lock_eq_dec : EqDecision lock.
Proof. intros [] []. by left. Defined.

Section node.
Context `{Sequoia} `{Base64} `{Blake2} `{Argon2} `{HashOrder (list f64)} `{WireCodec}.
Variable node_fingerprint : string.
Variable stealth_mode : bool.

(** An error is a reply that ends the handler. *)
Abbreviation section A := (prog lock Node WireEnvelope A).

Abbreviation respond := Threads.answer.

(** A refusal is sent. *)
Definition refuse {A} (r : WireEnvelope) : section A := Send (fail r).
Definition require (c : bool) (r : WireEnvelope) : section unit := if c then ret tt else refuse r.

(** ** The store *)

(** A statement; its failure is handed on. *)
Definition on_store {A} (m : st DhtStore DhtError A) : section (result DhtError A) :=
  atom (fun n => (set_store n (m (store n)).1, Ok (m (store n)).2)).

(** Two statements. Source: dht-core/src/sqlite_store.rs:181-213, DhtStore::put. *)
Definition n_put_checks (x : context) (a : put_args) : section (result DhtError bool) :=
  if STORE_MAX_VALUE_SIZE <? slen (p_value a) then ret (Ok false)
  else
    let* seen := on_store (is_nonce_seen (x_io x) (p_key a) (p_nonce a)) in
    match seen with
    | Err e => ret (Err e)
    | Ok true => ret (Ok false)
    | Ok false =>
        let* existing := on_store (select_seq (x_io x) (p_key a)) in
        ret (match existing with
             | Err e => Err e
             | Ok o => Ok (negb (match o with Some e => p_seq a <=? e | None => false end))
             end)
    end.

(** Source: dht-core/src/sqlite_store.rs:169-251, DhtStore::put. *)
Definition n_store_put (x : context) (a : put_args) : section (result DhtError bool) :=
  let* ok := n_put_checks x a in
  match ok with
  | Ok true =>
      let* stored_ := on_store (put_transaction (x_io x) (x_store_now x) (x_clock x) a) in
      ret (match stored_ with Ok _ => Ok true | Err e => Err e end)
  | _ => ret ok
  end.

(** ** Signatures *)

Definition touch_cert (now : Z) (fingerprint : string) (c : cert_cache) : cert_cache :=
  match c with
  | None => None
  | Some m => match m !! to_uppercase fingerprint with
              | Some (armored, _) => Some (<[to_uppercase fingerprint := (armored, now)]> m)
              | None => Some m
              end
  end.

(** Looked up under one lock, refreshed under another, between which the
    entry may be evicted. Source: dht-core/src/crypto_helpers.rs:64-89, get_cached_cert. *)
Definition n_get_cached_cert (now : Z) (fingerprint : string) : section (option string) :=
  let* found := ask (fun n => m ← certs n; e ← m !! to_uppercase fingerprint; Some e.1) in
  match found with
  | None => ret None
  | Some armored =>
      let* _ := change_to (fun n => set_certs n (touch_cert now fingerprint (certs n))) in
      ret (Some armored)
  end.

(** Source: dht-core/src/crypto_helpers.rs:163-210, verify_signature. *)
Definition n_verify_signature (now : Z) (data b64_sig fingerprint : string) : section bool :=
  if negb (validate_fingerprint fingerprint) then ret false
  else
    match decode_sig b64_sig with
    | None => ret false
    | Some sig_armored =>
        let* found := n_get_cached_cert now fingerprint in
        ret (match found with
             | None => false
             | Some cert_armored =>
                 match cert_from_bytes cert_armored with
                 | Err _ => false
                 | Ok crt =>
                     if negb (eq_ignore_ascii_case (fingerprint_from_cert crt) fingerprint) then false
                     else unwrap_or (verify_detached sig_armored data crt) false
                 end
             end)
    end.

(** Source: dht-core/src/crypto_helpers.rs:212-241, verify_signature_with_cert. *)
Definition n_verify_with_cert (now : Z) (data b64_sig : string) (crt : cert) : section bool :=
  match decode_sig b64_sig with
  | None => ret false
  | Some sig_armored =>
      let* _ := change_to (fun n =>
        set_certs n (cache_cert now (fingerprint_from_cert crt) (cert_serialize crt) (certs n))) in
      ret (unwrap_or (verify_detached sig_armored data crt) false)
  end.

(** Source: dht-core/src/dht_node.rs:681-705, verify_dht_put_signature. *)
Definition n_verify_put (now : Z) (sign_data sig publisher_fp : string) (e : WireEnvelope) : section bool :=
  match payload_str e "publisher_cert" with
  | Some armored =>
      match cert_from_bytes armored with
      | Ok crt => n_verify_with_cert now sign_data sig crt
      | Err _ => n_verify_signature now sign_data sig publisher_fp
      end
  | None => n_verify_signature now sign_data sig publisher_fp
  end.

(** Source: dht-core/src/dht_node.rs:598-608, DhtNodeRuntime::handle_addr_record. *)
Definition n_verify_addr (now : Z) (sign_data sig publisher_fp : string) (e : WireEnvelope) : section bool :=
  match payload_str e "publisher_cert" with
  | Some armored =>
      match cert_from_bytes armored with
      | Ok crt => n_verify_with_cert now sign_data sig crt
      | Err _ => ret false
      end
  | None => n_verify_signature now sign_data sig publisher_fp
  end.

(** ** The requests *)

(** Source: dht-core/src/dht_node.rs:420-430, DhtNodeRuntime::handle_put. *)
Definition n_store_full (x : context) (key : string) : section bool :=
  let* exists_ := on_store (has_key (x_io x) key) in
  if unwrap_or exists_ false then ret false
  else
    let* count := on_store (count_keys (x_io x) (x_store_now x)) in
    ret (MAX_TOTAL_KEYS <=? unwrap_or count 0).

(** The checks of a put, to the signature.
    Source: dht-core/src/dht_node.rs:371-498, DhtNodeRuntime::handle_put. *)
Definition n_granted (x : context) (e : WireEnvelope) : section unit :=
  let a := put_arguments e in
  let key := p_key a in
  let error m := dht_error x key m in
  let* _ := require (validate_null_id key) (error "invalid key format") in
  let* _ := require (negb (MAX_KEY_SIZE <? slen key)) (error "key too long") in
  let* _ := require (negb ((p_ttl a <=? 0) || (MAX_TTL <? p_ttl a))) (error "ttl out of range") in
  let* full := n_store_full x key in
  let* _ := require (negb full) (error "DHT store full (max keys reached)") in
  let* _ := require (negb (MAX_VALUE_SIZE <? slen (p_value a))) (error "value too large") in
  let* _ := locked SeenNonces Reading
    (let* replayed := ask (nonce_replayed key (p_nonce a)) in require (negb replayed) (error "nonce replay")) in
  let* _ := require (pow_ok node_fingerprint (put_pow_data key (p_value a) (p_salt a) (p_seq a)) (p_nonce a)
                     (put_difficulty (p_seq a))) (error "insufficient proof-of-work") in
  let* _ := require (negb (str_is_empty (p_sig a))) (error "missing signature") in
  let* _ := require (validate_fingerprint (p_fp a)) (error "invalid publisher fingerprint") in
  let* _ := require (String.eqb (compute_null_id (p_fp a)) key)
              (error ("key mismatch: expected " +:+ compute_null_id (p_fp a))) in
  let* verified := n_verify_put (x_instant x)
                     (put_sign_data key (p_value a) (p_salt a) (p_seq a) (p_nonce a)) (p_sig a) (p_fp a) e in
  require verified (error "signature verification failed").

(** Source: dht-core/src/dht_node.rs:371-519, DhtNodeRuntime::handle_put. *)
Definition n_handle_put (x : context) (e : WireEnvelope) : section WireEnvelope :=
  let a := put_arguments e in
  let key := p_key a in
  let* _ := n_granted x e in
  let* r := n_store_put x a in
  match r with
  | Ok true =>
      locked SeenNonces Writing
        (let* _ := change_to (remember_nonce key (p_nonce a)) in
         respond (dht_found x key (p_value a) (p_salt a) (p_seq a)))
  | Ok false => respond (dht_error x key "stale sequence")
  | Err _ => respond (dht_error x key "storage error")
  end.

(** Source: dht-core/src/dht_node.rs:521-562, DhtNodeRuntime::handle_get. *)
Definition n_handle_get (x : context) (e : WireEnvelope) : section WireEnvelope :=
  let key := str_of e "key" in
  let* _ := require (validate_null_id key)
              (if stealth_mode then stealth_response x else dht_error x key "invalid key format") in
  let* r := on_store (get (x_io x) (x_store_now x) key) in
  respond (match r with
       | Ok (Some r) => dht_found x key (DhtStore.value r) (DhtStore.salt r) (DhtStore.seq r)
       | Ok None => dht_error x key "not found"
       | Err _ => dht_error x key "storage error"
       end).

(** Source: dht-core/src/dht_node.rs:564-651, DhtNodeRuntime::handle_addr_record. *)
Definition n_handle_addr_record (x : context) (e : WireEnvelope) : section WireEnvelope :=
  let a := addr_arguments x e in
  let null_id := p_key a in
  let error m := dht_error x null_id m in
  let* _ := require (validate_null_id null_id) (error "invalid null_id format") in
  let* _ := require (validate_fingerprint (p_fp a)) (error "invalid publisher fingerprint") in
  let* _ := require (String.eqb (compute_null_id (p_fp a)) null_id)
              (error ("null_id mismatch: expected " +:+ compute_null_id (p_fp a))) in
  let* verified := n_verify_addr (x_instant x) (addr_sign_data null_id (p_value a) (p_ttl a)) (p_sig a) (p_fp a) e in
  let* _ := require verified (error "signature verification failed") in
  let* _ := require (pow_ok node_fingerprint (addr_pow_data null_id (p_value a) (p_ttl a)) (p_nonce a)
                     ADDR_POW_DIFFICULTY) (error "insufficient proof-of-work") in
  let* r := n_store_put x a in
  respond (match r with
       | Ok true => dht_found x null_id (p_value a) (p_salt a) (p_seq a)
       | Ok false => error "stale sequence"
       | Err _ => error "storage error"
       end).

(** The reply, however the handler ends. *)
Definition replied (p : section WireEnvelope) : section WireEnvelope :=
  after p (fun r => ret (match r with Ok v | Err v => v end)).

(** ** Connections *)

(** What a connection keeps for itself. *)
Record talk : Type := mkTalk {
  t_failures : Z;
  t_sent : list WireEnvelope;
  t_log : list (string * option string) }.

Definition quiet : talk := mkTalk 0 [] [].

Definition t_fail (what : string) (reply : WireEnvelope) (t : talk) : talk :=
  let f := u32 (t_failures t + 1) in
  mkTalk f (t_sent t ++ [reply])
    (t_log t ++ (if f =? MAX_FAILURES then [("SCANNER", Some (what +:+ " x10"))] else [])).

Definition t_answer (reply : WireEnvelope) (log : list (string * option string)) (t : talk) : talk :=
  mkTalk 0 (t_sent t ++ [reply]) (t_log t ++ log).

(** Source: dht-core/src/dht_node.rs:313-357, DhtNodeRuntime::handle_connection. *)
Definition n_dispatch (peer_ip : string) (x : context) (e : WireEnvelope) (t : talk) : section talk :=
  if String.eqb (msg_type e) "dht-put" then
    let* r := replied (n_handle_put x e) in ret (t_answer r [] t)
  else if String.eqb (msg_type e) "dht-get" then
    let* ok := atom (fun n => let (l, ok) := RateLimit.allow (x_limit_now x) peer_ip (get_limiter n) in
                              (set_get_limiter n l, Ok ok)) in
    if negb ok then
      respond (t_answer (if stealth_mode then stealth_response x else dht_error x "" "rate limited")
             [("GET_RATE_LIMITED", Some "dht-get rate limit exceeded")] t)
    else let* r := replied (n_handle_get x e) in ret (t_answer r [] t)
  else if String.eqb (msg_type e) "dht-addr-record" then
    let* r := replied (n_handle_addr_record x e) in ret (t_answer r [] t)
  else
    respond (t_answer (if stealth_mode then stealth_response x
                   else dht_error x (str_of e "key") ("unexpected type: " +:+ msg_type e))
           [("BAD_TYPE", Some (msg_type e))] t).

(** Source: dht-core/src/dht_node.rs:267-312, DhtNodeRuntime::handle_connection. *)
Definition n_text (peer_ip : string) (x : context) (raw : string) (t : talk) : section talk :=
  match from_json raw with
  | Err er =>
      respond (t_fail "bad_envelope"
             (if stealth_mode then stealth_response x else dht_error x "" ("bad envelope: " +:+ er)) t)
  | Ok e =>
      if stale x e then
        respond (t_fail "stale_timestamp"
               (if stealth_mode then stealth_response x else dht_error x (str_of e "key") "stale timestamp") t)
      else n_dispatch peer_ip x e t
  end.

(** Source: dht-core/src/dht_node.rs:222-369, DhtNodeRuntime::handle_connection. *)
Fixpoint n_connection (peer_ip : string) (fs : list (context * frame)) (t : talk) : section talk :=
  match fs with
  | [] => ret t
  | (x, FText raw) :: fs' => let* t := n_text peer_ip x raw t in n_connection peer_ip fs' t
  | (_, FOther) :: fs' => n_connection peer_ip fs' t
  | (_, FClose) :: _ | (_, FError) :: _ => ret t
  end.

(** Source: dht-core/src/dht_node.rs:161-220, DhtNodeRuntime::start. *)
Definition n_event (e : node_event) : section talk :=
  match e with
  | Connection now peer_ip fs =>
      let* allowed := atom (fun n => let (l, allowed) := RateLimit.allow now peer_ip (conn_limiter n) in
                                     (set_conn_limiter n l, Ok allowed)) in
      if negb allowed then ret quiet else n_connection peer_ip fs quiet
  | PruneTick => let* _ := locked SeenNonces Writing (change_to prune_nonces) in ret quiet
  end.

(** ** A handler that runs alone *)

Lemma once_on_store {A} (m : st DhtStore DhtError A) n :
  alone (on_store m) n = (set_store n (m (store n)).1, Ok (m (store n)).2).
Proof. done. Qed.

Lemma set_store_same n : set_store n (store n) = n.
Proof. by destruct n. Qed.
Lemma set_certs_same n : set_certs n (certs n) = n.
Proof. by destruct n. Qed.

(** A statement that only reads. *)
Lemma once_read {A B} (m : st DhtStore DhtError A) (k : result DhtError A -> section B) n :
  (m (store n)).1 = store n -> alone (then_ (on_store m) k) n = alone (k (m (store n)).2) n.
Proof. intros Hm. rewrite alone_then. unfold st_bind. by rewrite once_on_store, Hm, set_store_same. Qed.

Lemma reads_nonce io k z s : (is_nonce_seen io k z s).1 = s.
Proof. unfold is_nonce_seen, await, st_bind, st_guard, st_get, st_ret, st_fail. by destruct (io QNonce). Qed.
Lemma reads_seq io k s : (select_seq io k s).1 = s.
Proof. unfold select_seq, await, st_bind, st_guard, st_get, st_ret, st_fail. by destruct (io QSeq). Qed.
Lemma reads_key io k s : (has_key io k s).1 = s.
Proof. unfold has_key, await, st_bind, st_guard, st_get, st_ret, st_fail. by destruct (io QSelect). Qed.
Lemma reads_count io now s : (count_keys io now s).1 = s.
Proof. unfold count_keys, await, st_bind, st_guard, st_get, st_ret, st_fail. by destruct (io QCount). Qed.
Lemma reads_get io now k s : (get io now k s).1 = s.
Proof. unfold get, await, st_bind, st_guard, st_get, st_ret, st_fail. by destruct (io QSelect). Qed.

Lemma once_put_checks x a n : alone (n_put_checks x a) n = (n, Ok (put_checks (x_io x) a (store n)).2).
Proof.
  unfold n_put_checks, put_checks. destruct (_ <? _); [done|]. rewrite once_read by apply reads_nonce.
  pose proof (reads_nonce (x_io x) (p_key a) (p_nonce a) (store n)) as E. unfold st_bind at 1.
  destruct (is_nonce_seen _ _ _ _) as [s1 [[|]|e]]; cbn in E |- *; subst s1; [done| |done].
  rewrite (reads_seq (x_io x) (p_key a) (store n)), set_store_same.
  unfold st_bind. by destruct (select_seq _ _ _) as [s2 [o|e]].
Qed.

Lemma put_checks_reads io a s : (put_checks io a s).1 = s.
Proof.
  unfold put_checks. destruct (_ <? _); [done|]. pose proof (reads_nonce io (p_key a) (p_nonce a) s) as E.
  unfold st_bind at 1. destruct (is_nonce_seen _ _ _ _) as [s1 [[|]|e]]; cbn in E |- *; subst s1; [done| |done].
  pose proof (reads_seq io (p_key a) s) as E. unfold st_bind. by destruct (select_seq _ _ _) as [s2 [o|e]].
Qed.

Lemma once_store_put x a n :
  alone (n_store_put x a) n =
    (set_store n (put (x_io x) (x_store_now x) (x_clock x) a (store n)).1,
     Ok (put (x_io x) (x_store_now x) (x_clock x) a (store n)).2).
Proof.
  unfold n_store_put. rewrite alone_then. unfold st_bind. rewrite once_put_checks, put_split.
  pose proof (put_checks_reads (x_io x) a (store n)) as E. unfold st_bind.
  destruct (put_checks _ _ _) as [s1 [[|]|e]]; cbn in E |- *; subst s1; rewrite ?set_store_same; [|done|done].
  by destruct (put_transaction _ _ _ _ _) as [s2 [u|e]].
Qed.

Lemma once_get_cached now fp n :
  alone (n_get_cached_cert now fp) n =
    (set_certs n (get_cached_cert now fp (certs n)).1, Ok (get_cached_cert now fp (certs n)).2).
Proof.
  unfold n_get_cached_cert, get_cached_cert. rewrite alone_ask. destruct (certs n) as [m|] eqn:Ec; cbn [mbind option_bind].
  2: { by rewrite <- Ec, set_certs_same. }
  destruct (m !! to_uppercase fp) as [[armored t]|] eqn:El; cbn [mbind option_bind fst];
    [|cbn; by rewrite <- Ec, set_certs_same].
  rewrite alone_then. unfold st_bind, change_to. rewrite alone_atom. unfold st_modify, touch_cert. by rewrite Ec, El.
Qed.

Lemma once_verify_signature now d sig fp n :
  alone (n_verify_signature now d sig fp) n =
    (set_certs n (verify_signature now d sig fp (certs n)).1, Ok (verify_signature now d sig fp (certs n)).2).
Proof.
  unfold n_verify_signature, verify_signature. destruct (negb _); [by rewrite set_certs_same|].
  destruct (decode_sig sig) as [text|]; [|by rewrite set_certs_same].
  rewrite alone_then. unfold st_bind. rewrite once_get_cached. destruct (get_cached_cert _ _ _) as [c [armored|]]; [|done].
  cbn [fst snd alone ret]. destruct (cert_from_bytes armored); [|done]. by destruct (negb _).
Qed.

Lemma once_verify_with_cert now d sig crt n :
  alone (n_verify_with_cert now d sig crt) n =
    (set_certs n (verify_signature_with_cert now d sig crt (certs n)).1,
     Ok (verify_signature_with_cert now d sig crt (certs n)).2).
Proof.
  unfold n_verify_with_cert, verify_signature_with_cert. destruct (decode_sig sig); [done|by rewrite set_certs_same].
Qed.

Lemma once_verify_put now d sig fp e n :
  alone (n_verify_put now d sig fp e) n =
    (set_certs n (verify_dht_put_signature now d sig fp e (certs n)).1,
     Ok (verify_dht_put_signature now d sig fp e (certs n)).2).
Proof.
  unfold n_verify_put, verify_dht_put_signature. destruct (payload_str e _) as [armored|];
    [|apply once_verify_signature].
  destruct (cert_from_bytes armored); [apply once_verify_with_cert|apply once_verify_signature].
Qed.

Lemma once_verify_addr now d sig fp e n :
  alone (n_verify_addr now d sig fp e) n =
    (set_certs n (verify_addr_signature now d sig fp e (certs n)).1,
     Ok (verify_addr_signature now d sig fp e (certs n)).2).
Proof.
  unfold n_verify_addr, verify_addr_signature. destruct (payload_str e _) as [armored|];
    [|apply once_verify_signature].
  destruct (cert_from_bytes armored); [apply once_verify_with_cert|by rewrite set_certs_same].
Qed.

Lemma once_store_full x key n : alone (n_store_full x key) n = (n, Ok (store_full x key n)).
Proof.
  unfold n_store_full, store_full. rewrite once_read by apply reads_key.
  destruct (unwrap_or _ _); [done|]. by rewrite once_read by apply reads_count.
Qed.

(** One guard. *)
Lemma once_require {A} (c : bool) (r : WireEnvelope) (k : unit -> section A) n :
  alone (then_ (require c r) k) n = if c then alone (k tt) n else (n, Err r).
Proof. by destruct c. Qed.

Lemma once_granted x e n :
  let a := put_arguments e in
  alone (n_granted x e) n =
  match put_refusal node_fingerprint x e n with
  | Some m => (n, Err (dht_error x (p_key a) m))
  | None =>
      let (c, verified) := verify_dht_put_signature (x_instant x)
        (put_sign_data (p_key a) (p_value a) (p_salt a) (p_seq a) (p_nonce a)) (p_sig a) (p_fp a) e (certs n) in
      (set_certs n c, if verified then Ok tt else Err (dht_error x (p_key a) "signature verification failed"))
  end.
Proof.
  intros a. unfold n_granted, put_refusal. fold a.
  change (str_of e "key") with (p_key a). change (str_of e "value") with (p_value a).
  change (str_of e "salt") with (p_salt a). change (int_of e "seq" 0) with (p_seq a).
  change (put_ttl e) with (p_ttl a). change (int_of e "nonce" 0) with (p_nonce a).
  change (str_of e "publisher_fp") with (p_fp a). change (Envelope.sig e) with (p_sig a).
  rewrite once_require. destruct (validate_null_id _); cbn [negb]; [|done].
  rewrite once_require. destruct (MAX_KEY_SIZE <? _); cbn [negb]; [done|].
  rewrite once_require. destruct (_ || _); cbn [negb]; [done|].
  rewrite alone_then. unfold st_bind at 1. rewrite once_store_full.
  rewrite once_require. destruct (store_full _ _ _); cbn [negb]; [done|].
  rewrite once_require. destruct (MAX_VALUE_SIZE <? _); cbn [negb]; [done|].
  rewrite alone_then. unfold st_bind at 1. rewrite alone_locked, alone_ask.
  destruct (nonce_replayed _ _ _); cbn [negb require alone ret]; [done|].
  rewrite once_require. destruct (pow_ok _ _ _ _); cbn [negb]; [|done].
  rewrite once_require. destruct (str_is_empty _); cbn [negb]; [done|].
  rewrite once_require. destruct (validate_fingerprint _); cbn [negb]; [|done].
  rewrite once_require. destruct (String.eqb _ _); cbn [negb]; [|done].
  rewrite alone_then. unfold st_bind. rewrite once_verify_put.
  by destruct (verify_dht_put_signature _ _ _ _ _ _) as [c [|]].
Qed.

Lemma once_replied (p : section WireEnvelope) n n' r :
  (alone p n = (n', Ok r) \/ alone p n = (n', Err r)) -> alone (replied p) n = (n', Ok r).
Proof. intros Hp. unfold replied. rewrite alone_after. by destruct Hp as [->| ->]. Qed.

Lemma once_handle_put x e n :
  alone (replied (n_handle_put x e)) n =
    ((handle_put node_fingerprint x e n).1, Ok (handle_put node_fingerprint x e n).2).
Proof.
  apply once_replied. unfold n_handle_put, handle_put. rewrite alone_then. unfold st_bind. rewrite once_granted.
  destruct (put_refusal _ _ _ _) as [m|]; [by right|].
  destruct (verify_dht_put_signature _ _ _ _ _ _) as [c [|]]; cbn [negb]; [left|by right].
  rewrite alone_then. unfold st_bind. rewrite once_store_put. by destruct (put _ _ _ _ _) as [s [[|]|er]].
Qed.

Lemma once_handle_get x e n :
  alone (replied (n_handle_get x e)) n = (n, Ok (handle_get stealth_mode x e n)).
Proof.
  apply once_replied. unfold n_handle_get, handle_get. rewrite once_require.
  destruct (validate_null_id _); cbn [negb]; [left|right; by destruct stealth_mode].
  rewrite once_read by apply reads_get. by destruct (get _ _ _ _).2 as [[r|]|er].
Qed.

Lemma once_handle_addr x e n :
  alone (replied (n_handle_addr_record x e)) n =
    ((handle_addr_record node_fingerprint x e n).1, Ok (handle_addr_record node_fingerprint x e n).2).
Proof.
  apply once_replied. unfold n_handle_addr_record, handle_addr_record.
  rewrite once_require. destruct (validate_null_id _); cbn [negb]; [|by right].
  rewrite once_require. destruct (validate_fingerprint _); cbn [negb]; [|by right].
  rewrite once_require. destruct (String.eqb _ _); cbn [negb]; [|by right].
  rewrite alone_then. unfold st_bind. rewrite once_verify_addr.
  destruct (verify_addr_signature _ _ _ _ _ _) as [c [|]]; cbn [fst snd negb]; rewrite once_require; [|by right].
  rewrite once_require. destruct (pow_ok _ _ _ _); cbn [negb]; [left|by right].
  rewrite alone_then. unfold st_bind. rewrite once_store_put. by destruct (put _ _ _ _ _) as [s [[|]|er]].
Qed.

(** A connection and what it keeps for itself, together. *)
Definition in_session (n : Node) (t : talk) : session := mkSession n (t_failures t) (t_sent t) (t_log t).
Definition talk_of (s : session) : talk := mkTalk (s_failures s) (s_sent s) (s_log s).

Lemma once_text ip x raw t n :
  let s := handle_text node_fingerprint stealth_mode ip x raw (in_session n t) in
  alone (n_text ip x raw t) n = (s_node s, Ok (talk_of s)).
Proof.
  intros s. unfold s, n_text, handle_text. destruct (from_json raw) as [e|er]; [|done].
  destruct (stale x e); [done|]. unfold n_dispatch, dispatch. cbn [in_session s_node].
  destruct (String.eqb _ "dht-put").
  { rewrite alone_then. unfold st_bind. rewrite once_handle_put. by destruct (handle_put _ _ _ _). }
  destruct (String.eqb _ "dht-get").
  { rewrite alone_then. unfold st_bind. rewrite alone_atom.
    destruct (RateLimit.allow _ _ _) as [l [|]]; cbn [negb]; [|done].
    rewrite alone_then. unfold st_bind. by rewrite once_handle_get. }
  destruct (String.eqb _ "dht-addr-record"); [|done].
  rewrite alone_then. unfold st_bind. rewrite once_handle_addr. by destruct (handle_addr_record _ _ _ _).
Qed.

Lemma once_connection ip fs : forall t n,
  let s := handle_connection node_fingerprint stealth_mode ip fs (in_session n t) in
  alone (n_connection ip fs t) n = (s_node s, Ok (talk_of s)).
Proof.
  induction fs as [|[x f] fs IH]; intros t n; [by destruct t|].
  destruct f as [raw| | |]; cbn [n_connection handle_connection]; [|by destruct t|apply IH|by destruct t].
  rewrite alone_then. unfold st_bind. rewrite once_text.
  set (s := handle_text _ _ _ _ _ _). specialize (IH (talk_of s) (s_node s)). cbv zeta in IH. rewrite IH.
  by replace (in_session (s_node s) (talk_of s)) with s by by destruct s.
Qed.

(** What a node does at once, it does section by section.  A connection that
    nobody comes between, from the limiter of connections to its last frame,
    leaves the node as [DhtNode.accept] does and sends the same replies in the
    same order; so does the task that prunes the nonces. *)
Theorem event_alone (e : node_event) (n : Node) :
  match e with
  | Connection now ip fs =>
      let (l, allowed) := RateLimit.allow now ip (conn_limiter n) in
      let n1 := set_conn_limiter n l in
      let s := if (allowed : bool) then handle_connection node_fingerprint stealth_mode ip fs (mkSession n1 0 [] [])
               else mkSession n1 0 [] [] in
      alone (n_event e) n = ((accept node_fingerprint stealth_mode now ip fs n).1, Ok (talk_of s)) /\
      s_sent s = (accept node_fingerprint stealth_mode now ip fs n).2
  | PruneTick => alone (n_event e) n = (prune_nonces n, Ok quiet)
  end.
Proof.
  destruct e as [now ip fs|]; [|done]. unfold n_event, accept. rewrite alone_then. unfold st_bind. rewrite alone_atom.
  destruct (RateLimit.allow _ _ _) as [l [|]]; cbn [negb fst]; [|done]. split; [apply once_connection|done].
Qed.
End node.
