(* ===== verification/DhtSchedules.v ===== *)
(** * A DHT node under any schedule (src/dht-core/src/dht_node.rs)

    Whatever connections run side by side, a record of the node is one it
    started with or one that came signed, with its proof of work, in a text of a
    connection ([records_under_any_schedule]).  What the sections do not keep is
    the order of the sequence numbers: of two puts at the same moment the older
    can be left ([newer_record_overwritten]). *)

From S2P Require Import Prelude Text Primitives Concrete Constants Json Gpg Threads.
From S2P Require Import RateLimit DhtStore Envelope Pow Identity CertCache DhtNode DhtStart DhtThreads.

Section node.
Context `{Sequoia} `{Base64} `{Blake2} `{Argon2} `{HashOrder (list f64)} `{WireCodec}.
Variable node_fingerprint : string.
Variable stealth_mode : bool.

Abbreviation section A := (prog lock Node WireEnvelope A).
Abbreviation event := (n_event node_fingerprint stealth_mode).

(** ** What is published *)

Definition worked (data : string) (nonce difficulty : Z) : Prop :=
  pow_check data (u64 nonce) difficulty (str_bytes node_fingerprint) = Ok true.

(** The put [e] writes the record [r] under [key], and may. *)
Record put_published (x : context) (e : WireEnvelope) (key : string) (r : KvRecord) : Prop := {
  pub_type : msg_type e = "dht-put";
  pub_row : r = row_of (x_store_now x) (put_arguments e);
  pub_key : key = str_of e "key" /\ compute_null_id (str_of e "publisher_fp") = key;
  pub_fp : validate_fingerprint (str_of e "publisher_fp") = true;
  pub_ttl : 0 < put_ttl e <= STORE_TTL;
  pub_value : slen (str_of e "value") <= MAX_VALUE_SIZE;
  pub_work : worked (put_pow_data key (str_of e "value") (str_of e "salt") (int_of e "seq" 0))
    (int_of e "nonce" 0) (put_difficulty (int_of e "seq" 0));
  pub_signed : put_signed (put_sign_data key (str_of e "value") (str_of e "salt") (int_of e "seq" 0) (int_of e "nonce" 0))
    (Envelope.sig e) (str_of e "publisher_fp") e }.

(** So does the address record [e]. *)
Record addr_published (x : context) (e : WireEnvelope) (key : string) (r : KvRecord) : Prop := {
  adr_type : msg_type e = "dht-addr-record";
  adr_row : r = row_of (x_store_now x) (addr_arguments x e);
  adr_key : key = str_of e "null_id" /\ compute_null_id (str_of e "publisher_fp") = key;
  adr_fp : validate_fingerprint (str_of e "publisher_fp") = true;
  adr_work : worked (addr_pow_data key (str_of e "address") (int_of e "ttl" ADDR_TTL)) (int_of e "nonce" 0)
    ADDR_POW_DIFFICULTY;
  adr_signed : put_signed (addr_sign_data key (str_of e "address") (int_of e "ttl" ADDR_TTL))
    (Envelope.sig e) (str_of e "publisher_fp") e }.

(** A fresh text of some connection does. *)
Definition published (es : list node_event) (key : string) (r : KvRecord) : Prop :=
  exists now ip fs x raw e, Connection now ip fs ∈ es /\ (x, FText raw) ∈ fs /\ from_json raw = Ok e /\
    stale x e = false /\ (put_published x e key r \/ addr_published x e key r).

(** ** What every section respects *)

(** New records satisfy [P]; no key and no nonce is lost. *)
Record grows (P : string -> KvRecord -> Prop) (n n' : Node) : Prop := {
  grows_rows k r : kv_store (store n') !! k = Some r -> kv_store (store n) !! k = Some r \/ P k r;
  grows_keys k : is_Some (kv_store (store n) !! k) -> is_Some (kv_store (store n') !! k);
  grows_log : nonce_log (store n) ⊆ nonce_log (store n') }.

Section walk.
Variable P : string -> KvRecord -> Prop.

Abbreviation every := (Threads.every (L := lock) (E := WireEnvelope) (fun _ : Node => True) (grows P)).
Abbreviation walk := (every (fun _ => True)).

Lemma same_store n n' : store n' = store n -> grows P n n'.
Proof. intros E. split; rewrite E; [by left|done|done]. Qed.

Lemma stays_ret {A} (r : result WireEnvelope A) : walk (Ret r).
Proof. by constructor. Qed.
Lemma stays_ask {A} (f : Node -> A) : walk (ask f).
Proof. apply every_atom; [intros n _; by apply same_store|done]. Qed.
Lemma stays_change f : (forall n, store (f n) = store n) -> walk (change_to f).
Proof. intros Hf. apply every_atom; [intros n _; apply same_store, Hf|done]. Qed.
Lemma stays_read {A} (m : st DhtStore DhtError A) : (forall s, (m s).1 = s) -> walk (on_store m).
Proof. intros Hm. apply every_atom; [|done]. intros n _. apply same_store. apply Hm. Qed.
Lemma stays_then {A B} (p : section A) (k : A -> section B) : walk p -> (forall a, walk (k a)) -> walk (then_ p k).
Proof. intros Hp Hk. eapply every_then; [exact Hp|intros a _; apply Hk|done]. Qed.
Lemma stays_locked {A} l a (p : section A) : walk p -> walk (locked l a p).
Proof. apply every_locked. Qed.
Lemma stays_answer {A} (a : A) : walk (Threads.answer a).
Proof. by repeat constructor. Qed.
Lemma stays_require c r : walk (require c r).
Proof. unfold require. destruct c; by repeat constructor. Qed.
#[local] Hint Resolve stays_ret stays_ask stays_change stays_read stays_locked stays_answer stays_require : walk.
#[local] Hint Resolve reads_nonce reads_seq reads_key reads_count reads_get : walk.

Ltac walk :=
  repeat (first
    [ solve [eauto with walk]
    | apply stays_then; [|intros ?]
    | apply stays_locked
    | progress cbv zeta
    | match goal with |- Threads.every _ _ _ (if ?c then _ else _) => destruct c end
    | match goal with |- Threads.every _ _ _ (match ?c with _ => _ end) => destruct c end ]).

(** What follows a check knows its condition. *)
Lemma every_require {A} (Q : result WireEnvelope A -> Prop) c r (k : unit -> section A) :
  (c = true -> every Q (k tt)) -> Q (Err r) -> every Q (then_ (require c r) k).
Proof. intros Hk Hr. destruct c; [by apply Hk|by repeat constructor]. Qed.

Lemma every_later {A B} (Q : result WireEnvelope B -> Prop) (p : section A) (k : A -> section B) :
  walk p -> (forall a, every Q (k a)) -> (forall r, Q (Err r)) -> every Q (then_ p k).
Proof. intros Hp Hk Hr. eapply every_then; [exact Hp|intros a _; apply Hk|intros r _; apply Hr]. Qed.

Lemma stays_put_checks x a : walk (n_put_checks x a).
Proof. unfold n_put_checks, ret. walk. Qed.

(** The transaction. *)
Lemma transaction_grows x a n :
  P (p_key a) (row_of (x_store_now x) a) ->
  grows P n (set_store n (put_transaction (x_io x) (x_store_now x) (x_clock x) a (store n)).1).
Proof.
  intros HP. unfold put_transaction, await, st_bind, st_guard, st_modify, st_ret, st_fail.
  destruct (x_io x QTransaction); [|by apply same_store]. split.
  - intros k r. cbn. intros [[<- <-]|[_ Hk]]%lookup_insert_Some; [by right|by left].
  - intros k Hk. cbn. destruct (decide (k = p_key a)) as [->|Hne];
      [rewrite lookup_insert_eq; by eexists|by rewrite lookup_insert_ne].
  - cbn. destruct (nonce_log (store n) !! (p_key a, p_nonce a)) eqn:E; [done|]. by apply insert_subseteq.
Qed.

Lemma stays_store_put x a : P (p_key a) (row_of (x_store_now x) a) -> walk (n_store_put x a).
Proof.
  intros HP. unfold n_store_put, ret. apply stays_then; [apply stays_put_checks|]. intros [[|]|e]; walk.
  apply every_atom; [|done]. intros n _. by apply transaction_grows.
Qed.

(** *** Signatures *)

Definition signed_for (d s fp : string) : Prop :=
  exists text crt, decode_sig s = Some text /\ signed_by crt text d /\
    to_lowercase (cert_fingerprint crt) = to_lowercase fp.

Lemma every_verify_signature now d s fp :
  every (fun r => r = Ok true -> signed_for d s fp) (n_verify_signature now d s fp).
Proof.
  unfold n_verify_signature, n_get_cached_cert. destruct (negb _); [by constructor|].
  destruct (decode_sig s) as [text|] eqn:Et; [|by constructor].
  apply every_later; [unfold ret; walk|intros [armored|]|done]; [|by constructor]. constructor. intros [= Hv].
  destruct (cert_from_bytes armored) as [crt|]; [|done]. destruct (eq_ignore_ascii_case _ _) eqn:Ef; [|done].
  apply unwrap_ok_true, verify_detached_sound in Hv. apply String.eqb_eq in Ef. by exists text, crt.
Qed.

Lemma every_verify_with_cert now d s crt :
  every (fun r => r = Ok true -> exists text, decode_sig s = Some text /\ signed_by crt text d)
    (n_verify_with_cert now d s crt).
Proof.
  unfold n_verify_with_cert. destruct (decode_sig s) as [text|]; [|by constructor].
  apply every_later; [walk|intros _|done]. constructor. intros [= Hv].
  apply unwrap_ok_true, verify_detached_sound in Hv. by exists text.
Qed.

Lemma every_verify_put now d s fp e :
  every (fun r => r = Ok true -> put_signed d s fp e) (n_verify_put now d s fp e).
Proof.
  assert (Hfp : every (fun r => r = Ok true -> put_signed d s fp e) (n_verify_signature now d s fp)).
  { eapply every_impl; [done| |apply every_verify_signature]. intros r Hr Er.
    destruct (Hr Er) as (text & crt & ? & ? & ?). exists text, crt. auto. }
  unfold n_verify_put. destruct (payload_str e "publisher_cert") as [armored|] eqn:Ep; [|exact Hfp].
  destruct (cert_from_bytes armored) as [crt|] eqn:Ec; [|exact Hfp].
  eapply every_impl; [done| |apply every_verify_with_cert]. intros r Hr Er.
  destruct (Hr Er) as (text & ? & ?). exists text, crt. eauto 10.
Qed.

Lemma every_verify_addr now d s fp e :
  every (fun r => r = Ok true -> put_signed d s fp e) (n_verify_addr now d s fp e).
Proof.
  unfold n_verify_addr. destruct (payload_str e "publisher_cert") as [armored|] eqn:Ep.
  - destruct (cert_from_bytes armored) as [crt|] eqn:Ec; [|by constructor].
    eapply every_impl; [done| |apply every_verify_with_cert]. intros r Hr Er.
    destruct (Hr Er) as (text & ? & ?). exists text, crt. eauto 10.
  - eapply every_impl; [done| |apply every_verify_signature]. intros r Hr Er.
    destruct (Hr Er) as (text & crt & ? & ? & ?). exists text, crt. auto.
Qed.

(** *** The requests *)

Lemma stays_store_full x key : walk (n_store_full x key).
Proof. unfold n_store_full, ret. walk. Qed.
#[local] Hint Resolve stays_store_full : walk.

Lemma pow_ok_worked d z b : pow_ok node_fingerprint d z b = true -> worked d z b.
Proof. apply unwrap_ok_true. Qed.

Lemma every_granted x e :
  msg_type e = "dht-put" ->
  every (fun r => r = Ok tt -> put_published x e (str_of e "key") (row_of (x_store_now x) (put_arguments e)))
    (n_granted node_fingerprint x e).
Proof.
  intros Et. unfold n_granted. cbv zeta.
  do 2 (apply every_require; [intros _|done]). apply every_require; [intros Httl|done].
  apply every_later; [walk|intros full|done]. apply every_require; [intros _|done].
  apply every_require; [intros Hval|done]. apply every_later; [walk|intros _|done].
  apply every_require; [intros Hpow|done].
  apply every_require; [intros _|done]. apply every_require; [intros Hfp|done]. apply every_require; [intros Hkey|done].
  eapply every_then; [apply every_verify_put|intros v Hv|done].
  unfold require, refuse. destruct v; [|by repeat constructor]. constructor. intros _.
  apply negb_true_iff, orb_false_iff in Httl as [Ht1%Z.leb_gt Ht2%Z.ltb_ge].
  apply negb_true_iff, Z.ltb_ge in Hval. apply String.eqb_eq in Hkey. apply pow_ok_worked in Hpow.
  change (p_ttl (put_arguments e)) with (put_ttl e) in Ht1. assert (put_ttl e <= STORE_TTL) by (unfold put_ttl; lia).
  split; try done. by apply Hv.
Qed.

Lemma stays_handle_put x e :
  msg_type e = "dht-put" -> (forall k r, put_published x e k r -> P k r) ->
  walk (n_handle_put node_fingerprint x e).
Proof.
  intros Et HP. unfold n_handle_put. eapply every_then; [by apply every_granted|intros [] Hg|done].
  apply stays_then; [by apply stays_store_put, HP, Hg|]. unfold ret. intros [[|]|er]; walk.
Qed.

Lemma stays_handle_get x e : walk (n_handle_get stealth_mode x e).
Proof. unfold n_handle_get. apply every_require; [intros _|done]. unfold ret. walk. Qed.

Lemma stays_handle_addr x e :
  msg_type e = "dht-addr-record" -> (forall k r, addr_published x e k r -> P k r) ->
  walk (n_handle_addr_record node_fingerprint x e).
Proof.
  intros Et HP. unfold n_handle_addr_record. cbv zeta.
  apply every_require; [intros _|done]. apply every_require; [intros Hfp|done]. apply every_require; [intros Hkey|done].
  eapply every_then; [apply every_verify_addr|intros v Hv|done]. apply every_require; [intros ->|done].
  apply every_require; [intros Hpow|done]. apply stays_then; [|intros r; unfold ret; walk].
  apply stays_store_put, HP. apply String.eqb_eq in Hkey. apply pow_ok_worked in Hpow.
  split; try done. by apply Hv.
Qed.

Lemma stays_replied p : walk p -> walk (replied p).
Proof. intros Hp. unfold replied. eapply every_after; [exact Hp|]. intros r _. by constructor. Qed.

(** *** Connections *)

Lemma stays_text ip x raw t :
  (forall e k r, from_json raw = Ok e -> stale x e = false -> put_published x e k r \/ addr_published x e k r -> P k r) ->
  walk (n_text node_fingerprint stealth_mode ip x raw t).
Proof.
  intros HP. unfold n_text, ret. destruct (from_json raw) as [e|er]; [|walk].
  destruct (stale x e) eqn:Es; [walk|]. specialize (fun k r => HP e k r eq_refl Es). unfold n_dispatch, ret.
  destruct (String.eqb_spec (msg_type e) "dht-put") as [Et|_].
  { apply stays_then; [|walk]. apply stays_replied, stays_handle_put; [done|]. intros k r Hr. apply HP. by left. }
  destruct (String.eqb (msg_type e) "dht-get").
  { apply stays_then; [|intros [|]; cbn [negb]; walk; apply stays_replied, stays_handle_get].
    apply every_atom; [|done]. intros n _. apply same_store. by destruct (RateLimit.allow _ _ _). }
  destruct (String.eqb_spec (msg_type e) "dht-addr-record") as [Et|_]; [|walk].
  apply stays_then; [|walk]. apply stays_replied, stays_handle_addr; [done|]. intros k r Hr. apply HP. by right.
Qed.

Lemma stays_connection ip fs :
  (forall x raw e k r, (x, FText raw) ∈ fs -> from_json raw = Ok e -> stale x e = false ->
     put_published x e k r \/ addr_published x e k r -> P k r) ->
  forall t, walk (n_connection node_fingerprint stealth_mode ip fs t).
Proof.
  induction fs as [|[x f] fs IH]; intros HP t; [by constructor|].
  assert (Hfs : forall t, walk (n_connection node_fingerprint stealth_mode ip fs t)).
  { apply IH. intros y raw e k r Hin. apply (HP y). by right. }
  destruct f as [raw| | |]; cbn [n_connection]; unfold ret; [|by constructor|apply Hfs|by constructor].
  apply stays_then; [|apply Hfs]. apply stays_text. intros e k r. apply HP. by left.
Qed.
End walk.

Lemma stays_event es ev : ev ∈ es ->
  Threads.every (L := lock) (E := WireEnvelope) (fun _ => True) (grows (published es)) (fun _ => True) (event ev).
Proof.
  intros Hin. destruct ev as [now ip fs|]; cbn [n_event]; apply stays_then.
  - apply every_atom; [|done]. intros n _. apply same_store. by destruct (RateLimit.allow _ _ _).
  - intros [|]; cbn [negb]; [|by constructor]. apply stays_connection. intros x raw e k r Hx Hj Hst Hr.
    by exists now, ip, fs, x, raw, e.
  - apply stays_locked. by apply stays_change.
  - intros _. by constructor.
Qed.

Lemma rtc_grows P a b : rtc (grows P) a b -> grows P a b.
Proof.
  induction 1 as [a|a b c [Hr Hk Hl] _ [IHr IHk IHl]]; [by apply same_store|]. split.
  - intros k r [Hc|Hc]%IHr; [by apply Hr|by right].
  - intros k Ha. by apply IHk, Hk.
  - by etrans.
Qed.

Lemma events_grow es sched n0 : grows (published es) n0 (shared (play sched (start n0 (event <$> es)))).
Proof.
  apply rtc_grows, (play_always (grows (published es)) sched (start n0 (event <$> es))).
  apply Forall_fmap, Forall_forall. intros ev Hev. by apply stays_event.
Qed.

(** A record stays, unless another was published under its key. *)
Lemma record_stays es sched n0 key r :
  kv_store (store n0) !! key = Some r -> (forall r', ~ published es key r') ->
  kv_store (store (shared (play sched (start n0 (event <$> es))))) !! key = Some r.
Proof.
  intros Hr Hno. destruct (events_grow es sched n0) as [Hrows Hkeys _].
  destruct (Hkeys key ltac:(by eexists)) as [r' Hr']. destruct (Hrows key r' Hr') as [E|Hp]; [congruence|by apply Hno in Hp].
Qed.


(** ** Two puts at once *)

(** Nothing holds a put back: no check, and no statement of the database. *)
Record welcome (x : context) (e : WireEnvelope) (n : Node) : Prop := {
  wel_checks : put_refusal node_fingerprint x e n = None;
  wel_signed c : (verify_dht_put_signature (x_instant x)
    (put_sign_data (str_of e "key") (str_of e "value") (str_of e "salt") (int_of e "seq" 0) (int_of e "nonce" 0))
    (Envelope.sig e) (str_of e "publisher_fp") e c).2 = true;
  wel_database : x_io x = no_faults;
  wel_new : acceptable (put_arguments e) (store n) }.

Definition found_reply (x : context) (e : WireEnvelope) : WireEnvelope :=
  dht_found x (str_of e "key") (str_of e "value") (str_of e "salt") (int_of e "seq" 0).

(** The checks read the tables and the nonces in memory. *)
Lemma refusal_same x e n n' :
  store n' = store n -> seen_nonces n' = seen_nonces n ->
  put_refusal node_fingerprint x e n' = put_refusal node_fingerprint x e n.
Proof. intros Hs Hn. unfold put_refusal, store_full, nonce_replayed. by rewrite Hs, Hn. Qed.

Lemma welcome_same x e n n' :
  store n' = store n -> seen_nonces n' = seen_nonces n -> welcome x e n -> welcome x e n'.
Proof.
  intros Hs Hn [Hc Hv Hd Ha]. split; [by rewrite (refusal_same x e n n' Hs Hn)|done|done|by rewrite Hs].
Qed.

Abbreviation brackets_ := (bracketed (fun _ : lock => True) None).

Lemma brackets_read {A} (m : st DhtStore DhtError A) : brackets_ (on_store m).
Proof. apply bracketed_atom. Qed.
Lemma brackets_require c r : brackets_ (require c r).
Proof. unfold require, refuse, fail. destruct c; repeat constructor. Qed.
Lemma free_require c r : unlocked True (require c r).
Proof. unfold require, refuse, fail. destruct c; repeat constructor. Qed.
#[local] Hint Resolve brackets_read brackets_require free_require : threads.
Lemma brackets_granted x e : brackets_ (n_granted node_fingerprint x e).
Proof.
  unfold n_granted, n_store_full, n_verify_put, n_verify_with_cert, n_verify_signature, n_get_cached_cert. brackets.
Qed.
Lemma brackets_put_checks x a : brackets_ (n_put_checks x a).
Proof. unfold n_put_checks. brackets. Qed.
#[local] Hint Resolve brackets_granted brackets_put_checks : threads.
Lemma brackets_handle_put x e : brackets_ (n_handle_put node_fingerprint x e).
Proof. unfold n_handle_put, n_store_put. brackets. Qed.

(** Whoever is welcome passes the checks. *)
Lemma welcome_granted x e n : welcome x e n ->
  exists n', alone (n_granted node_fingerprint x e) n = (n', Ok tt) /\ store n' = store n /\ seen_nonces n' = seen_nonces n.
Proof.
  intros [Hc Hv _ _]. pose proof (once_granted node_fingerprint x e n) as E. cbv zeta in E. rewrite Hc in E.
  specialize (Hv (certs n)). change (str_of e "key") with (p_key (put_arguments e)) in Hv.
  rewrite E. clear E. revert Hv.
  match goal with |- (?v).2 = true -> _ => change v with
    (verify_dht_put_signature (x_instant x) (put_sign_data (p_key (put_arguments e)) (p_value (put_arguments e))
      (p_salt (put_arguments e)) (p_seq (put_arguments e)) (p_nonce (put_arguments e)))
      (p_sig (put_arguments e)) (p_fp (put_arguments e)) e (certs n)) end.
  destruct (verify_dht_put_signature _ _ _ _ _ _) as [c v]. cbn [snd]. intros ->. by exists (set_certs n c).
Qed.

Lemma acceptable_checks a s : acceptable a s -> (put_checks no_faults a s).2 = Ok true.
Proof.
  intros Ha. pose proof (put_no_faults (f64_of_Z 0) 0 a s Ha) as E. rewrite put_split in E. unfold st_bind in E.
  destruct (put_checks no_faults a s) as [s1 [[|]|er]]; done.
Qed.

(** The rest of a put, when its checks are behind it. *)
Definition n_commit (x : context) (e : WireEnvelope) : section WireEnvelope :=
  let a := put_arguments e in
  after (let* stored_ := on_store (put_transaction (x_io x) (x_store_now x) (x_clock x) a) in
         ret (match stored_ with Ok _ => Ok true | Err e => Err e end))
    (fun r => match r with
              | Ok (Ok true) =>
                  locked SeenNonces Writing
                    (let* _ := change_to (remember_nonce (p_key a) (p_nonce a)) in Threads.answer (found_reply x e))
              | Ok (Ok false) => Threads.answer (dht_error x (p_key a) "stale sequence")
              | Ok (Err _) => Threads.answer (dht_error x (p_key a) "storage error")
              | Err v => Ret (Err v)
              end).

(** The put that is welcome comes to its transaction. *)
Lemma welcome_to_commit x e n : welcome x e n ->
  exists n', runs None n (n_handle_put node_fingerprint x e) None n' (n_commit x e) /\
    store n' = store n /\ seen_nonces n' = seen_nonces n.
Proof.
  intros Hw. destruct (welcome_granted x e n Hw) as (n1 & Eg & Es & En). exists n1. split; [|done].
  eapply runs_trans; [by apply (runs_then _ _ _ _ _ tt (brackets_granted x e) Eg)|].
  assert (Hc : alone (n_put_checks x (put_arguments e)) n1 = (n1, Ok (Ok true))).
  { rewrite once_put_checks, Es, (wel_database _ _ _ Hw). by rewrite (acceptable_checks _ _ (wel_new _ _ _ Hw)). }
  exact (runs_then_after _ _ _ _ _ _ _ (brackets_put_checks x (put_arguments e)) Hc).
Qed.

Lemma brackets_commit x e : brackets_ (n_commit x e).
Proof. unfold n_commit. apply bracketed_after; [brackets|]. intros [[[|]|er]|v]; brackets. Qed.

Definition committed (x : context) (e : WireEnvelope) (n : Node) : Node :=
  let a := put_arguments e in
  remember_nonce (p_key a) (p_nonce a)
    (set_store n (replace_row (p_key a) (row_of (x_store_now x) a)
                    (insert_nonce (x_clock x) (p_key a) (p_nonce a) (store n)))).

Lemma once_commit x e n : x_io x = no_faults ->
  alone (n_commit x e) n = (committed x e n, Ok (found_reply x e)).
Proof.
  intros Hio. unfold n_commit. rewrite alone_after. rewrite Hio. reflexivity.
Qed.

(** A put that is welcome, alone. *)
Lemma welcome_alone x e n : welcome x e n ->
  exists n', alone (n_handle_put node_fingerprint x e) n = (n', Ok (found_reply x e)) /\
    kv_store (store n') = <[str_of e "key" := row_of (x_store_now x) (put_arguments e)]> (kv_store (store n)) /\
    nonce_log (store n') = <[(str_of e "key", int_of e "nonce" 0) := x_clock x]> (nonce_log (store n)) /\
    seen_nonces n' = <[str_of e "key" := {[int_of e "nonce" 0]} ∪ opt_or (seen_nonces n !! str_of e "key") ∅]> (seen_nonces n).
Proof.
  intros Hw. destruct (welcome_to_commit x e n Hw) as (n1 & Hr & Es & En).
  rewrite (runs_alone _ _ _ _ _ _ Hr), once_commit by apply Hw. eexists. split; [done|].
  unfold committed, remember_nonce, set_store, replace_row, insert_nonce. cbn [store kv_store nonce_log seen_nonces].
  rewrite Es, En. split_and!; [done| |done]. destruct (wel_new _ _ _ Hw) as (_ & Hl & _).
  change (p_nonce (put_arguments e)) with (int_of e "nonce" 0) in *. change (p_key (put_arguments e)) with (str_of e "key") in *.
  by rewrite Hl.
Qed.

Lemma handle_put_alone x e n n' r :
  alone (n_handle_put node_fingerprint x e) n = (n', Ok r) -> handle_put node_fingerprint x e n = (n', r).
Proof.
  intros Ha. pose proof (once_handle_put node_fingerprint x e n) as E.
  rewrite (once_replied _ _ _ _ (or_introl Ha)) in E. injection E as -> ->. by destruct (handle_put _ _ _ _).
Qed.

Lemma refusal_None x e n n' :
  put_refusal node_fingerprint x e n = None ->
  store_full x (str_of e "key") n' = false -> nonce_replayed (str_of e "key") (int_of e "nonce" 0) n' = false ->
  put_refusal node_fingerprint x e n' = None.
Proof.
  unfold put_refusal. intros Hr Hf Hn. rewrite Hf, Hn. repeat (case_match; try done).
Qed.

(** After a put that was welcome, a newer one under the same key is. *)
Lemma newer_welcome x y e e' n n' :
  welcome x e n -> welcome y e' n -> str_of e' "key" = str_of e "key" ->
  int_of e "seq" 0 < int_of e' "seq" 0 -> int_of e' "nonce" 0 <> int_of e "nonce" 0 ->
  kv_store (store n') = <[str_of e "key" := row_of (x_store_now x) (put_arguments e)]> (kv_store (store n)) ->
  nonce_log (store n') = <[(str_of e "key", int_of e "nonce" 0) := x_clock x]> (nonce_log (store n)) ->
  seen_nonces n' = <[str_of e "key" := {[int_of e "nonce" 0]} ∪ opt_or (seen_nonces n !! str_of e "key") ∅]> (seen_nonces n) ->
  welcome y e' n'.
Proof.
  intros Hx Hy Hk Hseq Hne Ekv Elog Eseen. destruct Hy as [Hc Hv Hd (Hval & Hlog & Hold)]. split; [|done|done|].
  - apply (refusal_None y e' n); [done|..].
    + unfold store_full, has_key, await, st_bind, st_guard, st_get, st_ret. rewrite Hd. cbn [no_faults st_guard].
      unfold st_ret. cbn [snd unwrap_or]. by rewrite Ekv, Hk, lookup_insert_eq.
    + apply put_refusal_None in Hc as [_ Hg]. pose proof (granted_nonce _ _ _ _ Hg) as Hn.
      unfold nonce_replayed in Hn |- *. rewrite Eseen, Hk, lookup_insert_eq. rewrite Hk in Hn.
      apply bool_decide_eq_false_2. destruct (seen_nonces n !! str_of e "key") as [z|]; cbn.
      * apply bool_decide_eq_false_1 in Hn. set_solver.
      * set_solver.
  - change (p_key (put_arguments e')) with (str_of e' "key") in *.
    change (p_nonce (put_arguments e')) with (int_of e' "nonce" 0) in *. split_and!; [done|..].
    + change (nonce_log (store n') !! (str_of e' "key", int_of e' "nonce" 0) = None).
      by rewrite Elog, lookup_insert_ne by (intros [=]; congruence).
    + intros r. change (p_key (put_arguments e')) with (str_of e' "key"). rewrite Ekv, Hk, lookup_insert_eq. by intros [= <-].
Qed.

(** C29: the older of two records can be left.  Two puts under one key, both
    welcome, arrive on two connections at the same moment.  Under some schedule
    the older one passes its checks, the newer is stored, and the older is
    stored over it: both publishers are told that their record is the one found,
    and the node serves the older.  Neither order of the two does this: whichever
    comes first, the newer record is left. *)
Theorem newer_record_overwritten (x y : context) (e e' : WireEnvelope) (n : Node) :
  let key := str_of e "key" in
  let seq_left m := DhtStore.seq <$> kv_store (store m) !! key in
  let put_ x e m := (handle_put node_fingerprint x e m).1 in
  welcome x e n -> welcome y e' n -> str_of e' "key" = key ->
  int_of e "seq" 0 < int_of e' "seq" 0 -> int_of e' "nonce" 0 <> int_of e "nonce" 0 ->
  (exists sched, let c := play sched (start n [n_handle_put node_fingerprint x e; n_handle_put node_fingerprint y e']) in
     outcome 0 c = Some (Ok (found_reply x e)) /\ outcome 1 c = Some (Ok (found_reply y e')) /\
     seq_left (shared c) = Some (int_of e "seq" 0)) /\
  seq_left (put_ y e' (put_ x e n)) = Some (int_of e' "seq" 0) /\
  seq_left (put_ x e (put_ y e' n)) = Some (int_of e' "seq" 0).
Proof.
  intros key seq_left put_ Hx Hy Hk Hseq Hne.
  destruct (welcome_alone x e n Hx) as (nx & Ex & Kx & Lx & Sx).
  destruct (welcome_alone y e' n Hy) as (ny & Ey & Ky & Ly & Sy). split_and!.
  - destruct (welcome_to_commit x e n Hx) as (n1 & R1 & Es & En).
    destruct (welcome_alone y e' n1 (welcome_same y e' n n1 Es En Hy)) as (n2 & E2 & K2 & _).
    pose proof (runs_end _ (n_handle_put node_fingerprint y e') n1 (brackets_handle_put y e')) as R2. rewrite E2 in R2.
    pose proof (runs_end _ (n_commit x e) n2 (brackets_commit x e)) as R3. rewrite once_commit in R3 by apply Hx.
    destruct (runs_play 0 _ _ _ _ _ _ R1 [n_handle_put node_fingerprint x e; n_handle_put node_fingerprint y e'] eq_refl)
      as [l1 P1].
    destruct (runs_play 1 _ _ _ _ _ _ R2 [n_commit x e; n_handle_put node_fingerprint y e'] eq_refl) as [l2 P2].
    destruct (runs_play 0 _ _ _ _ _ _ R3 [n_commit x e; Ret (Ok (found_reply y e'))] eq_refl) as [l3 P3].
    cbn [mine] in P1, P2, P3. exists (l1 ++ l2 ++ l3). cbv zeta. unfold start.
    assert (Hall : play (l1 ++ l2 ++ l3) (mkConfig n []
        [n_handle_put node_fingerprint x e; n_handle_put node_fingerprint y e']) =
      mkConfig (committed x e n2) [] [Ret (Ok (found_reply x e)); Ret (Ok (found_reply y e'))]).
    { rewrite !play_app, P1. etrans; [apply (f_equal (play l3)); exact P2|]. exact P3. }
    rewrite Hall. split_and!; [done|done|].
    unfold seq_left, committed, remember_nonce, set_store, replace_row. cbn [shared store kv_store].
    change (p_key (put_arguments e)) with key. by rewrite lookup_insert_eq.
  - unfold put_. rewrite (handle_put_alone x e n _ _ Ex). cbn [fst].
    pose proof (newer_welcome x y e e' n nx Hx Hy Hk Hseq Hne Kx Lx Sx) as Hw.
    destruct (welcome_alone y e' nx Hw) as (n2 & E2 & K2 & _). rewrite (handle_put_alone y e' nx _ _ E2). cbn [fst].
    unfold seq_left. rewrite K2, Hk, lookup_insert_eq. done.
  - unfold put_. rewrite (handle_put_alone y e' n _ _ Ey). cbn [fst].
    destruct (handle_put node_fingerprint x e ny) as [n2 r] eqn:E2. cbn [fst]. unfold seq_left.
    apply handle_put_cases in E2 as [(_ & -> & _)|(_ & _ & _ & (_ & _ & Hold) & _)].
    + rewrite Ky, Hk, lookup_insert_eq. done.
    + exfalso. specialize (Hold (row_of (x_store_now y) (put_arguments e'))).
      change (p_key (put_arguments e)) with key in Hold. rewrite Ky, Hk, lookup_insert_eq in Hold.
      specialize (Hold eq_refl). cbn in Hold. lia.
Qed.
End node.

(** ** A concrete race *)

#[local] Existing Instances toy_argon2 toy_blake2 toy_base64 toy_sequoia.

Definition own_put (value : string) (seq nonce : Z) : WireEnvelope :=
  mkWireEnvelope "dht-put"
    (VObject [("key", VString victim_id); ("value", VString value); ("salt", VString "s");
              ("seq", json_int seq); ("nonce", json_int nonce); ("publisher_fp", VString victim_fp);
              ("publisher_cert", VString ("CERT:" +:+ victim_fp))])
    "id" (f64_of_Z 1000) (b64_sig victim_fp (put_sign_data victim_id value "s" seq nonce)).

Lemma own_put_welcome value seq nonce :
  put_refusal "NODE" (calm 1000) (own_put value seq nonce) (new_node empty_store) = None ->
  (verify_dht_put_signature 1000 (put_sign_data victim_id value "s" seq nonce) (b64_sig victim_fp (put_sign_data victim_id value "s" seq nonce))
     victim_fp (own_put value seq nonce) None).2 = true ->
  str_of (own_put value seq nonce) "value" = value -> slen value <= STORE_MAX_VALUE_SIZE ->
  str_of (own_put value seq nonce) "key" = victim_id -> str_of (own_put value seq nonce) "salt" = "s" ->
  int_of (own_put value seq nonce) "seq" 0 = seq -> int_of (own_put value seq nonce) "nonce" 0 = nonce ->
  str_of (own_put value seq nonce) "publisher_fp" = victim_fp ->
  payload_str (own_put value seq nonce) "publisher_cert" = Some ("CERT:" +:+ victim_fp) ->
  welcome "NODE" (calm 1000) (own_put value seq nonce) (new_node empty_store).
Proof.
  intros Hr Hv Ev Hs Ek Es Eq En Ef Ec. split; [exact Hr| |reflexivity|].
  - intros c. rewrite Ek, Ev, Es, Eq, En, Ef. revert Hv. unfold verify_dht_put_signature. rewrite Ec.
    replace (cert_from_bytes ("CERT:" +:+ victim_fp)) with (Ok (E := string) (A := @cert toy_sequoia) victim_fp) by reflexivity.
    change (Envelope.sig (own_put value seq nonce)) with (b64_sig victim_fp (put_sign_data victim_id value "s" seq nonce)).
    unfold verify_signature_with_cert. by destruct (decode_sig _).
  - apply empty_acceptable. change (slen (str_of (own_put value seq nonce) "value") <= STORE_MAX_VALUE_SIZE). by rewrite Ev.
Qed.

Theorem newer_record_overwritten_witness :
  (exists sched, let c := play sched (start (new_node empty_store)
       [n_handle_put "NODE" (calm 1000) (own_put "old" 0 1); n_handle_put "NODE" (calm 1000) (own_put "new" 1 3)]) in
     outcome 1 c = Some (Ok (found_reply (calm 1000) (own_put "new" 1 3))) /\
     (DhtStore.seq <$> kv_store (store (shared c)) !! victim_id) = Some 0).
Proof.
  destruct (newer_record_overwritten "NODE" (calm 1000) (calm 1000) (own_put "old" 0 1) (own_put "new" 1 3)
    (new_node empty_store)) as [(sched & H0 & H1 & Hs) _].
  - apply own_put_welcome; first [vm_compute; reflexivity|vm_compute; discriminate].
  - apply own_put_welcome; first [vm_compute; reflexivity|vm_compute; discriminate].
  - vm_compute. reflexivity.
  - vm_compute. reflexivity.
  - vm_compute. discriminate.
  - exists sched. split; [exact H1|exact Hs].
Defined.
