(* ===== verification/Mailbox.v ===== *)
(** * The mailboxes of the relay (src/relay/src/main.rs, Mailbox)

    One list of entries per recipient, oldest first, with a cap per sender and
    a cap on the whole. *)

From S2P Require Import Prelude.

(** Source: relay/src/main.rs:32-32, MAX_MAILBOX_SIZE. *)
Definition MAX_MAILBOX_SIZE : Z := 1000.
(** Source: relay/src/main.rs:33-33, MAILBOX_TTL_SECONDS. *)
Definition MAILBOX_TTL_SECONDS : Z := 604800.
(** Source: relay/src/main.rs:234-237, MAX_ENTRIES_PER_SENDER. *)
Definition MAX_ENTRIES_PER_SENDER : Z := 10.

(** Source: relay/src/main.rs:219-226, MailboxEntry. *)
Record MailboxEntry : Type := mkMailboxEntry {
  signed_blob : string;
  sender_nid : string;
  sender_fp : string;
  seq : Z;             (* i64 *)
  stored_at : Z;       (* u64, seconds *)
}.

(** Source: relay/src/main.rs:228-232, Mailbox. *)
Record Mailbox : Type := mkMailbox { entries : list MailboxEntry; max_size : Z }.

Definition with_entries (m : Mailbox) (l : list MailboxEntry) : Mailbox := mkMailbox l (max_size m).

(** Source: relay/src/main.rs:240-245, Mailbox::new. *)
Definition new (max_size : Z) : Mailbox := mkMailbox [] max_size.

Definition from_sender (fp : string) (l : list MailboxEntry) : list MailboxEntry :=
  List.filter (fun e => String.eqb (sender_fp e) fp) l.

(** [position] and [remove]: the oldest entry of one sender leaves.
    Source: relay/src/main.rs:253-256, Mailbox::store. *)
Fixpoint remove_oldest_of (fp : string) (l : list MailboxEntry) : list MailboxEntry :=
  match l with
  | [] => []
  | e :: l' => if String.eqb (sender_fp e) fp then l' else e :: remove_oldest_of fp l'
  end.

(** [entries.remove(0)] panics on an empty list, which takes a mailbox of size
    zero; every mailbox of the relay is made with [MAX_MAILBOX_SIZE].
    Source: relay/src/main.rs:247-262, Mailbox::store. *)
Definition store (entry : MailboxEntry) (m : Mailbox) : Mailbox :=
  let sender_count := zlen (from_sender (sender_fp entry) (entries m)) in
  let kept :=
    if MAX_ENTRIES_PER_SENDER <=? sender_count then remove_oldest_of (sender_fp entry) (entries m)
    else if max_size m <=? zlen (entries m) then tail (entries m)
    else entries m in
  with_entries m (kept ++ [entry]).

(** [now - e.stored_at < MAILBOX_TTL_SECONDS] on [u64]: without overflow
    checks, an entry stamped after [now] has an age close to [2^64]. *)
Definition live (now : Z) (e : MailboxEntry) : bool :=
  u64 (now - stored_at e) <? MAILBOX_TTL_SECONDS.

(** Source: relay/src/main.rs:264-274, Mailbox::fetch. *)
Definition fetch (now : Z) (m : Mailbox) : list MailboxEntry := List.filter (live now) (entries m).

(** Source: relay/src/main.rs:276-278, Mailbox::ack. *)
Definition ack (s : Z) (m : Mailbox) : Mailbox :=
  with_entries m (List.filter (fun e => negb (seq e =? s)) (entries m)).

(** The step of [cleanup_expired] on one mailbox.
    Source: relay/src/main.rs:825-827, RelayState::cleanup_expired. *)
Definition expire (now : Z) (m : Mailbox) : Mailbox := with_entries m (fetch now m).

(** ** Caps *)

Record mailbox_inv (m : Mailbox) : Prop := {
  inv_size : zlen (entries m) <= max_size m;
  inv_sender fp : zlen (from_sender fp (entries m)) <= MAX_ENTRIES_PER_SENDER;
}.

Lemma zlen_app {A} (l k : list A) : zlen (l ++ k) = zlen l + zlen k.
Proof. unfold zlen. rewrite length_app. lia. Qed.

Lemma from_sender_app fp l k : from_sender fp (l ++ k) = from_sender fp l ++ from_sender fp k.
Proof. apply List.filter_app. Qed.

Lemma filter_zlen_le {A} (p : A -> bool) l : zlen (List.filter p l) <= zlen l.
Proof.
  unfold zlen. induction l as [|a l IH]; simpl; [lia|]. destruct (p a); simpl; lia.
Qed.

Lemma filter_comm {A} (p q : A -> bool) l :
  List.filter p (List.filter q l) = List.filter q (List.filter p l).
Proof.
  induction l as [|a l IH]; [done|]. simpl.
  destruct (q a) eqn:Eq, (p a) eqn:Ep; simpl; rewrite ?Eq, ?Ep, IH; done.
Qed.

Lemma remove_oldest_zlen fp l :
  from_sender fp l <> [] -> zlen (remove_oldest_of fp l) = zlen l - 1.
Proof.
  unfold zlen. induction l as [|e l IH]; [done|]. simpl.
  destruct (String.eqb (sender_fp e) fp); [simpl; lia|]. intros Hl. specialize (IH Hl).
  simpl. destruct l; [done|]. simpl in *. lia.
Qed.

Lemma remove_oldest_sender fp fp' l :
  from_sender fp' (remove_oldest_of fp l) =
  if String.eqb fp' fp then tail (from_sender fp l) else from_sender fp' l.
Proof.
  induction l as [|e l IH]; [by destruct (String.eqb fp' fp)|]. simpl.
  destruct (String.eqb_spec (sender_fp e) fp) as [<-|Hne]; simpl.
  - destruct (String.eqb_spec fp' (sender_fp e)) as [->|Hne]; [done|].
    destruct (String.eqb_spec (sender_fp e) fp'); [congruence|done].
  - rewrite IH. destruct (String.eqb_spec fp' fp) as [->|]; [|done].
    destruct (String.eqb_spec (sender_fp e) fp); [congruence|done].
Qed.

Lemma tail_sender_le fp l : zlen (from_sender fp (tail l)) <= zlen (from_sender fp l).
Proof.
  destruct l as [|e l]; [done|]. unfold zlen. simpl. destruct (String.eqb _ _); simpl; lia.
Qed.

Lemma store_inv e m : 0 < max_size m -> mailbox_inv m -> mailbox_inv (store e m).
Proof.
  intros Hm [Hs Hf]. unfold store. set (n := zlen _).
  destruct (Z.leb_spec MAX_ENTRIES_PER_SENDER n) as [Hn|Hn];
    [|destruct (Z.leb_spec (max_size m) (zlen (entries m))) as [Hfull|Hfull]].
  - assert (Hne : from_sender (sender_fp e) (entries m) <> []).
    { intros E. unfold n in Hn. rewrite E in Hn. unfold MAX_ENTRIES_PER_SENDER in Hn. by compute in Hn. }
    split; simpl.
    + rewrite zlen_app, remove_oldest_zlen by done. unfold zlen at 2. simpl. lia.
    + intros fp. rewrite from_sender_app, zlen_app, remove_oldest_sender. specialize (Hf fp). simpl.
      rewrite (String.eqb_sym (sender_fp e) fp).
      destruct (String.eqb_spec fp (sender_fp e)) as [->|]; [|unfold zlen at 2; simpl; lia].
      destruct (from_sender (sender_fp e) (entries m)); [done|]. unfold zlen in *. simpl in *. lia.
  - split; simpl.
    + rewrite zlen_app. unfold zlen in *. destruct (entries m); simpl in *; lia.
    + intros fp. rewrite from_sender_app, zlen_app. specialize (Hf fp).
      pose proof (tail_sender_le fp (entries m)). simpl.
      destruct (String.eqb_spec (sender_fp e) fp) as [<-|]; unfold zlen at 2; simpl; lia.
  - split; simpl.
    + rewrite zlen_app. unfold zlen at 2. simpl. lia.
    + intros fp. rewrite from_sender_app, zlen_app. specialize (Hf fp). simpl.
      destruct (String.eqb_spec (sender_fp e) fp) as [<-|]; unfold zlen at 2; simpl; lia.
Qed.

Lemma filter_inv p m :
  mailbox_inv m -> mailbox_inv (with_entries m (List.filter p (entries m))).
Proof.
  intros [Hs Hf]. split; simpl.
  - pose proof (filter_zlen_le p (entries m)). lia.
  - intros fp. unfold from_sender. rewrite filter_comm. pose proof (filter_zlen_le p (from_sender fp (entries m))).
    specialize (Hf fp). unfold from_sender in *. lia.
Qed.

(** What happens to a mailbox. *)
Inductive op : Type := OStore (e : MailboxEntry) | OAck (s : Z) | OExpire (now : Z).

Definition apply_op (m : Mailbox) (o : op) : Mailbox :=
  match o with OStore e => store e m | OAck s => ack s m | OExpire now => expire now m end.

Lemma run_ops_inv os m :
  0 < max_size m -> mailbox_inv m ->
  mailbox_inv (foldl apply_op m os) /\ max_size (foldl apply_op m os) = max_size m.
Proof.
  revert m. induction os as [|o os IH]; intros m Hm Hi; [done|]. simpl.
  assert (max_size (apply_op m o) = max_size m) as Hsz by (by destruct o).
  rewrite <- Hsz. apply IH; [by rewrite Hsz|].
  destruct o; [by apply store_inv|by apply filter_inv|by apply filter_inv].
Qed.

(** At the cap of a sender only entries of that sender make room. *)
Lemma store_isolated e m fp :
  MAX_ENTRIES_PER_SENDER <= zlen (from_sender (sender_fp e) (entries m)) ->
  fp <> sender_fp e ->
  from_sender fp (entries (store e m)) = from_sender fp (entries m).
Proof.
  intros Hcap Hne. unfold store. destruct (Z.leb_spec MAX_ENTRIES_PER_SENDER (zlen (from_sender (sender_fp e) (entries m)))); [|lia].
  simpl. rewrite from_sender_app, remove_oldest_sender. simpl.
  destruct (String.eqb_spec fp (sender_fp e)); [done|].
  destruct (String.eqb_spec (sender_fp e) fp); [congruence|]. by rewrite app_nil_r.
Qed.

(** Stores under names the mailbox has not seen: the last [max_size] of the
    entries remain. *)
Lemma store_fresh e m :
  from_sender (sender_fp e) (entries m) = [] -> 0 < max_size m -> zlen (entries m) <= max_size m ->
  entries (store e m) =
  drop (Z.to_nat (zlen (entries m) + 1 - max_size m)) (entries m ++ [e]).
Proof.
  intros Hf Hm Hs. unfold store. rewrite Hf. simpl.
  destruct (Z.leb_spec (max_size m) (zlen (entries m))) as [Hfull|].
  - replace (Z.to_nat (zlen (entries m) + 1 - max_size m)) with 1%nat by lia.
    destruct (entries m); [unfold zlen in Hfull; simpl in Hfull; lia|done].
  - by replace (Z.to_nat (zlen (entries m) + 1 - max_size m)) with 0%nat by lia.
Qed.

Lemma from_sender_fresh fp l :
  fp ∉ (sender_fp <$> l) -> from_sender fp l = [].
Proof.
  induction l as [|e l IH]; [done|]. rewrite fmap_cons, not_elem_of_cons. intros [Hne Hl]. simpl.
  destruct (String.eqb_spec (sender_fp e) fp); [congruence|auto].
Qed.

Lemma flood_entries es m :
  NoDup (sender_fp <$> es) -> (forall e, e ∈ es -> sender_fp e ∉ (sender_fp <$> entries m)) ->
  0 < max_size m -> zlen (entries m) <= max_size m ->
  entries (foldl (fun m e => store e m) m es) =
  drop (Z.to_nat (zlen (entries m) + zlen es - max_size m)) (entries m ++ es).
Proof.
  revert m. induction es as [|e es IH]; intros m Hnd Hfr Hm Hs.
  - simpl. rewrite app_nil_r.
    by replace (Z.to_nat _) with 0%nat by (unfold zlen in *; simpl; lia).
  - simpl. rewrite fmap_cons, NoDup_cons in Hnd. destruct Hnd as [He Hnd].
    pose proof (store_fresh e m (from_sender_fresh _ _ (Hfr e (list_elem_of_here _ _))) Hm Hs) as E.
    assert (Hsz : max_size (store e m) = max_size m) by done.
    assert (Hlen : zlen (entries (store e m)) = Z.min (zlen (entries m) + 1) (max_size m)).
    { rewrite E. unfold zlen in *. rewrite length_drop, length_app. simpl. lia. }
    rewrite IH, Hsz, Hlen, E; [|done| |by rewrite Hsz|lia].
    + rewrite (cons_middle e (entries m) es), app_assoc.
      assert (Hd : forall n, (n <= length (entries m ++ [e]))%nat ->
        drop n (entries m ++ [e]) ++ es = drop n ((entries m ++ [e]) ++ es)).
      { intros n Hn. symmetry. by apply drop_app_le. }
      rewrite Hd by (rewrite length_app; unfold zlen in *; simpl; lia).
      rewrite drop_drop. f_equal. unfold zlen. simpl. lia.
    + intros e' He' Hin. rewrite E, fmap_drop, fmap_app in Hin.
      apply subseteq_drop, elem_of_app in Hin as [Hin|Hin%list_elem_of_singleton].
      * by apply (Hfr e' (list_elem_of_further _ _ _ He')).
      * apply He. rewrite <- Hin. by apply list_elem_of_fmap_2.
Qed.

(** Whatever is stored, acknowledged and expired, a mailbox holds at most
    its size in entries and at most ten of one sender; a new entry is always
    kept, as the last one; while there is room it is simply appended; and a
    sender at its cap takes no entry from anyone else. *)
Theorem mailbox_bounded (n : Z) (os : list op) (e : MailboxEntry) :
  0 < n ->
  let m := foldl apply_op (new n) os in
  zlen (entries m) <= n /\
  (forall fp, zlen (from_sender fp (entries m)) <= MAX_ENTRIES_PER_SENDER) /\
  last (entries (store e m)) = Some e /\
  (zlen (from_sender (sender_fp e) (entries m)) < MAX_ENTRIES_PER_SENDER ->
   zlen (entries m) < n -> entries (store e m) = entries m ++ [e]) /\
  (MAX_ENTRIES_PER_SENDER <= zlen (from_sender (sender_fp e) (entries m)) ->
   forall fp, fp <> sender_fp e ->
   from_sender fp (entries (store e m)) = from_sender fp (entries m)).
Proof.
  intros Hn m.
  destruct (run_ops_inv os (new n)) as [[Hs Hf] Hsz]; [done|by split; simpl; [unfold zlen; simpl; lia|]|].
  fold m in Hs, Hf, Hsz. simpl in Hsz. split_and!; [by rewrite <- Hsz|exact Hf| | |].
  - apply last_snoc.
  - intros Hc Hl. unfold store. destruct (Z.leb_spec MAX_ENTRIES_PER_SENDER (zlen (from_sender (sender_fp e) (entries m)))); [lia|].
    destruct (Z.leb_spec (max_size m) (zlen (entries m))); [lia|done].
  - intros Hc fp Hne. by apply store_isolated.
Qed.

Definition sample_entry (fp : string) (s : Z) : MailboxEntry := mkMailboxEntry "blob" "NN-AAAA-BBBB" fp s 100.

Theorem mailbox_bounded_witness :
  from_sender "B" (entries (store (sample_entry "A" 11)
    (foldl apply_op (new 11) (OStore (sample_entry "B" 0) ::
      map (fun i => OStore (sample_entry "A" (Z.of_nat i))) (List.seq 1 10)))))
  = [sample_entry "B" 0].
Proof.
  destruct (mailbox_bounded 11 (OStore (sample_entry "B" 0) ::
    map (fun i => OStore (sample_entry "A" (Z.of_nat i))) (List.seq 1 10)) (sample_entry "A" 11))
    as (_ & _ & _ & _ & Hi); [lia|].
  rewrite Hi; [vm_compute; reflexivity|vm_compute; discriminate|discriminate].
Defined.

(** An entry stamped one second after the clock is not delivered, and the
    next cleanup removes it: the age is taken in [u64]. *)
Lemma stamped_ahead_is_dropped (e : MailboxEntry) (m : Mailbox) :
  0 <= stored_at e < 2 ^ 63 ->
  e ∉ entries (expire (stored_at e - 1) m) /\ e ∉ fetch (stored_at e - 1) m.
Proof.
  intros He. enough (e ∉ fetch (stored_at e - 1) m) by done.
  unfold fetch. rewrite list_elem_of_In, List.filter_In. intros [_ Hl]. unfold live in Hl.
  replace (stored_at e - 1 - stored_at e) with (-1) in Hl by lia. by vm_compute in Hl.
Qed.
