(* ===== verification/RelayAuth.v ===== *)
(** * Authentication at the relay (src/relay/src/main.rs)

    The shared-secret HMAC, the logs of nonces and the signature check with
    its own certificate cache.  The clock and the outcome of the two [try_]
    locks are arguments. *)

From S2P Require Import Prelude Text Primitives Concrete Json Gpg.

(** Seconds. Source: relay/src/main.rs:404-405, STORE_TIMESTAMP_TOLERANCE_SECS. *)
Definition STORE_TIMESTAMP_TOLERANCE_SECS : Z := 300.
(** Source: relay/src/main.rs:407-408, MAX_NONCES_PER_SENDER. *)
Definition MAX_NONCES_PER_SENDER : Z := 1000.

(** ** HMAC *)

Section hmac.
Context `{Hmac} `{Hex}.

(** Source: relay/src/main.rs:1964-1976, compute_hmac. *)
Definition compute_hmac (data secret : string) : string :=
  hex_encode (hmac_sha256 (str_bytes secret) (str_bytes data)).

(** A byte of a string, zero past its end.
    Source: relay/src/main.rs:1939-1948, verify_hmac. *)
Definition byte_or_zero (l : bytes) (i : nat) : Z := nth i l 0.

(** The accumulated difference, the lengths as [u8] included.
    Source: relay/src/main.rs:1924-1954, verify_hmac. *)
Definition hmac_diff (c p : bytes) : Z :=
  let max_len := Nat.max (length c) (length p) in
  let acc := foldl (fun acc i => Z.lor acc (Z.lxor (byte_or_zero c i) (byte_or_zero p i)))
                   0 (List.seq 0 max_len) in
  Z.lor acc (Z.lxor (u8 (zlen c)) (u8 (zlen p))).

(** Source: relay/src/main.rs:1924-1954, verify_hmac. *)
Definition verify_hmac (data provided_hmac secret : string) : bool :=
  hmac_diff (str_bytes (compute_hmac data secret)) (str_bytes provided_hmac) =? 0.

Lemma lxor_eq_0 a b : Z.lxor a b = 0 <-> a = b.
Proof. split; [apply Z.lxor_eq|intros ->; apply Z.lxor_nilpotent]. Qed.

Lemma lor_fold_0 (f : nat -> Z) l acc :
  foldl (fun acc i => Z.lor acc (f i)) acc l = 0 <-> acc = 0 /\ forall i, i ∈ l -> f i = 0.
Proof.
  revert acc. induction l as [|i l IH]; intros acc; simpl.
  - split; [intros ->; split; [done|intros i Hi; by apply elem_of_nil in Hi]|by intros [? _]].
  - rewrite IH, Z.lor_eq_0_iff. split.
    + intros [[? ?] Hl]. split; [done|]. intros j Hj. apply elem_of_cons in Hj as [->|Hj]; auto.
    + intros [? Hl]. split_and!; [done|apply Hl; left|intros j Hj; apply Hl; by right].
Qed.

Lemma hmac_diff_0 c p :
  hmac_diff c p = 0 <->
  (forall i, byte_or_zero c i = byte_or_zero p i) /\ u8 (zlen c) = u8 (zlen p).
Proof.
  unfold hmac_diff. rewrite Z.lor_eq_0_iff, lor_fold_0, lxor_eq_0. split.
  - intros [[_ Hl] ?]. split; [|done]. intros i.
    destruct (Nat.lt_ge_cases i (Nat.max (length c) (length p))) as [Hi|Hi].
    + apply lxor_eq_0, Hl, list_elem_of_In, in_seq. lia.
    + unfold byte_or_zero. rewrite !nth_overflow by lia. done.
  - intros [He ?]. split_and!; [done| |done]. intros i _. by apply lxor_eq_0.
Qed.

(** Bytes that agree with [c] followed by zeros are [c] and zeros, when [c]
    has no zero byte. *)
Lemma zero_padded c p :
  Forall (fun b => b <> 0) c -> (forall i, byte_or_zero c i = byte_or_zero p i) ->
  p = c ++ replicate (length p - length c) 0.
Proof.
  unfold byte_or_zero. intros Hc. revert p. induction Hc as [|b c Hb Hc IH]; intros p He.
  - simpl. rewrite Nat.sub_0_r. induction p as [|a p IHp]; [done|]. simpl. f_equal.
    + symmetry. exact (He 0%nat).
    + apply IHp. intros i. specialize (He (S i)). simpl in He. by destruct i.
  - destruct p as [|a p]; [by specialize (He 0%nat)|]. simpl. f_equal.
    + symmetry. exact (He 0%nat).
    + apply IH. intros i. exact (He (S i)).
Qed.

Lemma hex_nonzero s : str_all is_ascii_hexdigit s = true -> Forall (fun b => b <> 0) (str_bytes s).
Proof.
  induction s as [|a s IH]; [constructor|]. cbn [str_all str_bytes].
  rewrite andb_true_iff. intros [Ha Hs]. constructor; [|auto].
  intros E. change (code a = 0) in E. unfold is_ascii_hexdigit in Ha. by rewrite E in Ha.
Qed.

Lemma nth_replicate_0 k i : nth i (replicate k 0) 0 = 0.
Proof. revert i. induction k as [|k IH]; intros [|i]; simpl; auto. Qed.

(** The comparison accepts the expected hexadecimal digest, and that
    digest followed by zero bytes in a multiple of 256, and nothing else. *)
Theorem verify_hmac_spec (data provided secret : string) :
  verify_hmac data provided secret = true <->
  exists k : nat,
    str_bytes provided = str_bytes (compute_hmac data secret) ++ replicate (256 * k) 0.
Proof.
  unfold verify_hmac. rewrite Z.eqb_eq, hmac_diff_0.
  set (c := str_bytes (compute_hmac data secret)). set (p := str_bytes provided).
  assert (Hc : Forall (fun b => b <> 0) c) by (apply hex_nonzero, hex_encode_digits).
  split.
  - intros [He Hl]. pose proof (zero_padded c p Hc He) as Hp.
    assert (Hlen : (length c <= length p)%nat).
    { rewrite Hp, length_app. lia. }
    exists (Z.to_nat ((zlen p - zlen c) / 256)). rewrite Hp at 1. do 2 f_equal.
    assert (Hm : (zlen p - zlen c) mod 256 = 0).
    { unfold u8, wrap in Hl. change (2 ^ 8) with 256 in Hl.
      by rewrite Zminus_mod, <- Hl, Z.sub_diag. }
    pose proof (Z.div_mod (zlen p - zlen c) 256). unfold zlen in *.
    pose proof (Z.div_pos (Z.of_nat (length p) - Z.of_nat (length c)) 256). lia.
  - intros [k ->]. split.
    + intros i. unfold byte_or_zero. destruct (Nat.lt_ge_cases i (length c)).
      * by rewrite app_nth1.
      * rewrite app_nth2, (nth_overflow c) by lia. symmetry.
        apply nth_replicate_0.
    + unfold zlen. rewrite length_app, length_replicate. unfold u8, wrap.
      change (2 ^ 8) with 256. replace (Z.of_nat (length c + 256 * k)) with (Z.of_nat (length c) + Z.of_nat k * 256) by lia.
      by rewrite Z.mod_add.
Qed.
End hmac.

(** ** Logs of nonces *)

Abbreviation str_nonces := (gmap string (list (string * Z))).
Abbreviation int_nonces := (gmap string (list Z)).

(** [if entry.len() >= MAX { entry.drain(0..len / 2) }].
    Source: relay/src/main.rs:617-619, RelayState::check_and_record_nonce_str. *)
Definition drain_half {A} (entry : list A) : list A :=
  if MAX_NONCES_PER_SENDER <=? zlen entry then drop (length entry / 2) entry else entry.

(** Source: relay/src/main.rs:570-595, RelayState::check_and_record_nonce. *)
Definition check_and_record_nonce (sender_fp : string) (nonce : Z) (m : int_nonces)
  : int_nonces * bool :=
  let entry := opt_or (m !! sender_fp) [] in
  if existsb (Z.eqb nonce) entry then (<[sender_fp := entry]> m, false)
  else
    let cutoff := i64 (nonce - STORE_TIMESTAMP_TOLERANCE_SECS) in
    let entry := List.filter (fun n => cutoff <=? n) entry in
    (<[sender_fp := drain_half entry ++ [nonce]]> m, true).

(** Source: relay/src/main.rs:597-623, RelayState::check_and_record_nonce_str. *)
Definition check_and_record_nonce_str (now : Z) (sender_fp nonce : string) (m : str_nonces)
  : str_nonces * bool :=
  let entry := opt_or (m !! sender_fp) [] in
  if existsb (fun e => String.eqb e.1 nonce) entry then (<[sender_fp := entry]> m, false)
  else
    let cutoff := now - STORE_TIMESTAMP_TOLERANCE_SECS in
    let entry := List.filter (fun e => cutoff <=? e.2) entry in
    (<[sender_fp := drain_half entry ++ [(nonce, now)]]> m, true).

(** A request: the clock, the fingerprint it claims, its nonce. *)
Record call : Type := mkCall { c_now : Z; c_fp : string; c_nonce : string }.

Definition record_call (m : str_nonces) (c : call) : str_nonces :=
  (check_and_record_nonce_str (c_now c) (c_fp c) (c_nonce c) m).1.

Definition logged (fp : string) (m : str_nonces) : list (string * Z) := opt_or (m !! fp) [].

Lemma record_call_other m c fp : fp <> c_fp c -> logged fp (record_call m c) = logged fp m.
Proof.
  intros Hne. unfold record_call, check_and_record_nonce_str, logged.
  destruct (existsb _ _); simpl; by rewrite lookup_insert_ne.
Qed.

Lemma record_call_same m c :
  logged (c_fp c) (record_call m c) =
  if existsb (fun e => String.eqb e.1 (c_nonce c)) (logged (c_fp c) m) then logged (c_fp c) m
  else drain_half (List.filter (fun e => c_now c - STORE_TIMESTAMP_TOLERANCE_SECS <=? e.2)
                               (logged (c_fp c) m)) ++ [(c_nonce c, c_now c)].
Proof.
  unfold record_call, check_and_record_nonce_str, logged.
  destruct (existsb _ _); simpl; by rewrite lookup_insert_eq.
Qed.

Lemma filter_length_le {A} (p : A -> bool) l : (length (List.filter p l) <= length l)%nat.
Proof. induction l as [|a l IH]; simpl; [lia|]. destruct (p a); simpl; lia. Qed.

Lemma drain_half_length {A} (l : list A) :
  (length l <= 1000)%nat -> (length (drain_half l) < 1000)%nat.
Proof.
  intros Hl. unfold drain_half, MAX_NONCES_PER_SENDER, zlen.
  destruct (Z.leb_spec 1000 (Z.of_nat (length l))) as [Hc|]; [|lia].
  rewrite length_drop. pose proof (Nat.div_le_mono 1000 (length l) 2 ltac:(done) ltac:(lia)) as Hd.
  change (1000 / 2)%nat with 500%nat in Hd. lia.
Qed.

(** No fingerprint has more than a thousand nonces. *)
Lemma record_call_bounded m c fp :
  (length (logged fp m) <= 1000)%nat -> (length (logged fp (record_call m c)) <= 1000)%nat.
Proof.
  intros IH. destruct (decide (fp = c_fp c)) as [->|Hne]; [|by rewrite record_call_other].
  rewrite record_call_same. destruct (existsb _ _); [done|].
  rewrite length_app. cbn [length].
  match goal with |- context [drain_half (List.filter ?p ?l)] =>
    pose proof (filter_length_le p l); pose proof (drain_half_length (List.filter p l)) end.
  lia.
Qed.

Lemma logs_bounded cs fp : (length (logged fp (foldl record_call ∅ cs)) <= 1000)%nat.
Proof.
  induction cs as [|c cs IH] using rev_ind; [unfold logged; simpl; rewrite lookup_empty; simpl; lia|].
  rewrite foldl_snoc. by apply record_call_bounded.
Qed.

(** The nonce is logged with few enough younger ones. *)
Definition remembered (fp nonce : string) (t : Z) (younger : nat) (m : str_nonces) : Prop :=
  exists pre post, logged fp m = pre ++ (nonce, t) :: post /\
    (length post <= younger)%nat /\ (length (logged fp m) <= 1000)%nat.

(** So is a nonce that was just accepted. *)
Lemma fresh_remembered m c :
  existsb (fun e => String.eqb e.1 (c_nonce c)) (logged (c_fp c) m) = false ->
  (length (logged (c_fp c) m) <= 1000)%nat ->
  remembered (c_fp c) (c_nonce c) (c_now c) 0 (record_call m c).
Proof.
  intros Hnew Hl. pose proof (record_call_bounded m c (c_fp c) Hl) as Hb.
  unfold remembered. rewrite record_call_same, Hnew in *. eexists _, []. split_and!; [done|simpl; lia|done].
Qed.

Lemma remembered_seen fp nonce t k m :
  remembered fp nonce t k m ->
  existsb (fun e => String.eqb e.1 nonce) (logged fp m) = true.
Proof.
  intros (pre & post & -> & _). rewrite existsb_app. simpl. rewrite String.eqb_refl.
  apply orb_true_r.
Qed.

Lemma drain_keeps {A} (pre post : list A) x :
  (length (pre ++ x :: post) <= 1000)%nat -> (length post <= 498)%nat ->
  exists pre', drain_half (pre ++ x :: post) = pre' ++ x :: post.
Proof.
  intros Hl Hp. unfold drain_half, MAX_NONCES_PER_SENDER, zlen.
  destruct (Z.leb_spec 1000 (Z.of_nat (length (pre ++ x :: post)))) as [Hc|]; [|by exists pre].
  assert (length (pre ++ x :: post) = 1000%nat) as E by lia. rewrite E.
  change (1000 / 2)%nat with 500%nat. rewrite length_app in E. cbn [length] in E.
  exists (drop 500 pre). rewrite drop_app_le by lia. done.
Qed.

Lemma remembered_step fp nonce t k m c :
  remembered fp nonce t k m -> c_now c <= t + STORE_TIMESTAMP_TOLERANCE_SECS ->
  (k <= 498)%nat ->
  remembered fp nonce t (if String.eqb (c_fp c) fp then S k else k) (record_call m c).
Proof.
  intros (pre & post & E & Hp & Hl) Ht Hk.
  destruct (String.eqb_spec (c_fp c) fp) as [<-|Hne].
  2: { exists pre, post. rewrite record_call_other by congruence. done. }
  unfold remembered. rewrite record_call_same. destruct (existsb _ _).
  - exists pre, post. split_and!; [done|lia|done].
  - set (p := fun e : string * Z => _). rewrite E.
    assert (Ef : List.filter p (pre ++ (nonce, t) :: post) = List.filter p pre ++ (nonce, t) :: List.filter p post).
    { rewrite List.filter_app. simpl. replace (p (nonce, t)) with true; [done|].
      symmetry. unfold p. simpl. apply Z.leb_le. lia. }
    pose proof (filter_length_le p (logged (c_fp c) m)) as Hfl. rewrite E in Hfl, Hl.
    pose proof (filter_length_le p post). rewrite Ef in Hfl |- *.
    destruct (drain_keeps (List.filter p pre) (List.filter p post) (nonce, t)) as [pre' E']; [lia|lia|].
    exists pre', (List.filter p post ++ [(c_nonce c, c_now c)]). rewrite E'. split_and!.
    + by rewrite <- app_assoc.
    + rewrite length_app. simpl. lia.
    + pose proof (drain_half_length (List.filter p pre ++ (nonce, t) :: List.filter p post) ltac:(lia)) as Hd.
      rewrite E' in Hd. rewrite length_app. simpl. lia.
Qed.

Definition calls_of (fp : string) (cs : list call) : nat :=
  length (List.filter (fun c => String.eqb (c_fp c) fp) cs).

Lemma remembered_run fp nonce t k m cs :
  remembered fp nonce t k m ->
  Forall (fun c => c_now c <= t + STORE_TIMESTAMP_TOLERANCE_SECS) cs ->
  (k + calls_of fp cs <= 499)%nat ->
  remembered fp nonce t (k + calls_of fp cs) (foldl record_call m cs).
Proof.
  intros Hr Hc. revert k m Hr. induction Hc as [|c cs Ht _ IH]; intros k m Hr Hk.
  - by rewrite Nat.add_0_r.
  - unfold calls_of in *. simpl in *. destruct (String.eqb (c_fp c) fp) eqn:E.
    + simpl in Hk |- *. replace (k + S _)%nat with (S k + calls_of fp cs)%nat by (unfold calls_of; lia).
      apply IH; [|lia]. pose proof (remembered_step fp nonce t k m c Hr Ht ltac:(lia)) as Hs.
      by rewrite E in Hs.
    + apply IH; [|lia]. destruct (Nat.le_gt_cases k 498).
      * pose proof (remembered_step fp nonce t k m c Hr Ht ltac:(lia)) as Hs. by rewrite E in Hs.
      * destruct Hr as (pre & post & ? & ? & ?). exists pre, post.
        rewrite record_call_other by (intros ->; by rewrite String.eqb_refl in E). done.
Qed.

Lemma existsb_nonce_in nonce l :
  existsb (fun e : string * Z => String.eqb e.1 nonce) l = true -> nonce ∈ l.*1.
Proof.
  rewrite existsb_exists. intros (e & He & <-%String.eqb_eq).
  apply list_elem_of_fmap_2, list_elem_of_In. done.
Qed.

Lemma drain_half_sub {A} (l : list A) x : x ∈ drain_half l -> x ∈ l.
Proof. unfold drain_half. destruct (_ <=? _); [apply subseteq_drop|done]. Qed.

Lemma logged_from_calls cs fp n :
  n ∈ (logged fp (foldl record_call ∅ cs)).*1 -> exists c, c ∈ cs /\ c_fp c = fp /\ c_nonce c = n.
Proof.
  induction cs as [|c cs IH] using rev_ind.
  - unfold logged. simpl. rewrite lookup_empty. intros Hn. by apply elem_of_nil in Hn.
  - rewrite foldl_snoc. intros Hn.
    assert (Hold : n ∈ (logged fp (foldl record_call ∅ cs)).*1 ->
                   exists c0, c0 ∈ cs ++ [c] /\ c_fp c0 = fp /\ c_nonce c0 = n).
    { intros (c0 & ? & ?)%IH. exists c0. split; [apply elem_of_app; by left|done]. }
    destruct (decide (fp = c_fp c)) as [->|Hne]; [|by rewrite record_call_other in Hn; auto].
    rewrite record_call_same in Hn. destruct (existsb _ _); [auto|].
    rewrite fmap_app in Hn. apply elem_of_app in Hn as [Hn|Hn%list_elem_of_singleton].
    + apply Hold. apply list_elem_of_fmap in Hn as (e & -> & He%drain_half_sub).
      apply list_elem_of_In, List.filter_In in He as [He _].
      by apply list_elem_of_fmap_2, list_elem_of_In.
    + exists c. split; [apply elem_of_app; right; left|done].
Qed.

(** C14: A nonce accepted from a fingerprint is refused when it comes again,
    whatever came between, as long as every request between is at most 300
    seconds younger and fewer than 500 of them claim the same fingerprint; a
    nonce its fingerprint has not used is accepted; and no fingerprint's log
    grows beyond a thousand entries. *)
Theorem nonce_replay_window (history later : list call) (c : call) (t : Z) :
  let before := foldl record_call ∅ history in
  (check_and_record_nonce_str (c_now c) (c_fp c) (c_nonce c) before).2 = true ->
  Forall (fun c' => c_now c' <= c_now c + STORE_TIMESTAMP_TOLERANCE_SECS) later ->
  (calls_of (c_fp c) later < 500)%nat ->
  let after := foldl record_call (record_call before c) later in
  (check_and_record_nonce_str t (c_fp c) (c_nonce c) after).2 = false /\
  (forall fp, (length (logged fp after) <= 1000)%nat) /\
  (forall fp n, (forall c', c' ∈ history ++ c :: later -> ~ (c_fp c' = fp /\ c_nonce c' = n)) ->
     (check_and_record_nonce_str t fp n after).2 = true).
Proof.
  intros before Hok Ht Hn after.
  assert (Eafter : after = foldl record_call ∅ (history ++ c :: later)).
  { unfold after, before. by rewrite foldl_app. }
  split_and!.
  - assert (Hr : remembered (c_fp c) (c_nonce c) (c_now c) 0 (record_call before c)).
    { apply fresh_remembered; [|apply logs_bounded]. unfold check_and_record_nonce_str in Hok.
      fold (logged (c_fp c) before) in Hok. by destruct (existsb _ _). }
    pose proof (remembered_seen _ _ _ _ _ (remembered_run _ _ _ _ _ later Hr Ht ltac:(lia))) as Hs.
    unfold check_and_record_nonce_str. fold (logged (c_fp c) after). unfold after. by rewrite Hs.
  - intros fp. rewrite Eafter. apply logs_bounded.
  - intros fp n Hnew. unfold check_and_record_nonce_str. fold (logged fp after).
    destruct (existsb _ _) eqn:E; [|done].
    apply existsb_nonce_in in E. rewrite Eafter in E.
    apply logged_from_calls in E as (c' & Hc' & ? & ?). by destruct (Hnew c' Hc').
Qed.

(** The bound on the calls between is needed: a thousand nonces under the same
    fingerprint within a second, and the first is forgotten. *)
Definition flood (n : nat) : list call :=
  map (fun i => mkCall 10 "F" (pretty (Z.of_nat i))) (List.seq 0 n).

Lemma nonce_forgotten_after_flood :
  (check_and_record_nonce_str 10 "F" "first"
     (foldl record_call ∅ (mkCall 10 "F" "first" :: flood 1000))).2 = true.
Proof. vm_compute. reflexivity. Qed.

Theorem nonce_replay_window_witness :
  (check_and_record_nonce_str 12 "F" "first"
     (foldl record_call (record_call (foldl record_call ∅ []) (mkCall 10 "F" "first")) (flood 300))).2
  = false.
Proof.
  apply (nonce_replay_window [] (flood 300) (mkCall 10 "F" "first") 12).
  - vm_compute. reflexivity.
  - apply Forall_forall. intros c' (i & -> & _)%list_elem_of_fmap. simpl.
    unfold STORE_TIMESTAMP_TOLERANCE_SECS. lia.
  - apply Nat.ltb_lt. vm_compute. reflexivity.
Defined.

(** ** Signatures and time stamps *)

Abbreviation certs := (gmap string string).

(** Whether [try_write] and [try_read] on the cache succeed. *)
Record locks : Type := mkLocks { can_write : bool; can_read : bool }.

Section gpg.
Context `{Sequoia} `{Base64}.

(** [cache.entry(fingerprint).or_insert_with(|| provided_cert)].
    Source: relay/src/main.rs:1885-1888, verify_gpg_detached. *)
Definition pin_cert (fingerprint provided_cert : string) (c : certs) : certs :=
  match c !! fingerprint with Some _ => c | None => <[fingerprint := provided_cert]> c end.

(** The certificate that comes with a request is filed under the fingerprint
    the request claims, before the signature is looked at.
    Source: relay/src/main.rs:1869-1922, verify_gpg_detached. *)
Definition verify_gpg_detached (l : locks) (sig_b64 data fingerprint provided_cert : string)
  : st certs string bool :=
  do! (if str_is_empty provided_cert then st_ret tt
       else do! st_guard (can_write l) "cert cache write lock";
            st_modify (pin_cert fingerprint provided_cert));
  do! st_guard (can_read l) "cert cache lock";
  do cache <- st_get;
  do sig_bytes <- st_lift (ok_or (b64_decode sig_b64) "base64 decode signature");
  do armored <- st_lift (ok_or (cache !! fingerprint)
                  ("no cert in cache for fingerprint " +:+ fingerprint +:+ " — TOFU required"));
  do crt <- st_lift (match cert_from_bytes armored with
                     | Ok crt => Ok crt
                     | Err e => Err ("parse cached cert: " +:+ e)
                     end);
  do sig_str <- st_lift (ok_or (from_utf8 sig_bytes) "signature UTF-8 error");
  st_lift (verify_detached sig_str data crt).

(** The signature in base64 verifies under the certificate on file. *)
Definition signed_under (c : certs) (fp sig_b64 data : string) : Prop :=
  exists armored crt raw sig_str,
    c !! fp = Some armored /\ cert_from_bytes armored = Ok crt /\
    b64_decode sig_b64 = Some raw /\ from_utf8 raw = Some sig_str /\ signed_by crt sig_str data.

Lemma verify_gpg_cache l sig data fp provided c :
  (verify_gpg_detached l sig data fp provided c).1 =
  if str_is_empty provided || negb (can_write l) then c else pin_cert fp provided c.
Proof.
  unfold verify_gpg_detached, st_guard, st_bind, st_ret, st_fail, st_modify, st_get, st_lift.
  repeat (first [progress (cbn [fst orb negb]) | done | case_match]); simplify_eq; try done.
  all: repeat (case_match; simplify_eq; try done).
Qed.

Lemma verify_gpg_sound l sig data fp provided c c' :
  verify_gpg_detached l sig data fp provided c = (c', Ok true) -> signed_under c' fp sig data.
Proof.
  unfold verify_gpg_detached, st_guard, st_bind, st_ret, st_fail, st_modify, st_get, st_lift, ok_or.
  intros Hv. repeat (case_match; simplify_eq; try done).
  all: match goal with Hd : verify_detached _ _ _ = _ |- _ => apply verify_detached_sound in Hd end.
  all: unfold signed_under; naive_solver.
Qed.

Lemma pin_cert_keeps fp provided c k a : c !! k = Some a -> pin_cert fp provided c !! k = Some a.
Proof.
  intros Hk. unfold pin_cert. destruct (c !! fp) eqn:E; [done|].
  rewrite lookup_insert_ne; [done|congruence].
Qed.

(** A certificate on file stays. *)
Lemma verify_gpg_keeps l sig data fp provided c k a :
  c !! k = Some a -> (verify_gpg_detached l sig data fp provided c).1 !! k = Some a.
Proof. intros Hk. rewrite verify_gpg_cache. destruct (_ || _); [done|by apply pin_cert_keeps]. Qed.
End gpg.

(** Source: relay/src/main.rs:674-691, RelayState::check_timestamp_freshness. *)
Definition check_timestamp_freshness `{Format} (now timestamp : f64) : result string unit :=
  let age := f64_sub now timestamp in
  if f64_gtb (f64_abs age) (f64_of_Z STORE_TIMESTAMP_TOLERANCE_SECS) then
    Err ("timestamp out of range: " +:+ fmt_f64 (f64_abs age) +:+ "s old (max "
         +:+ fmt_f64 (f64_of_Z STORE_TIMESTAMP_TOLERANCE_SECS) +:+ "s)")
  else Ok tt.
