(* ===== verification/Federation.v ===== *)
(** * The federation state of the relay (src/relay/src/main.rs)

    Known peers, the routes they advertise, the challenges of the peer
    authentication.  Instants are nanoseconds on the monotonic clock. *)

From S2P Require Import Prelude RelayAuth.

Definition secs (n : Z) : Z := n * 1000000000.

(** Source: relay/src/main.rs:41-42, FEDERATION_ROUTE_TTL_SECONDS. *)
Definition FEDERATION_ROUTE_TTL_SECONDS : Z := 1800.
(** Source: relay/src/main.rs:43-44, FEDERATION_PEER_TIMEOUT_SECONDS. *)
Definition FEDERATION_PEER_TIMEOUT_SECONDS : Z := 300.
(** Source: relay/src/main.rs:45-46, FEDERATION_MAX_RELAY_HOPS. *)
Definition FEDERATION_MAX_RELAY_HOPS : Z := 5.

(** The channel to the task that writes to a peer: a hundred messages, and a
    receiver that goes away with its task.
    Source: relay/src/main.rs:1730-1730, connect_to_peer. *)
Record channel : Type := mkChannel { queue : list string; receiving : bool }.
Definition CHANNEL_SIZE : Z := 100.

(** [sender.try_send(message)] *)
Definition try_send (m : string) (c : channel) : channel * bool :=
  if receiving c && (zlen (queue c) <? CHANNEL_SIZE)
  then (mkChannel (queue c ++ [m]) true, true) else (c, false).

(** Source: relay/src/main.rs:287-300, PeerInfo. *)
Record PeerInfo : Type := mkPeerInfo {
  url : string;
  routes : gset string;
  last_seen : Z;
  authenticated : bool;
  sender : option channel;
}.

(** Source: relay/src/main.rs:302-308, RouteEntry. *)
Record RouteEntry : Type := mkRouteEntry { relay_url : string; expires_at : Z }.

(** Source: relay/src/main.rs:310-326, FederationState. *)
Record FederationState : Type := mkFederationState {
  peers : gmap string PeerInfo;
  remote_routes : gmap string RouteEntry;
  our_url : option string;
  shared_secret : option string;
  pending_challenges : gmap string (string * Z);
  peer_nonces : gmap string (list string);
}.

Definition set_peers (p : gmap string PeerInfo) (f : FederationState) : FederationState :=
  mkFederationState p (remote_routes f) (our_url f) (shared_secret f) (pending_challenges f) (peer_nonces f).
Definition set_routes (r : gmap string RouteEntry) (f : FederationState) : FederationState :=
  mkFederationState (peers f) r (our_url f) (shared_secret f) (pending_challenges f) (peer_nonces f).
Definition set_challenges (p : gmap string (string * Z)) (f : FederationState) : FederationState :=
  mkFederationState (peers f) (remote_routes f) (our_url f) (shared_secret f) p (peer_nonces f).
Definition set_peer_nonces (n : gmap string (list string)) (f : FederationState) : FederationState :=
  mkFederationState (peers f) (remote_routes f) (our_url f) (shared_secret f) (pending_challenges f) n.

(** Source: relay/src/main.rs:329-338, FederationState::new. *)
Definition new (shared_secret : option string) : FederationState :=
  mkFederationState ∅ ∅ None shared_secret ∅ ∅.

(** Source: relay/src/main.rs:340-349, FederationState::add_route. *)
Definition add_route (now : Z) (null_id relay_url : string) (f : FederationState) : FederationState :=
  set_routes (<[null_id := mkRouteEntry relay_url (now + secs FEDERATION_ROUTE_TTL_SECONDS)]>
                (remote_routes f)) f.

(** An expired route is found until the cleanup removes it.
    Source: relay/src/main.rs:351-354, FederationState::lookup_route. *)
Definition lookup_route (null_id : string) (f : FederationState) : option string :=
  relay_url <$> remote_routes f !! null_id.

(** Source: relay/src/main.rs:356-366, FederationState::add_peer. *)
Definition add_peer (now : Z) (u : string) (c : channel) (f : FederationState) : FederationState :=
  set_peers (<[u := mkPeerInfo u ∅ now false (Some c)]> (peers f)) f.

(** Source: relay/src/main.rs:368-376, FederationState::send_to_peer. *)
Definition send_to_peer (u message : string) (f : FederationState) : FederationState * bool :=
  match peers f !! u with
  | Some p =>
      match sender p with
      | Some c =>
          let (c', ok) := try_send message c in
          (set_peers (<[u := mkPeerInfo (url p) (routes p) (last_seen p) (authenticated p) (Some c')]>
                        (peers f)) f, ok)
      | None => (f, false)
      end
  | None => (f, false)
  end.

(** Source: relay/src/main.rs:378-383, FederationState::cleanup_expired_routes. *)
Definition cleanup_expired_routes (now : Z) (f : FederationState) : FederationState :=
  set_peers (filter (fun kp => now - last_seen kp.2 < secs FEDERATION_PEER_TIMEOUT_SECONDS) (peers f))
    (set_routes (filter (fun kr => now < expires_at kr.2) (remote_routes f)) f).

(** Source: relay/src/main.rs:385-397, FederationState::record_nonce. *)
Definition record_nonce (peer_url nonce : string) (f : FederationState) : FederationState * bool :=
  let nonces := opt_or (peer_nonces f !! peer_url) [] in
  if existsb (String.eqb nonce) nonces
  then (set_peer_nonces (<[peer_url := nonces]> (peer_nonces f)) f, false)
  else (set_peer_nonces (<[peer_url := drain_half nonces ++ [nonce]]> (peer_nonces f)) f, true).

(** [if let Some(peer) = fed.peers.get_mut(&peer_url) { peer.last_seen = now }] *)
Definition touch_peer (now : Z) (u : string) (f : FederationState) : FederationState :=
  match peers f !! u with
  | Some p => set_peers (<[u := mkPeerInfo (url p) (routes p) now (authenticated p) (sender p)]> (peers f)) f
  | None => f
  end.

(** [peer.authenticated = true] where the peer is known.
    Source: relay/src/main.rs:1406-1408, handle_message. *)
Definition authenticate (u : string) (f : FederationState) : FederationState :=
  match peers f !! u with
  | Some p => set_peers (<[u := mkPeerInfo (url p) (routes p) (last_seen p) true (sender p)]> (peers f)) f
  | None => f
  end.

(** The announced identifiers all lead to the announced relay.
    Source: relay/src/main.rs:1261-1265, handle_message. *)
Definition add_routes (now : Z) (null_ids : list string) (relay_url : string) (f : FederationState)
  : FederationState :=
  foldl (fun f nid => add_route now nid relay_url f) f null_ids.

(** The routes a peer announced on the connection made to it.
    Source: relay/src/main.rs:1762-1776, connect_to_peer. *)
Definition set_peer_routes (now : Z) (u : string) (nids : list string) (f : FederationState)
  : FederationState :=
  match peers f !! u with
  | Some p => set_peers (<[u := mkPeerInfo (url p) (list_to_set nids) now (authenticated p) (sender p)]> (peers f)) f
  | None => f
  end.

(** ** Routes *)

Lemma add_routes_lookup now nids u f nid :
  lookup_route nid (add_routes now nids u f) =
  if bool_decide (nid ∈ nids) then Some u else lookup_route nid f.
Proof.
  revert f. induction nids as [|n nids IH]; intros f; [done|]. simpl. rewrite IH.
  unfold lookup_route, add_route. simpl. destruct (decide (nid = n)) as [->|Hne].
  - rewrite lookup_insert_eq. rewrite (bool_decide_true (n ∈ n :: nids)) by left. by case_bool_decide.
  - rewrite lookup_insert_ne by done.
    repeat case_bool_decide; try done; exfalso; set_solver.
Qed.

Lemma cleanup_lookup now f nid r :
  remote_routes (cleanup_expired_routes now f) !! nid = Some r <->
  remote_routes f !! nid = Some r /\ now < expires_at r.
Proof. simpl. by rewrite map_lookup_filter_Some. Qed.

Lemma cleanup_peer now f u p :
  peers (cleanup_expired_routes now f) !! u = Some p <->
  peers f !! u = Some p /\ now - last_seen p < secs FEDERATION_PEER_TIMEOUT_SECONDS.
Proof. simpl. by rewrite map_lookup_filter_Some. Qed.

Lemma send_to_peer_bounded u m f p c :
  peers (send_to_peer u m f).1 !! u = Some p -> sender p = Some c ->
  (forall p0 c0, peers f !! u = Some p0 -> sender p0 = Some c0 -> zlen (queue c0) <= CHANNEL_SIZE) ->
  zlen (queue c) <= CHANNEL_SIZE.
Proof.
  unfold send_to_peer. intros Hp Hc Hb. destruct (peers f !! u) as [p0|] eqn:E; [|simpl in Hp; congruence].
  destruct (sender p0) as [c0|] eqn:Ec; [|eapply (Hb p); simpl in Hp; congruence].
  specialize (Hb p0 c0 eq_refl Ec). unfold try_send in Hp.
  destruct (receiving c0), (Z.ltb_spec (zlen (queue c0)) CHANNEL_SIZE); simpl in Hp;
    rewrite lookup_insert_eq in Hp; simplify_eq; simpl in Hc; simplify_eq; simpl; try done.
  unfold zlen in *. rewrite length_app. simpl. lia.
Qed.
