(* ===== verification/RelayState.v ===== *)
(** * The state of the relay and its stores (src/relay/src/main.rs, RelayState)

    Mailboxes in memory, the SQLite table behind them, and the operations
    that keep the two together.  The database is a list of rows in the order
    of their identifiers; whether a statement fails is an argument, as are
    the clock and the random nonces. *)

From stdpp Require Import sorting.
From S2P Require Import Prelude Text Primitives Concrete Json Gpg RateLimit.
From S2P Require Import Mailbox RelayAuth Federation.

(** Source: relay/src/main.rs:62-95, MailboxStoreRequest. *)
Record MailboxStoreRequest : Type := mkMailboxStoreRequest {
  ms_recipient_nid : string;
  ms_signed_blob : string;
  ms_sender_nid : string;
  ms_sender_fp : string;
  ms_seq : Z;              (* i64 *)
  ms_sender_sig : string;
  ms_timestamp : f64;
  ms_nonce : string;
  ms_sender_cert : string;
  ms_sealed_sender : string;
}.

(** A row of [mailbox_entries]; the columns an entry has are in [r_entry].
    Source: relay/src/main.rs:483-494, RelayState::new. *)
Record row : Type := mkRow {
  r_recipient : string;
  r_entry : MailboxEntry;
  r_delivered : bool;
  r_sender_encrypted : string;
}.

(** Source: relay/src/main.rs:417-448, RelayState. *)
Record RelayState : Type := mkRelayState {
  mailboxes : gmap string Mailbox;
  db_pool : option (list row);
  metadata_key : bytes;
  shared_secret : option string;
  seen_nonces : int_nonces;
  seen_nonce_strs : str_nonces;
  gpg_home : string;
  conn_limiters : gmap string (RateLimiter * Z);
  federation : FederationState;
  cert_cache : certs;
  known_peers : gset string;
  allow_relay : bool;
}.

Definition set_mail (mb : gmap string Mailbox) (db : option (list row)) (s : RelayState) : RelayState :=
  mkRelayState mb db (metadata_key s) (shared_secret s) (seen_nonces s) (seen_nonce_strs s)
    (gpg_home s) (conn_limiters s) (federation s) (cert_cache s) (known_peers s) (allow_relay s).
Definition set_nonces (n : str_nonces) (s : RelayState) : RelayState :=
  mkRelayState (mailboxes s) (db_pool s) (metadata_key s) (shared_secret s) (seen_nonces s) n
    (gpg_home s) (conn_limiters s) (federation s) (cert_cache s) (known_peers s) (allow_relay s).
Definition set_certs (c : certs) (s : RelayState) : RelayState :=
  mkRelayState (mailboxes s) (db_pool s) (metadata_key s) (shared_secret s) (seen_nonces s)
    (seen_nonce_strs s) (gpg_home s) (conn_limiters s) (federation s) c (known_peers s) (allow_relay s).
Definition set_federation (f : FederationState) (s : RelayState) : RelayState :=
  mkRelayState (mailboxes s) (db_pool s) (metadata_key s) (shared_secret s) (seen_nonces s)
    (seen_nonce_strs s) (gpg_home s) (conn_limiters s) f (cert_cache s) (known_peers s) (allow_relay s).
Definition set_limiters (l : gmap string (RateLimiter * Z)) (s : RelayState) : RelayState :=
  mkRelayState (mailboxes s) (db_pool s) (metadata_key s) (shared_secret s) (seen_nonces s)
    (seen_nonce_strs s) (gpg_home s) l (federation s) (cert_cache s) (known_peers s) (allow_relay s).
Definition set_known_peers (k : gset string) (s : RelayState) : RelayState :=
  mkRelayState (mailboxes s) (db_pool s) (metadata_key s) (shared_secret s) (seen_nonces s)
    (seen_nonce_strs s) (gpg_home s) (conn_limiters s) (federation s) (cert_cache s) k (allow_relay s).

(** What a request reads from its surroundings: the clock at each reading,
    random bytes and identifiers, the locks and the database. *)
Record context : Type := mkContext {
  x_env_now : f64;        (* freshness of the envelope *)
  x_now : f64;            (* freshness of the request *)
  x_nonce_secs : Z;       (* nonce log *)
  x_secs : Z;             (* mailbox clock, challenges *)
  x_instant : Z;          (* monotonic clock *)
  x_reply_id : string;
  x_reply_now : f64;
  x_iv : bytes;           (* nonce of the metadata encryption *)
  x_locks : locks;
  x_db : bool;            (* the statement succeeds *)
}.

(** ** Metadata at rest *)

Section metadata.
Context `{Hkdf} `{Aead} `{Hex}.

(** With a shared secret the key is derived from it, without it is random
    ([None]: the expansion fails, and the code panics).
    Source: relay/src/main.rs:510-525, RelayState::new. *)
Definition derive_metadata_key (secret : option string) (random : bytes) : option bytes :=
  match secret with
  | Some s => hkdf_expand (str_bytes s) (str_bytes "nullnode-relay-metadata-v1") 32
  | None => Some random
  end.

(** [None]: the encryption fails, and the code panics.
    Source: relay/src/main.rs:2324-2345, RelayState::encrypt_metadata. *)
Definition encrypt_metadata (iv : bytes) (plaintext : string) (key : bytes) : option string :=
  ciphertext ← aes_encrypt key iv (str_bytes plaintext);
  Some (hex_encode (iv ++ ciphertext)).

(** Source: relay/src/main.rs:2347-2363, RelayState::decrypt_metadata. *)
Definition decrypt_metadata (encrypted_hex : string) (key : bytes) : option string :=
  data ← hex_decode encrypted_hex;
  if zlen data <? 28 then None
  else
    plaintext ← aes_decrypt key (take 12 data) (drop 12 data);
    from_utf8 plaintext.

Lemma decrypt_encrypt_metadata iv plaintext key enc :
  length iv = 12%nat -> bytes_ok iv -> str_ok plaintext ->
  encrypt_metadata iv plaintext key = Some enc -> decrypt_metadata enc key = Some plaintext.
Proof.
  intros Hl Hiv Hs. unfold encrypt_metadata, decrypt_metadata.
  destruct (aes_encrypt key iv (str_bytes plaintext)) as [ct|] eqn:E; [|done]. intros [= <-].
  pose proof (aes_encrypt_length _ _ _ _ E) as Hct.
  rewrite hex_decode_encode; [|apply Forall_app; split; [done|eapply aes_encrypt_ok; [apply str_bytes_ok|done]]].
  simpl. destruct (Z.ltb_spec (zlen (iv ++ ct)) 28) as [Hlt|_].
  - unfold zlen in Hlt. rewrite length_app in Hlt. lia.
  - rewrite <- Hl, take_app_length, drop_app_length. rewrite (aes_decrypt_encrypt _ _ _ _ E).
    simpl. by apply from_utf8_str.
Qed.

(** ** Storing *)

Abbreviation method := (st RelayState string).

Definition entry_of (stored_at : Z) (r : MailboxStoreRequest) : MailboxEntry :=
  mkMailboxEntry (ms_signed_blob r) (ms_sender_nid r) (ms_sender_fp r) (ms_seq r) stored_at.

Definition store_in_memory (stored_at : Z) (r : MailboxStoreRequest) (s : RelayState) : RelayState :=
  let mb := opt_or (mailboxes s !! ms_recipient_nid r) (Mailbox.new MAX_MAILBOX_SIZE) in
  set_mail (<[ms_recipient_nid r := Mailbox.store (entry_of stored_at r) mb]> (mailboxes s)) (db_pool s) s.

Definition insert_row (w : row) (s : RelayState) : RelayState :=
  set_mail (mailboxes s) ((fun rows => rows ++ [w]) <$> db_pool s) s.

(** The entry is in memory when the database fails.
    Source: relay/src/main.rs:693-735, RelayState::store_message. *)
Definition store_message (x : context) (req : MailboxStoreRequest) : method unit :=
  do! st_modify (store_in_memory (x_secs x) req);
  do s <- st_get;
  match db_pool s with
  | None => st_ret tt
  | Some _ =>
      do enc <- st_lift (ok_or (encrypt_metadata (x_iv x)
                   (ms_sender_nid req +:+ String (Ascii.ascii_of_nat 10) (ms_sender_fp req))
                   (metadata_key s)) "panic: AES-256-GCM encrypt");
      do! st_guard (x_db x) "db store error";
      st_modify (insert_row (mkRow (ms_recipient_nid req) (entry_of (x_secs x) req) false enc))
  end.
End metadata.

(** ** Reading and removing *)

Definition seq_le (a b : row) : Prop := seq (r_entry a) <= seq (r_entry b).
#[export] Instance seq_le_dec : RelDecision seq_le.
Proof. intros a b. unfold seq_le. apply _. Defined.

Definition undelivered (nid : string) (w : row) : bool :=
  String.eqb (r_recipient w) nid && negb (r_delivered w).

(** [SELECT ... WHERE recipient_nid = ? AND delivered = 0 ORDER BY seq ASC] *)
Definition select_rows (nid : string) (rows : list row) : list MailboxEntry :=
  r_entry <$> merge_sort seq_le (List.filter (undelivered nid) rows).

(** Source: relay/src/main.rs:737-772, RelayState::fetch_messages. *)
Definition fetch_messages (x : context) (recipient_nid : string) (s : RelayState) : list MailboxEntry :=
  let in_memory :=
    match mailboxes s !! recipient_nid with Some mb => Mailbox.fetch (x_secs x) mb | None => [] end in
  match db_pool s with
  | Some rows =>
      if x_db x then
        match select_rows recipient_nid rows with [] => in_memory | es => es end
      else in_memory
  | None => in_memory
  end.

(** [if let Some(mb) = mailboxes.get_mut(nid) { mb.ack(seq) }] *)
Definition ack_in_memory (nid : string) (sq : Z) (m : gmap string Mailbox) : gmap string Mailbox :=
  match m !! nid with Some mb => <[nid := Mailbox.ack sq mb]> m | None => m end.

Definition mark_delivered (nid : string) (sq : Z) (w : row) : row :=
  if undelivered nid w && (seq (r_entry w) =? sq)
  then mkRow (r_recipient w) (r_entry w) true (r_sender_encrypted w) else w.

(** A statement that changes the table, when it succeeds; a failure is ignored. *)
Definition on_rows (ok : bool) (f : list row -> list row) (db : option (list row)) : option (list row) :=
  if ok then f <$> db else db.

(** Source: relay/src/main.rs:774-794, RelayState::ack_message. *)
Definition ack_message (x : context) (recipient_nid : string) (sq : Z) (s : RelayState) : RelayState :=
  set_mail (ack_in_memory recipient_nid sq (mailboxes s))
    (on_rows (x_db x) (map (mark_delivered recipient_nid sq)) (db_pool s)) s.

(** Source: relay/src/main.rs:796-816, RelayState::purge_all_messages. *)
Definition purge_all_messages (x : context) (recipient_nid : string) (s : RelayState) : RelayState :=
  set_mail (delete recipient_nid (mailboxes s))
    (on_rows (x_db x) (List.filter (fun w => negb (String.eqb (r_recipient w) recipient_nid)))
       (db_pool s)) s.

(** Source: relay/src/main.rs:818-840, RelayState::cleanup_expired. *)
Definition cleanup_expired (x : context) (s : RelayState) : RelayState :=
  let now := x_secs x in
  let kept := filter (fun km => Mailbox.entries km.2 <> []) (Mailbox.expire now <$> mailboxes s) in
  let cutoff := i64 (u64 (now - MAILBOX_TTL_SECONDS)) in
  set_mail kept
    (on_rows (x_db x)
       (List.filter (fun w => negb ((stored_at (r_entry w) <? cutoff) && r_delivered w)))
       (db_pool s)) s.

(** Source: relay/src/main.rs:842-846, RelayState::get_local_null_ids. *)
Definition get_local_null_ids (s : RelayState) : gset string := dom (mailboxes s).

(** ** What a recipient gets *)

(** What the table holds for a recipient, in no particular order. *)
Definition pending (nid : string) (rows : list row) : list MailboxEntry :=
  r_entry <$> List.filter (undelivered nid) rows.

Lemma select_rows_perm nid rows : select_rows nid rows ≡ₚ pending nid rows.
Proof. unfold select_rows, pending. by rewrite merge_sort_Permutation. Qed.

Lemma select_rows_sorted nid rows : StronglySorted (fun a b => seq a <= seq b) (select_rows nid rows).
Proof.
  unfold select_rows.
  assert (Hs : StronglySorted seq_le (merge_sort seq_le (List.filter (undelivered nid) rows))).
  { apply StronglySorted_merge_sort.
    - intros a b c. unfold seq_le. lia.
    - intros a b. unfold seq_le. lia. }
  induction Hs as [|w l _ IH Hall]; [constructor|]. rewrite fmap_cons. constructor; [done|].
  by apply Forall_fmap.
Qed.

Lemma fetch_rows x nid s rows :
  db_pool s = Some rows -> x_db x = true -> pending nid rows <> [] ->
  fetch_messages x nid s = select_rows nid rows.
Proof.
  intros Hdb Hx Hp. unfold fetch_messages. rewrite Hdb, Hx.
  destruct (select_rows nid rows) eqn:E; [|done].
  pose proof (select_rows_perm nid rows) as Hs. rewrite E in Hs.
  by apply Permutation_nil_l in Hs.
Qed.

(** Entries come from the table or from the mailbox. *)
Lemma fetch_cases x nid s e :
  e ∈ fetch_messages x nid s ->
  (exists rows, db_pool s = Some rows /\ e ∈ pending nid rows) \/
  (exists mb, mailboxes s !! nid = Some mb /\ e ∈ entries mb).
Proof.
  unfold fetch_messages. set (in_memory := match mailboxes s !! nid with Some mb => _ | None => _ end).
  assert (Hmem : e ∈ in_memory -> exists mb, mailboxes s !! nid = Some mb /\ e ∈ entries mb).
  { unfold in_memory. destruct (mailboxes s !! nid) as [mb|] eqn:E; [|by intros ?%elem_of_nil].
    unfold Mailbox.fetch. rewrite list_elem_of_In, List.filter_In, <- list_elem_of_In.
    intros [? _]. by exists mb. }
  destruct (db_pool s) as [rows|]; [|by right; apply Hmem].
  destruct (x_db x); [|by right; apply Hmem].
  destruct (select_rows nid rows) as [|e0 es] eqn:E; [by right; apply Hmem|].
  intros He. left. exists rows. split; [done|]. by rewrite <- select_rows_perm, E.
Qed.

Lemma undelivered_other nid nid' w :
  r_recipient w = nid' -> nid <> nid' -> undelivered nid w = false.
Proof. intros <- Hne. unfold undelivered. by destruct (String.eqb_spec (r_recipient w) nid). Qed.

Lemma mark_delivered_other nid nid' sq rows :
  nid <> nid' -> List.filter (undelivered nid) (map (mark_delivered nid' sq) rows) =
                 List.filter (undelivered nid) rows.
Proof.
  intros Hne. induction rows as [|w rows IH]; [done|]. simpl. rewrite IH.
  unfold mark_delivered. destruct (undelivered nid' w && _) eqn:E; [|done].
  apply andb_true_iff in E as [E _]. unfold undelivered in E.
  apply andb_true_iff in E as [E%String.eqb_eq _].
  rewrite (undelivered_other nid nid' w) by done. unfold undelivered at 1. simpl.
  by rewrite andb_false_r.
Qed.

Lemma mark_delivered_same nid sq rows e :
  e ∈ pending nid (map (mark_delivered nid sq) rows) -> seq e <> sq.
Proof.
  unfold pending. intros (w & -> & Hw)%list_elem_of_fmap.
  apply list_elem_of_In, List.filter_In in Hw as [Hin Hu].
  apply in_map_iff in Hin as (w0 & <- & _). unfold mark_delivered in *.
  destruct (undelivered nid w0) eqn:Eu; simpl in *; [|congruence].
  destruct (Z.eqb_spec (seq (r_entry w0)) sq) as [|Hne]; [|done].
  unfold undelivered in Hu. simpl in Hu. by rewrite andb_false_r in Hu.
Qed.

Lemma purge_other nid nid' rows :
  nid <> nid' ->
  List.filter (undelivered nid) (List.filter (fun w => negb (String.eqb (r_recipient w) nid')) rows) =
  List.filter (undelivered nid) rows.
Proof.
  intros Hne. induction rows as [|w rows IH]; [done|]. simpl.
  destruct (String.eqb_spec (r_recipient w) nid') as [E|]; simpl; rewrite IH; [|done].
  by rewrite (undelivered_other nid nid').
Qed.

Lemma purge_same nid rows :
  List.filter (undelivered nid) (List.filter (fun w => negb (String.eqb (r_recipient w) nid)) rows) = [].
Proof.
  induction rows as [|w rows IH]; [done|]. simpl.
  destruct (String.eqb_spec (r_recipient w) nid) as [E|]; simpl; [done|].
  unfold undelivered at 1. by destruct (String.eqb_spec (r_recipient w) nid).
Qed.

(** Two states that agree on a recipient are the same to that recipient. *)
Lemma fetch_ext x nid s s' :
  mailboxes s !! nid = mailboxes s' !! nid ->
  (forall rows, db_pool s = Some rows -> exists rows', db_pool s' = Some rows' /\
     List.filter (undelivered nid) rows' = List.filter (undelivered nid) rows) ->
  (db_pool s = None -> db_pool s' = None) ->
  fetch_messages x nid s' = fetch_messages x nid s.
Proof.
  intros Hm Hr Hn. unfold fetch_messages. rewrite <- Hm. destruct (db_pool s) as [rows|].
  - destruct (Hr rows eq_refl) as (rows' & -> & E). unfold select_rows. by rewrite E.
  - by rewrite Hn.
Qed.

Section store_facts.
Context `{Hkdf} `{Aead} `{Hex}.

Lemma store_message_rows x req s s1 rows :
  db_pool s = Some rows -> store_message x req s = (s1, Ok tt) ->
  x_db x = true /\ exists enc,
    s1 = insert_row (mkRow (ms_recipient_nid req) (entry_of (x_secs x) req) false enc)
           (store_in_memory (x_secs x) req s).
Proof.
  intros Hdb. unfold store_message, st_bind, st_modify, st_get, st_lift, st_guard, st_ret, st_fail, ok_or.
  replace (db_pool (store_in_memory (x_secs x) req s)) with (Some rows) by (symmetry; exact Hdb).
  cbv beta iota zeta. intros Hs. repeat (case_match; simplify_eq; try done). split; [done|]. by eexists.
Qed.
End store_facts.

Lemma ack_fetch_other x x2 nid nid' sq s :
  nid' <> nid -> fetch_messages x nid' (ack_message x2 nid sq s) = fetch_messages x nid' s.
Proof.
  intros Hne. apply fetch_ext.
  - simpl. unfold ack_in_memory. destruct (mailboxes s !! nid); [by rewrite lookup_insert_ne|done].
  - intros rows Hdb. simpl. rewrite Hdb. unfold on_rows. destruct (x_db x2); [|by eexists].
    eexists. split; [done|]. by apply mark_delivered_other.
  - simpl. intros ->. by destruct (x_db x2).
Qed.

Lemma purge_fetch_other x x2 nid nid' s :
  nid' <> nid -> fetch_messages x nid' (purge_all_messages x2 nid s) = fetch_messages x nid' s.
Proof.
  intros Hne. apply fetch_ext.
  - simpl. by rewrite lookup_delete_ne.
  - intros rows Hdb. simpl. rewrite Hdb. unfold on_rows. destruct (x_db x2); [|by eexists].
    eexists. split; [done|]. by apply purge_other.
  - simpl. intros ->. by destruct (x_db x2).
Qed.

Lemma ack_fetch_same x x2 nid sq s e :
  x_db x2 = true -> e ∈ fetch_messages x nid (ack_message x2 nid sq s) -> seq e <> sq.
Proof.
  intros Hx He. apply fetch_cases in He as [(rows & Hdb & He)|(mb & Hm & He)]; simpl in *.
  - unfold on_rows in Hdb. rewrite Hx in Hdb. destruct (db_pool s) as [rows0|]; [|done].
    injection Hdb as <-. by apply (mark_delivered_same nid sq rows0).
  - unfold ack_in_memory in Hm. destruct (mailboxes s !! nid) as [mb0|] eqn:E; [|congruence].
    rewrite lookup_insert_eq in Hm. injection Hm as <-. simpl in He.
    apply list_elem_of_In, List.filter_In in He as [_ He].
    by destruct (Z.eqb_spec (seq e) sq).
Qed.

Lemma purge_fetch_same x x2 nid s :
  x_db x2 = true -> fetch_messages x nid (purge_all_messages x2 nid s) = [].
Proof.
  intros Hx. destruct (fetch_messages _ _ _) as [|e l] eqn:E; [done|]. exfalso.
  destruct (fetch_cases x nid (purge_all_messages x2 nid s) e) as [(rows & Hdb & He)|(mb & Hm & _)];
    [rewrite E; left| |].
  - simpl in Hdb. unfold on_rows in Hdb. rewrite Hx in Hdb.
    destruct (db_pool s) as [rows0|]; [|done]. injection Hdb as <-.
    unfold pending in He. rewrite purge_same in He. by apply elem_of_nil in He.
  - simpl in Hm. by rewrite lookup_delete_eq in Hm.
Qed.

(** C12: While the database works, a message the relay stored in it is what its
    recipient fetches, once, with everything pending and in the order of the sequence
    numbers; after an acknowledgement no entry with its number is fetched,
    after a purge none at all; and no other recipient notices any of it. *)
Theorem store_fetch_ack `{Aead} `{Hex} (x x1 x2 : context) (req : MailboxStoreRequest)
    (s s1 : RelayState) (rows : list row) :
  db_pool s = Some rows -> x_db x1 = true -> x_db x2 = true ->
  store_message x req s = (s1, Ok tt) ->
  let nid := ms_recipient_nid req in
  fetch_messages x1 nid s1 ≡ₚ entry_of (x_secs x) req :: pending nid rows /\
  StronglySorted (fun a b => seq a <= seq b) (fetch_messages x1 nid s1) /\
  (forall e, e ∈ fetch_messages x1 nid (ack_message x2 nid (ms_seq req) s1) -> seq e <> ms_seq req) /\
  fetch_messages x1 nid (purge_all_messages x2 nid s1) = [] /\
  (forall nid', nid' <> nid ->
     fetch_messages x1 nid' s1 = fetch_messages x1 nid' s /\
     fetch_messages x1 nid' (ack_message x2 nid (ms_seq req) s1) = fetch_messages x1 nid' s /\
     fetch_messages x1 nid' (purge_all_messages x2 nid s1) = fetch_messages x1 nid' s).
Proof.
  intros Hdb Hx1 Hx2 Hs nid. destruct (store_message_rows x req s s1 rows Hdb Hs) as (Hx & enc & E).
  set (w := mkRow nid (entry_of (x_secs x) req) false enc) in E.
  assert (Hdb1 : db_pool s1 = Some (rows ++ [w])) by (rewrite E; simpl; by rewrite Hdb).
  assert (Hp : pending nid (rows ++ [w]) ≡ₚ entry_of (x_secs x) req :: pending nid rows).
  { unfold pending. rewrite List.filter_app, fmap_app. simpl. unfold undelivered at 2. simpl.
    rewrite String.eqb_refl. simpl. by rewrite Permutation_app_comm. }
  assert (Hf : fetch_messages x1 nid s1 = select_rows nid (rows ++ [w])).
  { apply fetch_rows; [done|done|]. intros E'. rewrite E' in Hp. by apply Permutation_nil_cons in Hp. }
  assert (Ho : forall nid', nid' <> nid -> fetch_messages x1 nid' s1 = fetch_messages x1 nid' s).
  { intros nid' Hne. apply fetch_ext.
    - rewrite E. simpl. by rewrite lookup_insert_ne.
    - rewrite Hdb, Hdb1. intros ? [= <-]. eexists. split; [done|].
      rewrite List.filter_app. simpl. rewrite (undelivered_other nid' nid w) by done. by rewrite app_nil_r.
    - by rewrite Hdb. }
  split_and!.
  - rewrite Hf. by rewrite select_rows_perm.
  - rewrite Hf. apply select_rows_sorted.
  - intros e. by apply ack_fetch_same.
  - by apply purge_fetch_same.
  - intros nid' Hne. rewrite ack_fetch_other, purge_fetch_other by done. auto.
Qed.

Definition sample_request (fp : string) (sq : Z) : MailboxStoreRequest :=
  mkMailboxStoreRequest "NN-AAAA-BBBB" "blob" "anonymous" fp sq "sig" (f64_of_Z 100) "n" "" "sealed".

Definition sample_context : context :=
  mkContext (f64_of_Z 100) (f64_of_Z 100) 100 100 0 "id" (f64_of_Z 100) (replicate 12 0)
    (mkLocks true true) true.

Definition sample_state (rows : list row) : RelayState :=
  mkRelayState ∅ (Some rows) (replicate 32 0) None ∅ ∅ "/gpg" ∅ (Federation.new None) ∅ ∅ false.

Definition sample_stored : RelayState :=
  (@store_message toy_aead toy_hex sample_context (sample_request "A" 1) (sample_state [])).1.

Theorem store_fetch_ack_witness :
  fetch_messages sample_context "NN-AAAA-BBBB" sample_stored ≡ₚ
    [entry_of 100 (sample_request "A" 1)].
Proof.
  apply (@store_fetch_ack toy_aead toy_hex sample_context sample_context sample_context
           (sample_request "A" 1) (sample_state []) sample_stored []); reflexivity.
Defined.
