(* ===== verification/Relay.v ===== *)
(** * The requests of the relay (src/relay/src/main.rs, handle_message)

    Every handler of the dispatch, the loop of a connection and the tasks of
    the federation.  A handler returns the replies it sends; an error becomes
    an error reply of the connection. *)

From S2P Require Import Prelude Text Primitives Concrete Json Gpg Identity RateLimit.
From S2P Require Import Mailbox RelayAuth Federation RelayState.

(** Source: relay/src/main.rs:54-60, RelayEnvelope. *)
Record RelayEnvelope : Type := mkRelayEnvelope {
  re_type : string;
  re_payload : value;
  re_id : string;
  re_ts : f64;
}.

(** Source: relay/src/main.rs:97-118, MailboxFetchRequest. *)
Record MailboxFetchRequest : Type := mkMailboxFetchRequest {
  mf_recipient_nid : string;
  mf_auth_hmac : string;
  mf_sender_sig : string;
  mf_requester_fp : string;
  mf_timestamp : f64;
  mf_nonce : string;
  mf_sender_cert : string;
}.

(** Source: relay/src/main.rs:120-125, RelayResponse. *)
Inductive reply : Type :=
| ROk (data : option value)
| RError (error : string)
| REnvelope (e : RelayEnvelope)
| RPong.

(** Source: relay/src/main.rs:159-164, PeerAuth. *)
Record PeerAuth : Type := mkPeerAuth { pa_challenge : string; pa_relay_url : string }.
(** Source: relay/src/main.rs:166-171, PeerAuthReply. *)
Record PeerAuthReply : Type := mkPeerAuthReply { pr_response : string; pr_relay_url : string }.

(** Source: relay/src/main.rs:173-206, RelayForward. *)
Record RelayForward : Type := mkRelayForward {
  rf_recipient_nid : string;
  rf_signed_blob : string;
  rf_sender_nid : string;
  rf_sender_fp : string;
  rf_seq : Z;              (* i64 *)
  rf_sender_sig : string;
  rf_timestamp : f64;
  rf_nonce : Z;            (* i64 *)
  rf_hop_count : Z;        (* u8 *)
  rf_via : list string;
  rf_source_relay_url : string;
  rf_source_relay_cert : string;
  rf_source_relay_sig : string;
  rf_source_relay_fp : string;
  rf_sender_cert : string;
}.

(** serde's derived decoders and encoders: [from_value] for the requests,
    [from_str] and [to_string] for envelopes, [json!] for a forward.  A forward
    that is encoded decodes to the same. *)
Class RelayCodec := {
  store_request_of : value -> result string MailboxStoreRequest;
  fetch_request_of : value -> result string MailboxFetchRequest;
  route_count_of : value -> result string Z;     (* RouteAdvertise *)
  who_has_of : value -> result string string;    (* WhoHas *)
  peer_auth_of : value -> result string PeerAuth;
  peer_auth_reply_of : value -> result string PeerAuthReply;
  forward_of : value -> result string RelayForward;
  forward_value : RelayForward -> value;
  relay_to_json : RelayEnvelope -> string;
  relay_from_json : string -> result string RelayEnvelope;
  forward_of_value f :
    i64_min <= rf_seq f <= i64_max -> i64_min <= rf_nonce f <= i64_max ->
    0 <= rf_hop_count f < 256 -> forward_of (forward_value f) = Ok f;
}.

Definition decode {A} (what : string) (r : result string A) : result string A :=
  match r with Ok a => Ok a | Err e => Err ("invalid " +:+ what +:+ ": " +:+ e) end.

Section relay.
Context `{Sequoia} `{Base64} `{Blake2} `{Hmac} `{Hex} `{Aead} `{Format} `{RelayCodec}.
Context `{HashOrder (list f64)}.

Abbreviation handler := (st RelayState string (list reply)).

(** The reply envelope. *)
Definition envelope (x : context) (t : string) (p : value) : reply :=
  REnvelope (mkRelayEnvelope t p (x_reply_id x) (x_reply_now x)).

(** ** Checks *)

(** [verify_gpg_detached(...).unwrap_or(false)] on the cache of the relay. *)
Definition check_gpg (x : context) (sig data fp provided : string) : st RelayState string bool :=
  fun s => let (c, r) := verify_gpg_detached (x_locks x) sig data fp provided (cert_cache s) in
           (set_certs c s, Ok (unwrap_or r false)).

Definition check_nonce (x : context) (fp nonce : string) : st RelayState string bool :=
  fun s => let (n, fresh) := check_and_record_nonce_str (x_nonce_secs x) fp nonce (seen_nonce_strs s) in
           (set_nonces n s, Ok fresh).

Definition replay_detected : string := "replay detected: nonce already seen".

(** Source: relay/src/main.rs:649-653, RelayState::verify_store_signature. *)
Definition store_signing_data (r : MailboxStoreRequest) : string :=
  ms_recipient_nid r +:+ "|" +:+ ms_sender_nid r +:+ "|" +:+ ms_sender_fp r +:+ "|"
  +:+ pretty (ms_seq r) +:+ "|" +:+ fmt_f64 (ms_timestamp r) +:+ "|" +:+ ms_nonce r.

(** A sealed sender is not verified at all.
    Source: relay/src/main.rs:625-672, RelayState::verify_store_signature. *)
Definition verify_store_signature (x : context) (r : MailboxStoreRequest) : st RelayState string unit :=
  do! st_guard (negb (str_is_empty (ms_sender_sig r))) "missing sender signature";
  if negb (str_is_empty (ms_sealed_sender r)) then
    st_guard (String.eqb (ms_sender_nid r) "anonymous") "sealed sender requires sender_nid='anonymous'"
  else
    do verified <- check_gpg x (ms_sender_sig r) (store_signing_data r) (ms_sender_fp r) (ms_sender_cert r);
    st_guard verified "sender signature verification failed".

(** What the store and the forward requests have in common.
    Source: relay/src/main.rs:1088-1099, handle_message. *)
Definition verify_and_store (x : context) (r : MailboxStoreRequest) : st RelayState string unit :=
  do! verify_store_signature x r;
  do! st_lift (check_timestamp_freshness (x_now x) (ms_timestamp r));
  do fresh <- check_nonce x (ms_sender_fp r) (ms_nonce r);
  do! st_guard fresh replay_detected;
  store_message x r.

(** The requester owns the identifier: the identifier is that of the
    fingerprint, and the certificate on file for it verifies the signature.
    Source: relay/src/main.rs:1116-1140, handle_message. *)
Definition authorize_owner (x : context) (what nid fp sig data cert nonce_key : string) (time : f64)
  : st RelayState string unit :=
  do! st_lift (check_timestamp_freshness (x_now x) time);
  do! st_guard (String.eqb (compute_null_id fp) nid)
        (what +:+ " denied: null_id does not match requester fingerprint");
  do verified <- check_gpg x sig data fp cert;
  do! st_guard verified (what +:+ " denied: GPG signature verification failed");
  do fresh <- check_nonce x fp nonce_key;
  st_guard fresh replay_detected.

(** With a shared secret the request also carries an HMAC.
    Source: relay/src/main.rs:1142-1147, handle_message. *)
Definition require_hmac (data provided error : string) : st RelayState string unit :=
  do s <- st_get;
  match shared_secret s with
  | Some secret => st_guard (verify_hmac data provided secret) error
  | None => st_ret tt
  end.

(** ** relay-store, relay-fetch, relay-ack, relay-purge *)

(** Source: relay/src/main.rs:1080-1102, handle_message. *)
Definition handle_store (x : context) (p : value) : handler :=
  do req <- st_lift (decode "store request" (store_request_of p));
  do! verify_and_store x req;
  st_ret [ROk None].

Definition fetch_signing_data (r : MailboxFetchRequest) : string :=
  "relay-fetch:" +:+ mf_recipient_nid r +:+ ":" +:+ fmt_f64 (mf_timestamp r) +:+ ":" +:+ mf_nonce r.

Definition entry_value (e : MailboxEntry) : value :=
  VObject [("signed_blob", VString (signed_blob e)); ("sender_nid", VString (sender_nid e));
           ("sender_fp", VString (sender_fp e)); ("seq", json_int (seq e))].

Definition fetch_value (es : list MailboxEntry) : value :=
  VObject [("entries", VArray (entry_value <$> es)); ("count", json_int (zlen es))].

(** Source: relay/src/main.rs:1103-1163, handle_message. *)
Definition handle_fetch (x : context) (p : value) : handler :=
  do req <- st_lift (decode "fetch request" (fetch_request_of p));
  let nid := mf_recipient_nid req in
  let fp := mf_requester_fp req in
  do! st_guard (negb (str_is_empty (mf_sender_sig req) || str_is_empty fp))
        "fetch request missing sender signature";
  do! authorize_owner x "fetch" nid fp (mf_sender_sig req) (fetch_signing_data req)
        (mf_sender_cert req) (fp +:+ ":" +:+ mf_nonce req) (mf_timestamp req);
  do! require_hmac nid (mf_auth_hmac req) "HMAC authentication failed";
  do s <- st_get;
  st_ret [ROk (Some (fetch_value (fetch_messages x nid s)))].

Definition ack_signing_data (nid : string) (sq : Z) (time : f64) (nonce : string) : string :=
  "relay-ack:" +:+ nid +:+ ":" +:+ pretty sq +:+ ":" +:+ fmt_f64 time +:+ ":" +:+ nonce.

(** Source: relay/src/main.rs:1164-1238, handle_message. *)
Definition handle_ack (x : context) (p : value) : handler :=
  let nid := str_field p "recipient_nid" in
  let sq := i64_field p "seq" 0 in
  let sig := str_field p "sender_sig" in
  let fp := str_field p "requester_fp" in
  let time := f64_field p "timestamp" (f64_of_Z 0) in
  let nonce := str_field p "nonce" in
  do! st_guard (negb (str_is_empty sig || str_is_empty fp)) "ack request missing sender signature";
  do! authorize_owner x "ack" nid fp sig (ack_signing_data nid sq time nonce)
        (str_field p "sender_cert") (fp +:+ ":" +:+ nonce) time;
  do! st_modify (ack_message x nid sq);
  st_ret [ROk None].

Definition purge_signing_data (nid : string) (time : f64) (nonce : string) : string :=
  "relay-purge:" +:+ nid +:+ ":" +:+ fmt_f64 time +:+ ":" +:+ nonce.

(** No certificate comes with a purge.
    Source: relay/src/main.rs:1562-1643, handle_message. *)
Definition handle_purge (x : context) (p : value) : handler :=
  let nid := str_field p "recipient_nid" in
  let fp := str_field p "requester_fp" in
  let sig := str_field p "sender_sig" in
  let time := f64_field p "timestamp" (f64_of_Z 0) in
  let nonce := str_field p "nonce" in
  do! require_hmac ("relay-purge:" +:+ nid +:+ ":" +:+ fmt_f64 time) (str_field p "auth_hmac")
        "purge denied: HMAC verification failed";
  do! st_guard (negb (str_is_empty fp || str_is_empty sig))
        "purge: missing requester fingerprint or signature";
  do! authorize_owner x "purge" nid fp sig (purge_signing_data nid time nonce) ""
        ("purge:" +:+ fp +:+ ":" +:+ nonce) time;
  do! st_modify (purge_all_messages x nid);
  st_ret [ROk None].

(** ** Federation *)

(** Source: relay/src/main.rs:1239-1252, handle_message. *)
Definition handle_ping (x : context) : handler :=
  st_ret [envelope x "relay-pong" (VObject [])].

(** [payload["null_ids"].as_array()], the strings among its members. *)
Definition announced (p : value) : list string :=
  omap as_str (opt_or (get p "null_ids" ≫= as_array) []).

Definition learn_routes (x : context) (p : value) (s : RelayState) : RelayState :=
  let peer_url := str_field p "relay_url" in
  set_federation (touch_peer (x_instant x) peer_url
    (add_routes (x_instant x) (announced p) peer_url (federation s))) s.

Definition our_relay_url (s : RelayState) : string := opt_or (our_url (federation s)) "".

(** Nothing is asked of the announcing peer.
    Source: relay/src/main.rs:1254-1295, handle_message. *)
Definition handle_route_advertise (x : context) (p : value) : handler :=
  do! st_lift (match route_count_of p with
               | Ok _ => Ok tt | Err e => Err ("invalid route-advertise: " +:+ e) end);
  do! st_modify (learn_routes x p);
  do s <- st_get;
  let nids := elements (get_local_null_ids s) in
  st_ret [envelope x "route-advertise-ack"
    (VObject [("relay_url", VString (our_relay_url s)); ("route_count", json_int (zlen nids));
              ("null_ids", VArray (VString <$> nids))])].

(** Source: relay/src/main.rs:1296-1308, handle_message. *)
Definition handle_route_ack (x : context) (p : value) : handler :=
  do! st_modify (learn_routes x p); st_ret [].

Definition route_found (x : context) (nid u : string) : reply :=
  envelope x "route-found" (VObject [("null_id", VString nid); ("relay_url", VString u)]).

(** Source: relay/src/main.rs:1309-1354, handle_message. *)
Definition handle_who_has (x : context) (p : value) : handler :=
  do nid <- st_lift (decode "who-has" (who_has_of p));
  do s <- st_get;
  if bool_decide (nid ∈ get_local_null_ids s) then st_ret [route_found x nid (our_relay_url s)]
  else
    match lookup_route nid (federation s) with
    | Some u => st_ret [route_found x nid u]
    | None => st_ret []
    end.

(** The challenge of the peer is filed as pending, and answered.
    Source: relay/src/main.rs:1355-1388, handle_message. *)
Definition handle_peer_auth (x : context) (p : value) : handler :=
  do auth <- st_lift (decode "peer-auth" (peer_auth_of p));
  do s <- st_get;
  let fed := federation s in
  do! st_put (set_federation (set_challenges
        (<[pa_relay_url auth := (pa_challenge auth, x_secs x)]> (pending_challenges fed)) fed) s);
  match Federation.shared_secret fed with
  | Some secret =>
      st_ret [envelope x "peer-auth-reply"
        (VObject [("response", VString (compute_hmac (pa_challenge auth) secret));
                  ("relay_url", VString (our_relay_url s))])]
  | None => st_ret []
  end.

(** Source: relay/src/main.rs:1389-1416, handle_message. *)
Definition handle_peer_auth_reply (x : context) (p : value) : handler :=
  do r <- st_lift (decode "peer-auth-reply" (peer_auth_reply_of p));
  do s <- st_get;
  let fed := federation s in
  match pending_challenges fed !! pr_relay_url r with
  | None => st_ret []
  | Some (challenge, created_at) =>
      let fed := set_challenges (delete (pr_relay_url r) (pending_challenges fed)) fed in
      do! st_put (set_federation fed s);
      do! st_guard (negb (300 <? x_secs x - created_at)) "challenge expired";
      match Federation.shared_secret fed with
      | Some secret =>
          if String.eqb (compute_hmac challenge secret) (pr_response r)
          then do! st_put (set_federation (authenticate (pr_relay_url r) fed) s); st_ret []
          else st_ret []
      | None => st_ret []
      end
  end.

Definition forward_ack (x : context) (error : option string) : reply :=
  envelope x "relay-forward-ack"
    (VObject [("accepted", VBool (match error with None => true | Some _ => false end));
              ("error", match error with None => VNull | Some e => VString e end)]).

(** A known source that has not authenticated is refused; an unknown one is not.
    Source: relay/src/main.rs:1447-1474, handle_message. *)
Definition source_refused (f : RelayForward) (fed : FederationState) : bool :=
  match Federation.shared_secret fed, peers fed !! rf_source_relay_url f with
  | Some _, Some peer => negb (authenticated peer)
  | _, _ => false
  end.

(** The refusals that are acknowledged, in order.
    Source: relay/src/main.rs:1444-1519, handle_message. *)
Definition forward_refusal (f : RelayForward) (s : RelayState) : option string :=
  if source_refused f (federation s) then
    Some "peer not authenticated — HMAC challenge-response required"
  else if bool_decide (our_relay_url s ∈ rf_via f) then Some "loop detected"
  else if FEDERATION_MAX_RELAY_HOPS <=? rf_hop_count f then Some "max hop count exceeded"
  else None.

(** The inner request; its certificate and sealed sender are left empty.
    Source: relay/src/main.rs:1522-1533, handle_message. *)
Definition inner_request (f : RelayForward) : MailboxStoreRequest :=
  mkMailboxStoreRequest (rf_recipient_nid f) (rf_signed_blob f) (rf_sender_nid f) (rf_sender_fp f)
    (rf_seq f) (rf_sender_sig f) (rf_timestamp f) (pretty (rf_nonce f)) "" "".

(** Source: relay/src/main.rs:1417-1561, handle_message. *)
Definition handle_forward (x : context) (p : value) : handler :=
  do s <- st_get;
  if negb (allow_relay s) then
    st_ret [forward_ack x (Some "relay does not accept transit forwarding (edge mode)")]
  else
    do f <- st_lift (decode "relay-forward" (forward_of p));
    match forward_refusal f s with
    | Some e => st_ret [forward_ack x (Some e)]
    | None =>
        do! verify_and_store x (inner_request f);
        st_ret [forward_ack x None]
    end.

(** Source: relay/src/main.rs:1672-1688, handle_message. *)
Definition onion_forward (x : context) (ciphertext : string) (s : RelayState) : RelayForward :=
  mkRelayForward "" ciphertext "onion" "" 0 "" (x_now x) (f64_to_i64 (x_now x)) 1 []
    (our_relay_url s) "" "" "" "".

(** A peer that is not reachable is logged; the reply is the same.
    Source: relay/src/main.rs:1644-1706, handle_message. *)
Definition handle_onion (x : context) (p : value) : handler :=
  let exit_url := str_field p "exit_relay_url" in
  let ciphertext := str_field p "ciphertext" in
  do! st_guard (negb (str_is_empty exit_url || str_is_empty ciphertext))
        "onion-v1: missing exit_relay_url or ciphertext";
  do s <- st_get;
  let m := relay_to_json (mkRelayEnvelope "relay-forward" (forward_value (onion_forward x ciphertext s))
                            (x_reply_id x) (x_reply_now x)) in
  do! st_put (set_federation (send_to_peer exit_url m (federation s)).1 s);
  st_ret [ROk None].

(** Source: relay/src/main.rs:1074-1709, handle_message. *)
Definition handle_message (x : context) (e : RelayEnvelope) : handler :=
  let t := re_type e in
  let p := re_payload e in
  if String.eqb t "relay-store" then handle_store x p
  else if String.eqb t "relay-fetch" then handle_fetch x p
  else if String.eqb t "relay-ack" then handle_ack x p
  else if String.eqb t "relay-ping" then handle_ping x
  else if String.eqb t "route-advertise" then handle_route_advertise x p
  else if String.eqb t "route-advertise-ack" then handle_route_ack x p
  else if String.eqb t "who-has" then handle_who_has x p
  else if String.eqb t "peer-auth" then handle_peer_auth x p
  else if String.eqb t "peer-auth-reply" then handle_peer_auth_reply x p
  else if String.eqb t "relay-forward" then handle_forward x p
  else if String.eqb t "relay-purge" then handle_purge x p
  else if String.eqb t "onion-v1" then handle_onion x p
  else st_fail ("unknown message type: " +:+ t).

(** ** The connection *)

(** Source: relay/src/main.rs:31-31, MAX_CONNECTIONS. *)
Definition MAX_CONNECTIONS : Z := 100.
(** Source: relay/src/main.rs:410-412, MAX_PEER_LIMITERS. *)
Definition MAX_PEER_LIMITERS : Z := 10000.
(** Source: relay/src/main.rs:414-415, PEER_LIMITER_CLEANUP_SECS. *)
Definition PEER_LIMITER_CLEANUP_SECS : Z := 120.

Fixpoint oldest_limiter (best : string * Z) (l : list (string * (RateLimiter * Z))) : string :=
  match l with
  | [] => best.1
  | (ip, (_, t)) :: l' => oldest_limiter (if t <? best.2 then (ip, t) else best) l'
  end.

(** Source: relay/src/main.rs:901-906, handle_connection. *)
Definition evict_limiter (m : gmap string (RateLimiter * Z)) : gmap string (RateLimiter * Z) :=
  if MAX_PEER_LIMITERS <? Z.of_nat (size m)
  then match map_to_list m with
       | [] => m
       | (ip, (_, t)) :: l => delete (oldest_limiter (ip, t) l) m
       end
  else m.

(** One limiter per address; a refused connection leaves the map as it is.
    Source: relay/src/main.rs:885-907, handle_connection. *)
Definition admit_peer (now : f64) (x : context) (ip : string) (s : RelayState) : RelayState * bool :=
  let (l, _) := opt_or (conn_limiters s !! ip) (RateLimit.new 30 (f64_of_Z 60), x_instant x) in
  let (l', ok) := RateLimit.allow now ip l in
  let m := <[ip := (l', x_instant x)]> (conn_limiters s) in
  (set_limiters (if ok then evict_limiter m else m) s, ok).

(** The task that forgets limiters not used for four minutes.
    Source: relay/src/main.rs:2206-2217, main. *)
Definition drop_stale_limiters (now : Z) (s : RelayState) : RelayState :=
  set_limiters (filter (fun kl => now - secs (PEER_LIMITER_CLEANUP_SECS * 2) < kl.2.2) (conn_limiters s)) s.

(** A certificate seen for the first time is pinned.
    Source: relay/src/main.rs:914-927, handle_connection. *)
Definition pin_peer (cert_fp : string) (s : RelayState) : RelayState :=
  set_known_peers ({[cert_fp]} ∪ known_peers s) s.

(** Source: relay/src/main.rs:954-969, handle_ws_connection. *)
Definition overloaded (s : RelayState) : bool :=
  MAX_CONNECTIONS * MAX_MAILBOX_SIZE <=?
  foldr Z.add 0 ((fun km => zlen (entries km.2)) <$> map_to_list (mailboxes s)).

(** Source: relay/src/main.rs:976-1037, handle_ws_connection. *)
Inductive ws_frame : Type := WText (raw : string) | WPing | WPong | WClose | WBinary | WFrame | WError | WTick.

(** Source: relay/src/main.rs:979-1004, handle_ws_connection. *)
Definition handle_text (x : context) (raw : string) (s : RelayState) : RelayState * list reply :=
  match relay_from_json raw with
  | Err e => (s, [RError ("invalid JSON: " +:+ e)])
  | Ok e =>
      if f64_gtb (f64_abs (f64_sub (x_env_now x) (re_ts e))) (f64_of_Z STORE_TIMESTAMP_TOLERANCE_SECS)
      then (s, [RError ("envelope timestamp out of range (now=" +:+ fmt_f64 (x_env_now x)
                        +:+ ", ts=" +:+ fmt_f64 (re_ts e) +:+ ")")])
      else
        match handle_message x e s with
        | (s', Ok replies) => (s', replies)
        | (s', Err er) => (s', [RError er])
        end
  end.

(** The heartbeat sends a ping and changes nothing.
    Source: relay/src/main.rs:949-1042, handle_ws_connection. *)
Fixpoint serve (fs : list (context * ws_frame)) (s : RelayState) (sent : list reply)
  : RelayState * list reply :=
  match fs with
  | [] => (s, sent)
  | (x, WText raw) :: fs' => let (s', r) := handle_text x raw s in serve fs' s' (sent ++ r)
  | (_, WPing) :: fs' => serve fs' s (sent ++ [RPong])
  | (_, WBinary) :: fs' => serve fs' s (sent ++ [RError "binary messages not supported"])
  | (_, (WPong | WFrame | WTick)) :: fs' => serve fs' s sent
  | (_, (WClose | WError)) :: _ => (s, sent)
  end.

(** Source: relay/src/main.rs:949-1042, handle_ws_connection. *)
Definition handle_ws_connection (fs : list (context * ws_frame)) (s : RelayState)
  : RelayState * list reply :=
  if overloaded s then (s, [RError "relay overloaded"]) else serve fs s [].

(** ** Background tasks *)

(** The routes are cleaned only by a round that has something to announce.
    Source: relay/src/main.rs:1786-1835, gossip_task. *)
Definition gossip_round (x : context) (s : RelayState) : RelayState :=
  let nids := elements (get_local_null_ids s) in
  match nids with
  | [] => s
  | _ =>
      let m := relay_to_json (mkRelayEnvelope "route-advertise"
                 (VObject [("relay_url", VString (our_relay_url s));
                           ("null_ids", VArray (VString <$> nids))]) (x_reply_id x) (x_reply_now x)) in
      let fed := foldl (fun f u => (send_to_peer u m f).1) (federation s)
                       (map_to_list (peers (federation s))).*1 in
      set_federation (cleanup_expired_routes (x_instant x) fed) s
  end.

(** Source: relay/src/main.rs:1837-1863, forward_to_peer. *)
Definition forward_to_peer (x : context) (u : string) (f : RelayForward) (s : RelayState) : RelayState :=
  let f := if str_is_empty (rf_source_relay_url f)
           then mkRelayForward (rf_recipient_nid f) (rf_signed_blob f) (rf_sender_nid f) (rf_sender_fp f)
                  (rf_seq f) (rf_sender_sig f) (rf_timestamp f) (rf_nonce f) (rf_hop_count f) (rf_via f)
                  (our_relay_url s) (rf_source_relay_cert f) (rf_source_relay_sig f)
                  (rf_source_relay_fp f) (rf_sender_cert f)
           else f in
  let m := relay_to_json (mkRelayEnvelope "relay-forward" (forward_value f) (x_reply_id x) (x_reply_now x)) in
  set_federation (send_to_peer u m (federation s)).1 s.
End relay.

(** Source: relay/src/main.rs:1978-1998, parse_relay_url. *)
Definition parse_relay_url (u : string) : string * Z * bool :=
  let '(use_tls, rest) :=
    match strip_prefix "wss://" u with
    | Some r => (true, r)
    | None => match strip_prefix "ws://" u with Some r => (false, r) | None => (false, u) end
    end in
  let default := if use_tls : bool then 443 else 80 in
  let '(host, port_str) :=
    match str_rfind ":"%char rest with
    | Some i => (str_take i rest, str_drop (S i) rest)
    | None => (rest, if use_tls : bool then "443" else "80")
    end in
  (host, opt_or (parse_unsigned 65535 port_str) default, use_tls).
