(* ===== verification/RelayProps.v ===== *)
(** * What the relay's requests guarantee, and what they do not

    Who can change or read a mailbox, and the three ways around the checks:
    a certificate pinned under a fingerprint it does not have, a sealed sender
    that nobody verifies, and a peer that lets the relay answer for it. *)

From S2P Require Import Prelude Text Primitives Concrete Json Gpg Identity RateLimit.
From S2P Require Import Mailbox RelayAuth Federation RelayState Relay.

(** The stored messages. *)
Definition mail (s : RelayState) : gmap string Mailbox * option (list row) := (mailboxes s, db_pool s).

Section props.
Context `{Sequoia} `{Base64} `{Blake2} `{Hmac} `{Hex} `{Aead} `{Format} `{RelayCodec}.

(** The nonce has not been used under the fingerprint. *)
Definition unused (fp key : string) (s : RelayState) : Prop :=
  existsb (fun e => String.eqb e.1 key) (logged fp (seen_nonce_strs s)) = false.

(** The identifier belongs to the fingerprint, whose certificate on file
    verifies the signature; the nonce is new. *)
Definition owner_proof (s s' : RelayState) (nid fp sig data key : string) : Prop :=
  compute_null_id fp = nid /\ signed_under (cert_cache s') fp sig data /\ unused fp key s.

Lemma check_gpg_spec x sig data fp provided s :
  exists c b, check_gpg x sig data fp provided s = (set_certs c s, Ok b) /\
    (b = true -> signed_under c fp sig data) /\
    c = (verify_gpg_detached (x_locks x) sig data fp provided (cert_cache s)).1.
Proof.
  unfold check_gpg. destruct (verify_gpg_detached _ _ _ _ _ _) as [c r] eqn:E.
  exists c, (unwrap_or r false). split_and!; [done| |done].
  intros Hb. destruct r as [[]|]; try done. by eapply verify_gpg_sound.
Qed.

Lemma check_nonce_spec x fp key s :
  exists n b, check_nonce x fp key s = (set_nonces n s, Ok b) /\ (b = true <-> unused fp key s).
Proof.
  unfold check_nonce, unused, logged, check_and_record_nonce_str.
  destruct (existsb _ _); eexists _, _; split; [done|naive_solver|done|naive_solver].
Qed.

(** A failed guard leaves the messages alone; a passed one proves the owner. *)
Lemma authorize_spec x what nid fp sig data cert key time s s' r :
  authorize_owner x what nid fp sig data cert key time s = (s', r) ->
  (exists c n, s' = set_nonces n (set_certs c s)) /\
  (r = Ok tt -> owner_proof s s' nid fp sig data key).
Proof.
  unfold authorize_owner, st_bind, st_lift, st_guard, st_ret, st_fail.
  assert (Hs : s = set_nonces (seen_nonce_strs s) (set_certs (cert_cache s) s)) by (by destruct s).
  destruct (check_timestamp_freshness _ _); [|intros [= <- <-]; split; [by eexists _, _|done]].
  destruct (String.eqb_spec (compute_null_id fp) nid) as [En|];
    [|intros [= <- <-]; split; [by eexists _, _|done]].
  destruct (check_gpg_spec x sig data fp cert s) as (c & b & -> & Hb & _). destruct b.
  2: { intros [= <- <-]. split; [|done]. exists c, (seen_nonce_strs s). by destruct s. }
  destruct (check_nonce_spec x fp key (set_certs c s)) as (n & b & -> & Hn).
  destruct b; intros [= <- <-]; (split; [by eexists _, _|]); [|done].
  intros _. split_and!; [done|exact (Hb eq_refl)|by apply Hn].
Qed.

(** The request passed the checks of a store. *)
Definition store_proof (s s' : RelayState) (req : MailboxStoreRequest) : Prop :=
  unused (ms_sender_fp req) (ms_nonce req) s /\
  ((ms_sealed_sender req <> "" /\ ms_sender_nid req = "anonymous") \/
   signed_under (cert_cache s') (ms_sender_fp req) (ms_sender_sig req) (store_signing_data req)).

Lemma str_is_empty_false s : str_is_empty s = false <-> s <> "".
Proof. by destruct s. Qed.

Lemma set_nonces_certs_id s : set_nonces (seen_nonce_strs s) (set_certs (cert_cache s) s) = s.
Proof. by destruct s. Qed.

Lemma verify_store_spec x req s s' r :
  verify_store_signature x req s = (s', r) ->
  exists c, s' = set_certs c s /\
    (r = Ok tt ->
     (ms_sealed_sender req <> "" /\ ms_sender_nid req = "anonymous") \/
     signed_under c (ms_sender_fp req) (ms_sender_sig req) (store_signing_data req)).
Proof.
  assert (Hs : s = set_certs (cert_cache s) s) by (by destruct s).
  unfold verify_store_signature, st_bind, st_guard, st_ret, st_fail.
  destruct (str_is_empty (ms_sender_sig req)); cbn [negb]; [intros [= <- <-]; by eexists|].
  destruct (str_is_empty (ms_sealed_sender req)) eqn:Es; cbn [negb].
  - destruct (check_gpg_spec x (ms_sender_sig req) (store_signing_data req) (ms_sender_fp req)
      (ms_sender_cert req) s) as (c & b & -> & Hb & _).
    destruct b; intros [= <- <-]; exists c; (split; [done|]); [|done]. intros _. right. by apply Hb.
  - apply str_is_empty_false in Es.
    destruct (String.eqb_spec (ms_sender_nid req) "anonymous"); intros [= <- <-]; eexists;
      (split; [exact Hs|]); [|done]. intros _. by left.
Qed.

Lemma verify_and_store_spec x req s s' r :
  verify_and_store x req s = (s', r) ->
  mail s' = mail s \/
  (store_proof s s' req /\ exists s0, mail s0 = mail s /\ metadata_key s0 = metadata_key s /\
     store_message x req s0 = (s', r)).
Proof.
  unfold verify_and_store, st_bind at 1.
  destruct (verify_store_signature x req s) as [s1 [[]|er]] eqn:Ev.
  2: { destruct (verify_store_spec _ _ _ _ _ Ev) as (c & -> & _). intros [= <- <-]. by left. }
  destruct (verify_store_spec _ _ _ _ _ Ev) as (c & -> & Hv). specialize (Hv eq_refl).
  unfold st_bind, st_lift, st_guard, st_ret, st_fail.
  destruct (check_timestamp_freshness _ _); [|intros [= <- <-]; by left].
  destruct (check_nonce_spec x (ms_sender_fp req) (ms_nonce req) (set_certs c s)) as (n & b & -> & Hn).
  destruct b; [|intros [= <- <-]; by left]. intros Hs. right.
  assert (Hc : cert_cache s' = c).
  { revert Hs. unfold store_message, st_bind, st_modify, st_get, st_lift, st_guard, st_ret, st_fail, ok_or.
    intros Hs. repeat (case_match; simplify_eq; try done). }
  split; [|by exists (set_nonces n (set_certs c s))]. split; [exact (proj1 Hn eq_refl)|]. by rewrite Hc.
Qed.

(** ** Handlers that do not touch the messages *)

Definition quiet (s s' : RelayState) (r : result string (list reply)) : Prop :=
  mail s' = mail s /\ forall v, r <> Ok [ROk (Some v)].

Ltac unfold_st :=
  unfold st_bind, st_lift, st_guard, st_ret, st_fail, st_get, st_put, st_modify in *.
Ltac solve_quiet :=
  unfold_st; cbv beta iota zeta; intros; repeat (case_match; simplify_eq);
  simplify_eq; (split; [reflexivity|intros ?; discriminate]).

Lemma quiet_federation x e s s' r :
  let t := re_type e in
  (t <> "relay-store" /\ t <> "relay-fetch" /\ t <> "relay-ack" /\ t <> "relay-forward" /\
   t <> "relay-purge") ->
  handle_message x e s = (s', r) -> quiet s s' r.
Proof.
  intros t (N1 & N2 & N3 & N4 & N5). unfold handle_message. fold t.
  rewrite (proj2 (String.eqb_neq _ _) N1), (proj2 (String.eqb_neq _ _) N2),
    (proj2 (String.eqb_neq _ _) N3), (proj2 (String.eqb_neq _ _) N4),
    (proj2 (String.eqb_neq _ _) N5).
  unfold quiet, handle_ping, handle_route_advertise, handle_route_ack, handle_who_has,
    handle_peer_auth, handle_peer_auth_reply, handle_onion.
  destruct (String.eqb t "relay-ping"); [solve_quiet|].
  destruct (String.eqb t "route-advertise"); [solve_quiet|].
  destruct (String.eqb t "route-advertise-ack"); [solve_quiet|].
  destruct (String.eqb t "who-has"); [solve_quiet|].
  destruct (String.eqb t "peer-auth"); [solve_quiet|].
  destruct (String.eqb t "peer-auth-reply"); [solve_quiet|].
  destruct (String.eqb t "onion-v1"); [solve_quiet|solve_quiet].
Qed.

(** ** Who reads and who removes *)

Definition stored_by (x : context) (s s' : RelayState) : Prop :=
  exists req s0, store_proof s s' req /\ mail s0 = mail s /\ metadata_key s0 = metadata_key s /\
    (store_message x req s0).1 = s'.

Definition removed_by_owner (x : context) (s s' : RelayState) : Prop :=
  exists nid fp sig time nonce,
    (exists sq, owner_proof s s' nid fp sig (ack_signing_data nid sq time nonce) (fp +:+ ":" +:+ nonce) /\
       mail s' = mail (ack_message x nid sq s)) \/
    (owner_proof s s' nid fp sig (purge_signing_data nid time nonce) ("purge:" +:+ fp +:+ ":" +:+ nonce) /\
       mail s' = mail (purge_all_messages x nid s)).

Definition fetched_by_owner (x : context) (s s' : RelayState) (v : value) : Prop :=
  exists req,
    owner_proof s s' (mf_recipient_nid req) (mf_requester_fp req) (mf_sender_sig req)
      (fetch_signing_data req) (mf_requester_fp req +:+ ":" +:+ mf_nonce req) /\
    (forall secret, shared_secret s = Some secret ->
       verify_hmac (mf_recipient_nid req) (mf_auth_hmac req) secret = true) /\
    v = fetch_value (fetch_messages x (mf_recipient_nid req) s).

Lemma handle_store_guarded x p s s' r :
  handle_store x p s = (s', r) ->
  (mail s' = mail s \/ stored_by x s s') /\ forall v, r <> Ok [ROk (Some v)].
Proof.
  unfold handle_store, st_bind at 1, st_lift. destruct (decode _ _) as [req|]; [|intros [= <- <-]; split; [by left|done]].
  unfold st_bind, st_ret. destruct (verify_and_store x req s) as [s1 r1] eqn:E.
  destruct (verify_and_store_spec _ _ _ _ _ E) as [Hm|(Hp & s0 & ? & ? & Hs)];
    destruct r1 as [[]|]; intros [= <- <-]; (split; [|done]); [by left|by left| |];
    right; exists req, s0; (split_and!; [done|done|done|by rewrite Hs]).
Qed.

Lemma handle_forward_guarded x p s s' r :
  handle_forward x p s = (s', r) ->
  (mail s' = mail s \/ stored_by x s s') /\ forall v, r <> Ok [ROk (Some v)].
Proof.
  unfold handle_forward, st_bind at 1, st_get. destruct (allow_relay s); cbn [negb].
  2: { intros [= <- <-]. split; [by left|done]. }
  unfold st_bind at 1, st_lift. destruct (decode _ _) as [f|]; [|intros [= <- <-]; split; [by left|done]].
  destruct (forward_refusal f s); [intros [= <- <-]; split; [by left|done]|].
  unfold st_bind, st_ret. destruct (verify_and_store x (inner_request f) s) as [s1 r1] eqn:E.
  destruct (verify_and_store_spec _ _ _ _ _ E) as [Hm|(Hp & s0 & ? & ? & Hs)];
    destruct r1 as [[]|]; intros [= <- <-]; (split; [|done]); [by left|by left| |];
    right; exists (inner_request f), s0; (split_and!; [done|done|done|by rewrite Hs]).
Qed.

Lemma require_hmac_spec data provided error s :
  exists r, require_hmac data provided error s = (s, r) /\
    (r = Ok tt -> forall secret, shared_secret s = Some secret -> verify_hmac data provided secret = true).
Proof.
  unfold require_hmac, st_bind, st_get, st_guard, st_ret, st_fail.
  destruct (shared_secret s) as [secret|]; [|by exists (Ok tt)].
  destruct (verify_hmac data provided secret) eqn:E; eexists; (split; [done|]); [|done].
  by intros _ ? [= <-].
Qed.

Lemma handle_fetch_guarded x p s s' r :
  handle_fetch x p s = (s', r) ->
  mail s' = mail s /\ forall v, r = Ok [ROk (Some v)] -> fetched_by_owner x s s' v.
Proof.
  unfold handle_fetch, st_bind at 1, st_lift. destruct (decode _ _) as [req|]; [|by intros [= <- <-]].
  unfold st_bind, st_guard, st_ret, st_fail, st_get at 1.
  destruct (negb _); [|by intros [= <- <-]].
  destruct (authorize_owner _ _ _ _ _ _ _ _ _ s) as [s1 [[]|]] eqn:E;
    destruct (authorize_spec _ _ _ _ _ _ _ _ _ _ _ _ E) as [(c & n & ->) Ho];
    [|by intros [= <- <-]].
  specialize (Ho eq_refl).
  match goal with |- context [require_hmac ?d ?h ?er ?s] =>
    destruct (require_hmac_spec d h er s) as (r0 & -> & Hh) end.
  destruct r0 as [[]|]; [|by intros [= <- <-]].
  intros [= <- <-]. split; [done|]. intros v [= <-]. exists req. split_and!; [done|by apply Hh|done].
Qed.

Lemma handle_ack_guarded x p s s' r :
  handle_ack x p s = (s', r) ->
  (mail s' = mail s \/ removed_by_owner x s s') /\ forall v, r <> Ok [ROk (Some v)].
Proof.
  unfold handle_ack. cbv zeta. unfold st_bind, st_guard, st_ret, st_fail, st_modify.
  destruct (negb _); [|intros [= <- <-]; split; [by left|done]].
  destruct (authorize_owner _ _ _ _ _ _ _ _ _ s) as [s1 [[]|]] eqn:E;
    destruct (authorize_spec _ _ _ _ _ _ _ _ _ _ _ _ E) as [(c & n & ->) Ho];
    intros [= <- <-]; (split; [|done]); [|by left].
  right. eexists _, _, _, _, _. left. eexists. split; [exact (Ho eq_refl)|done].
Qed.

Lemma handle_purge_guarded x p s s' r :
  handle_purge x p s = (s', r) ->
  (mail s' = mail s \/ removed_by_owner x s s') /\ forall v, r <> Ok [ROk (Some v)].
Proof.
  unfold handle_purge. cbv zeta. unfold st_bind, st_guard, st_ret, st_fail, st_modify.
  match goal with |- context [require_hmac ?d ?h ?er s] =>
    destruct (require_hmac_spec d h er s) as (r0 & -> & _) end.
  destruct r0 as [[]|]; [|intros [= <- <-]; split; [by left|done]].
  destruct (negb _); [|intros [= <- <-]; split; [by left|done]].
  destruct (authorize_owner _ _ _ _ _ _ _ _ _ s) as [s1 [[]|]] eqn:E;
    destruct (authorize_spec _ _ _ _ _ _ _ _ _ _ _ _ E) as [(c & n & ->) Ho];
    intros [= <- <-]; (split; [|done]); [|by left].
  right. eexists _, _, _, _, _. right. split; [exact (Ho eq_refl)|done].
Qed.

(** C4: After any request the stored messages are what they were, or carry
    one more message whose sender's signature verified under the certificate
    on file or who is sealed, or have lost messages of a recipient who proved
    to own the identifier; and messages are only ever handed out to a
    requester who proved to own the identifier and, where a secret is
    configured, knows it.  Each of these uses a nonce that was new. *)
Theorem mail_guarded (x : context) (e : RelayEnvelope) (s s' : RelayState)
    (r : result string (list reply)) :
  handle_message x e s = (s', r) ->
  (mail s' = mail s \/ stored_by x s s' \/ removed_by_owner x s s') /\
  (forall v, r = Ok [ROk (Some v)] -> fetched_by_owner x s s' v).
Proof.
  intros He. pose proof He as Hq. unfold handle_message in He.
  destruct (String.eqb_spec (re_type e) "relay-store").
  { apply handle_store_guarded in He as [Hm Hr]. split; [tauto|intros v Hv; by destruct (Hr v)]. }
  destruct (String.eqb_spec (re_type e) "relay-fetch").
  { apply handle_fetch_guarded in He as [Hm Hr]. split; [by left|exact Hr]. }
  destruct (String.eqb_spec (re_type e) "relay-ack").
  { apply handle_ack_guarded in He as [Hm Hr]. split; [tauto|intros v Hv; by destruct (Hr v)]. }
  destruct (String.eqb_spec (re_type e) "relay-forward") as [E|].
  { rewrite E in He. apply handle_forward_guarded in He as [Hm Hr].
    split; [tauto|intros v Hv; by destruct (Hr v)]. }
  destruct (String.eqb_spec (re_type e) "relay-purge") as [E|].
  { rewrite E in He. apply handle_purge_guarded in He as [Hm Hr].
    split; [tauto|intros v Hv; by destruct (Hr v)]. }
  apply quiet_federation in Hq as [Hm Hr]; [|done]. split; [by left|].
  intros v Hv. by destruct (Hr v).
Qed.

(** ** A certificate under a fingerprint it does not have *)

Lemma accepted_is_signed x sig data fp provided s :
  (check_gpg x sig data fp provided s).2 = Ok true ->
  signed_under (verify_gpg_detached (x_locks x) sig data fp provided (cert_cache s)).1 fp sig data.
Proof.
  destruct (check_gpg_spec x sig data fp provided s) as (c & b & -> & Hb & ->).
  simpl. intros [= ->]. by apply Hb.
Qed.

(** The certificate on file, or the one that comes with the request when there
    is none. *)
Lemma verify_gpg_own x sig data fp armored crt raw sig_str s :
  cert_cache s !! fp = None \/ cert_cache s !! fp = Some armored -> can_write (x_locks x) = true -> can_read (x_locks x) = true ->
  cert_from_bytes armored = Ok crt -> armored <> "" ->
  b64_decode sig = Some raw -> from_utf8 raw = Some sig_str ->
  verify_detached sig_str data crt = Ok true ->
  check_gpg x sig data fp armored s = (set_certs (<[fp := armored]> (cert_cache s)) s, Ok true).
Proof.
  intros Hc Hw Hr Hcrt Ha Hraw Hsig Hv. unfold check_gpg, verify_gpg_detached.
  rewrite (proj2 (str_is_empty_false armored) Ha).
  unfold st_bind, st_guard, st_modify, st_get, st_lift, st_ret. rewrite Hw, Hr.
  assert (Hp : pin_cert fp armored (cert_cache s) = <[fp := armored]> (cert_cache s)).
  { unfold pin_cert. destruct Hc as [Hc|Hc]; rewrite Hc; [done|by rewrite insert_id]. }
  rewrite Hp, lookup_insert_eq. cbn [ok_or].
  rewrite Hraw. cbn [ok_or]. rewrite Hcrt, Hsig. cbn [ok_or]. by rewrite Hv.
Qed.

(** C13: The first certificate that arrives with a request is filed under the
    fingerprint the request claims, whatever its own fingerprint.  With it and
    a signature of its own key anyone reads the mailbox of an owner the relay
    has not seen; from then on every check for that fingerprint is made with
    that certificate, so nothing its true owner signs is accepted. *)
Theorem cert_hijack (x : context) (p : value) (req : MailboxFetchRequest) (s : RelayState)
    (crt : cert) (raw : bytes) (sig_str : string) :
  let nid := mf_recipient_nid req in
  let fp := mf_requester_fp req in
  fetch_request_of p = Ok req ->
  cert_cache s !! fp = None -> shared_secret s = None ->
  can_write (x_locks x) = true -> can_read (x_locks x) = true ->
  mf_sender_sig req <> "" -> fp <> "" -> mf_sender_cert req <> "" ->
  compute_null_id fp = nid ->
  check_timestamp_freshness (x_now x) (mf_timestamp req) = Ok tt ->
  unused fp (fp +:+ ":" +:+ mf_nonce req) s ->
  cert_from_bytes (mf_sender_cert req) = Ok crt ->
  b64_decode (mf_sender_sig req) = Some raw -> from_utf8 raw = Some sig_str ->
  verify_detached sig_str (fetch_signing_data req) crt = Ok true ->
  exists s', handle_fetch x p s = (s', Ok [ROk (Some (fetch_value (fetch_messages x nid s)))]) /\
    forall x2 sig2 data2 provided2,
      (check_gpg x2 sig2 data2 fp provided2 s').2 = Ok true ->
      exists raw2 sig_str2, b64_decode sig2 = Some raw2 /\ from_utf8 raw2 = Some sig_str2 /\
        signed_by crt sig_str2 data2.
Proof.
  intros nid fp Hp Hc Hsec Hw Hr Hsig Hfp Hcert Hnid Hts Hun Hcrt Hraw Hutf Hv.
  set (s1 := set_certs (<[fp := mf_sender_cert req]> (cert_cache s)) s).
  destruct (check_nonce_spec x fp (fp +:+ ":" +:+ mf_nonce req) s1) as (n & b & Hn & Hb).
  assert (b = true) as -> by (apply Hb; exact Hun).
  exists (set_nonces n s1). split.
  - unfold handle_fetch, st_bind at 1, st_lift. rewrite Hp. cbn [decode]. fold fp nid.
    unfold st_bind at 1, st_guard.
    rewrite (proj2 (str_is_empty_false (mf_sender_sig req)) Hsig), (proj2 (str_is_empty_false fp) Hfp).
    cbn [orb negb st_ret]. unfold st_bind at 1.
    assert (Ha : authorize_owner x "fetch" nid fp (mf_sender_sig req) (fetch_signing_data req)
                   (mf_sender_cert req) (fp +:+ ":" +:+ mf_nonce req) (mf_timestamp req) s
                 = (set_nonces n s1, Ok tt)).
    { unfold authorize_owner, st_bind, st_lift, st_guard. rewrite Hts, Hnid, String.eqb_refl.
      cbn [st_ret]. rewrite (verify_gpg_own x _ _ fp _ crt raw sig_str s) by (done || by left). fold s1.
      cbn [st_ret]. by rewrite Hn. }
    rewrite Ha. unfold require_hmac, st_bind, st_get. simpl. by rewrite Hsec.
  - intros x2 sig2 data2 provided2 Hok. apply accepted_is_signed in Hok.
    destruct Hok as (armored & crt2 & raw2 & sig_str2 & Hl & Hc2 & ? & ? & ?).
    rewrite (verify_gpg_keeps _ _ _ _ _ _ fp (mf_sender_cert req)) in Hl
      by (simpl; by rewrite lookup_insert_eq).
    injection Hl as <-. rewrite Hcrt in Hc2. injection Hc2 as <-. by exists raw2, sig_str2.
Qed.

(** ** Sealed senders *)

Lemma encrypt_metadata_total iv plaintext key :
  slen plaintext < 2 ^ 32 -> exists enc, encrypt_metadata iv plaintext key = Some enc.
Proof.
  intros Hl. unfold encrypt_metadata.
  destruct (aes_encrypt_total key iv (str_bytes plaintext)) as [ct ->]; [by rewrite str_bytes_length|].
  simpl. by eexists.
Qed.

Lemma store_message_ok x req s :
  x_db x = true -> slen (ms_sender_nid req) + slen (ms_sender_fp req) + 1 < 2 ^ 32 ->
  exists db, store_message x req s =
    (set_mail (mailboxes (store_in_memory (x_secs x) req s)) db s, Ok tt).
Proof.
  intros Hx Hl. unfold store_message, st_bind, st_modify, st_get, st_lift, st_guard, st_ret.
  destruct (db_pool (store_in_memory (x_secs x) req s)) as [rows|] eqn:E.
  - match goal with |- context [encrypt_metadata ?iv ?t ?k] =>
      destruct (encrypt_metadata_total iv t k) as [enc ->] end.
    + rewrite slen_app. unfold slen at 2. cbn [String.length]. fold (slen (ms_sender_fp req)).
      unfold slen in *. lia.
    + cbn [ok_or]. rewrite Hx. by eexists.
  - exists (db_pool s). done.
Qed.

(** A nonce that was accepted is used. *)
Lemma nonce_recorded x fp key s n :
  check_nonce x fp key s = (set_nonces n s, Ok true) -> unused fp key s ->
  existsb (fun e => String.eqb e.1 key) (logged fp n) = true.
Proof.
  unfold check_nonce, check_and_record_nonce_str, unused. intros Hn Hun.
  fold (logged fp (seen_nonce_strs s)) in Hn. rewrite Hun in Hn. injection Hn as <-.
  unfold logged. rewrite lookup_insert_eq. simpl. rewrite existsb_app. simpl.
  by rewrite String.eqb_refl, orb_true_r.
Qed.

(** The nonces of others stay as they are. *)
Lemma nonce_of_other x fp key s n b o :
  check_nonce x fp key s = (set_nonces n s, Ok b) -> o <> fp -> logged o n = logged o (seen_nonce_strs s).
Proof.
  unfold check_nonce, check_and_record_nonce_str, logged. intros Hn Ho.
  destruct (existsb _ _); injection Hn as <- _; by rewrite lookup_insert_ne.
Qed.

(** A store signed by the key whose certificate it carries, when the relay has
    no other on file: the entry goes to memory and table. *)
Lemma store_granted x p req crt raw text s :
  store_request_of p = Ok req -> ms_sender_sig req <> "" -> ms_sealed_sender req = "" ->
  cert_cache s !! ms_sender_fp req = None \/ cert_cache s !! ms_sender_fp req = Some (ms_sender_cert req) ->
  can_write (x_locks x) = true -> can_read (x_locks x) = true ->
  cert_from_bytes (ms_sender_cert req) = Ok crt -> ms_sender_cert req <> "" ->
  b64_decode (ms_sender_sig req) = Some raw -> from_utf8 raw = Some text ->
  verify_detached text (store_signing_data req) crt = Ok true ->
  check_timestamp_freshness (x_now x) (ms_timestamp req) = Ok tt ->
  unused (ms_sender_fp req) (ms_nonce req) s ->
  x_db x = true -> slen (ms_sender_nid req) + slen (ms_sender_fp req) + 1 < 2 ^ 32 ->
  exists n s', let s0 := set_nonces n (set_certs (<[ms_sender_fp req := ms_sender_cert req]> (cert_cache s)) s) in
    handle_store x p s = (s', Ok [ROk None]) /\ store_message x req s0 = (s', Ok tt) /\
    ~ unused (ms_sender_fp req) (ms_nonce req) s' /\
    (forall fp key, fp <> ms_sender_fp req -> unused fp key s -> unused fp key s').
Proof.
  intros Hp Hsig Hseal Hc Hw Hr Hcrt Hne Hraw Htext Hv Hts Hun Hdb Hl.
  set (s1 := set_certs (<[ms_sender_fp req := ms_sender_cert req]> (cert_cache s)) s).
  destruct (check_nonce_spec x (ms_sender_fp req) (ms_nonce req) s1) as (n & b & Hn & Hb).
  assert (b = true) as -> by (apply Hb; exact Hun).
  destruct (store_message_ok x req (set_nonces n s1) Hdb Hl) as [db Hst].
  exists n. eexists. split_and!; [|exact Hst| |].
  - unfold handle_store, st_bind at 1, st_lift at 1. rewrite Hp. cbn [decode].
    unfold verify_and_store, verify_store_signature, st_bind, st_lift, st_guard.
    rewrite (proj2 (str_is_empty_false (ms_sender_sig req)) Hsig), Hseal. cbn [negb st_ret str_is_empty].
    erewrite verify_gpg_own by done. fold s1. cbn [st_ret]. unfold st_ret.
    by rewrite Hts, Hn, Hst.
  - unfold unused. cbn [seen_nonce_strs set_mail set_nonces].
    by rewrite (nonce_recorded _ _ _ _ _ Hn Hun).
  - intros fp key Hfp. unfold unused. cbn [seen_nonce_strs set_mail set_nonces].
    by rewrite (nonce_of_other _ _ _ _ _ _ _ Hn Hfp).
Qed.

(** A request whose nonce was used is not stored. *)
Lemma store_used_refused x p req s :
  store_request_of p = Ok req -> ~ unused (ms_sender_fp req) (ms_nonce req) s ->
  mail (handle_store x p s).1 = mail s /\ is_ok (handle_store x p s).2 = false.
Proof.
  intros Hp Hun. unfold handle_store, st_bind, st_lift. rewrite Hp. cbn [decode].
  destruct (verify_and_store x req s) as [s' r] eqn:E.
  destruct (verify_and_store_spec _ _ _ _ _ E) as [Hm|[[? _] _]]; [|done].
  destruct r as [[]|e]; [|done]. exfalso. revert E. unfold verify_and_store, st_bind at 1.
  destruct (verify_store_signature x req s) as [s1 [[]|er]] eqn:Ev; [|done].
  destruct (verify_store_spec _ _ _ _ _ Ev) as (c & -> & _).
  unfold st_bind, st_lift, st_guard, st_ret, st_fail.
  destruct (check_timestamp_freshness _ _); [|done].
  destruct (check_nonce_spec x (ms_sender_fp req) (ms_nonce req) (set_certs c s)) as (n & b & -> & Hn).
  destruct b; [|done]. by destruct Hun; apply Hn.
Qed.

(** A store that names itself sealed is accepted whatever its signature
    (any text that is not empty) and whatever fingerprint it claims, without a
    certificate: it enters the mailbox under that fingerprint, whose nonce log
    and mailbox share it uses up. *)
Theorem sealed_store_accepted (x : context) (p : value) (req : MailboxStoreRequest) (s : RelayState) :
  let nid := ms_recipient_nid req in
  store_request_of p = Ok req ->
  ms_sealed_sender req <> "" -> ms_sender_nid req = "anonymous" -> ms_sender_sig req <> "" ->
  check_timestamp_freshness (x_now x) (ms_timestamp req) = Ok tt ->
  unused (ms_sender_fp req) (ms_nonce req) s ->
  x_db x = true -> slen (ms_sender_fp req) < 2 ^ 31 ->
  exists s', handle_store x p s = (s', Ok [ROk None]) /\
    mailboxes s' !! nid =
      Some (Mailbox.store (entry_of (x_secs x) req)
              (opt_or (mailboxes s !! nid) (Mailbox.new MAX_MAILBOX_SIZE))) /\
    sender_fp (entry_of (x_secs x) req) = ms_sender_fp req /\
    cert_cache s' = cert_cache s /\
    ~ unused (ms_sender_fp req) (ms_nonce req) s'.
Proof.
  intros nid Hp Hsealed Hanon Hsig Hts Hun Hx Hl.
  destruct (check_nonce_spec x (ms_sender_fp req) (ms_nonce req) s) as (n & b & Hn & Hb).
  assert (b = true) as -> by (by apply Hb).
  destruct (store_message_ok x req (set_nonces n s) Hx) as [db Hs].
  { rewrite Hanon. change (slen "anonymous") with 9. lia. }
  exists (set_mail (mailboxes (store_in_memory (x_secs x) req (set_nonces n s))) db (set_nonces n s)).
  split_and!.
  - unfold handle_store, st_bind at 1, st_lift. rewrite Hp. cbn [decode].
    unfold verify_and_store, verify_store_signature, st_bind, st_lift, st_guard.
    rewrite (proj2 (str_is_empty_false (ms_sender_sig req)) Hsig),
      (proj2 (str_is_empty_false (ms_sealed_sender req)) Hsealed), Hanon, String.eqb_refl.
    cbn [negb st_ret]. rewrite Hts, Hn. cbn [st_ret]. by rewrite Hs.
  - simpl. by rewrite lookup_insert_eq.
  - done.
  - done.
  - unfold unused. cbn [seen_nonce_strs set_mail set_nonces].
    by rewrite (nonce_recorded _ _ _ _ _ Hn Hun).
Qed.

(** ** Peer authentication *)

(** C15: A peer proves nothing by the challenge and response: it sends the
    relay a challenge in its own name, takes the response out of the relay's
    reply, and sends it back; the relay then holds it for authenticated,
    though it never computed a digest with the shared secret. *)
Theorem peer_auth_reflection (x x2 : context) (p p2 : value) (u challenge secret : string)
    (peer : PeerInfo) (s : RelayState) :
  peer_auth_of p = Ok (mkPeerAuth challenge u) ->
  peers (federation s) !! u = Some peer ->
  Federation.shared_secret (federation s) = Some secret ->
  x_secs x2 - x_secs x <= 300 ->
  exists s1 e, handle_peer_auth x p s = (s1, Ok [REnvelope e]) /\
    (peer_auth_reply_of p2 = Ok (mkPeerAuthReply (str_field (re_payload e) "response") u) ->
     exists s2 peer2, handle_peer_auth_reply x2 p2 s1 = (s2, Ok []) /\
       peers (federation s2) !! u = Some peer2 /\ authenticated peer2 = true).
Proof.
  intros Hp Hpeer Hsec Ht. unfold handle_peer_auth. unfold st_bind at 1, st_lift. rewrite Hp. cbn [decode].
  unfold st_bind, st_get, st_put, st_ret. cbn [pa_challenge pa_relay_url]. rewrite Hsec.
  eexists _, _. split; [reflexivity|]. cbn [re_payload]. intros Hp2.
  unfold handle_peer_auth_reply, st_bind at 1, st_lift. rewrite Hp2. cbn [decode].
  unfold st_bind, st_get, st_put, st_guard, st_ret. cbn [pr_relay_url pr_response federation set_federation
    set_challenges pending_challenges].
  rewrite lookup_insert_eq. destruct (Z.ltb_spec 300 (x_secs x2 - x_secs x)); [lia|]. cbn [negb].
  simpl. rewrite Hsec. change (str_field (VObject _) "response") with (compute_hmac challenge secret).
  rewrite String.eqb_refl. eexists _, _. split; [reflexivity|].
  simpl. unfold authenticate. simpl. rewrite Hpeer. simpl. by rewrite lookup_insert_eq.
Qed.

(** ** Forwards *)

(** A forward whose source is not a known peer passes the peer check. *)
Lemma unknown_source_not_refused f fed :
  peers fed !! rf_source_relay_url f = None -> source_refused f fed = false.
Proof. intros Hn. unfold source_refused. rewrite Hn. by destruct (Federation.shared_secret fed). Qed.

(** What [onion-v1] sends on is refused by every relay it reaches: it has no
    sender signature. *)
Lemma onion_forward_refused x x2 ciphertext s s2 :
  verify_and_store x2 (inner_request (onion_forward x ciphertext s)) s2 =
  (s2, Err "missing sender signature").
Proof. done. Qed.

(** A forward is only stored by a relay that allows transit, outside a loop
    and below the hop limit. *)
Lemma forward_stores_only_transit x p s s' r :
  handle_forward x p s = (s', r) -> mail s' <> mail s ->
  allow_relay s = true /\ exists f, forward_of p = Ok f /\ our_relay_url s ∉ rf_via f /\
    rf_hop_count f < FEDERATION_MAX_RELAY_HOPS.
Proof.
  unfold handle_forward, st_bind at 1, st_get. destruct (allow_relay s); cbn [negb].
  2: { by intros [= <- <-]. }
  unfold st_bind at 1, st_lift. destruct (forward_of p) as [f|]; cbn [decode]; [|by intros [= <- <-]].
  unfold forward_refusal. destruct (source_refused f _); [by intros [= <- <-]|].
  case_bool_decide; [by intros [= <- <-]|].
  destruct (Z.leb_spec FEDERATION_MAX_RELAY_HOPS (rf_hop_count f)); [by intros [= <- <-]|].
  intros _ _. split; [done|]. by exists f.
Qed.
End props.

(** ** Concrete runs *)

Definition toy_forward_value (f : RelayForward) : value :=
  VObject [("recipient_nid", VString (rf_recipient_nid f)); ("signed_blob", VString (rf_signed_blob f));
    ("sender_nid", VString (rf_sender_nid f)); ("sender_fp", VString (rf_sender_fp f));
    ("seq", json_int (rf_seq f)); ("sender_sig", VString (rf_sender_sig f));
    ("timestamp", VNumber (Float (rf_timestamp f))); ("nonce", json_int (rf_nonce f));
    ("hop_count", json_int (rf_hop_count f)); ("via", VArray (VString <$> rf_via f));
    ("source_relay_url", VString (rf_source_relay_url f));
    ("source_relay_cert", VString (rf_source_relay_cert f));
    ("source_relay_sig", VString (rf_source_relay_sig f));
    ("source_relay_fp", VString (rf_source_relay_fp f)); ("sender_cert", VString (rf_sender_cert f))].

Definition toy_time (v : value) : f64 := f64_field v "timestamp" (f64_of_Z 0).

Definition toy_forward_of (v : value) : result string RelayForward :=
  Ok (mkRelayForward (str_field v "recipient_nid") (str_field v "signed_blob")
    (str_field v "sender_nid") (str_field v "sender_fp") (i64_field v "seq" 0)
    (str_field v "sender_sig") (toy_time v) (i64_field v "nonce" 0) (i64_field v "hop_count" 0)
    (omap as_str (opt_or (get v "via" ≫= as_array) [])) (str_field v "source_relay_url")
    (str_field v "source_relay_cert") (str_field v "source_relay_sig")
    (str_field v "source_relay_fp") (str_field v "sender_cert")).

Lemma toy_forward_of_value f :
  i64_min <= rf_seq f <= i64_max -> i64_min <= rf_nonce f <= i64_max ->
  0 <= rf_hop_count f < 256 -> toy_forward_of (toy_forward_value f) = Ok f.
Proof.
  intros H1 H2 H3. destruct f as [a b c d sq sg t n h via u c1 c2 c3 c4]. cbn in H1, H2, H3.
  unfold toy_forward_of, toy_forward_value, toy_time, f64_field, i64_field.
  cbn [get assoc String.eqb Ascii.eqb Bool.eqb rf_seq rf_nonce rf_hop_count rf_timestamp rf_via mbind option_bind].
  rewrite !as_i64_json_int by (unfold i64_min, i64_max in *; lia).
  assert (E : omap as_str (VString <$> via) = via)
    by (induction via as [|v via IH]; [done|]; cbn; f_equal; exact IH).
  do 2 f_equal. exact E.
Qed.

Definition toy_relay : RelayCodec := {|
  store_request_of := fun v => Ok (mkMailboxStoreRequest (str_field v "recipient_nid")
    (str_field v "signed_blob") (str_field v "sender_nid") (str_field v "sender_fp")
    (i64_field v "seq" 0) (str_field v "sender_sig") (toy_time v) (str_field v "nonce")
    (str_field v "sender_cert") (str_field v "sealed_sender"));
  fetch_request_of := fun v => Ok (mkMailboxFetchRequest (str_field v "recipient_nid")
    (str_field v "auth_hmac") (str_field v "sender_sig") (str_field v "requester_fp") (toy_time v)
    (str_field v "nonce") (str_field v "sender_cert"));
  route_count_of := fun v => Ok (i64_field v "route_count" 0);
  who_has_of := fun v => Ok (str_field v "null_id");
  peer_auth_of := fun v => Ok (mkPeerAuth (str_field v "challenge") (str_field v "relay_url"));
  peer_auth_reply_of := fun v => Ok (mkPeerAuthReply (str_field v "response") (str_field v "relay_url"));
  forward_of := toy_forward_of; forward_value := toy_forward_value;
  relay_to_json := re_type; relay_from_json := fun s => Ok (mkRelayEnvelope s VNull "" (f64_of_Z 0));
  forward_of_value := toy_forward_of_value |}.

#[local] Existing Instance toy_sequoia.
#[local] Existing Instance toy_base64.
#[local] Existing Instance toy_blake2.
#[local] Existing Instance toy_hmac.
#[local] Existing Instance toy_hex.
#[local] Existing Instance toy_aead.
#[local] Existing Instance toy_format.
#[local] Existing Instance toy_relay.

Definition victim_nid : string := compute_null_id "VICTIM".

(** A mailbox with one message for the victim. *)
Definition victim_state : RelayState :=
  sample_state [mkRow victim_nid (sample_entry "FRIEND" 1) false ""].

Definition requester (key cert nonce data : string) (extra : list (string * value)) : value :=
  VObject ([("recipient_nid", VString victim_nid); ("requester_fp", VString "VICTIM");
    ("sender_sig", VString (b64_encode (str_bytes (toy_sign key data))));
    ("sender_cert", VString cert); ("nonce", VString nonce);
    ("timestamp", VNumber (Float (f64_of_Z 100)))] ++ extra).

Definition mallory_fetch : value :=
  requester "MALLORY" "CERT:MALLORY" "n1" ("relay-fetch:" +:+ victim_nid +:+ ":100:n1") [].

Definition mallory_request : MailboxFetchRequest :=
  mkMailboxFetchRequest victim_nid "" (b64_encode (str_bytes (toy_sign "MALLORY" ("relay-fetch:" +:+ victim_nid +:+ ":100:n1"))))
    "VICTIM" (f64_of_Z 100) "n1" "CERT:MALLORY".

Theorem cert_hijack_witness :
  exists s', handle_fetch sample_context mallory_fetch victim_state =
    (s', Ok [ROk (Some (fetch_value [sample_entry "FRIEND" 1]))]).
Proof.
  destruct (cert_hijack (H:=toy_sequoia) sample_context mallory_fetch mallory_request victim_state "MALLORY"
    (str_bytes (toy_sign "MALLORY" ("relay-fetch:" +:+ victim_nid +:+ ":100:n1")))
    (toy_sign "MALLORY" ("relay-fetch:" +:+ victim_nid +:+ ":100:n1"))) as (s' & E & _);
    [vm_compute; reflexivity|vm_compute; reflexivity|reflexivity|reflexivity|reflexivity
    |vm_compute; discriminate|discriminate|discriminate|vm_compute; reflexivity
    |vm_compute; reflexivity|vm_compute; reflexivity|reflexivity
    |vm_compute; reflexivity|vm_compute; reflexivity|vm_compute; reflexivity|].
  exists s'. rewrite E. vm_compute. reflexivity.
Defined.

Definition run_message (t : string) (p : value) (s : RelayState) : RelayState * result string (list reply) :=
  handle_message sample_context (mkRelayEnvelope t p "id" (f64_of_Z 100)) s.

(** The victim acknowledges message 1. *)
Definition victim_ack : value :=
  requester "VICTIM" "CERT:VICTIM" "n2" ("relay-ack:" +:+ victim_nid +:+ ":1:100:n2") [("seq", json_int 1)].

Theorem mail_guarded_witness :
  let (s', r) := run_message "relay-ack" victim_ack victim_state in
  r = Ok [ROk None] /\
  (mail s' = mail victim_state \/ stored_by sample_context victim_state s' \/
   removed_by_owner sample_context victim_state s').
Proof.
  destruct (run_message "relay-ack" victim_ack victim_state) as [s' r] eqn:E. split.
  - apply (f_equal snd) in E. change (snd (s', r)) with r in E. rewrite <- E. vm_compute. reflexivity.
  - exact (proj1 (mail_guarded sample_context (mkRelayEnvelope "relay-ack" victim_ack "id" (f64_of_Z 100))
                    victim_state s' r E)).
Defined.

Definition sealed_value : value :=
  VObject [("recipient_nid", VString victim_nid); ("signed_blob", VString "junk");
    ("sender_nid", VString "anonymous"); ("sender_fp", VString "FRIEND"); ("seq", json_int 9);
    ("sender_sig", VString "?"); ("timestamp", VNumber (Float (f64_of_Z 100)));
    ("nonce", VString "n3"); ("sealed_sender", VString "?")].

Definition sealed_request : MailboxStoreRequest :=
  mkMailboxStoreRequest victim_nid "junk" "anonymous" "FRIEND" 9 "?" (f64_of_Z 100) "n3" "" "?".

Theorem sealed_store_accepted_witness :
  exists s', handle_store sample_context sealed_value victim_state = (s', Ok [ROk None]).
Proof.
  destruct (sealed_store_accepted sample_context sealed_value sealed_request victim_state) as (s' & E & _);
    [vm_compute; reflexivity|discriminate|reflexivity|discriminate|vm_compute; reflexivity
    |vm_compute; reflexivity|reflexivity|vm_compute; reflexivity|].
  by exists s'.
Defined.

Definition peer_state : RelayState :=
  set_federation (Federation.add_peer 0 "ws://evil" (mkChannel [] true) (Federation.new (Some "secret")))
    victim_state.

Definition peer_challenge : value :=
  VObject [("challenge", VString "c"); ("relay_url", VString "ws://evil")].

Definition peer_answer : value :=
  VObject [("response", VString (compute_hmac "c" "secret")); ("relay_url", VString "ws://evil")].

Theorem peer_auth_reflection_witness :
  exists s1 e s2 peer2, handle_peer_auth sample_context peer_challenge peer_state = (s1, Ok [REnvelope e]) /\
    handle_peer_auth_reply sample_context peer_answer s1 = (s2, Ok []) /\
    peers (federation s2) !! "ws://evil" = Some peer2 /\ authenticated peer2 = true.
Proof.
  destruct (peer_auth_reflection sample_context sample_context peer_challenge peer_answer "ws://evil" "c" "secret"
    (mkPeerInfo "ws://evil" ∅ 0 false (Some (mkChannel [] true))) peer_state) as (s1 & e & E & Hback);
    [vm_compute; reflexivity|vm_compute; reflexivity|reflexivity|vm_compute; discriminate|].
  destruct Hback as (s2 & peer2 & E2 & Hp & Ha).
  - pose proof (f_equal (fun r => match snd r with Ok [REnvelope e] => str_field (re_payload e) "response" | _ => "" end) E)
      as Er. cbn [snd] in Er. rewrite <- Er. vm_compute. reflexivity.
  - by exists s1, e, s2, peer2.
Defined.
