(* ===== verification/RelayLink.v ===== *)
(** * Links between relays (src/relay/src/main.rs, connect_to_peer)

    The connection a relay opens to a peer, the task that writes to it, the
    task that reads from it, and what becomes of the announcements of
    [gossip_task] when the peer runs the same code. *)

From S2P Require Import Prelude Text Primitives Concrete Json Gpg Identity RateLimit.
From S2P Require Import Mailbox RelayAuth Federation RelayState Relay RelayProps.

(** serde on what travels over a link: an envelope with an object for payload
    that can be read back has its type and no members of its own; a route
    advertisement needs its count, an envelope its type. *)
Class RelayTextLaw `{RelayCodec} `{JsonCodec} : Prop := {
  relay_text_members e e' m :
    relay_from_json (relay_to_json e) = Ok e' -> re_payload e = VObject m ->
    re_type e' = re_type e /\
    exists m', re_payload e' = VObject m' /\ forall k, assoc k m = None -> assoc k m' = None;
  route_count_needed m :
    assoc "route_count" m = None -> is_ok (route_count_of (VObject m)) = false;
  type_needed m :
    assoc "msg_type" m = None -> is_ok (relay_from_json (json_print (VObject m))) = false;
}.

Section link.
Context `{Sequoia} `{Base64} `{Blake2} `{Hmac} `{Hex} `{Aead} `{Format} `{RelayCodec} `{JsonCodec}.
Context `{HashOrder (list f64)}.

(** ** What is sent *)

Definition response (ok : bool) (error : option string) (data : option value) : string :=
  json_print (VObject [("ok", VBool ok); ("error", opt_or (VString <$> error) VNull);
                       ("data", opt_or data VNull)]).

(** Source: relay/src/main.rs:1044-1057, send_error. *)
Definition send_error (error : string) : string := response false (Some error) None.

(** Source: relay/src/main.rs:1059-1072, send_ok. *)
Definition send_ok (data : option value) : string := response true None data.

(** The text of a reply; a pong is a frame of its own. *)
Definition reply_text (r : reply) : option string :=
  match r with
  | ROk data => Some (send_ok data)
  | RError e => Some (send_error e)
  | REnvelope e => Some (relay_to_json e)
  | RPong => None
  end.

(** ** The connection to a peer *)

(** The peer is known from then on, not authenticated, and nothing is sent.
    Source: relay/src/main.rs:1717-1743, connect_to_peer. *)
Definition connect_to_peer (connect : string -> result string unit) (x : context) (u : string)
  : st RelayState string unit :=
  do! st_lift (connect (u +:+ "/federation"));
  st_modify (fun s => set_federation (add_peer (x_instant x) u (mkChannel [] true) (federation s)) s).

(** The task that writes: it ends with the first message that cannot be sent,
    and that message is lost. Source: relay/src/main.rs:1745-1755, connect_to_peer. *)
Fixpoint send_task (sent : list bool) (c : channel) : channel * list string :=
  match sent, queue c with
  | ok :: sent', m :: q =>
      if ok : bool then let (c', l) := send_task sent' (mkChannel q (receiving c)) in (c', m :: l)
      else (mkChannel q false, [])
  | _, _ => (c, [])
  end.

Definition pump (sent : list bool) (u : string) (s : RelayState) : RelayState * list string :=
  match peers (federation s) !! u with
  | Some p =>
      match sender p with
      | Some c =>
          let (c', l) := send_task sent c in
          (set_federation (set_peers (<[u := mkPeerInfo (url p) (routes p) (last_seen p) (authenticated p) (Some c')]>
                             (peers (federation s))) (federation s)) s, l)
      | None => (s, [])
      end
  | None => (s, [])
  end.

(** The task that reads knows one message.
    Source: relay/src/main.rs:1759-1777, connect_to_peer. *)
Definition peer_text (x : context) (u raw : string) (s : RelayState) : RelayState :=
  match relay_from_json raw with
  | Ok e =>
      if String.eqb (re_type e) "route-advertise" then
        match get (re_payload e) "null_ids" ≫= as_array with
        | Some nids =>
            set_federation (set_peer_routes (x_instant x) u (omap as_str nids) (federation s)) s
        | None => s
        end
      else s
  | Err _ => s
  end.

(** Source: relay/src/main.rs:1757-1781, connect_to_peer. *)
Fixpoint receive_task (u : string) (fs : list (context * ws_frame)) (s : RelayState) : RelayState :=
  match fs with
  | [] => s
  | (x, WText raw) :: fs' => receive_task u fs' (peer_text x u raw s)
  | (_, WError) :: _ => s
  | _ :: fs' => receive_task u fs' s
  end.

(** What a round of [gossip_task] sends to every peer.
    Source: relay/src/main.rs:1797-1813, gossip_task. *)
Definition announcement (x : context) (s : RelayState) : string :=
  relay_to_json (mkRelayEnvelope "route-advertise"
    (VObject [("relay_url", VString (our_relay_url s));
              ("null_ids", VArray (VString <$> elements (get_local_null_ids s)))])
    (x_reply_id x) (x_reply_now x)).

(** ** A relay among relays that run this code *)

(** What a relay can be sent in answer to an announcement. *)
Definition answers (r : reply) : Prop :=
  exists x x' other s, r ∈ (Relay.handle_text x (announcement x' other) s).2.

(** Rounds of gossip, announcements of other relays, answers to its own, the
    tasks that write, and whatever leaves the federation as it is: the mail of
    clients, the clean-up. *)
Inductive quiet_step : RelayState -> RelayState -> Prop :=
| step_gossip x s : quiet_step s (gossip_round x s)
| step_heard x x' other s : quiet_step s (Relay.handle_text x (announcement x' other) s).1
| step_answered x u r raw s : answers r -> reply_text r = Some raw -> quiet_step s (peer_text x u raw s)
| step_sent sent u s : quiet_step s (pump sent u s).1
| step_local s s' : federation s' = federation s -> quiet_step s s'.

Inductive link_step : RelayState -> RelayState -> Prop :=
| step_quiet s s' : quiet_step s s' -> link_step s s'
| step_connect connect x u s : link_step s (connect_to_peer connect x u s).1.
End link.

Section link_props.
Context `{Sequoia} `{Base64} `{Blake2} `{Hmac} `{Hex} `{Aead} `{Format} `{RelayTextLaw}.
Context `{HashOrder (list f64)}.

(** ** Announcements are refused *)

(** The announcement lacks a count, and so is no announcement. *)
Lemma announcement_refused x x' other s :
  exists e, Relay.handle_text x (announcement x' other) s = (s, [RError e]).
Proof.
  unfold Relay.handle_text.
  destruct (relay_from_json (announcement x' other)) as [e|e] eqn:E; [|by eexists].
  destruct (f64_gtb _ _); [by eexists|].
  destruct (relay_text_members _ _ _ E eq_refl) as (Ht & m' & Hp & Hm). cbn [re_type] in Ht.
  unfold handle_message. rewrite Ht, Hp. cbn [String.eqb Ascii.eqb Bool.eqb].
  unfold handle_route_advertise, st_bind at 1, st_lift.
  assert (Hn : is_ok (route_count_of (VObject m')) = false) by by apply route_count_needed, Hm.
  destruct (route_count_of (VObject m')) as [n|err]; [done|]. by eexists.
Qed.

(** The answer is an error, and no envelope. *)
Lemma answer_ignored x u r raw s : answers r -> reply_text r = Some raw -> peer_text x u raw s = s.
Proof.
  intros (x1 & x2 & other & s1 & Hr) Hraw.
  destruct (announcement_refused x1 x2 other s1) as [e He]. rewrite He in Hr. cbn [snd] in Hr.
  apply list_elem_of_singleton in Hr as ->. injection Hraw as <-.
  unfold peer_text, send_error, response.
  pose proof (type_needed [("ok", VBool false); ("error", VString e); ("data", VNull)] eq_refl) as Hn.
  cbn [opt_or fmap option_fmap option_map]. by destruct (relay_from_json _).
Qed.

(** ** What a step can do to the federation *)

(** Routes are not learned, peers are not found, and neither is refreshed. *)
Record only_loses (f f' : FederationState) : Prop := {
  ol_routes : remote_routes f' ⊆ remote_routes f;
  ol_peers u p' : peers f' !! u = Some p' ->
    exists p, peers f !! u = Some p /\ routes p' = routes p /\ last_seen p' = last_seen p;
}.

#[local] Instance only_loses_preorder : PreOrder only_loses.
Proof.
  split.
  - intros f. constructor; [done|]. intros u p' Hp. by exists p'.
  - intros f g h [R1 P1] [R2 P2]. constructor; [by etrans|].
    intros u p' (p & (q & Hq & Hr & Hl)%P1 & Hr' & Hl')%P2. exists q. by rewrite Hr', Hl'.
Qed.

Lemma set_sender_loses u p c f :
  peers f !! u = Some p ->
  only_loses f (set_peers (<[u := mkPeerInfo (url p) (routes p) (last_seen p) (authenticated p) c]> (peers f)) f).
Proof.
  intros Hp. constructor; [done|]. intros v p'. cbn [peers set_peers].
  destruct (decide (v = u)) as [->|Hne].
  - rewrite lookup_insert_eq. intros [= <-]. by exists p.
  - rewrite lookup_insert_ne by done. intros Hv. by exists p'.
Qed.

Lemma send_loses u m f : only_loses f (send_to_peer u m f).1.
Proof.
  unfold send_to_peer. destruct (peers f !! u) as [p|] eqn:E; [|done].
  destruct (sender p) as [c|]; [|done]. destruct (try_send m c) as [c' ok]. cbn [fst].
  by apply set_sender_loses.
Qed.

Lemma sends_lose us m f : only_loses f (foldl (fun f u => (send_to_peer u m f).1) f us).
Proof.
  revert f. induction us as [|u us IH]; intros f; [done|]. cbn [foldl].
  etrans; [apply (send_loses u m)|apply IH].
Qed.

Lemma cleanup_loses now f : only_loses f (cleanup_expired_routes now f).
Proof.
  constructor; [apply map_filter_subseteq|]. intros u p' [Hp _]%cleanup_peer. by exists p'.
Qed.

Lemma gossip_loses x s : only_loses (federation s) (federation (gossip_round x s)).
Proof.
  unfold gossip_round. destruct (elements _); [done|]. cbn [federation set_federation].
  etrans; [apply sends_lose|apply cleanup_loses].
Qed.

Lemma pump_loses sent u s : only_loses (federation s) (federation (pump sent u s).1).
Proof.
  unfold pump. destruct (peers (federation s) !! u) as [p|] eqn:E; [|done].
  destruct (sender p) as [c|]; [|done]. destruct (send_task sent c) as [c' l].
  by apply set_sender_loses.
Qed.

Lemma quiet_step_loses s s' : quiet_step s s' -> only_loses (federation s) (federation s').
Proof.
  intros [x s0|x x' other s0|x u r raw s0 Hr Ht|sent u s0|s0 s1 E].
  - apply gossip_loses.
  - by destruct (announcement_refused x x' other s0) as [e ->].
  - by rewrite (answer_ignored x u r raw s0 Hr Ht).
  - apply pump_loses.
  - by rewrite E.
Qed.

Lemma quiet_run_loses s s' : rtc quiet_step s s' -> only_loses (federation s) (federation s').
Proof.
  induction 1 as [|s s1 s2 Hs _ IH]; [done|]. etrans; [by apply quiet_step_loses|done].
Qed.

(** ** Nothing is learned *)

Definition knows_nothing (f : FederationState) : Prop :=
  remote_routes f = ∅ /\ forall u p, peers f !! u = Some p -> routes p = ∅.

Lemma loses_knows_nothing f f' : only_loses f f' -> knows_nothing f -> knows_nothing f'.
Proof.
  intros [Hr Hp] [Hf Hn]. split.
  - apply map_empty. intros k. destruct (remote_routes f' !! k) as [r|] eqn:E; [|done].
    eapply lookup_weaken in E; [|exact Hr]. by rewrite Hf, lookup_empty in E.
  - intros u p' (p & E & -> & _)%Hp. by apply (Hn u).
Qed.

Lemma link_step_knows_nothing s s' :
  link_step s s' -> knows_nothing (federation s) -> knows_nothing (federation s').
Proof.
  intros [s0 s1 Hq|connect x u s0].
  - by apply loses_knows_nothing, quiet_step_loses.
  - intros [Hr Hp]. unfold connect_to_peer, st_bind, st_lift, st_modify.
    destruct (connect _) as [[]|e]; [|done]. cbn [fst federation set_federation].
    split; [done|]. intros v p. cbn [peers add_peer set_peers].
    destruct (decide (v = u)) as [->|Hne].
    + rewrite lookup_insert_eq. by intros [= <-].
    + rewrite lookup_insert_ne by done. by apply Hp.
Qed.
(** C19: relays learn nothing from each other.  Whatever rounds of gossip a relay
    runs, whatever announcements of relays running the same code reach it, to
    whichever peers it connects, and whatever their answers: a relay that knows
    no route still knows none, so that a query for an identifier without a
    mailbox of its own stays unanswered. *)
Theorem gossip_teaches_nothing (x : context) (p : value) (nid : string) (s s' : RelayState) :
  rtc link_step s s' -> knows_nothing (federation s) ->
  who_has_of p = Ok nid -> mailboxes s' !! nid = None ->
  knows_nothing (federation s') /\ lookup_route nid (federation s') = None /\
  handle_who_has x p s' = (s', Ok []).
Proof.
  intros Hrun Hs Hp Hnid.
  assert (Hk : knows_nothing (federation s')).
  { clear Hnid. induction Hrun as [|s s1 s2 Hstep _ IH]; [done|].
    by apply IH, (link_step_knows_nothing s). }
  assert (Hl : lookup_route nid (federation s') = None).
  { unfold lookup_route. destruct Hk as [-> _]. by rewrite lookup_empty. }
  split_and!; [done|done|]. unfold handle_who_has, st_bind, st_lift, st_get. rewrite Hp. cbn [decode].
  rewrite bool_decide_eq_false_2; [by rewrite Hl|].
  unfold get_local_null_ids. by apply not_elem_of_dom.
Qed.

End link_props.

(** ** Concrete links *)

#[local] Existing Instances toy_sequoia toy_base64 toy_blake2 toy_hmac toy_hex toy_aead toy_format toy_json.

(** The text of an envelope starts with a comma, which no object's text does,
    and keeps the type and the keys. *)
Definition toy_words (l : list string) : string :=
  join ","%char ("" :: ((fun w => hex_enc (str_bytes w)) <$> l)).

Definition toy_read_words (s : string) : option (list string) :=
  match split_on ","%char s with
  | EmptyString :: ws => (fun l => bytes_str <$> l) <$> mapM hex_dec ws
  | _ => None
  end.

Lemma toy_read_written l : toy_read_words (toy_words l) = Some l.
Proof.
  unfold toy_read_words, toy_words. rewrite split_join; [|done|].
  - rewrite hex_words. simpl. by rewrite words_of_bytes.
  - constructor; [done|]. apply Forall_fmap, Forall_forall. intros w _. by apply hex_no_char.
Qed.

Lemma toy_print_no_words m :
  toy_read_words (toy_print (VObject m)) = None \/ toy_read_words (toy_print (VObject m)) = Some [].
Proof.
  unfold toy_read_words, toy_print. destruct m as [|kv m]; [by right|]. left.
  rewrite split_join; [|done|].
  - rewrite fmap_cons. unfold toy_member at 1. by destruct (hex_enc (str_bytes kv.1)).
  - apply Forall_fmap, Forall_forall. intros y _. apply toy_member_no_comma.
Qed.

Definition link_envelope (s : string) : result string RelayEnvelope :=
  match toy_read_words s with
  | Some (t :: ks) => Ok (mkRelayEnvelope t (VObject ((fun k => (k, VNull)) <$> ks)) "" (f64_of_Z 100))
  | _ => Err "missing field msg_type"
  end.

Definition link_text (e : RelayEnvelope) : string :=
  toy_words (re_type e :: match re_payload e with VObject m => m.*1 | _ => [] end).

#[local] Instance link_codec : RelayCodec := {|
  store_request_of := @store_request_of toy_relay; fetch_request_of := @fetch_request_of toy_relay;
  route_count_of := fun v => ok_or (get v "route_count" ≫= as_u64) "missing field route_count";
  who_has_of := @who_has_of toy_relay;
  peer_auth_of := @peer_auth_of toy_relay; peer_auth_reply_of := @peer_auth_reply_of toy_relay;
  forward_of := @forward_of toy_relay; forward_value := @forward_value toy_relay;
  relay_to_json := link_text; relay_from_json := link_envelope;
  forward_of_value := @forward_of_value toy_relay |}.

Lemma assoc_keys k (m : list (string * value)) :
  assoc k m = None -> assoc k ((fun k => (k, VNull)) <$> m.*1) = None.
Proof.
  induction m as [|[k' v] m IH]; [done|]. simpl. destruct (String.eqb k k'); [done|exact IH].
Qed.

#[local] Instance link_law : RelayTextLaw.
Proof.
  constructor.
  - intros e e' m. cbn [relay_from_json relay_to_json link_codec]. unfold link_envelope, link_text.
    rewrite toy_read_written. intros [= <-] ->. split; [done|]. eexists. split; [reflexivity|].
    intros k. apply assoc_keys.
  - intros m Hm. cbn [route_count_of link_codec get]. by rewrite Hm.
  - intros m _. cbn [relay_from_json link_codec json_print toy_json]. unfold link_envelope.
    by destruct (toy_print_no_words m) as [-> | ->].
Qed.

(** At an instant of the monotonic clock. *)
Definition at_second (t : Z) : context :=
  mkContext (f64_of_Z 100) (f64_of_Z 100) 100 100 (secs t) "id" (f64_of_Z 100) [] (x_locks sample_context) true.

Definition accepts (u : string) : result string unit := Ok tt.

(** A relay with mail that has just connected to another. *)
Definition linked_state : RelayState :=
  (connect_to_peer accepts (at_second 0) "ws://b" (store_in_memory 100
     (mkMailboxStoreRequest victim_nid "BLOB" "FRIEND" "FP" 1 "" (f64_of_Z 100) "" "" "") victim_state)).1.

Theorem gossip_teaches_nothing_witness :
  exists s', rtc link_step linked_state s' /\
    handle_who_has (at_second 60) (VObject [("null_id", VString "NN-elsewhere")]) s' = (s', Ok []).
Proof.
  destruct (announcement_refused (at_second 60) (at_second 60) linked_state linked_state) as [e He].
  set (s1 := gossip_round (at_second 60) linked_state).
  set (s2 := (Relay.handle_text (at_second 60) (announcement (at_second 60) linked_state) s1).1).
  set (s3 := peer_text (at_second 60) "ws://b" (send_error e) s2).
  assert (Hrun : rtc link_step linked_state s3).
  { apply (rtc_l _ _ s1); [apply step_quiet, step_gossip|].
    apply (rtc_l _ _ s2); [apply step_quiet, step_heard|].
    apply rtc_once, step_quiet, (step_answered _ _ (RError e)); [|reflexivity].
    exists (at_second 60), (at_second 60), linked_state, linked_state. rewrite He. by left. }
  exists s3. split; [exact Hrun|].
  eapply (gossip_teaches_nothing (at_second 60) (VObject [("null_id", VString "NN-elsewhere")]) "NN-elsewhere").
  - exact Hrun.
  - split; [vm_compute; reflexivity|]. intros u p.
    destruct (decide (u = "ws://b")) as [->|Hne].
    + cbv [linked_state connect_to_peer]. simpl. rewrite lookup_insert_eq. by intros [= <-].
    + cbv [linked_state connect_to_peer]. simpl. rewrite lookup_insert_ne by done.
      intros Hp. vm_compute in Hp. discriminate Hp.
  - reflexivity.
  - unfold s3. rewrite (answer_ignored (at_second 60) "ws://b" (RError e)); [|
      exists (at_second 60), (at_second 60), linked_state, linked_state; rewrite He; by left|reflexivity].
    vm_compute. reflexivity.
Defined.
