(* ===== verification/RelayStart.v ===== *)
(** * The start of the relay (src/relay/src/main.rs, main and RelayState::new)

    What a relay begins with: the secret, the database, the pinned peers, its
    address and its peers; what it leaves behind when it ends, and what the
    next start makes of it.  TLS, the listening socket and the opening of the
    database are arguments. *)

From S2P Require Import Prelude Text Files Primitives Concrete Json Gpg Identity RateLimit.
From S2P Require Import Mailbox RelayAuth Federation RelayState Relay RelayProps RelayLink.

(** [serde_json::to_string_pretty] and [from_str] of a [HashSet<String>]. *)
Class SetText := {
  set_text : gset string -> string;
  set_of_text : string -> option (gset string);
  set_of_set_text k : set_of_text (set_text k) = Some k;
}.

(** The files of the host and the tables of its SQLite databases by URL. *)
Record host : Type := mkHost { h_files : disk; h_tables : gmap string (list row) }.

Section start.
Context `{Hkdf} `{Aead} `{Hex} `{SetText}.

(** ** Pinned peers *)

Definition known_peers_path (gpg_home : string) : string := path_join gpg_home ".known_peers.json".

(** A file that cannot be read is an empty set.
    Source: relay/src/main.rs:544-552, RelayState::load_known_peers_sync. *)
Definition load_known_peers_sync (gpg_home : string) (d : disk) : gset string :=
  match d !! known_peers_path gpg_home with
  | None => ∅
  | Some content => opt_or (set_of_text content) ∅
  end.

(** Source: relay/src/main.rs:554-568, RelayState::save_known_peers. *)
Definition save_known_peers (w : write_end) (s : RelayState) (d : disk) : disk * result string unit :=
  Files.write_file id w (known_peers_path (gpg_home s)) (set_text (known_peers s)) d.

(** A certificate that a client shows and that is not pinned is pinned and the
    set saved. Source: relay/src/main.rs:914-928, handle_connection. *)
Definition pin_certificate (w : write_end) (cert_fingerprint : string) (s : RelayState) (d : disk)
  : RelayState * disk :=
  if bool_decide (cert_fingerprint ∈ known_peers s) then (s, d)
  else let s' := pin_peer cert_fingerprint s in (s', (save_known_peers w s' d).1).

(** ** The state *)

(** What the database answers: the directory, the connection, the table and
    its index. *)
Record db_io : Type := mkDbIo { o_dir : bool; o_connect : bool; o_table : bool; o_index : bool }.

(** Source: relay/src/main.rs:464-468, RelayState::new. *)
Definition db_url (path : string) : string :=
  if starts_with path "sqlite:" || starts_with path "sqlite://" then path
  else "sqlite://" +:+ path +:+ "?mode=rwc".

(** The mail on file is the mail of the new state; everything else is empty.
    Source: relay/src/main.rs:451-542, RelayState::new. *)
Definition new_state (o : db_io) (random : bytes) (shared_secret : option string) (gpg_home : string)
    (db_path : option string) (allow_relay : bool) (h : host) : result string RelayState :=
  let known_peers := load_known_peers_sync gpg_home (h_files h) in
  let? db_pool :=
    match db_path with
    | Some path =>
        if negb (o_dir o) then Err "create_dir_all"
        else if negb (o_connect o) then Err "connect"
        else if negb (o_table o && o_index o) then Err "create table"
        else Ok (Some (opt_or (h_tables h !! db_url path) []))
    | None => Ok None
    end in
  let? metadata_key := ok_or (derive_metadata_key shared_secret random) "panic: HKDF expand failed" in
  Ok (mkRelayState ∅ db_pool metadata_key shared_secret ∅ ∅ gpg_home ∅ (Federation.new shared_secret)
        ∅ known_peers allow_relay).

(** ** main *)

(** Source: relay/src/main.rs:2028-2101, Args. *)
Record Args : Type := mkArgs {
  a_host : string;
  a_port : Z;                (* u16 *)
  a_peer : list string;
  a_peer_file : option string;
  a_secret : option string;
  a_secret_file : option string;
  a_url : option string;
  a_gpg_home : option string;
  a_tls_cert : option string;
  a_tls_key : option string;
  a_db_path : option string;
  a_cbnp_enabled : bool;
  a_allow_relay : bool;
}.

(** [dirs::home_dir()] and [$HOME].
    Source: relay/src/main.rs:2111-2122, main. *)
Definition gpg_home_of (home_dir home_var : option string) (a : Args) : string :=
  match a_gpg_home a, home_dir, home_var with
  | Some g, _, _ => g
  | None, Some d, _ => path_join d ".nullnode/gnupg"
  | None, None, Some v => v +:+ "/.nullnode/gnupg"
  | None, None, None => "/var/lib/nullnode/gnupg"
  end.

(** TLS takes both files; with one of them the relay runs without, and says so
    only where the host looks like no proxy's.
    Source: relay/src/main.rs:2133-2144, main. *)
Definition tls_of (load_tls_acceptor : string -> string -> result string unit) (a : Args)
  : result string bool :=
  match a_tls_cert a, a_tls_key a with
  | Some cert, Some key => let? _ := load_tls_acceptor cert key in Ok true
  | _, _ => Ok false
  end.

(** Source: relay/src/main.rs:2131-2132, main. *)
Definition is_behind_proxy (a : Args) : bool :=
  String.eqb (a_host a) "127.0.0.1" || String.eqb (a_host a) "0.0.0.0" || String.eqb (a_host a) "::1".

Definition tls_warning (a : Args) : bool :=
  match a_tls_cert a, a_tls_key a with Some _, Some _ => false | _, _ => negb (is_behind_proxy a) end.

(** The file takes precedence and its text is trimmed; an argument is not.
    Source: relay/src/main.rs:2152-2171, main. *)
Definition secret_of (a : Args) (d : disk) : result string (option string) :=
  match a_secret_file a with
  | Some path => let? s := ok_or (d !! path) "Failed to read secret file" in Ok (Some (trim s))
  | None => Ok (a_secret a)
  end.

(** Source: relay/src/main.rs:2173-2180, main. *)
Definition our_url_of (a : Args) (tls : bool) : string :=
  match a_url a with
  | Some u => u
  | None => (if tls then "wss://" else "ws://") +:+ a_host a +:+ ":" +:+ pretty (a_port a)
  end.

(** Source: relay/src/main.rs:2182-2185, main. *)
Definition db_path_of (a : Args) (gpg_home : string) : string :=
  opt_or (a_db_path a) (gpg_home +:+ "/mailbox.db").

Definition comment (s : string) : bool := starts_with s "#".

(** The arguments first, then the lines of the file that are neither empty nor
    comments; a file that cannot be read counts for nothing.
    Source: relay/src/main.rs:2225-2249, main. *)
Definition peer_urls (a : Args) (d : disk) : list string :=
  a_peer a ++
  match a_peer_file a ≫= (fun path => d !! path) with
  | Some content =>
      List.filter (fun l => negb (str_is_empty l) && negb (comment l)) (trim <$> str_lines content)
  | None => []
  end.

(** What the surroundings decide. *)
Record start_io : Type := mkStartIo {
  s_home_dir : option string;
  s_home_var : option string;
  s_tls : string -> string -> result string unit;   (* load_tls_acceptor *)
  s_bind : string -> result string unit;            (* TcpListener::bind *)
  s_db : db_io;
  s_random : bytes;
}.

(** Up to the loop that accepts: the state, and the peers to connect to.
    Source: relay/src/main.rs:2104-2191, main. *)
Definition relay_main (o : start_io) (a : Args) (h : host) : result string (RelayState * list string) :=
  let gpg_home := gpg_home_of (s_home_dir o) (s_home_var o) a in
  let? tls := tls_of (s_tls o) a in
  let? _ := s_bind o (a_host a +:+ ":" +:+ pretty (a_port a)) in
  let? shared_secret := secret_of a (h_files h) in
  let our_url := our_url_of a tls in
  let? state := new_state (s_db o) (s_random o) shared_secret gpg_home
                  (Some (db_path_of a gpg_home)) (a_allow_relay a) h in
  let fed := federation state in
  Ok (set_federation (mkFederationState (peers fed) (remote_routes fed) (Some our_url)
        (Federation.shared_secret fed) (pending_challenges fed) (peer_nonces fed)) state,
      peer_urls a (h_files h)).

(** Every peer is connected to once, in a task of its own; [order] is that of
    the tasks. Source: relay/src/main.rs:2251-2258, main. *)
Definition connect_peers (connect : string -> result string unit) (x : context) (order : list string)
  (s : RelayState) : RelayState :=
  foldl (fun s u => (connect_to_peer connect x u s).1) s order.

(** ** The end and the next start *)

(** What a relay leaves on its host. *)
Definition left_behind (path : string) (s : RelayState) (h : host) : host :=
  mkHost (h_files h)
    (match db_pool s with Some rows => <[db_url path := rows]> (h_tables h) | None => h_tables h end).

Definition restart (o : db_io) (random : bytes) (path : string) (s : RelayState) (h : host)
  : result string RelayState :=
  new_state o random (shared_secret s) (gpg_home s) (Some path) (allow_relay s) (left_behind path s h).
End start.

(** ** Facts about the start *)

Section start_props.
Context `{Hkdf} `{Aead} `{Hex} `{SetText}.

(** A state that starts: no mailbox, no log, and the rows of its database. *)
Lemma new_state_inv o random secret home path allow h s :
  new_state o random secret home (Some path) allow h = Ok s ->
  mailboxes s = ∅ /\ db_pool s = Some (opt_or (h_tables h !! db_url path) []) /\
  seen_nonce_strs s = ∅ /\ cert_cache s = ∅ /\ shared_secret s = secret /\
  federation s = Federation.new secret /\ known_peers s = load_known_peers_sync home (h_files h).
Proof.
  unfold new_state. destruct (o_dir o), (o_connect o), (o_table o && o_index o); try done. cbn [negb rbind].
  destruct (derive_metadata_key secret random); [|done]. cbn [ok_or rbind]. by intros [= <-].
Qed.

(** With neither a failure nor a panic of the key derivation it starts. *)
Lemma new_state_ok random home path allow h :
  is_ok (new_state (mkDbIo true true true true) random None home (Some path) allow h) = true.
Proof. done. Qed.

(** Pins are saved and read again; a write cut short forgets them all. *)
Lemma pins_survive cert_fp s d :
  load_known_peers_sync (gpg_home s) d = known_peers s ->
  let (s', d') := pin_certificate Written cert_fp s d in
  cert_fp ∈ known_peers s' /\ load_known_peers_sync (gpg_home s') d' = known_peers s'.
Proof.
  intros Hl. unfold pin_certificate. case_bool_decide as Hin; [done|].
  split; [cbn; set_solver|]. unfold load_known_peers_sync, save_known_peers. cbn.
  rewrite lookup_insert_eq, set_of_set_text. done.
Qed.

Lemma pins_cut_short cert_fp s d :
  set_of_text "" = None -> cert_fp ∉ known_peers s ->
  load_known_peers_sync (gpg_home s) (pin_certificate CutShort cert_fp s d).2 = ∅.
Proof.
  intros He Hn. unfold pin_certificate. rewrite bool_decide_eq_false_2 by done.
  unfold load_known_peers_sync, save_known_peers. cbn. by rewrite lookup_insert_eq, He.
Qed.

(** One of the two TLS files alone: plaintext, told to the peers as such, and
    without a warning on the default host. *)
Lemma half_tls_is_plaintext load a :
  (a_tls_cert a = None \/ a_tls_key a = None) -> a_url a = None -> a_host a = "0.0.0.0" ->
  tls_of load a = Ok false /\ our_url_of a false = "ws://0.0.0.0:" +:+ pretty (a_port a) /\
  tls_warning a = false.
Proof.
  intros Ht Hu Hh. unfold tls_of, our_url_of, tls_warning, is_behind_proxy. rewrite Hu, Hh.
  split_and!; [|done|]; destruct Ht as [Ht|Ht]; rewrite Ht; by destruct (a_tls_cert a).
Qed.

(** The peers of a file with one URL to a line, comments between them. *)
Lemma peer_urls_written a d path ls :
  a_peer_file a = Some path -> d !! path = Some (write_lines ls) ->
  Forall (fun l => line_ok l = true /\ trim l = l) ls ->
  peer_urls a d = a_peer a ++ List.filter (fun l => negb (str_is_empty l) && negb (comment l)) ls.
Proof.
  intros Hp Hd Hls. unfold peer_urls. rewrite Hp. cbn. rewrite Hd.
  rewrite str_lines_written by (eapply Forall_impl; [exact Hls|]; by intros ? []).
  do 2 f_equal. clear Hd. induction Hls as [|l ls [_ Hl] _ IH]; [done|]. rewrite fmap_cons, Hl. f_equal. apply IH.
Qed.
End start_props.

(** ** Across a restart *)

Section restart_props.
Context `{Sequoia} `{Base64} `{Blake2} `{Hmac} `{Hex} `{Aead} `{Hkdf} `{Format} `{RelayCodec} `{SetText}.

(** A store with a certificate of its own that verifies its signature. *)
Record well_signed (req : MailboxStoreRequest) : Prop := {
  ws_sig : ms_sender_sig req <> "";
  ws_open : ms_sealed_sender req = "";
  ws_cert : ms_sender_cert req <> "";
  ws_verifies : exists crt raw text, cert_from_bytes (ms_sender_cert req) = Ok crt /\
    b64_decode (ms_sender_sig req) = Some raw /\ from_utf8 raw = Some text /\
    verify_detached text (store_signing_data req) crt = Ok true;
  ws_size : slen (ms_sender_nid req) + slen (ms_sender_fp req) + 1 < 2 ^ 32;
}.

(** The relay can take it: the locks, the window of the timestamp, the database. *)
Record in_time (x : context) (req : MailboxStoreRequest) : Prop := {
  it_locks : can_write (x_locks x) = true /\ can_read (x_locks x) = true;
  it_window : check_timestamp_freshness (x_now x) (ms_timestamp req) = Ok tt;
  it_db : x_db x = true;
}.

(** Granted, the store is a row more. *)
Lemma stored_row x p req s rows :
  store_request_of p = Ok req -> well_signed req -> in_time x req ->
  cert_cache s !! ms_sender_fp req = None -> unused (ms_sender_fp req) (ms_nonce req) s ->
  db_pool s = Some rows ->
  exists s' enc, handle_store x p s = (s', Ok [ROk None]) /\
    db_pool s' = Some (rows ++ [mkRow (ms_recipient_nid req) (entry_of (x_secs x) req) false enc]) /\
    ~ unused (ms_sender_fp req) (ms_nonce req) s'.
Proof.
  intros Hp [Hsig Hopen Hne (crt & raw & text & Hcrt & Hraw & Htext & Hv) Hl] [[Hw Hr] Hts Hx] Hc Hun Hdb.
  destruct (store_granted x p req crt raw text s) as (n & s' & Hok & Hst & Hused & _); [(done || by left)..|].
  set (s0 := set_nonces n _) in Hst.
  destruct (store_message_rows x req s0 s' rows Hdb Hst) as (_ & enc & ->).
  exists (insert_row (mkRow (ms_recipient_nid req) (entry_of (x_secs x) req) false enc)
           (store_in_memory (x_secs x) req s0)), enc.
  split_and!; [exact Hok| |exact Hused]. cbn. by rewrite Hdb.
Qed.

Lemma pending_app nid l l' : pending nid (l ++ l') = pending nid l ++ pending nid l'.
Proof. unfold pending. by rewrite List.filter_app, fmap_app. Qed.

Lemma pending_row nid e enc : pending nid [mkRow nid e false enc] = [e].
Proof. unfold pending. cbn. unfold undelivered. cbn. by rewrite String.eqb_refl. Qed.

(** Mail survives a restart.  Whatever waits in the table of a relay is
    handed out by the relay that starts after it on the same database, in the
    same order, to the same recipients, and nothing else is. *)
Theorem restart_keeps_mail (x : context) (o : db_io) (random : bytes) (path nid : string)
    (s s' : RelayState) (h : host) (rows : list row) :
  db_pool s = Some rows -> restart o random path s h = Ok s' -> x_db x = true ->
  fetch_messages x nid s' = select_rows nid rows /\
  (pending nid rows <> [] -> fetch_messages x nid s' = fetch_messages x nid s).
Proof.
  intros Hdb Hs Hx. destruct (new_state_inv _ _ _ _ _ _ _ _ Hs) as (Hm & Hp & _).
  assert (Hf : fetch_messages x nid s' = select_rows nid rows).
  { unfold fetch_messages. rewrite Hp, Hx, Hm. unfold left_behind. cbn [h_tables]. rewrite Hdb.
    rewrite lookup_insert_eq. cbn [opt_or]. rewrite lookup_empty. by destruct (select_rows nid rows). }
  split; [exact Hf|]. intros Hne. by rewrite Hf, (fetch_rows x nid s rows).
Qed.

(** C18: a restart forgets what was used.  A signed store is accepted once, and
    refused when it comes again; after a restart within the window of its
    timestamp it is accepted again as it is, and the recipient has the message
    twice. *)
Theorem restart_reopens_replay (x again later : context) (o : db_io) (random : bytes) (path : string)
    (p : value) (req : MailboxStoreRequest) (s : RelayState) (h : host) (rows : list row) :
  let nid := ms_recipient_nid req in
  store_request_of p = Ok req -> well_signed req -> in_time x req -> in_time later req ->
  cert_cache s !! ms_sender_fp req = None -> unused (ms_sender_fp req) (ms_nonce req) s ->
  db_pool s = Some rows ->
  exists s1, handle_store x p s = (s1, Ok [ROk None]) /\
    is_ok (handle_store again p s1).2 = false /\
    forall s2, restart o random path s1 h = Ok s2 ->
      exists s3 rows3, handle_store later p s2 = (s3, Ok [ROk None]) /\ db_pool s3 = Some rows3 /\
        pending nid rows3 = pending nid rows ++ [entry_of (x_secs x) req; entry_of (x_secs later) req].
Proof.
  intros nid Hp Hw Hx Hlater Hc Hun Hdb.
  destruct (stored_row x p req s rows Hp Hw Hx Hc Hun Hdb) as (s1 & enc & E1 & Hdb1 & Hused).
  exists s1. split; [exact E1|]. split; [by apply (store_used_refused again p req s1)|].
  intros s2 Hs2. destruct (new_state_inv _ _ _ _ _ _ _ _ Hs2) as (_ & Hp2 & Hn2 & Hc2 & _).
  unfold left_behind in Hp2. cbn [h_tables] in Hp2. rewrite Hdb1, lookup_insert_eq in Hp2. cbn [opt_or] in Hp2.
  edestruct (stored_row later p req s2) as (s3 & enc3 & E3 & Hdb3 & _); [exact Hp|exact Hw|exact Hlater| | |exact Hp2|].
  - by rewrite Hc2.
  - unfold unused. by rewrite Hn2.
  - exists s3. eexists. split_and!; [exact E3|exact Hdb3|].
    unfold nid. rewrite !pending_app, !pending_row, <- app_assoc. done.
Qed.
End restart_props.

(** ** A concrete restart *)

#[local] Existing Instances toy_sequoia toy_base64 toy_blake2 toy_hmac toy_hex toy_aead toy_hkdf toy_format
  toy_relay.

(** A set as its members, each on a line of hexadecimal digits. *)
Definition toy_set_of_text (s : string) : option (gset string) :=
  l ← mapM hex_dec (but_last_empty (split_on newline s)); Some (list_to_set (bytes_str <$> l)).

Lemma toy_set_roundtrip k :
  toy_set_of_text (write_lines ((fun s => hex_enc (str_bytes s)) <$> elements k)) = Some k.
Proof.
  unfold toy_set_of_text. set (l := (fun s => hex_enc (str_bytes s)) <$> elements k).
  assert (Hl : but_last_empty (split_on newline (write_lines l)) = l).
  { assert (Hs : Forall (fun s => line_ok s = true) l).
    { apply Forall_fmap, Forall_forall. intros s _. unfold line_ok.
      eapply str_all_impl; [|apply hex_enc_hex]. intros a.
      destruct a as [[] [] [] [] [] [] [] []]; try discriminate; intros _; vm_compute; reflexivity. }
    induction Hs as [|s l' Hs _ IH]; [done|]. cbn [write_lines].
    rewrite split_on_app by by apply line_no_newline.
    pose proof (split_on_ne newline (write_lines l')) as Hne. cbn [but_last_empty].
    destruct (split_on newline (write_lines l')); [done|]. by rewrite IH. }
  rewrite Hl. unfold l.
  rewrite hex_words. simpl. rewrite words_of_bytes. f_equal. apply leibniz_equiv, list_to_set_elements.
Qed.

#[local] Instance toy_set_text : SetText := {|
  set_text := fun k => write_lines ((fun s => hex_enc (str_bytes s)) <$> elements k);
  set_of_text := toy_set_of_text; set_of_set_text := toy_set_roundtrip |}.

Definition calm_db : db_io := mkDbIo true true true true.
Definition empty_host : host := mkHost ∅ ∅.

(** A store signed by its sender. *)
Definition friend_request : MailboxStoreRequest :=
  mkMailboxStoreRequest victim_nid "BLOB" "NN-FRIEND" "FRIEND" 7
    (b64_encode (str_bytes (toy_sign "FRIEND" (store_signing_data
       (mkMailboxStoreRequest victim_nid "BLOB" "NN-FRIEND" "FRIEND" 7 "" (f64_of_Z 100) "n7" "" "")))))
    (f64_of_Z 100) "n7" "CERT:FRIEND" "".

Definition friend_value : value :=
  VObject [("recipient_nid", VString victim_nid); ("signed_blob", VString "BLOB");
    ("sender_nid", VString "NN-FRIEND"); ("sender_fp", VString "FRIEND"); ("seq", json_int 7);
    ("sender_sig", VString (ms_sender_sig friend_request)); ("timestamp", VNumber (Float (f64_of_Z 100)));
    ("nonce", VString "n7"); ("sender_cert", VString "CERT:FRIEND")].

Theorem restart_keeps_mail_witness :
  exists s', restart calm_db (replicate 32 1) "/gpg/mailbox.db" victim_state empty_host = Ok s' /\
    fetch_messages sample_context victim_nid s' = [sample_entry "FRIEND" 1].
Proof.
  destruct (restart calm_db (replicate 32 1) "/gpg/mailbox.db" victim_state empty_host) as [s'|e] eqn:E;
    [|discriminate E].
  exists s'. split; [reflexivity|].
  refine (eq_trans (proj1 (restart_keeps_mail sample_context calm_db (replicate 32 1) "/gpg/mailbox.db" victim_nid
    victim_state s' empty_host [mkRow victim_nid (sample_entry "FRIEND" 1) false ""] eq_refl E eq_refl)) _).
  vm_compute. reflexivity.
Defined.

Theorem restart_reopens_replay_witness :
  exists s1, handle_store sample_context friend_value victim_state = (s1, Ok [ROk None]) /\
    is_ok (handle_store sample_context friend_value s1).2 = false /\
    forall s2, restart calm_db (replicate 32 1) "/gpg/mailbox.db" s1 empty_host = Ok s2 ->
      exists s3 rows3, handle_store sample_context friend_value s2 = (s3, Ok [ROk None]) /\
        db_pool s3 = Some rows3 /\ length (pending victim_nid rows3) = 3%nat.
Proof.
  assert (Ht : in_time sample_context friend_request).
  { constructor; [split; reflexivity|vm_compute; reflexivity|reflexivity]. }
  destruct (restart_reopens_replay sample_context sample_context sample_context calm_db (replicate 32 1)
    "/gpg/mailbox.db" friend_value friend_request victim_state empty_host
    [mkRow victim_nid (sample_entry "FRIEND" 1) false ""]) as (s1 & E1 & Hr & Hs).
  - vm_compute. reflexivity.
  - constructor.
    + vm_compute. discriminate.
    + reflexivity.
    + discriminate.
    + exists ("FRIEND" : @cert toy_sequoia). eexists _, _. split_and!; [reflexivity|vm_compute; reflexivity| |].
      * vm_compute. reflexivity.
      * vm_compute. reflexivity.
    + vm_compute. reflexivity.
  - exact Ht.
  - exact Ht.
  - vm_compute. reflexivity.
  - vm_compute. reflexivity.
  - reflexivity.
  - exists s1. split; [exact E1|]. split; [exact Hr|]. intros s2 H2.
    destruct (Hs s2 H2) as (s3 & rows3 & E3 & Hdb & Hp). exists s3, rows3. split; [exact E3|].
    split; [exact Hdb|]. refine (eq_trans (f_equal length Hp) _). vm_compute. reflexivity.
Defined.
