(* ===== verification/RelayInv.v ===== *)
(** * What stays true of a running relay

    Every request of src/relay/src/main.rs is a sequence of a few changes of
    the state ([change]); whatever requests, connections, background tasks and
    links do to it, the sizes a relay is meant to keep are kept. *)

From S2P Require Import Prelude Text Files Primitives Concrete Json Gpg Identity RateLimit.
From S2P Require Import Mailbox RelayAuth Federation RelayState Relay RelayProps RelayLink RelayStart.

(** ** Changes *)

(** No message queue is fuller than it was, or than it may be. *)
Definition queues_kept (f f' : FederationState) : Prop :=
  forall u p c, peers f' !! u = Some p -> sender p = Some c ->
    zlen (queue c) <= CHANNEL_SIZE \/
    exists p0 c0, peers f !! u = Some p0 /\ sender p0 = Some c0 /\ zlen (queue c) <= zlen (queue c0).

#[export] Instance queues_kept_preorder : PreOrder queues_kept.
Proof.
  split.
  - intros f u p c Hp Hc. right. by exists p, c.
  - intros f g h Hfg Hgh u p c Hp Hc. destruct (Hgh u p c Hp Hc) as [|(p1 & c1 & Hp1 & Hc1 & Hl)]; [by left|].
    destruct (Hfg u p1 c1 Hp1 Hc1) as [|(p0 & c0 & Hp0 & Hc0 & Hl0)]; [left; lia|].
    right. exists p0, c0. split_and!; [done|done|lia].
Qed.

(** Entries can only have left. *)
Definition fewer (m m' : Mailbox) : Prop :=
  exists p, m' = with_entries m (List.filter p (entries m)).

Lemma fewer_refl m : fewer m m.
Proof.
  exists (fun _ => true). destruct m as [es n]. unfold with_entries. cbn. f_equal.
  induction es as [|e es IH]; [done|]. cbn. by rewrite <- IH.
Qed.

Inductive change : RelayState -> RelayState -> Prop :=
| ch_certs c s : change s (set_certs c s)
| ch_nonce now fp nonce s :
    change s (set_nonces (check_and_record_nonce_str now fp nonce (seen_nonce_strs s)).1 s)
| ch_store t r db s : change s (set_mail (mailboxes (store_in_memory t r s)) db s)
| ch_fewer mb db s :
    (forall nid m', mb !! nid = Some m' -> exists m, mailboxes s !! nid = Some m /\ fewer m m') ->
    change s (set_mail mb db s)
| ch_federation f s : queues_kept (federation s) f -> change s (set_federation f s).

(** A computation that makes only such changes, whatever it returns. *)
Definition gentle {A} (m : st RelayState string A) : Prop := forall s, rtc change s (m s).1.

Create HintDb gentle.

Lemma gentle_ret {A} (a : A) : gentle (st_ret a).
Proof. intros s. apply rtc_refl. Qed.
Lemma gentle_fail {A} e : gentle (A := A) (st_fail e).
Proof. intros s. apply rtc_refl. Qed.
Lemma gentle_lift {A} (r : result string A) : gentle (st_lift r).
Proof. intros s. apply rtc_refl. Qed.
Lemma gentle_guard c e : gentle (st_guard c e).
Proof. intros s. unfold st_guard. destruct c; apply rtc_refl. Qed.
Lemma gentle_get : gentle st_get.
Proof. intros s. apply rtc_refl. Qed.
Lemma gentle_modify f : (forall s, change s (f s)) -> gentle (st_modify f).
Proof. intros Hf s. by apply rtc_once. Qed.
Lemma gentle_bind {A B} (m : st RelayState string A) (k : A -> st RelayState string B) :
  gentle m -> (forall a, gentle (k a)) -> gentle (st_bind m k).
Proof.
  intros Hm Hk s. unfold st_bind. specialize (Hm s). destruct (m s) as [s1 [a|e]]; [|done].
  etrans; [exact Hm|apply Hk].
Qed.

#[export] Hint Resolve gentle_ret gentle_fail gentle_lift gentle_guard gentle_get gentle_modify : gentle.

(** Down the binds and the cases of a handler. *)
Ltac gentle :=
  repeat (first
    [ solve [eauto with gentle]
    | apply gentle_bind; [|intros ?]
    | progress cbv zeta
    | match goal with |- gentle (match ?c with _ => _ end) => destruct c end
    | match goal with |- gentle (if ?c then _ else _) => destruct c end
    | progress cbv beta ]).

Section inv.
Context `{Sequoia} `{Base64} `{Blake2} `{Hmac} `{Hex} `{Aead} `{Format} `{RelayCodec} `{JsonCodec}.
Context `{HashOrder (list f64)}.

(** ** Requests *)

Lemma gentle_gpg x sig data fp provided : gentle (check_gpg x sig data fp provided).
Proof. intros s. unfold check_gpg. destruct (verify_gpg_detached _ _ _ _ _ _). apply rtc_once, ch_certs. Qed.

Lemma gentle_nonce x fp nonce : gentle (check_nonce x fp nonce).
Proof.
  intros s. unfold check_nonce. pose proof (ch_nonce (x_nonce_secs x) fp nonce s) as Hc.
  destruct (check_and_record_nonce_str _ _ _ _). by apply rtc_once.
Qed.

Lemma gentle_store x req : gentle (store_message x req).
Proof.
  intros s. set (s1 := store_in_memory (x_secs x) req s).
  assert (Hmem : change s s1) by apply ch_store.
  assert (Hrow : forall w, rtc change s1 (insert_row w s1)).
  { intros w. apply rtc_once, ch_fewer. intros nid m Hm. exists m. split; [done|apply fewer_refl]. }
  eapply rtc_l; [exact Hmem|]. unfold store_message, st_bind, st_modify, st_get. fold s1.
  destruct (db_pool s1); [|apply rtc_refl]. unfold st_lift, st_guard.
  destruct (ok_or _ _); [|apply rtc_refl]. destruct (x_db x); [apply Hrow|apply rtc_refl].
Qed.

Lemma gentle_ack x nid sq s : change s (ack_message x nid sq s).
Proof.
  apply ch_fewer. intros nid' m'. unfold ack_in_memory. destruct (mailboxes s !! nid) as [mb|] eqn:E.
  - intros [[<- <-]|[Hne Hm]]%lookup_insert_Some; [exists mb; split; [done|by eexists]|].
    exists m'. split; [done|apply fewer_refl].
  - intros Hm. exists m'. split; [done|apply fewer_refl].
Qed.

Lemma gentle_purge x nid s : change s (purge_all_messages x nid s).
Proof.
  apply ch_fewer. intros nid' m' [_ Hm]%lookup_delete_Some. exists m'. split; [done|apply fewer_refl].
Qed.

Lemma gentle_cleanup x s : change s (cleanup_expired x s).
Proof.
  apply ch_fewer. intros nid m' [Hm _]%map_lookup_filter_Some.
  rewrite lookup_fmap in Hm. destruct (mailboxes s !! nid) as [m|]; [|done]. injection Hm as <-.
  exists m. split; [done|]. by eexists.
Qed.

Hint Resolve gentle_gpg gentle_nonce gentle_store gentle_ack gentle_purge : gentle.

Lemma gentle_hmac data provided error : gentle (require_hmac data provided error).
Proof. unfold require_hmac. gentle. Qed.

Lemma gentle_owner x what nid fp sig data cert key time :
  gentle (authorize_owner x what nid fp sig data cert key time).
Proof. unfold authorize_owner. gentle. Qed.

Lemma gentle_verify_store x req : gentle (verify_and_store x req).
Proof. unfold verify_and_store, verify_store_signature. gentle. Qed.

Hint Resolve gentle_hmac gentle_owner gentle_verify_store : gentle.

(** *** The federation *)

Lemma same_queues f f' : peers f' = peers f -> queues_kept f f'.
Proof. intros E u p c Hp Hc. rewrite E in Hp. right. by exists p, c. Qed.

Lemma insert_queue_kept u p f :
  (forall c, sender p = Some c -> zlen (queue c) <= CHANNEL_SIZE \/
     exists p0 c0, peers f !! u = Some p0 /\ sender p0 = Some c0 /\ zlen (queue c) <= zlen (queue c0)) ->
  queues_kept f (set_peers (<[u := p]> (peers f)) f).
Proof.
  intros Hp v q c. cbn [peers set_peers]. destruct (decide (v = u)) as [->|Hne].
  - rewrite lookup_insert_eq. intros [= <-]. apply Hp.
  - rewrite lookup_insert_ne by done. intros Hv Hc. right. by exists q, c.
Qed.

Lemma touch_kept now u f : queues_kept f (touch_peer now u f).
Proof.
  unfold touch_peer. destruct (peers f !! u) as [p|] eqn:E; [|done].
  apply insert_queue_kept. intros c Hc. right. by exists p, c.
Qed.

Lemma add_routes_peers now nids u f : peers (add_routes now nids u f) = peers f.
Proof. revert f. induction nids as [|n nids IH]; intros f; [done|]. exact (IH (add_route now n u f)). Qed.

Lemma authenticate_kept u f : queues_kept f (authenticate u f).
Proof.
  unfold authenticate. destruct (peers f !! u) as [p|] eqn:E; [|done].
  apply insert_queue_kept. intros c Hc. right. by exists p, c.
Qed.

Lemma peer_routes_kept now u nids f : queues_kept f (set_peer_routes now u nids f).
Proof.
  unfold set_peer_routes. destruct (peers f !! u) as [p|] eqn:E; [|done].
  apply insert_queue_kept. intros c Hc. right. by exists p, c.
Qed.

Lemma send_kept u m f : queues_kept f (send_to_peer u m f).1.
Proof.
  unfold send_to_peer. destruct (peers f !! u) as [p|] eqn:E; [|done].
  destruct (sender p) as [c|] eqn:Ec; [|done]. unfold try_send.
  destruct (receiving c), (Z.ltb_spec (zlen (queue c)) CHANNEL_SIZE); cbn [andb fst];
    apply insert_queue_kept; intros c' [= <-]; try (right; by exists p, c).
  left. cbn. unfold zlen in *. rewrite length_app. cbn. lia.
Qed.

Lemma sends_kept us m f : queues_kept f (foldl (fun f u => (send_to_peer u m f).1) f us).
Proof.
  revert f. induction us as [|u us IH]; intros f; [done|]. cbn [foldl].
  etrans; [apply (send_kept u m)|apply IH].
Qed.

Lemma cleanup_kept now f : queues_kept f (cleanup_expired_routes now f).
Proof. intros u p c [Hp _]%cleanup_peer Hc. right. by exists p, c. Qed.

Lemma learn_kept x p s : change s (learn_routes x p s).
Proof.
  apply ch_federation. etrans; [|apply touch_kept]. by apply same_queues, add_routes_peers.
Qed.

Hint Resolve learn_kept : gentle.

Lemma gentle_peer_auth x p : gentle (handle_peer_auth x p).
Proof.
  intros s. unfold handle_peer_auth, st_bind, st_lift, st_get, st_put.
  destruct (decode _ _) as [a|e]; [|apply rtc_refl].
  assert (Hc : change s (set_federation (set_challenges (<[pa_relay_url a:=(pa_challenge a, x_secs x)]>
                 (pending_challenges (federation s))) (federation s)) s)) by by apply ch_federation, same_queues.
  destruct (Federation.shared_secret _); by apply rtc_once.
Qed.

Lemma gentle_auth_reply x p : gentle (handle_peer_auth_reply x p).
Proof.
  intros s. unfold handle_peer_auth_reply, st_bind, st_lift, st_get, st_put, st_guard.
  destruct (decode _ _) as [a|e]; [|apply rtc_refl].
  destruct (pending_challenges _ !! _) as [[ch at_]|]; [|apply rtc_refl].
  set (f := set_challenges _ _).
  assert (Hf : queues_kept (federation s) f) by by apply same_queues.
  assert (Hc : change s (set_federation f s)) by by apply ch_federation.
  destruct (negb _); [|by apply rtc_once]. cbn [st_ret]. unfold st_ret.
  destruct (Federation.shared_secret f); [|by apply rtc_once].
  destruct (String.eqb _ _); [|by apply rtc_once]. apply rtc_once, ch_federation.
  etrans; [exact Hf|apply authenticate_kept].
Qed.

Lemma gentle_onion x p : gentle (handle_onion x p).
Proof.
  unfold handle_onion. cbv zeta. apply gentle_bind; [auto with gentle|]. intros _ s.
  unfold st_bind, st_get, st_put. apply rtc_once, ch_federation, send_kept.
Qed.

Hint Resolve gentle_peer_auth gentle_auth_reply gentle_onion : gentle.

(** Every request makes only such changes. *)
Lemma gentle_message x e : gentle (handle_message x e).
Proof.
  unfold handle_message. cbv zeta.
  repeat (case_match; [first [solve [eauto with gentle]
    | unfold handle_store, handle_fetch, handle_ack, handle_ping, handle_route_advertise, handle_route_ack,
        handle_who_has, handle_forward, handle_purge; gentle]|]).
  auto with gentle.
Qed.

(** ** What the changes keep *)

Record relay_inv (s : RelayState) : Prop := {
  ri_mail nid mb : mailboxes s !! nid = Some mb -> max_size mb = MAX_MAILBOX_SIZE /\ mailbox_inv mb;
  ri_nonces fp : (length (logged fp (seen_nonce_strs s)) <= 1000)%nat;
  ri_limiters : Z.of_nat (size (conn_limiters s)) <= MAX_PEER_LIMITERS;
  ri_queues u p c : peers (federation s) !! u = Some p -> sender p = Some c ->
    zlen (queue c) <= CHANNEL_SIZE;
}.

Lemma queues_kept_bounded f f' :
  queues_kept f f' ->
  (forall u p c, peers f !! u = Some p -> sender p = Some c -> zlen (queue c) <= CHANNEL_SIZE) ->
  forall u p c, peers f' !! u = Some p -> sender p = Some c -> zlen (queue c) <= CHANNEL_SIZE.
Proof.
  intros Hk Hf u p c Hp Hc. destruct (Hk u p c Hp Hc) as [|(p0 & c0 & Hp0 & Hc0 & Hl)]; [done|].
  etrans; [exact Hl|by eapply Hf].
Qed.

Lemma store_mailbox_ok e mb :
  (forall m, mb = Some m -> max_size m = MAX_MAILBOX_SIZE /\ mailbox_inv m) ->
  let m := Mailbox.store e (opt_or mb (Mailbox.new MAX_MAILBOX_SIZE)) in
  max_size m = MAX_MAILBOX_SIZE /\ mailbox_inv m.
Proof.
  intros Hm. assert (Ho : let m := opt_or mb (Mailbox.new MAX_MAILBOX_SIZE) in
    max_size m = MAX_MAILBOX_SIZE /\ mailbox_inv m).
  { destruct mb as [m|]; [by apply Hm|]. split; [done|]. by split. }
  cbv zeta in *. destruct Ho as [Hs Hi]. split; [done|]. apply store_inv; [by rewrite Hs|done].
Qed.

Lemma change_inv s s' : change s s' -> relay_inv s -> relay_inv s'.
Proof.
  intros [c s0|now fp n s0|t r db s0|mb db s0 Hfew|f s0 Hf] [Hm Hn Hl Hq].
  - by split.
  - split; try done. intros fp'. cbn [seen_nonce_strs set_nonces].
    change (check_and_record_nonce_str now fp n (seen_nonce_strs s0)).1
      with (record_call (seen_nonce_strs s0) (mkCall now fp n)).
    destruct (decide (fp' = fp)) as [->|Hne]; [|by rewrite record_call_other].
    pose proof (record_call_same (seen_nonce_strs s0) (mkCall now fp n)) as E.
    cbn [c_fp c_nonce c_now] in E. rewrite E.
    destruct (existsb _ _); [done|]. rewrite length_app. cbn [length].
    pose proof (drain_half_length (List.filter (fun e => now - STORE_TIMESTAMP_TOLERANCE_SECS <=? e.2)
      (logged fp (seen_nonce_strs s0)))) as Hd.
    pose proof (filter_length_le (fun e => now - STORE_TIMESTAMP_TOLERANCE_SECS <=? e.2)
      (logged fp (seen_nonce_strs s0))) as Hle. specialize (Hn fp). lia.
  - split; try done. intros nid mb. cbn [mailboxes set_mail store_in_memory].
    intros [[<- <-]|[Hne Hmb]]%lookup_insert_Some; [|by eapply Hm].
    apply store_mailbox_ok. intros m. apply Hm.
  - split; try done. intros nid m' Hm'. destruct (Hfew nid m' Hm') as (m & Hmb & p & ->).
    destruct (Hm nid m Hmb) as [Hs Hi]. split; [done|by apply filter_inv].
  - split; try done. by apply (queues_kept_bounded (federation s0) f).
Qed.

Lemma changes_inv s s' : rtc change s s' -> relay_inv s -> relay_inv s'.
Proof. induction 1 as [|s s1 s2 Hc _ IH]; [done|]. intros Hs. by apply IH, (change_inv s). Qed.

(** ** Connections and tasks *)

(** What happens to a relay: a text on a connection, a connection asking to be
    let in, a certificate pinned, the background tasks, its links to peers. *)
Inductive relay_event : Type :=
| EvText (x : context) (raw : string)
| EvConnection (now : f64) (x : context) (ip : string)
| EvPin (cert_fp : string)
| EvCleanup (x : context)
| EvLimiters (now : Z)
| EvGossip (x : context)
| EvConnect (connect : string -> result string unit) (x : context) (u : string)
| EvSent (sent : list bool) (u : string)
| EvPeer (x : context) (u raw : string).

Definition relay_step (s : RelayState) (e : relay_event) : RelayState :=
  match e with
  | EvText x raw => (Relay.handle_text x raw s).1
  | EvConnection now x ip => (admit_peer now x ip s).1
  | EvPin fp => pin_peer fp s
  | EvCleanup x => cleanup_expired x s
  | EvLimiters now => drop_stale_limiters now s
  | EvGossip x => gossip_round x s
  | EvConnect connect x u => (connect_to_peer connect x u s).1
  | EvSent sent u => (pump sent u s).1
  | EvPeer x u raw => peer_text x u raw s
  end.

Lemma set_limiters_inv m s :
  Z.of_nat (size m) <= MAX_PEER_LIMITERS -> relay_inv s -> relay_inv (set_limiters m s).
Proof. intros Hm [? ? ? ?]. by split. Qed.

Lemma text_changes x raw s : rtc change s (Relay.handle_text x raw s).1.
Proof.
  unfold Relay.handle_text. destruct (relay_from_json raw) as [e|e]; [|apply rtc_refl].
  destruct (f64_gtb _ _); [apply rtc_refl|]. pose proof (gentle_message x e s) as Hg.
  by destruct (handle_message x e s) as [s' [r|er]].
Qed.

Lemma send_task_queue sent c : zlen (queue (send_task sent c).1) <= zlen (queue c).
Proof.
  revert c. induction sent as [|ok sent IH]; intros c; [done|]. cbn [send_task].
  destruct (queue c) as [|m q] eqn:E; [cbn [fst]; by rewrite E|].
  destruct ok; [|cbn; rewrite ?E; unfold zlen; cbn; lia].
  specialize (IH (mkChannel q (receiving c))). destruct (send_task sent _) as [c' l]. cbn [fst] in *.
  unfold zlen in *. cbn [queue length] in *. lia.
Qed.

Lemma federation_inv f s : queues_kept (federation s) f -> relay_inv s -> relay_inv (set_federation f s).
Proof. intros Hf. by apply change_inv, ch_federation. Qed.

(** The first connection of an address is let in. *)
Lemma first_allowed now ip : (allow now ip (RateLimit.new 30 (f64_of_Z 60))).2 = true.
Proof.
  unfold allow. set (r := RateLimit.new 30 (f64_of_Z 60)).
  assert (E : make_room r ip = ∅) by reflexivity. rewrite E, lookup_empty. exact eq_refl.
Qed.

Lemma oldest_in l best : oldest_limiter best l ∈ best.1 :: l.*1.
Proof.
  revert best. induction l as [|[ip [r t]] l IH]; intros best; cbn [oldest_limiter fmap list_fmap fst]; [by left|].
  destruct (t <? best.2); [specialize (IH (ip, t))|specialize (IH best)];
    apply elem_of_cons in IH as [->|IH]; rewrite !elem_of_cons; auto.
Qed.

Lemma evict_room m :
  Z.of_nat (size m) <= MAX_PEER_LIMITERS + 1 -> Z.of_nat (size (evict_limiter m)) <= MAX_PEER_LIMITERS.
Proof.
  intros Hm. unfold evict_limiter.
  destruct (Z.ltb_spec MAX_PEER_LIMITERS (Z.of_nat (size m))) as [Hlt|]; [|done].
  pose proof (length_map_to_list m) as Hlen. destruct (map_to_list m) as [|[ip0 [r t]] l] eqn:E.
  { cbn in Hlen. unfold MAX_PEER_LIMITERS in *. lia. }
  pose proof (oldest_in l (ip0, t)) as Ho. set (k := oldest_limiter (ip0, t) l) in *.
  assert (Hk : is_Some (m !! k)).
  { assert (Hin : k ∈ (map_to_list m).*1) by (by rewrite E).
    apply list_elem_of_fmap in Hin as ([k' v] & -> & Hin%elem_of_map_to_list). by exists v. }
  destruct Hk as [v Hv]. rewrite map_size_delete_Some by (by eexists). unfold MAX_PEER_LIMITERS in *. lia.
Qed.

(** The map of limiters has room again after each connection let in, and a
    connection that is refused has a limiter already. *)
Lemma admit_inv now x ip s : relay_inv s -> relay_inv (admit_peer now x ip s).1.
Proof.
  intros Hs. pose proof (ri_limiters s Hs) as Hl. unfold admit_peer.
  destruct (conn_limiters s !! ip) as [[l t]|] eqn:E; cbn [opt_or].
  - destruct (allow now ip l) as [l' ok]. cbn [fst]. apply set_limiters_inv; [|done].
    assert (Hsz : size (<[ip := (l', x_instant x)]> (conn_limiters s)) = size (conn_limiters s))
      by (apply map_size_insert_Some; by eexists).
    destruct ok; [|by rewrite Hsz]. unfold evict_limiter. rewrite Hsz.
    destruct (Z.ltb_spec MAX_PEER_LIMITERS (Z.of_nat (size (conn_limiters s)))); [lia|by rewrite Hsz].
  - pose proof (first_allowed now ip) as Hok. destruct (allow now ip _) as [l' ok]. cbn [snd] in Hok. subst ok.
    cbn [fst]. apply set_limiters_inv; [|done]. apply evict_room. rewrite map_size_insert_None by done. lia.
Qed.

Lemma step_inv s e : relay_inv s -> relay_inv (relay_step s e).
Proof.
  intros Hs. destruct e as [x raw|now x ip|fp|x|now|x|connect x u|sent u|x u raw]; cbn [relay_step].
  - eapply changes_inv; [apply text_changes|done].
  - by apply admit_inv.
  - destruct Hs. by split.
  - by eapply change_inv; [apply gentle_cleanup|].
  - apply set_limiters_inv; [|done]. etrans; [|apply (ri_limiters s Hs)]. apply inj_le.
    by apply map_subseteq_size, map_filter_subseteq.
  - unfold gossip_round. destruct (elements _); [done|]. apply federation_inv; [|done].
    etrans; [apply sends_kept|apply cleanup_kept].
  - unfold connect_to_peer, st_bind, st_lift, st_modify. destruct (connect _); [|done].
    apply federation_inv; [|done]. apply insert_queue_kept. intros c [= <-]. left. done.
  - unfold pump. destruct (peers (federation s) !! u) as [p|] eqn:E; [|done].
    destruct (sender p) as [c|] eqn:Ec; [|done]. pose proof (send_task_queue sent c) as Hl.
    destruct (send_task sent c) as [c' l]. apply federation_inv; [|done].
    apply insert_queue_kept. intros c1 [= <-]. right. by exists p, c.
  - unfold peer_text. repeat (case_match; try done). apply federation_inv; [apply peer_routes_kept|done].
Qed.

Lemma relay_run_inv es s : relay_inv s -> relay_inv (foldl relay_step s es).
Proof. revert s. induction es as [|e es IH]; intros s Hs; [done|]. apply IH. by apply step_inv. Qed.

Lemma new_state_relay_inv `{Hkdf} `{SetText} o random secret home path allow h s :
  new_state o random secret home (Some path) allow h = Ok s -> relay_inv s.
Proof.
  intros E. pose proof (new_state_inv _ _ _ _ _ _ _ _ E) as (Hm & _ & Hn & _ & _ & Hf & _).
  assert (Hl : conn_limiters s = ∅).
  { revert E. unfold new_state. destruct (o_dir o), (o_connect o), (o_table o && o_index o); try done.
    cbn [negb rbind]. destruct (derive_metadata_key secret random); [|done]. by intros [= <-]. }
  split.
  - intros nid mb. by rewrite Hm, lookup_empty.
  - intros fp. unfold logged. rewrite Hn, lookup_empty. cbn. lia.
  - rewrite Hl, map_size_empty. done.
  - intros u p c. rewrite Hf. cbn. by rewrite lookup_empty.
Qed.

(** The sizes of a relay.  From its start on, through whatever requests,
    well formed or not, authorised or not, whatever connections, links and
    background tasks, in whatever order: a mailbox has at most a thousand
    entries and at most ten of one sender's, the log of a fingerprint at
    most a thousand nonces, the table of limiters at most ten thousand
    addresses, and the queue to a peer at most a hundred messages. *)
Theorem relay_stays_bounded `{Hkdf} `{SetText} (o : db_io) (random : bytes) (secret : option string)
    (home path : string) (allow : bool) (h : host) (s0 : RelayState) (es : list relay_event) :
  new_state o random secret home (Some path) allow h = Ok s0 ->
  let s := foldl relay_step s0 es in
  (forall nid mb, mailboxes s !! nid = Some mb ->
     zlen (entries mb) <= MAX_MAILBOX_SIZE /\
     forall fp, zlen (from_sender fp (entries mb)) <= MAX_ENTRIES_PER_SENDER) /\
  (forall fp, (length (logged fp (seen_nonce_strs s)) <= 1000)%nat) /\
  Z.of_nat (size (conn_limiters s)) <= MAX_PEER_LIMITERS /\
  (forall u p c, peers (federation s) !! u = Some p -> sender p = Some c -> zlen (queue c) <= CHANNEL_SIZE).
Proof.
  intros Hstart s. destruct (relay_run_inv es s0 (new_state_relay_inv _ _ _ _ _ _ _ _ Hstart)) as [Hm Hn Hl Hq].
  split_and!; [|exact Hn|exact Hl|exact Hq]. intros nid mb Hmb. destruct (Hm nid mb Hmb) as [Hs [Hi Hf]].
  by rewrite <- Hs.
Qed.
End inv.

(** ** A concrete run *)

#[local] Existing Instances toy_sequoia toy_base64 toy_blake2 toy_hmac toy_hex toy_aead toy_hkdf toy_format
  toy_json toy_relay toy_set_text.

#[local] Instance relay_order : HashOrder (list f64) := list_order _.
Definition some_events : list relay_event :=
  [EvText sample_context "junk"; EvConnection (f64_of_Z 1) sample_context "10.0.0.1";
   EvConnect accepts sample_context "ws://b"; EvGossip sample_context; EvCleanup sample_context].

Theorem relay_stays_bounded_witness :
  exists s0, new_state calm_db (replicate 32 1) None "/gpg" (Some "/gpg/mailbox.db") false empty_host = Ok s0 /\
    let s := foldl relay_step s0 some_events in
    peers (federation s) !! "ws://b" <> None /\ Z.of_nat (size (conn_limiters s)) <= MAX_PEER_LIMITERS.
Proof.
  destruct (new_state calm_db (replicate 32 1) None "/gpg" (Some "/gpg/mailbox.db") false empty_host) as [s0|e] eqn:E;
    [|discriminate E].
  exists s0. split; [reflexivity|]. split.
  - injection E as <-. vm_compute. discriminate.
  - exact (proj1 (proj2 (proj2 (relay_stays_bounded calm_db (replicate 32 1) None "/gpg" "/gpg/mailbox.db" false
      empty_host s0 some_events E)))).
Defined.
