(* ===== verification/LinkLife.v ===== *)
(** * How long a link lasts (src/relay/src/main.rs)

    Of all that happens to a running relay ([RelayInv.relay_event]), what counts
    as a sign of life of a peer is little: a well-formed announcement of routes
    or its acknowledgement that names it, an announcement on the link itself, and
    a new connection to it ([sign_of_life]).  Without one the peer is forgotten
    by the first round of gossip five minutes later ([link_forgotten]). *)

From S2P Require Import Prelude Text Files Primitives Concrete Json Gpg Identity RateLimit.
From S2P Require Import Mailbox RelayAuth Federation RelayState Relay RelayProps RelayLink RelayStart RelayInv.

Section life.
Context `{Sequoia} `{Base64} `{Blake2} `{Hmac} `{Hex} `{Aead} `{Format} `{RelayTextLaw}.
Context `{HashOrder (list f64)}.

(** The text refreshes the peer: [last_seen] is set for the relay it names. *)
Definition names_peer (u raw : string) : Prop :=
  exists e, relay_from_json raw = Ok e /\ str_field (re_payload e) "relay_url" = u /\
    (re_type e = "route-advertise" /\ is_ok (route_count_of (re_payload e)) = true \/ re_type e = "route-advertise-ack").

(** So does a list of routes that comes on the link. *)
Definition lists_routes (raw : string) : Prop :=
  exists e, relay_from_json raw = Ok e /\ re_type e = "route-advertise" /\
    is_Some (get (re_payload e) "null_ids" ≫= as_array).

Definition connects (u : string) (e : relay_event) : Prop :=
  match e with EvConnect _ _ v => v = u | _ => False end.

Definition sign_of_life (u : string) (e : relay_event) : Prop :=
  match e with
  | EvText _ raw => names_peer u raw
  | EvPeer _ v raw => v = u /\ lists_routes raw
  | _ => connects u e
  end.

(** ** What else happens does not refresh *)

Section ages.
Variable u : string.

Definition ages (f f' : FederationState) : Prop :=
  forall p', peers f' !! u = Some p' -> exists p, peers f !! u = Some p /\ last_seen p' = last_seen p.

#[local] Instance ages_preorder : PreOrder ages.
Proof.
  split.
  - intros f p Hp. by exists p.
  - intros f g h Hfg Hgh p2 (p1 & (p & Hp & El)%Hfg & El')%Hgh. exists p. split; [done|congruence].
Qed.

Lemma same_peers_age f f' : peers f' = peers f -> ages f f'.
Proof. intros E p' Hp. exists p'. by rewrite <- E. Qed.

Lemma insert_ages v p0 f :
  v <> u \/ (exists p, peers f !! v = Some p /\ last_seen p0 = last_seen p) -> ages f (set_peers (<[v := p0]> (peers f)) f).
Proof.
  intros Hv p'. cbn [peers set_peers]. destruct (decide (v = u)) as [->|Hne].
  - rewrite lookup_insert_eq. intros [= <-]. by destruct Hv as [?|Hp].
  - rewrite lookup_insert_ne by done. intros Hp. by exists p'.
Qed.

Lemma loses_ages f f' : only_loses f f' -> ages f f'.
Proof. intros [_ Hp] p' (p & E & _ & El)%Hp. by exists p. Qed.

Lemma authenticate_ages v f : ages f (authenticate v f).
Proof.
  unfold authenticate. destruct (peers f !! v) as [p|] eqn:E; [|done]. apply insert_ages. right. by exists p.
Qed.

Lemma touch_ages now v f : v <> u -> ages f (touch_peer now v f).
Proof. intros Hne. unfold touch_peer. destruct (peers f !! v); [|done]. apply insert_ages. by left. Qed.

Lemma learn_ages x p s : str_field p "relay_url" <> u -> ages (federation s) (federation (learn_routes x p s)).
Proof.
  intros Hne. unfold learn_routes. cbn [federation set_federation]. etrans; [|by apply touch_ages].
  by apply same_peers_age, add_routes_peers.
Qed.

(** *** Requests *)

(** The method leaves [last_seen] of the peer alone, whatever it returns. *)
Definition older {A} (m : st RelayState string A) : Prop := forall s, ages (federation s) (federation (m s).1).

Create HintDb older.

Lemma older_ret {A} (a : A) : older (st_ret a).
Proof. by intros s. Qed.
Lemma older_fail {A} e : older (A := A) (st_fail e).
Proof. by intros s. Qed.
Lemma older_lift {A} (r : result string A) : older (st_lift r).
Proof. by intros s. Qed.
Lemma older_guard c e : older (st_guard c e).
Proof. intros s. by destruct c. Qed.
Lemma older_get : older st_get.
Proof. by intros s. Qed.
Lemma older_bind {A B} (m : st RelayState string A) (k : A -> st RelayState string B) :
  older m -> (forall a, older (k a)) -> older (st_bind m k).
Proof.
  intros Hm Hk s. unfold st_bind. specialize (Hm s). destruct (m s) as [s1 [a|e]]; [|done].
  etrans; [exact Hm|apply Hk].
Qed.
Lemma older_modify f : (forall s, federation (f s) = federation s) -> older (st_modify f).
Proof. intros Hf s. apply same_peers_age. cbn. by rewrite Hf. Qed.
Lemma older_gpg x sig data fp provided : older (check_gpg x sig data fp provided).
Proof. intros s. unfold check_gpg. by destruct (verify_gpg_detached _ _ _ _ _ _). Qed.
Lemma older_nonce x fp nonce : older (check_nonce x fp nonce).
Proof. intros s. unfold check_nonce. by destruct (check_and_record_nonce_str _ _ _ _). Qed.
Lemma older_store x req : older (store_message x req).
Proof.
  intros s. unfold store_message, st_bind, st_modify, st_get, st_lift, st_guard, st_ret, st_fail.
  by repeat case_match; simplify_eq.
Qed.

Hint Resolve older_ret older_fail older_lift older_guard older_get older_gpg older_nonce older_store : older.

Ltac older :=
  repeat (first
    [ solve [eauto with older]
    | apply older_bind; [|intros ?]
    | apply older_modify; [by intros ?]
    | progress cbv zeta
    | match goal with |- older (match ?c with _ => _ end) => destruct c end
    | match goal with |- older (if ?c then _ else _) => destruct c end
    | progress cbv beta ]).

Lemma older_hmac data provided error : older (require_hmac data provided error).
Proof. unfold require_hmac. older. Qed.
Lemma older_owner x what nid fp sig data cert key time : older (authorize_owner x what nid fp sig data cert key time).
Proof. unfold authorize_owner. older. Qed.
Lemma older_verify_store x req : older (verify_and_store x req).
Proof. unfold verify_and_store, verify_store_signature. older. Qed.

Lemma older_peer_auth x p : older (handle_peer_auth x p).
Proof.
  intros s. unfold handle_peer_auth, st_bind, st_lift, st_get, st_put.
  destruct (decode _ _); [|done]. destruct (Federation.shared_secret _); by apply same_peers_age.
Qed.

Lemma older_auth_reply x p : older (handle_peer_auth_reply x p).
Proof.
  intros s. unfold handle_peer_auth_reply, st_bind, st_lift, st_get, st_put, st_guard.
  destruct (decode _ _) as [a|e]; [|done]. destruct (pending_challenges _ !! _) as [[ch at_]|]; [|done].
  set (f := set_challenges _ _). assert (Hf : ages (federation s) f) by by apply same_peers_age.
  destruct (negb _); [|exact Hf]. unfold st_ret. destruct (Federation.shared_secret f); [|exact Hf].
  destruct (String.eqb _ _); [|exact Hf]. etrans; [exact Hf|apply authenticate_ages].
Qed.

Lemma older_onion x p : older (handle_onion x p).
Proof.
  unfold handle_onion. cbv zeta. apply older_bind; [auto with older|]. intros _ s.
  unfold st_bind, st_get, st_put. apply loses_ages, send_loses.
Qed.

Hint Resolve older_hmac older_owner older_verify_store older_peer_auth older_auth_reply older_onion : older.

Lemma older_message x raw e : relay_from_json raw = Ok e -> ~ names_peer u raw -> older (handle_message x e).
Proof.
  intros He Hno. unfold handle_message. cbv zeta.
  destruct (String.eqb_spec (re_type e) "relay-store"); [unfold handle_store; older|].
  destruct (String.eqb_spec (re_type e) "relay-fetch"); [unfold handle_fetch; older|].
  destruct (String.eqb_spec (re_type e) "relay-ack"); [unfold handle_ack; older|].
  destruct (String.eqb_spec (re_type e) "relay-ping"); [unfold handle_ping; older|].
  destruct (String.eqb_spec (re_type e) "route-advertise") as [Et|_].
  { intros s. unfold handle_route_advertise, st_bind, st_lift, st_modify, st_get.
    destruct (route_count_of (re_payload e)) as [cnt|er] eqn:En; [|done]. apply learn_ages. intros Eu. apply Hno.
    exists e. split_and!; [done|done|]. left. by rewrite En. }
  destruct (String.eqb_spec (re_type e) "route-advertise-ack") as [Et|_].
  { intros s. apply learn_ages. intros Eu. apply Hno. exists e. split_and!; [done|done|by right]. }
  destruct (String.eqb_spec (re_type e) "who-has"); [unfold handle_who_has; older|].
  destruct (String.eqb_spec (re_type e) "peer-auth"); [older|].
  destruct (String.eqb_spec (re_type e) "peer-auth-reply"); [older|].
  destruct (String.eqb_spec (re_type e) "relay-forward"); [unfold handle_forward; older|].
  destruct (String.eqb_spec (re_type e) "relay-purge"); [unfold handle_purge; older|]. older.
Qed.

(** *** Events *)

Lemma step_ages s e : ~ sign_of_life u e -> ages (federation s) (federation (relay_step s e)).
Proof.
  intros Hno. destruct e as [x raw|now x ip|fp|x|now|x|connect x v|sent v|x v raw]; cbn [relay_step sign_of_life] in *.
  - unfold Relay.handle_text. destruct (relay_from_json raw) as [e|er] eqn:He; [|done].
    destruct (f64_gtb _ _); [done|]. pose proof (older_message x raw e He Hno s) as Ha.
    by destruct (handle_message x e s) as [s' [r|er]].
  - unfold admit_peer. repeat case_match; by simplify_eq.
  - done.
  - done.
  - done.
  - apply loses_ages, gossip_loses.
  - unfold connect_to_peer, st_bind, st_lift, st_modify. destruct (connect _); [|done]. apply insert_ages. by left.
  - apply loses_ages, pump_loses.
  - unfold peer_text. destruct (relay_from_json raw) as [e|er] eqn:He; [|done].
    destruct (String.eqb_spec (re_type e) "route-advertise") as [Et|_]; [|done].
    destruct (get (re_payload e) "null_ids" ≫= as_array) as [nids|] eqn:En; [|done].
    cbn [federation set_federation]. unfold set_peer_routes. destruct (peers (federation s) !! v); [|done].
    apply insert_ages. left. intros ->. apply Hno. split; [done|]. exists e. rewrite En. split_and!; [done|done|by eexists].
Qed.

Lemma run_ages es : forall s, (forall e, e ∈ es -> ~ sign_of_life u e) ->
  ages (federation s) (federation (foldl relay_step s es)).
Proof.
  induction es as [|e es IH]; intros s Hno; [done|]. cbn [foldl]. etrans; [apply step_ages, Hno; by left|].
  apply IH. intros e' He'. apply Hno. by right.
Qed.

(** *** A peer that is forgotten stays so *)

(** Nothing but a connection adds a peer. *)
Lemma touch_none now v f : peers f !! u = None -> peers (touch_peer now v f) !! u = None.
Proof.
  intros Hn. unfold touch_peer. destruct (peers f !! v) as [p|] eqn:E; [|done]. cbn [peers set_peers].
  rewrite lookup_insert_ne; [done|congruence].
Qed.

Lemma text_none x raw s : peers (federation s) !! u = None -> peers (federation (Relay.handle_text x raw s).1) !! u = None.
Proof.
  intros Hn. destruct (peers (federation (Relay.handle_text x raw s).1) !! u) as [p'|] eqn:E; [|done]. exfalso.
  unfold Relay.handle_text in E. destruct (relay_from_json raw) as [e|er] eqn:He; [|cbn in E; congruence].
  destruct (f64_gtb _ _); [cbn in E; congruence|].
  assert (Hm : peers (federation (handle_message x e s).1) !! u = None).
  { destruct (decide (re_type e = "route-advertise" \/ re_type e = "route-advertise-ack")) as [Ht|Ht].
    - assert (Hl : peers (federation (learn_routes x (re_payload e) s)) !! u = None).
      { unfold learn_routes. cbn [federation set_federation]. apply touch_none. by rewrite add_routes_peers. }
      unfold handle_message. destruct Ht as [-> | ->]; cbn [String.eqb Ascii.eqb Bool.eqb]; [|exact Hl].
      unfold handle_route_advertise, st_bind, st_lift, st_modify, st_get. destruct (route_count_of (re_payload e)); [exact Hl|exact Hn].
    - assert (Ha : ages (federation s) (federation (handle_message x e s).1)).
      { apply (older_message x raw e He). intros (e' & He' & _ & Ht'). rewrite He in He'. injection He' as <-.
        apply Ht. tauto. }
      destruct (peers (federation (handle_message x e s).1) !! u) as [p|] eqn:Ep; [|reflexivity].
      destruct (Ha p Ep) as (q & Hq & _). congruence. }
  destruct (handle_message x e s) as [s' [r|er]]; cbn in E, Hm; congruence.
Qed.

Lemma step_none s e : ~ connects u e -> peers (federation s) !! u = None -> peers (federation (relay_step s e)) !! u = None.
Proof.
  intros Hno Hn. destruct e as [x raw|now x ip|fp|x|now|x|connect x v|sent v|x v raw] eqn:Ee.
  { by apply text_none. }
  8: { cbn [relay_step]. unfold peer_text. destruct (relay_from_json raw); [|done]. destruct (String.eqb _ _); [|done].
       destruct (get _ _ ≫= as_array); [|done]. cbn [federation set_federation]. unfold set_peer_routes.
       destruct (peers (federation s) !! v) eqn:Ev; [|done]. cbn [peers set_peers].
       rewrite lookup_insert_ne; [done|congruence]. }
  all: rewrite <- Ee in *; assert (Hs : ~ sign_of_life u e) by (subst e; exact Hno);
    destruct (peers (federation (relay_step s e)) !! u) as [p|] eqn:Ep; [|done];
    destruct (step_ages s e Hs p Ep) as (q & Hq & _); congruence.
Qed.

Lemma run_none es : forall s, (forall e, e ∈ es -> ~ connects u e) -> peers (federation s) !! u = None ->
  peers (federation (foldl relay_step s es)) !! u = None.
Proof.
  induction es as [|e es IH]; intros s Hno Hn; [done|]. cbn [foldl]. apply IH; [intros e' He'; apply Hno; by right|].
  apply step_none; [|done]. apply Hno. by left.
Qed.
End ages.

(** ** What relays say to each other *)

(** Neither the announcements of relays that run this code nor the answers to
    them are signs of life. *)
Lemma announcement_no_sign u y x other : ~ sign_of_life u (EvText y (announcement x other)).
Proof.
  intros (e & He & _ & Ht). destruct (relay_text_members _ _ _ He eq_refl) as (Hty & m' & Hp & Hm). cbn [re_type] in Hty.
  assert (Hn : is_ok (route_count_of (VObject m')) = false) by by apply route_count_needed, Hm.
  destruct Ht as [[_ Hc]|Hc]; [rewrite Hp in Hc; congruence|rewrite Hty in Hc; discriminate].
Qed.

Lemma answer_no_sign u y v r raw : answers r -> reply_text r = Some raw -> ~ sign_of_life u (EvPeer y v raw).
Proof.
  intros (x1 & x2 & other & s1 & Hr) Hraw [_ (e & He & _)].
  destruct (announcement_refused x1 x2 other s1) as [er Her]. rewrite Her in Hr. cbn [snd] in Hr.
  apply list_elem_of_singleton in Hr as ->. injection Hraw as <-. unfold send_error, response in He.
  pose proof (type_needed [("ok", VBool false); ("error", VString er); ("data", VNull)] eq_refl) as Hn.
  cbn [opt_or fmap option_fmap option_map] in He. by rewrite He in Hn.
Qed.

(** C20: a link lasts five minutes.  Whatever happens on a relay, to its
    connections, its links and in the background, without a sign of life of a
    peer: the first round of gossip that comes five minutes after the peer was
    last seen, on a relay that has some mailbox of its own (one without skips the
    round), forgets it; and nothing but a new connection to it, which the program
    makes only when it starts, brings it back.  A sign of life is a well-formed
    announcement of routes, or the acknowledgement of one, that names the peer, a
    list of routes that comes on the link, or a new connection; what relays that
    run this code announce to each other, and the answers to it, are none. *)
Theorem link_forgotten (x : context) (u : string) (s : RelayState) (es later : list relay_event) :
  let s1 := foldl relay_step s es in
  let s2 := foldl relay_step (gossip_round x s1) later in
  (forall e, e ∈ es -> ~ sign_of_life u e) -> get_local_null_ids s1 <> ∅ ->
  (forall p, peers (federation s) !! u = Some p ->
     secs FEDERATION_PEER_TIMEOUT_SECONDS <= x_instant x - last_seen p) ->
  (forall e, e ∈ later -> ~ connects u e) ->
  peers (federation s2) !! u = None /\
  (forall m, send_to_peer u m (federation s2) = (federation s2, false)) /\
  (forall y x' other, ~ sign_of_life u (EvText y (announcement x' other))) /\
  (forall y v r raw, answers r -> reply_text r = Some raw -> ~ sign_of_life u (EvPeer y v raw)).
Proof.
  intros s1 s2 Hquiet Hmail Hold Hlater.
  assert (Hgone : peers (federation (gossip_round x s1)) !! u = None).
  { unfold gossip_round. destruct (elements (get_local_null_ids s1)) as [|n ns] eqn:En.
    { apply elements_empty_inv in En. by apply leibniz_equiv in En. }
    set (m := relay_to_json _). set (us := (map_to_list _).*1). cbn [federation set_federation].
    destruct (peers (cleanup_expired_routes _ _) !! u) as [p'|] eqn:E; [|done].
    apply cleanup_peer in E as [E Ht].
    destruct (ol_peers _ _ (sends_lose us m (federation s1)) _ _ E) as (p1 & E1 & _ & L1).
    destruct (run_ages u es s Hquiet _ E1) as (p & Ep & L). specialize (Hold p Ep). lia. }
  assert (Hnone : peers (federation s2) !! u = None) by by apply run_none.
  split_and!; [done| |apply announcement_no_sign|apply answer_no_sign]. intros m. unfold send_to_peer. by rewrite Hnone.
Qed.
End life.

(** ** A concrete link *)

#[local] Existing Instances toy_sequoia toy_base64 toy_blake2 toy_hmac toy_hex toy_aead toy_format toy_json
  link_codec link_law.
#[local] Instance life_order : HashOrder (list f64) := list_order _.

Definition five_minutes : list relay_event :=
  [EvGossip (at_second 60); EvText (at_second 60) "junk"; EvCleanup (at_second 100)].

Theorem link_forgotten_witness :
  peers (federation linked_state) !! "ws://b" <> None /\
  peers (federation (foldl relay_step (gossip_round (at_second 300) (foldl relay_step linked_state five_minutes))
    [EvGossip (at_second 360)])) !! "ws://b" = None.
Proof.
  split; [vm_compute; discriminate|].
  refine (proj1 (link_forgotten (at_second 300) "ws://b" linked_state five_minutes [EvGossip (at_second 360)] _ _ _ _)).
  - intros e He. unfold five_minutes in He.
    apply elem_of_cons in He as [->|He]; [exact id|]. apply elem_of_cons in He as [->|He].
    + intros (e & Hj & _). vm_compute in Hj. discriminate Hj.
    + apply list_elem_of_singleton in He as ->. exact id.
  - intros E. vm_compute in E. discriminate E.
  - intros p. cbv [linked_state connect_to_peer]. simpl. rewrite lookup_insert_eq. intros [= <-].
    vm_compute. discriminate.
  - intros e He. apply list_elem_of_singleton in He as ->. exact id.
Defined.
