(* ===== verification/RelayTable.v ===== *)
(** * The table of a running relay

    What happens to a message once it is in the table behind the mailboxes
    (src/relay/src/main.rs): through every event of [RelayInv], nothing but a
    request of its recipient takes it out, and nothing limits how many there
    are. *)

From S2P Require Import Prelude Text Files Primitives Concrete Json Gpg Identity RateLimit.
From S2P Require Import Mailbox RelayAuth Federation RelayState Relay RelayProps RelayLink RelayStart RelayInv.

Section table.
Context `{Sequoia} `{Base64} `{Blake2} `{Hmac} `{Hex} `{Aead} `{Format} `{RelayCodec} `{JsonCodec}.
Context `{HashOrder (list f64)}.

(** ** One request *)

Lemma text_mail x raw s :
  let s' := (Relay.handle_text x raw s).1 in
  mail s' = mail s \/ stored_by x s s' \/ removed_by_owner x s s'.
Proof.
  unfold Relay.handle_text. destruct (relay_from_json raw) as [e|e]; [|by left].
  destruct (f64_gtb _ _); [by left|].
  destruct (handle_message x e s) as [s' r] eqn:He.
  enough (Hm : mail s' = mail s \/ stored_by x s s' \/ removed_by_owner x s s') by (by destruct r).
  pose proof He as Hq. unfold handle_message in He.
  destruct (String.eqb_spec (re_type e) "relay-store"); [apply handle_store_guarded in He; tauto|].
  destruct (String.eqb_spec (re_type e) "relay-fetch"); [apply handle_fetch_guarded in He; tauto|].
  destruct (String.eqb_spec (re_type e) "relay-ack"); [apply handle_ack_guarded in He; tauto|].
  destruct (String.eqb_spec (re_type e) "relay-forward") as [E|].
  { rewrite E in He. apply handle_forward_guarded in He. tauto. }
  destruct (String.eqb_spec (re_type e) "relay-purge") as [E|].
  { rewrite E in He. apply handle_purge_guarded in He. tauto. }
  left. apply quiet_federation in Hq as [Hm _]; [exact Hm|done].
Qed.

(** In this request the owner of an identifier asks, under its signature, for
    messages to be removed. *)
Definition removal_by_owner (nid : string) (s s' : RelayState) : Prop :=
  exists fp sig time nonce,
    (exists sq, owner_proof s s' nid fp sig (ack_signing_data nid sq time nonce) (fp +:+ ":" +:+ nonce)) \/
    owner_proof s s' nid fp sig (purge_signing_data nid time nonce) ("purge:" +:+ fp +:+ ":" +:+ nonce).

(** ** What the table keeps *)

Definition keeps (nid : string) (s s' : RelayState) : Prop :=
  forall rows, db_pool s = Some rows ->
    exists rows', db_pool s' = Some rows' /\ pending nid rows `prefix_of` pending nid rows'.

Lemma keeps_same nid s s' : db_pool s' = db_pool s -> keeps nid s s'.
Proof. intros E rows Hr. exists rows. by rewrite E. Qed.

(** A statement that leaves the rows of the recipient alone. *)
Lemma keeps_rows nid ok g s s' :
  db_pool s' = on_rows ok g (db_pool s) ->
  (forall rows, List.filter (undelivered nid) (g rows) = List.filter (undelivered nid) rows) ->
  keeps nid s s'.
Proof.
  intros E Hg rows Hr. rewrite E, Hr. unfold on_rows. destruct ok; [|by exists rows].
  exists (g rows). split; [done|]. unfold pending. by rewrite Hg.
Qed.

Lemma store_keeps nid x req s : keeps nid s (store_message x req s).1.
Proof.
  intros rows Hr. unfold store_message, st_bind, st_modify, st_get, st_lift, st_guard, st_ret, st_fail, ok_or.
  change (db_pool (store_in_memory (x_secs x) req s)) with (db_pool s). rewrite Hr.
  destruct (encrypt_metadata _ _ _); [|by exists rows].
  destruct (x_db x); [|by exists rows]. cbn [fst]. unfold insert_row, set_mail. cbn [db_pool].
  change (db_pool (store_in_memory (x_secs x) req s)) with (db_pool s). rewrite Hr.
  eexists. split; [done|]. unfold pending. rewrite List.filter_app, fmap_app. by apply prefix_app_r.
Qed.

Lemma cleanup_keeps nid x s : keeps nid s (cleanup_expired x s).
Proof.
  eapply keeps_rows; [done|]. intros rows. induction rows as [|w rows IH]; [done|].
  cbn [List.filter]. destruct (undelivered nid w) eqn:E.
  - assert (r_delivered w = false) as ->.
    { unfold undelivered in E. destruct (r_delivered w); [|done]. by rewrite andb_false_r in E. }
    rewrite andb_false_r. cbn [negb List.filter]. by rewrite E, IH.
  - destruct (negb _); [|done]. cbn [List.filter]. by rewrite E.
Qed.

Lemma text_keeps nid x raw s :
  ~ removal_by_owner nid s (Relay.handle_text x raw s).1 -> keeps nid s (Relay.handle_text x raw s).1.
Proof.
  intros Hno. destruct (text_mail x raw s) as [Hm|[(req & s0 & _ & Hm & _ & Hs)|Hrem]].
  - apply keeps_same. by injection Hm.
  - intros rows Hr. rewrite <- Hs. apply store_keeps. injection Hm as _ ->. exact Hr.
  - destruct Hrem as (o & fp & sig & time & nonce & [(sq & Hown & Hm)|[Hown Hm]]);
      (destruct (decide (nid = o)) as [->|Hne]; [exfalso; apply Hno; exists fp, sig, time, nonce; eauto|]);
      apply (f_equal snd) in Hm.
    + eapply keeps_rows; [exact Hm|]. intros rows. by apply mark_delivered_other.
    + eapply keeps_rows; [exact Hm|]. intros rows. by apply purge_other.
Qed.

Definition takes_out (nid : string) (s : RelayState) (e : relay_event) : Prop :=
  match e with EvText x raw => removal_by_owner nid s (Relay.handle_text x raw s).1 | _ => False end.

Lemma step_keeps nid s e : ~ takes_out nid s e -> keeps nid s (relay_step s e).
Proof.
  intros Hno. destruct e as [x raw|now x ip|fp|x|now|x|connect x u|sent u|x u raw]; cbn [relay_step].
  - by apply text_keeps.
  - apply keeps_same. unfold admit_peer. repeat case_match; by simplify_eq.
  - by apply keeps_same.
  - apply cleanup_keeps.
  - by apply keeps_same.
  - apply keeps_same. unfold gossip_round. by case_match.
  - apply keeps_same. unfold connect_to_peer, st_bind, st_lift, st_modify. by case_match.
  - apply keeps_same. unfold pump. repeat case_match; by simplify_eq.
  - apply keeps_same. unfold peer_text. by repeat case_match.
Qed.

(** No event of a run takes messages of the recipient out. *)
Fixpoint untouched (nid : string) (s : RelayState) (es : list relay_event) : Prop :=
  match es with
  | [] => True
  | e :: es' => ~ takes_out nid s e /\ untouched nid (relay_step s e) es'
  end.

Lemma run_keeps nid es s : untouched nid s es -> keeps nid s (foldl relay_step s es).
Proof.
  revert s. induction es as [|e es IH]; intros s; [by intros _; apply keeps_same|].
  intros [He Hes] rows Hr. destruct (step_keeps nid s e He rows Hr) as (rows1 & Hr1 & Hp1).
  destruct (IH _ Hes rows1 Hr1) as (rows2 & Hr2 & Hp2). exists rows2. split; [done|]. by etrans.
Qed.

(** No message is lost, and none expires.  Through whatever requests,
    connections, links and background tasks, at whatever times and with
    whatever failures of the database, the messages that wait in the table for
    a recipient go on waiting, in the order they came, until a request is
    signed by the owner of the identifier and asks for their removal; every
    fetch hands them all out.  The hourly cleanup only removes what was
    acknowledged, so a recipient that never acknowledges, as the client of
    this program does not, is handed every message at every fetch for ever. *)
Theorem mail_waits_for_owner (nid : string) (es : list relay_event) (s : RelayState) (rows : list row) :
  db_pool s = Some rows -> untouched nid s es ->
  let s' := foldl relay_step s es in
  exists rows', db_pool s' = Some rows' /\ pending nid rows `prefix_of` pending nid rows' /\
    forall y, x_db y = true -> pending nid rows <> [] ->
      fetch_messages y nid s' ≡ₚ pending nid rows' /\ pending nid rows ⊆ fetch_messages y nid s'.
Proof.
  intros Hr Hu s'. destruct (run_keeps nid es s Hu rows Hr) as (rows' & Hr' & Hp).
  exists rows'. split_and!; [done|done|]. intros y Hy Hne.
  assert (Hne' : pending nid rows' <> []).
  { intros E. rewrite E in Hp. by apply prefix_nil_inv in Hp. }
  rewrite (fetch_rows y nid _ rows') by done. split; [apply select_rows_perm|].
  rewrite select_rows_perm. destruct Hp as [l ->]. set_solver.
Qed.

(** ** The caps of a mailbox do not hold for the table *)

(** However full the mailbox of a recipient is, in the table the accepted
    message comes to all the others. *)
Lemma table_has_no_cap x req s s' rows :
  db_pool s = Some rows -> store_message x req s = (s', Ok tt) ->
  exists rows', db_pool s' = Some rows' /\
    pending (ms_recipient_nid req) rows' =
      pending (ms_recipient_nid req) rows ++ [entry_of (x_secs x) req].
Proof.
  intros Hr Hs. destruct (store_message_rows x req s s' rows Hr Hs) as (_ & enc & ->).
  unfold insert_row, set_mail. cbn [db_pool].
  change (db_pool (store_in_memory (x_secs x) req s)) with (db_pool s). rewrite Hr.
  eexists. split; [done|]. unfold pending. rewrite List.filter_app, fmap_app. f_equal.
  cbn [List.filter]. unfold undelivered. cbn [r_recipient r_delivered]. by rewrite String.eqb_refl.
Qed.
End table.

(** ** A concrete run *)

#[local] Existing Instances toy_sequoia toy_base64 toy_blake2 toy_hmac toy_hex toy_aead toy_hkdf toy_format
  toy_json toy_relay.

#[local] Instance table_order : HashOrder (list f64) := list_order _.

(** A year later. *)
Definition year_later : context :=
  mkContext (f64_of_Z 31536100) (f64_of_Z 31536100) 31536100 31536100 0 "id" (f64_of_Z 31536100)
    (replicate 12 0) (mkLocks true true) true.

Definition year_of_events : list relay_event :=
  [EvText sample_context "relay-ping"; EvCleanup year_later; EvGossip year_later].

(** Nobody can prove anything to a relay without a certificate on file. *)
Lemma no_removal nid s s' : cert_cache s' = ∅ -> ~ removal_by_owner nid s s'.
Proof.
  intros Hc (fp & sig & time & nonce & Hp).
  assert (Hs : exists data, signed_under (cert_cache s') fp sig data).
  { destruct Hp as [(sq & _ & Hs & _)|(_ & Hs & _)]; by eexists. }
  destruct Hs as (data & armored & crt & raw & text & Hl & _). by rewrite Hc, lookup_empty in Hl.
Qed.

Theorem mail_waits_for_owner_witness :
  sample_entry "FRIEND" 1 ∈ fetch_messages year_later victim_nid (foldl relay_step victim_state year_of_events).
Proof.
  destruct (mail_waits_for_owner victim_nid year_of_events victim_state
    [mkRow victim_nid (sample_entry "FRIEND" 1) false ""]) as (rows' & _ & _ & Hf).
  - reflexivity.
  - split; [apply no_removal; vm_compute; reflexivity|]. cbn. tauto.
  - destruct (Hf year_later eq_refl) as [_ Hin]; [vm_compute; discriminate|].
    apply Hin. vm_compute. left.
Defined.
