(* ===== verification/RelayMain.v ===== *)
(** * The relay program, whole (src/relay/src/main.rs, main)

    From its command line to its shutdown: the TLS acceptor, the loop that
    accepts, the connections from admission to close, the background tasks and
    the links to peers, in whatever order they come; then the next life of the
    relay on the same host. *)

From stdpp Require Import sorting.
From S2P Require Import Prelude Text Files Primitives Concrete Json Gpg Identity RateLimit.
From S2P Require Import Mailbox RelayAuth Federation RelayState Relay RelayProps RelayLink RelayStart RelayInv RelayTable.
From S2P Require Cbnp.

(** rustls and its reader of PEM files.  A server that was built with
    [with_no_client_auth] asks for no certificate, so none comes. *)
Class Rustls := {
  certificate : Type; private_key : Type; acceptor : Type; raw_stream : Type;
  pem_certs : string -> result string (list certificate);
  pem_private_key : string -> result string (option private_key);
  no_client_auth : list certificate -> private_key -> result string acceptor;
  tls_accept : acceptor -> raw_stream -> result string (list certificate);   (* [peer_certificates] *)
  der_bytes : certificate -> bytes;
  no_client_auth_anonymous cs k a s certs :
    no_client_auth cs k = Ok a -> tls_accept a s = Ok certs -> certs = [];
}.

Section program.
Context `{Sequoia} `{Base64} `{Blake2} `{Hmac} `{Hex} `{Aead} `{Hkdf} `{Sha2} `{Format} `{RelayCodec} `{JsonCodec}.
Context `{HashOrder (list f64)} `{SetText} `{Rustls}.

(** ** TLS *)

(** Source: relay/src/main.rs:856-877, load_tls_acceptor. *)
Definition load_tls_acceptor (d : disk) (cert_path key_path : string) : result string acceptor :=
  let? cert_pem := ok_or (d !! cert_path) "read" in
  let? key_pem := ok_or (d !! key_path) "read" in
  let? certs := pem_certs cert_pem in
  let? key := pem_private_key key_pem in
  let? key := ok_or key "no private key found in key file" in
  match no_client_auth certs key with Ok a => Ok a | Err e => Err ("TLS config: " +:+ e) end.

(** Source: relay/src/main.rs:2134-2144, main. *)
Definition tls_acceptor_of (a : Args) (d : disk) : result string (option acceptor) :=
  match a_tls_cert a, a_tls_key a with
  | Some cert, Some key => let? acc := load_tls_acceptor d cert key in Ok (Some acc)
  | _, _ => Ok None
  end.

(** ** The process *)

(** A connection: let in, with its stream; talking; or ended. *)
Inductive phase : Type := Handshaking (stream : raw_stream) | Talking | Ended.

Record connection : Type := mkConnection { c_phase : phase; c_sent : list reply }.

Record process : Type := mkProcess {
  p_acceptor : option acceptor;
  p_state : RelayState;
  p_files : disk;
  p_conns : gmap nat connection;
  p_count : nat;                     (* connections accepted so far *)
  p_cover : Cbnp.CbnpSession;
  p_down : bool;
}.

Definition set_state (s : RelayState) (p : process) : process :=
  mkProcess (p_acceptor p) s (p_files p) (p_conns p) (p_count p) (p_cover p) (p_down p).
Definition set_conn (k : nat) (c : connection) (p : process) : process :=
  mkProcess (p_acceptor p) (p_state p) (p_files p) (<[k := c]> (p_conns p)) (p_count p) (p_cover p) (p_down p).

(** The session of the cover traffic. Source: relay/src/main.rs:2264-2269, main. *)
Definition cover_session (a : Args) (secret : bytes) : Cbnp.CbnpSession :=
  Cbnp.new (Cbnp.mkConfig (f64_of_Z 10) (a_cbnp_enabled a) 3) secret.

(** Up to the loop. Source: relay/src/main.rs:2104-2191, main. *)
Definition launch (o : start_io) (cover : bytes) (a : Args) (h : host) : result string (process * list string) :=
  let d := h_files h in
  let? acc := tls_acceptor_of a d in
  let tls cert key := let? _ := load_tls_acceptor d cert key in Ok tt in
  let? (s, urls) := relay_main (mkStartIo (s_home_dir o) (s_home_var o) tls (s_bind o) (s_db o) (s_random o)) a h in
  Ok (mkProcess acc s d ∅ 0 (cover_session a cover) false, urls).

(** ** What happens *)

(** [Accepted]: a stream from the listener.  [Upgraded]: the task of a
    connection gets to run; whether the websocket handshake succeeds and how a
    write of the pins ends are its surroundings.  [Framed]: a frame, or the end,
    of a connection.  The others are background tasks, links and the signal. *)
Inductive happening : Type :=
| Accepted (now : f64) (x : context) (ip : string) (stream : raw_stream)
| AcceptFailed
| Upgraded (x : context) (k : nat) (w : write_end) (answered : bool)
| Framed (x : context) (k : nat) (f : ws_frame)
| Hourly (x : context)
| Stale (now : Z)
| Round (x : context)
| Dialled (connect : string -> result string unit) (x : context) (u : string)
| Pumped (sent : list bool) (u : string)
| FromPeer (x : context) (u raw : string)
| Covered
| Interrupted.

(** A refused connection is dropped without a word.
    Source: relay/src/main.rs:2294-2309, main. *)
Definition on_accept (now : f64) (x : context) (ip : string) (stream : raw_stream) (p : process) : process :=
  let (s, ok) := admit_peer now x ip (p_state p) in
  let c := mkConnection (if ok then Handshaking stream else Ended) [] in
  mkProcess (p_acceptor p) s (p_files p) (<[p_count p := c]> (p_conns p)) (Datatypes.S (p_count p)) (p_cover p) (p_down p).

(** Source: relay/src/main.rs:1956-1962, sha256_hex. *)
Definition sha256_hex (data : bytes) : string := hex_encode (sha256 data).

(** The certificates a stream shows. Source: relay/src/main.rs:911-912, handle_connection. *)
Definition shown_certs (acc : option acceptor) (stream : raw_stream) : result string (list certificate) :=
  match acc with Some a => tls_accept a stream | None => Ok [] end.

(** TLS, the pin, the websocket, and the test whether the relay is overloaded.
    Source: relay/src/main.rs:909-940, handle_connection. *)
Definition on_upgrade (x : context) (k : nat) (w : write_end) (answered : bool) (p : process) : process :=
  match p_conns p !! k with
  | Some (mkConnection (Handshaking stream) sent) =>
      match shown_certs (p_acceptor p) stream with
      | Err _ => set_conn k (mkConnection Ended sent) p
      | Ok certs =>
          let (s, d) := match head certs with
                        | Some c => pin_certificate w (sha256_hex (der_bytes c)) (p_state p) (p_files p)
                        | None => (p_state p, p_files p)
                        end in
          let c := if negb answered then mkConnection Ended sent
                   else if overloaded s then mkConnection Ended (sent ++ [RError "relay overloaded"])
                   else mkConnection Talking sent in
          mkProcess (p_acceptor p) s d (<[k := c]> (p_conns p)) (p_count p) (p_cover p) (p_down p)
      end
  | _ => p
  end.

(** One turn of the loop of a connection. Source: relay/src/main.rs:975-1037, handle_ws_connection. *)
Definition on_frame (x : context) (k : nat) (f : ws_frame) (p : process) : process :=
  match p_conns p !! k with
  | Some (mkConnection Talking sent) =>
      let (s, sent') := Relay.serve [(x, f)] (p_state p) sent in
      let ended := match f with WClose | WError => Ended | _ => Talking end in
      set_conn k (mkConnection ended sent') (set_state s p)
  | _ => p
  end.

(** A cover packet is made, and goes nowhere: no state and no connection is
    touched. Source: relay/src/main.rs:2270-2280, main. *)
Definition on_cover (p : process) : process :=
  if Cbnp.enabled (Cbnp.config (p_cover p))
  then mkProcess (p_acceptor p) (p_state p) (p_files p) (p_conns p) (p_count p)
         (Cbnp.generate_cover_packet (p_cover p)).1 (p_down p)
  else p.

(** The loop ends, and every task with it. Source: relay/src/main.rs:2282-2289, main. *)
Definition on_interrupt (p : process) : process :=
  mkProcess (p_acceptor p) (p_state p) (p_files p) (p_conns p) (p_count p) (p_cover p) true.

(** Source: relay/src/main.rs:2192-2317, main. *)
Definition process_step (p : process) (e : happening) : process :=
  if p_down p then p else
  match e with
  | Accepted now x ip stream => on_accept now x ip stream p
  | AcceptFailed => p
  | Upgraded x k w answered => on_upgrade x k w answered p
  | Framed x k f => on_frame x k f p
  | Hourly x => set_state (cleanup_expired x (p_state p)) p
  | Stale now => set_state (drop_stale_limiters now (p_state p)) p
  | Round x => set_state (gossip_round x (p_state p)) p
  | Dialled connect x u => set_state (connect_to_peer connect x u (p_state p)).1 p
  | Pumped sent u => set_state (pump sent u (p_state p)).1 p
  | FromPeer x u raw => set_state (peer_text x u raw (p_state p)) p
  | Covered => on_cover p
  | Interrupted => on_interrupt p
  end.

(** ** Lives *)

(** A start with its arguments and surroundings, and what happens until the end. *)
Record life : Type := mkLife { l_io : start_io; l_cover : bytes; l_args : Args; l_events : list happening }.

(** The database of a life. *)
Definition life_db (l : life) : string :=
  db_path_of (l_args l) (gpg_home_of (s_home_dir (l_io l)) (s_home_var (l_io l)) (l_args l)).

(** What a life leaves on the host; a start that fails leaves it as it was. *)
Definition live (h : host) (l : life) : host :=
  match launch (l_io l) (l_cover l) (l_args l) h with
  | Err _ => h
  | Ok (p, _) =>
      let p' := foldl process_step p (l_events l) in
      left_behind (life_db l) (p_state p') (mkHost (p_files p') (h_tables h))
  end.
End program.

(** ** A process does what a relay does *)

Section props.
Context `{Sequoia} `{Base64} `{Blake2} `{Hmac} `{Hex} `{Aead} `{Hkdf} `{Sha2} `{Format} `{RelayCodec} `{JsonCodec}.
Context `{HashOrder (list f64)} `{SetText} `{Rustls}.

(** Connections show no certificate. *)
Definition anonymous (acc : option acceptor) : Prop :=
  forall stream certs, shown_certs acc stream = Ok certs -> certs = [].

Lemma launched_anonymous a d acc : tls_acceptor_of a d = Ok acc -> anonymous acc.
Proof.
  unfold tls_acceptor_of. intros E stream certs. destruct acc as [acc|]; cbn [shown_certs]; [|by intros [= <-]].
  destruct (a_tls_cert a) as [cp|], (a_tls_key a) as [kp|]; try done. unfold load_tls_acceptor in E.
  destruct (ok_or (d !! cp) _) as [cpem|]; [|done]. destruct (ok_or (d !! kp) _) as [kpem|]; [|done]. cbn [rbind] in E.
  destruct (pem_certs cpem) as [cs|]; [|done]. destruct (pem_private_key kpem) as [[key|]|]; [|done|done].
  cbn [rbind ok_or] in E. destruct (no_client_auth cs key) as [acc'|] eqn:Ea; [|done]. injection E as <-.
  by eapply no_client_auth_anonymous.
Qed.

(** What a happening is for the state of the relay. *)
Definition step_events (p : process) (e : happening) : list relay_event :=
  if p_down p then [] else
  match e with
  | Accepted now x ip _ => [EvConnection now x ip]
  | Framed x k (WText raw) =>
      match p_conns p !! k with Some (mkConnection Talking _) => [EvText x raw] | _ => [] end
  | Hourly x => [EvCleanup x]
  | Stale now => [EvLimiters now]
  | Round x => [EvGossip x]
  | Dialled connect x u => [EvConnect connect x u]
  | Pumped sent u => [EvSent sent u]
  | FromPeer x u raw => [EvPeer x u raw]
  | _ => []
  end.

Fixpoint run_events (p : process) (es : list happening) : list relay_event :=
  match es with [] => [] | e :: es' => step_events p e ++ run_events (process_step p e) es' end.

Lemma frame_state x f s sent :
  (Relay.serve [(x, f)] s sent).1 = match f with WText raw => (Relay.handle_text x raw s).1 | _ => s end.
Proof. destruct f as [raw| | | | | | |]; cbn [Relay.serve]; try done. by destruct (Relay.handle_text x raw s). Qed.

Lemma step_simulates p e :
  anonymous (p_acceptor p) ->
  let p' := process_step p e in
  p_state p' = foldl relay_step (p_state p) (step_events p e) /\
  p_acceptor p' = p_acceptor p /\ p_files p' = p_files p.
Proof.
  intros Ha p'. unfold p', process_step, step_events. destruct (p_down p); [done|].
  destruct e as [now x ip stream| |x k w ok|x k f|x|now|x|connect x u|sent u|x u raw| |]; try done.
  - unfold on_accept. cbn [foldl relay_step]. by destruct (admit_peer now x ip (p_state p)) as [s [|]].
  - unfold on_upgrade. destruct (p_conns p !! k) as [[[stream| |] sent]|]; try done.
    destruct (shown_certs (p_acceptor p) stream) as [certs|] eqn:E; [|done].
    by rewrite (Ha stream certs E).
  - unfold on_frame. pose proof (frame_state x f (p_state p)) as Hf.
    destruct (p_conns p !! k) as [[[stream| |] sent]|]; try by destruct f.
    specialize (Hf sent). destruct (Relay.serve _ _ sent) as [s sent']. cbn [fst] in Hf. subst s. by destruct f.
  - unfold on_cover. by destruct (Cbnp.enabled _).
Qed.

Lemma run_simulates es : forall p,
  anonymous (p_acceptor p) ->
  let p' := foldl process_step p es in
  p_state p' = foldl relay_step (p_state p) (run_events p es) /\ p_files p' = p_files p.
Proof.
  induction es as [|e es IH]; intros p Ha; [done|]. cbn [foldl run_events].
  destruct (step_simulates p e Ha) as (Hs & Hacc & Hf).
  destruct (IH (process_step p e)) as [Hs' Hf']; [by rewrite Hacc|].
  rewrite foldl_app, <- Hs. split; [exact Hs'|]. by rewrite Hf', Hf.
Qed.

(** Cover traffic is not sent. *)
Lemma cover_unsent p :
  let p' := process_step p Covered in p_state p' = p_state p /\ p_conns p' = p_conns p /\ p_files p' = p_files p.
Proof. unfold process_step, on_cover. destruct (p_down p); [done|]. by destruct (Cbnp.enabled _). Qed.

(** ** The start *)

Lemma launch_inv o cover a h p urls :
  launch o cover a h = Ok (p, urls) ->
  let path := db_path_of a (gpg_home_of (s_home_dir o) (s_home_var o) a) in
  anonymous (p_acceptor p) /\ p_files p = h_files h /\ mailboxes (p_state p) = ∅ /\
  db_pool (p_state p) = Some (opt_or (h_tables h !! db_url path) []) /\ relay_inv (p_state p).
Proof.
  unfold launch, relay_main. destruct (tls_acceptor_of a (h_files h)) as [acc|] eqn:Ea; [|done]. cbn [rbind s_tls s_bind].
  destruct (tls_of _ a); [|done]. cbn [rbind]. destruct (s_bind o _); [|done]. cbn [rbind].
  destruct (secret_of a (h_files h)) as [secret|]; [|done]. cbn [rbind].
  destruct (new_state _ _ _ _ _ _ _) as [s|] eqn:Es; [|done]. cbn [rbind]. intros [= <- <-].
  pose proof (new_state_relay_inv _ _ _ _ _ _ _ _ Es) as Hinv.
  destruct (new_state_inv _ _ _ _ _ _ _ _ Es) as (Hm & Hdb & _).
  split; [by eapply launched_anonymous|]. split_and!; [done|done|done|].
  apply (federation_inv _ s); [|exact Hinv]. intros u q c Hq Hc. right. exists q, c. done.
Qed.

(** The sizes of [RelayInv.relay_stays_bounded] hold of every process. *)
Lemma process_bounded o cover a h p urls es :
  launch o cover a h = Ok (p, urls) -> relay_inv (p_state (foldl process_step p es)).
Proof.
  intros Hl. destruct (launch_inv _ _ _ _ _ _ Hl) as (Ha & _ & _ & _ & Hinv).
  destruct (run_simulates es p Ha) as [-> _]. by apply relay_run_inv.
Qed.

(** However many lives: no certificate of a peer is ever pinned. *)
Lemma nothing_pinned ls h : h_files (foldl live h ls) = h_files h.
Proof.
  revert h. induction ls as [|l ls IH]; intros h; [done|]. cbn [foldl]. rewrite IH. unfold live.
  destruct (launch _ _ _ h) as [[p urls]|] eqn:E; [|done].
  destruct (launch_inv _ _ _ _ _ _ E) as (Ha & Hf & _). unfold left_behind. cbn [h_files].
  by rewrite (proj2 (run_simulates _ _ Ha)), Hf.
Qed.

(** ** Mail and restarts *)

(** In no life is there a request, signed by the owner of the identifier, to
    remove messages. *)
Fixpoint unclaimed (nid : string) (h : host) (ls : list life) : Prop :=
  match ls with
  | [] => True
  | l :: ls' =>
      match launch (l_io l) (l_cover l) (l_args l) h with
      | Ok (p, _) => untouched nid (p_state p) (run_events p (l_events l))
      | Err _ => True
      end /\ unclaimed nid (live h l) ls'
  end.

Definition rows_at (path : string) (h : host) : list row := opt_or (h_tables h !! db_url path) [].

Lemma life_keeps nid l h :
  match launch (l_io l) (l_cover l) (l_args l) h with
  | Ok (p, _) => untouched nid (p_state p) (run_events p (l_events l))
  | Err _ => True
  end ->
  pending nid (rows_at (life_db l) h) `prefix_of` pending nid (rows_at (life_db l) (live h l)).
Proof.
  unfold live. destruct (launch _ _ _ h) as [[p urls]|] eqn:E; [|done]. intros Hu.
  destruct (launch_inv _ _ _ _ _ _ E) as (Ha & _ & _ & Hdb & _).
  destruct (run_simulates (l_events l) p Ha) as [Hs _].
  destruct (run_keeps nid _ _ Hu _ Hdb) as (rows' & Hr & Hp). unfold rows_at at 2, left_behind. cbn [h_tables].
  rewrite Hs, Hr, lookup_insert_eq. exact Hp.
Qed.

Lemma lives_keep nid path ls : forall h,
  Forall (fun l => life_db l = path) ls -> unclaimed nid h ls ->
  pending nid (rows_at path h) `prefix_of` pending nid (rows_at path (foldl live h ls)).
Proof.
  induction ls as [|l ls IH]; intros h Hls Hu; [done|]. apply Forall_cons in Hls as [Hl Hls]. destruct Hu as [Hu Hus].
  etrans; [|apply IH; done]. rewrite <- Hl. by apply life_keeps.
Qed.

(** C17: mail outlives the relay.  However often the relay is started on its
    database, whether the start succeeds or not, and whatever happens in each
    of its lives, on connections, links and in the background, until it is
    interrupted or killed: all that waited for a recipient at the beginning is
    handed out by the next relay that starts, to a fetch on a working database,
    unless a request signed by the owner of the identifier removed it.  In the
    table it still comes before what came later; what is handed out, of both, is
    in the order of the sequence numbers. *)
Theorem mail_outlives_relay (nid path : string) (ls : list life) (last : life) (h : host) (p : process)
    (urls : list string) (y : context) :
  Forall (fun l => life_db l = path) (ls ++ [last]) -> unclaimed nid h ls ->
  launch (l_io last) (l_cover last) (l_args last) (foldl live h ls) = Ok (p, urls) -> x_db y = true ->
  exists later, pending nid (rows_at path (foldl live h ls)) = pending nid (rows_at path h) ++ later /\
    fetch_messages y nid (p_state p) ≡ₚ pending nid (rows_at path h) ++ later /\
    StronglySorted (fun a b => Mailbox.seq a <= Mailbox.seq b) (fetch_messages y nid (p_state p)).
Proof.
  intros Hls Hu Hl Hy. apply Forall_app in Hls as [Hls Hlast]. apply Forall_cons in Hlast as [Hlast _].
  destruct (lives_keep nid path ls h Hls Hu) as [later Hlater]. exists later. split; [exact Hlater|]. rewrite <- Hlater.
  destruct (launch_inv _ _ _ _ _ _ Hl) as (_ & _ & Hm & Hdb & _).
  change (db_path_of _ _) with (life_db last) in Hdb. rewrite Hlast in Hdb. fold (rows_at path (foldl live h ls)) in Hdb.
  assert (Ef : fetch_messages y nid (p_state p) = select_rows nid (rows_at path (foldl live h ls))).
  { unfold fetch_messages. rewrite Hdb, Hy, Hm, lookup_empty.
    by destruct (select_rows nid (rows_at path (foldl live h ls))). }
  rewrite Ef. split; [apply select_rows_perm|apply select_rows_sorted].
Qed.
End props.

(** ** Two lives *)

#[local] Existing Instances toy_sequoia toy_base64 toy_blake2 toy_hmac toy_hex toy_aead toy_hkdf toy_sha2 toy_format
  toy_json toy_relay toy_set_text.

#[local] Instance main_order : HashOrder (list f64) := list_order _.

(** A file of certificates is one certificate, a key file the key. *)
#[local] Instance toy_rustls : Rustls.
Proof.
  refine {| certificate := string; private_key := string; acceptor := string; raw_stream := string;
            pem_certs := fun s => Ok [s]; pem_private_key := fun s => Ok (Some s);
            no_client_auth := fun _ k => Ok k; tls_accept := fun _ _ => Ok []; der_bytes := str_bytes |}.
  by intros cs k a s certs _ [= <-].
Defined.

Definition calm_start : start_io := mkStartIo (Some "/home") None (fun _ _ => Ok tt) (fun _ => Ok tt) calm_db (replicate 32 1).
Definition default_args : Args :=
  mkArgs "0.0.0.0" 8080 [] None None None None (Some "/gpg") None None None true false.

(** A client comes, says nothing of use and stays for a year. *)
Definition dull_life : life :=
  mkLife calm_start [5] default_args
    [Accepted (f64_of_Z 1) sample_context "10.0.0.1" "stream"; Upgraded sample_context 0 Written true;
     Framed sample_context 0 (WText "hello?"); Covered; Hourly year_later; Framed sample_context 0 WClose; Interrupted].

Definition mail_host : host :=
  mkHost ∅ {[db_url "/gpg/mailbox.db" := [mkRow victim_nid (sample_entry "FRIEND" 1) false ""]]}.

Theorem mail_outlives_relay_witness :
  exists p urls, launch calm_start [5] default_args (foldl live mail_host [dull_life; dull_life]) = Ok (p, urls) /\
    sample_entry "FRIEND" 1 ∈ fetch_messages year_later victim_nid (p_state p).
Proof.
  destruct (launch calm_start [5] default_args (foldl live mail_host [dull_life; dull_life])) as [[p urls]|e] eqn:E;
    [|apply (f_equal is_ok) in E; vm_compute in E; discriminate E].
  exists p, urls. split; [reflexivity|].
  destruct (mail_outlives_relay victim_nid "/gpg/mailbox.db" [dull_life; dull_life] dull_life mail_host p urls year_later)
    as (later & _ & Hf & _).
  - repeat (apply Forall_cons; split; [reflexivity|]). constructor.
  - split; [|split; [|exact I]]; (split; [exact id|]); (split; [apply no_removal; vm_compute; reflexivity|]);
      split; [exact id|exact I|exact id|exact I].
  - exact E.
  - reflexivity.
  - rewrite Hf. vm_compute. left.
Defined.
