(* ===== verification/RelayThreads.v ===== *)
(** * The relay, section by section (src/relay/src/main.rs)

    The handlers of [Relay] again, as the code runs them: between any two locks
    or statements of a handler those of other connections and of the background
    tasks may come.  The lock of the mailboxes is held over the statement of a
    store and of the cleanup, and while a connection is refused; an
    acknowledgement and a purge give it back first.  The lock of the federation
    is held while the answers to [peer-auth], to [who-has] from the routes, and
    to a [relay-forward] of a peer that is not authenticated are sent.  Every
    other lock guards one section.  A handler that runs alone is the one of
    [Relay] ([job_alone]). *)

From S2P Require Import Prelude Text Files Primitives Concrete Json Gpg Identity RateLimit Threads.
From S2P Require Import Mailbox RelayAuth Federation RelayState Relay RelayProps RelayLink RelayStart RelayInv RelayTable.

(** The locks that are held over more than one section.
    Source: relay/src/main.rs:416-442, RelayState. *)
Inductive lock : Type := Mailboxes | Federation.

#[global] Instance lock_eq_dec : EqDecision lock.
Proof. intros a b. destruct a, b; first [by left|by right]. Defined.

Section relay.
Context `{Sequoia} `{Base64} `{Blake2} `{Hmac} `{Hex} `{Aead} `{Format} `{RelayCodec} `{JsonCodec}.
Context `{HashOrder (list f64)}.

Abbreviation section A := (prog lock RelayState string A).

(** ** Checks *)

(** The certificate is filed under one lock, looked up under another.
    Source: relay/src/main.rs:1869-1922, verify_gpg_detached. *)
Definition s_check_gpg (x : context) (sig data fp provided : string) : section bool :=
  if str_is_empty provided then atom (check_gpg x sig data fp "")
  else if negb (can_write (x_locks x)) then ret false
  else let* _ := change_to (fun s => set_certs (pin_cert fp provided (cert_cache s)) s) in
       atom (check_gpg x sig data fp "").

(** Source: relay/src/main.rs:597-623, RelayState::check_and_record_nonce_str. *)
Definition s_check_nonce (x : context) (fp nonce : string) : section bool := atom (check_nonce x fp nonce).

(** Source: relay/src/main.rs:625-672, RelayState::verify_store_signature. *)
Definition s_verify_store_signature (x : context) (r : MailboxStoreRequest) : section unit :=
  let* _ := guard (negb (str_is_empty (ms_sender_sig r))) "missing sender signature" in
  if negb (str_is_empty (ms_sealed_sender r)) then
    guard (String.eqb (ms_sender_nid r) "anonymous") "sealed sender requires sender_nid='anonymous'"
  else
    let* verified := s_check_gpg x (ms_sender_sig r) (store_signing_data r) (ms_sender_fp r) (ms_sender_cert r) in
    guard verified "sender signature verification failed".

(** The INSERT of a store. Source: relay/src/main.rs:709-732, RelayState::store_message. *)
Definition insert_statement (x : context) (req : MailboxStoreRequest) : st RelayState string unit :=
  do s <- st_get;
  match db_pool s with
  | None => st_ret tt
  | Some _ =>
      do enc <- st_lift (ok_or (encrypt_metadata (x_iv x)
                   (ms_sender_nid req +:+ String (Ascii.ascii_of_nat 10) (ms_sender_fp req))
                   (metadata_key s)) "panic: AES-256-GCM encrypt");
      do! st_guard (x_db x) "db store error";
      st_modify (insert_row (mkRow (ms_recipient_nid req) (entry_of (x_secs x) req) false enc))
  end.

(** Both under the lock of the mailboxes.
    Source: relay/src/main.rs:693-735, RelayState::store_message. *)
Definition s_store_message (x : context) (req : MailboxStoreRequest) : section unit :=
  locked Mailboxes Writing (let* _ := change_to (store_in_memory (x_secs x) req) in atom (insert_statement x req)).

(** Source: relay/src/main.rs:1088-1099, handle_message. *)
Definition s_verify_and_store (x : context) (r : MailboxStoreRequest) : section unit :=
  let* _ := s_verify_store_signature x r in
  let* _ := Ret (check_timestamp_freshness (x_now x) (ms_timestamp r)) in
  let* fresh := s_check_nonce x (ms_sender_fp r) (ms_nonce r) in
  let* _ := guard fresh replay_detected in
  s_store_message x r.

(** Source: relay/src/main.rs:1116-1140, handle_message. *)
Definition s_authorize_owner (x : context) (what nid fp sig data cert nonce_key : string) (time : f64) : section unit :=
  let* _ := Ret (check_timestamp_freshness (x_now x) time) in
  let* _ := guard (String.eqb (compute_null_id fp) nid)
              (what +:+ " denied: null_id does not match requester fingerprint") in
  let* verified := s_check_gpg x sig data fp cert in
  let* _ := guard verified (what +:+ " denied: GPG signature verification failed") in
  let* fresh := s_check_nonce x fp nonce_key in
  guard fresh replay_detected.

(** ** Reading and removing *)

(** The SELECT; a failure reads nothing. Source: relay/src/main.rs:740-764, RelayState::fetch_messages. *)
Definition select_statement (x : context) (nid : string) (s : RelayState) : list MailboxEntry :=
  match db_pool s with Some rows => if x_db x then select_rows nid rows else [] | None => [] end.

Definition fetch_in_memory (x : context) (nid : string) (s : RelayState) : list MailboxEntry :=
  match mailboxes s !! nid with Some mb => Mailbox.fetch (x_secs x) mb | None => [] end.

(** Source: relay/src/main.rs:737-772, RelayState::fetch_messages. *)
Definition s_fetch_messages (x : context) (nid : string) : section (list MailboxEntry) :=
  let* es := ask (select_statement x nid) in
  match es with [] => locked Mailboxes Reading (ask (fetch_in_memory x nid)) | _ => ret es end.

(** Source: relay/src/main.rs:774-794, RelayState::ack_message. *)
Definition s_ack_message (x : context) (nid : string) (sq : Z) : section unit :=
  let* _ := locked Mailboxes Writing (change_to (fun s => set_mail (ack_in_memory nid sq (mailboxes s)) (db_pool s) s)) in
  change_to (fun s => set_mail (mailboxes s) (on_rows (x_db x) (map (mark_delivered nid sq)) (db_pool s)) s).

(** Source: relay/src/main.rs:796-816, RelayState::purge_all_messages. *)
Definition s_purge_all_messages (x : context) (nid : string) : section unit :=
  let* _ := locked Mailboxes Writing (change_to (fun s => set_mail (delete nid (mailboxes s)) (db_pool s) s)) in
  change_to (fun s => set_mail (mailboxes s)
    (on_rows (x_db x) (List.filter (fun w => negb (String.eqb (r_recipient w) nid))) (db_pool s)) s).

Definition expire_in_memory (x : context) (s : RelayState) : RelayState :=
  set_mail (filter (fun km => Mailbox.entries km.2 <> []) (Mailbox.expire (x_secs x) <$> mailboxes s)) (db_pool s) s.

Definition delete_expired (x : context) (s : RelayState) : RelayState :=
  let cutoff := i64 (u64 (x_secs x - MAILBOX_TTL_SECONDS)) in
  set_mail (mailboxes s)
    (on_rows (x_db x) (List.filter (fun w => negb ((stored_at (r_entry w) <? cutoff) && r_delivered w))) (db_pool s)) s.

(** Both under the lock of the mailboxes.
    Source: relay/src/main.rs:818-840, RelayState::cleanup_expired. *)
Definition s_cleanup_expired (x : context) : section unit :=
  locked Mailboxes Writing (let* _ := change_to (expire_in_memory x) in change_to (delete_expired x)).

(** Source: relay/src/main.rs:842-846, RelayState::get_local_null_ids. *)
Definition s_get_local_null_ids : section (gset string) := locked Mailboxes Reading (ask get_local_null_ids).

(** What is read of the federation at once, and done to it.
    Source: relay/src/main.rs:1274-1274, handle_message. *)
Definition s_our_url : section string := locked Federation Reading (ask our_relay_url).

Definition in_federation (f : RelayState -> RelayState) : section unit := locked Federation Writing (change_to f).

(** ** The requests *)

(** Source: relay/src/main.rs:1080-1102, handle_message. *)
Definition s_store (x : context) (p : value) : section (list reply) :=
  let* req := Ret (decode "store request" (store_request_of p)) in
  let* _ := s_verify_and_store x req in
  answer [ROk None].

(** Source: relay/src/main.rs:1103-1163, handle_message. *)
Definition s_fetch (x : context) (p : value) : section (list reply) :=
  let* req := Ret (decode "fetch request" (fetch_request_of p)) in
  let nid := mf_recipient_nid req in
  let fp := mf_requester_fp req in
  let* _ := guard (negb (str_is_empty (mf_sender_sig req) || str_is_empty fp))
              "fetch request missing sender signature" in
  let* _ := s_authorize_owner x "fetch" nid fp (mf_sender_sig req) (fetch_signing_data req)
              (mf_sender_cert req) (fp +:+ ":" +:+ mf_nonce req) (mf_timestamp req) in
  let* _ := atom (require_hmac nid (mf_auth_hmac req) "HMAC authentication failed") in
  let* es := s_fetch_messages x nid in
  answer [ROk (Some (fetch_value es))].

(** Source: relay/src/main.rs:1164-1238, handle_message. *)
Definition s_ack (x : context) (p : value) : section (list reply) :=
  let nid := str_field p "recipient_nid" in
  let sq := i64_field p "seq" 0 in
  let sig := str_field p "sender_sig" in
  let fp := str_field p "requester_fp" in
  let time := f64_field p "timestamp" (f64_of_Z 0) in
  let nonce := str_field p "nonce" in
  let* _ := guard (negb (str_is_empty sig || str_is_empty fp)) "ack request missing sender signature" in
  let* _ := s_authorize_owner x "ack" nid fp sig (ack_signing_data nid sq time nonce)
              (str_field p "sender_cert") (fp +:+ ":" +:+ nonce) time in
  let* _ := s_ack_message x nid sq in
  answer [ROk None].

(** Source: relay/src/main.rs:1562-1643, handle_message. *)
Definition s_purge (x : context) (p : value) : section (list reply) :=
  let nid := str_field p "recipient_nid" in
  let fp := str_field p "requester_fp" in
  let sig := str_field p "sender_sig" in
  let time := f64_field p "timestamp" (f64_of_Z 0) in
  let nonce := str_field p "nonce" in
  let* _ := atom (require_hmac ("relay-purge:" +:+ nid +:+ ":" +:+ fmt_f64 time) (str_field p "auth_hmac")
                    "purge denied: HMAC verification failed") in
  let* _ := guard (negb (str_is_empty fp || str_is_empty sig))
              "purge: missing requester fingerprint or signature" in
  let* _ := s_authorize_owner x "purge" nid fp sig (purge_signing_data nid time nonce) ""
              ("purge:" +:+ fp +:+ ":" +:+ nonce) time in
  let* _ := s_purge_all_messages x nid in
  answer [ROk None].

(** ** Federation *)

(** Source: relay/src/main.rs:1254-1295, handle_message. *)
Definition s_route_advertise (x : context) (p : value) : section (list reply) :=
  let* _ := Ret (match route_count_of p with
                 | Ok _ => Ok tt | Err e => Err ("invalid route-advertise: " +:+ e) end) in
  let* _ := in_federation (learn_routes x p) in
  let* local := s_get_local_null_ids in
  let* u := s_our_url in
  let nids := elements local in
  answer [envelope x "route-advertise-ack"
    (VObject [("relay_url", VString u); ("route_count", json_int (zlen nids));
              ("null_ids", VArray (VString <$> nids))])].

(** A route is sent while the lock is held.
    Source: relay/src/main.rs:1309-1354, handle_message. *)
Definition s_who_has (x : context) (p : value) : section (list reply) :=
  let* nid := Ret (decode "who-has" (who_has_of p)) in
  let* local := s_get_local_null_ids in
  if bool_decide (nid ∈ local) then
    let* u := s_our_url in answer [route_found x nid u]
  else
    locked Federation Reading
      (let* route := ask (fun s => lookup_route nid (federation s)) in
       match route with Some u => answer [route_found x nid u] | None => ret [] end).

(** So is the reply to a challenge.
    Source: relay/src/main.rs:1355-1388, handle_message. *)
Definition s_peer_auth (x : context) (p : value) : section (list reply) :=
  let* _ := Ret (decode "peer-auth" (peer_auth_of p)) in
  locked Federation Writing
    (let* r := atom (handle_peer_auth x p) in match r with [] => ret [] | _ => answer r end).

(** Source: relay/src/main.rs:1389-1416, handle_message. *)
Definition s_peer_auth_reply (x : context) (p : value) : section (list reply) :=
  let* _ := Ret (decode "peer-auth-reply" (peer_auth_reply_of p)) in
  locked Federation Writing (atom (handle_peer_auth_reply x p)).

(** The secret and the mode do not change; the peer, the name and the hops are
    looked at one after the other, and a peer that is not authenticated is
    refused under the lock. Source: relay/src/main.rs:1417-1561, handle_message. *)
Definition s_forward (x : context) (p : value) : section (list reply) :=
  let* relays := ask allow_relay in
  if negb relays then
    answer [forward_ack x (Some "relay does not accept transit forwarding (edge mode)")]
  else
    let* f := Ret (decode "relay-forward" (forward_of p)) in
    let* refused := locked Federation Reading
      (let* refused := ask (fun s => source_refused f (federation s)) in
       if (refused : bool) then
         answer (Some [forward_ack x (Some "peer not authenticated — HMAC challenge-response required")])
       else ret None) in
    match refused with
    | Some r => ret r
    | None =>
        let* u := s_our_url in
        if bool_decide (u ∈ rf_via f) then answer [forward_ack x (Some "loop detected")]
        else if FEDERATION_MAX_RELAY_HOPS <=? rf_hop_count f then
          answer [forward_ack x (Some "max hop count exceeded")]
        else
          let* _ := s_verify_and_store x (inner_request f) in
          answer [forward_ack x None]
    end.

(** The queue of a peer is behind a lock for reading.
    Source: relay/src/main.rs:1699-1699, handle_message. *)
Definition s_send_to_peer (u m : string) : section unit :=
  locked Federation Reading (change_to (fun s => set_federation (send_to_peer u m (federation s)).1 s)).

(** Source: relay/src/main.rs:1644-1706, handle_message. *)
Definition s_onion (x : context) (p : value) : section (list reply) :=
  let exit_url := str_field p "exit_relay_url" in
  let ciphertext := str_field p "ciphertext" in
  let* _ := guard (negb (str_is_empty exit_url || str_is_empty ciphertext))
              "onion-v1: missing exit_relay_url or ciphertext" in
  let* forward := locked Federation Reading (ask (onion_forward x ciphertext)) in
  let m := relay_to_json (mkRelayEnvelope "relay-forward" (forward_value forward) (x_reply_id x) (x_reply_now x)) in
  let* _ := s_send_to_peer exit_url m in
  answer [ROk None].

(** Source: relay/src/main.rs:1074-1709, handle_message. *)
Definition s_message (x : context) (e : RelayEnvelope) : section (list reply) :=
  let t := re_type e in
  let p := re_payload e in
  if String.eqb t "relay-store" then s_store x p
  else if String.eqb t "relay-fetch" then s_fetch x p
  else if String.eqb t "relay-ack" then s_ack x p
  else if String.eqb t "relay-ping" then answer [envelope x "relay-pong" (VObject [])]
  else if String.eqb t "route-advertise" then s_route_advertise x p
  else if String.eqb t "route-advertise-ack" then let* _ := in_federation (learn_routes x p) in ret []
  else if String.eqb t "who-has" then s_who_has x p
  else if String.eqb t "peer-auth" then s_peer_auth x p
  else if String.eqb t "peer-auth-reply" then s_peer_auth_reply x p
  else if String.eqb t "relay-forward" then s_forward x p
  else if String.eqb t "relay-purge" then s_purge x p
  else if String.eqb t "onion-v1" then s_onion x p
  else fail ("unknown message type: " +:+ t).

(** ** Connections and tasks *)

(** Source: relay/src/main.rs:979-1004, handle_ws_connection. *)
Definition s_text (x : context) (raw : string) : section (list reply) :=
  match relay_from_json raw with
  | Err e => answer [RError ("invalid JSON: " +:+ e)]
  | Ok e =>
      if f64_gtb (f64_abs (f64_sub (x_env_now x) (re_ts e))) (f64_of_Z STORE_TIMESTAMP_TOLERANCE_SECS)
      then answer [RError ("envelope timestamp out of range (now=" +:+ fmt_f64 (x_env_now x)
                        +:+ ", ts=" +:+ fmt_f64 (re_ts e) +:+ ")")]
      else after (s_message x e) (fun r => match r with Ok rs => ret rs | Err er => answer [RError er] end)
  end.

(** The frames of a connection come one after the other; in the end it is closed.
    Source: relay/src/main.rs:973-1042, handle_ws_connection. *)
Fixpoint s_serve (fs : list (context * ws_frame)) (sent : list reply) : section (list reply) :=
  match fs with
  | [] => answer sent
  | (x, WText raw) :: fs' => let* r := s_text x raw in s_serve fs' (sent ++ r)
  | (_, WPing) :: fs' => Send (s_serve fs' (sent ++ [RPong]))
  | (_, WBinary) :: fs' => Send (s_serve fs' (sent ++ [RError "binary messages not supported"]))
  | (_, WTick) :: fs' => Send (s_serve fs' sent)
  | (_, (WPong | WFrame)) :: fs' => s_serve fs' sent
  | (_, (WClose | WError)) :: _ => answer sent
  end.

(** A connection that is refused is told so, and closed, while the lock is held.
    Source: relay/src/main.rs:949-1042, handle_ws_connection. *)
Definition s_connection (fs : list (context * ws_frame)) : section (list reply) :=
  let* full := locked Mailboxes Reading
    (let* full := ask overloaded in if (full : bool) then Send (answer true) else ret false) in
  if (full : bool) then ret [RError "relay overloaded"] else s_serve fs [].

Fixpoint s_send_all (m : string) (us : list string) : section unit :=
  match us with
  | [] => ret tt
  | u :: us' => let* _ := s_send_to_peer u m in s_send_all m us'
  end.

(** Source: relay/src/main.rs:1786-1835, gossip_task. *)
Definition s_gossip (x : context) : section (list reply) :=
  let* local := s_get_local_null_ids in
  match elements local with
  | [] => ret []
  | nids =>
      let* u := s_our_url in
      let m := relay_to_json (mkRelayEnvelope "route-advertise"
                 (VObject [("relay_url", VString u); ("null_ids", VArray (VString <$> nids))])
                 (x_reply_id x) (x_reply_now x)) in
      let* us := locked Federation Reading (ask (fun s => (map_to_list (peers (federation s))).*1)) in
      let* _ := s_send_all m us in
      let* _ := in_federation (fun s => set_federation (cleanup_expired_routes (x_instant x) (federation s)) s) in
      ret []
  end.

(** What is read from a peer waits for the lock if it is to be written.
    Source: relay/src/main.rs:1757-1781, connect_to_peer. *)
Definition s_peer_text (x : context) (u raw : string) : section unit :=
  match relay_from_json raw with
  | Ok e => if String.eqb (re_type e) "route-advertise" then
              match get (re_payload e) "null_ids" ≫= as_array with
              | Some _ => in_federation (peer_text x u raw)
              | None => ret tt
              end
            else ret tt
  | Err _ => ret tt
  end.

(** Everything the relay runs: connections that were let in, and the rest of
    [relay_event]. *)
Inductive job : Type := Serve (fs : list (context * ws_frame)) | Task (e : relay_event).

Definition s_task (e : relay_event) : section (list reply) :=
  match e with
  | EvText x raw => s_text x raw
  | EvCleanup x => let* _ := s_cleanup_expired x in ret []
  | EvGossip x => s_gossip x
  | EvConnect connect x u =>
      let* _ := (if is_ok (connect (u +:+ "/federation")) then in_federation (fun s => relay_step s e) else ret tt) in
      ret []
  | EvPeer x u raw => let* _ := s_peer_text x u raw in ret []
  | _ => let* _ := change_to (fun s => relay_step s e) in ret []
  end.

Definition s_job (j : job) : section (list reply) :=
  match j with Serve fs => s_connection fs | Task e => s_task e end.

(** The same, at once. *)
Definition run_job (j : job) (s : RelayState) : RelayState * list reply :=
  match j with
  | Serve fs => handle_ws_connection fs s
  | Task e => (relay_step s e, match e with EvText x raw => (Relay.handle_text x raw s).2 | _ => [] end)
  end.

(** ** A handler that runs alone *)

Lemma same_gpg x sig data fp provided : same (s_check_gpg x sig data fp provided) (check_gpg x sig data fp provided).
Proof.
  intros s. unfold s_check_gpg. destruct (str_is_empty provided) eqn:Ee.
  { rewrite alone_atom. by destruct provided. }
  unfold check_gpg, verify_gpg_detached. rewrite Ee. destruct (can_write (x_locks x)); cbn [negb].
  - rewrite alone_then. unfold change_to. unfold st_bind at 1. rewrite alone_atom. unfold st_modify at 1.
    rewrite alone_atom. unfold check_gpg, verify_gpg_detached. cbn [str_is_empty].
    unfold st_bind, st_guard, st_modify, st_get, st_lift, st_ret, st_fail. cbn [cert_cache set_certs].
    by repeat case_match; simplify_eq.
  - unfold st_bind, st_guard, st_fail. by destruct s.
Qed.

Lemma same_store_message x req : same (s_store_message x req) (store_message x req).
Proof. apply same_locked. change (store_message x req) with (st_bind (st_modify (store_in_memory (x_secs x) req)) (fun _ => insert_statement x req)). same. Qed.

Lemma same_fetch_messages x nid s : alone (s_fetch_messages x nid) s = (s, Ok (fetch_messages x nid s)).
Proof.
  unfold s_fetch_messages. rewrite alone_ask. unfold ask.
  unfold fetch_messages, select_statement. fold (fetch_in_memory x nid s).
  assert (Em : alone (locked Mailboxes Reading (atom (fun s0 => (s0, Ok (fetch_in_memory x nid s0))))) s =
               (s, Ok (E := string) (fetch_in_memory x nid s))) by (by rewrite alone_locked, alone_atom).
  destruct (db_pool s) as [rows|]; [|exact Em]. destruct (x_db x); [|exact Em].
  by destruct (select_rows nid rows).
Qed.

Lemma same_ack_message x nid sq : same (s_ack_message x nid sq) (st_modify (ack_message x nid sq)).
Proof. done. Qed.
Lemma same_purge_messages x nid : same (s_purge_all_messages x nid) (st_modify (purge_all_messages x nid)).
Proof. done. Qed.
Lemma same_cleanup x : same (s_cleanup_expired x) (st_modify (cleanup_expired x)).
Proof. done. Qed.

#[local] Hint Resolve same_gpg same_store_message same_ack_message same_purge_messages same_cleanup : same.

Lemma same_verify_store_signature x r : same (s_verify_store_signature x r) (verify_store_signature x r).
Proof. unfold s_verify_store_signature, verify_store_signature. same. Qed.
#[local] Hint Resolve same_verify_store_signature : same.
Lemma same_verify_and_store x r : same (s_verify_and_store x r) (verify_and_store x r).
Proof. unfold s_verify_and_store, verify_and_store, s_check_nonce. same. Qed.
Lemma same_authorize x what nid fp sig data cert key time :
  same (s_authorize_owner x what nid fp sig data cert key time) (authorize_owner x what nid fp sig data cert key time).
Proof. unfold s_authorize_owner, authorize_owner, s_check_nonce. same. Qed.
#[local] Hint Resolve same_verify_and_store same_authorize : same.

Lemma same_fetch x p : same (s_fetch x p) (handle_fetch x p).
Proof.
  unfold s_fetch, handle_fetch. apply same_then; [same|intros req]. cbv zeta.
  apply same_then; [same|intros _]. apply same_then; [same|intros _]. apply same_then; [same|intros _].
  intros s. rewrite alone_then. unfold st_bind. by rewrite same_fetch_messages.
Qed.

Lemma same_local_ids {B} (k : gset string -> section B) m :
  (forall s, alone (k (get_local_null_ids s)) s = m s) -> same (then_ s_get_local_null_ids k) m.
Proof.
  intros Hk s. rewrite alone_then. unfold s_get_local_null_ids, st_bind, ask. rewrite alone_locked, alone_atom. apply Hk.
Qed.

Lemma alone_our_url {B} (k : string -> section B) s : alone (then_ s_our_url k) s = alone (k (our_relay_url s)) s.
Proof. rewrite alone_then. unfold st_bind, s_our_url, ask. by rewrite alone_locked, alone_atom. Qed.

Lemma same_route_advertise x p : same (s_route_advertise x p) (handle_route_advertise x p).
Proof.
  unfold s_route_advertise, handle_route_advertise. apply same_then; [same|intros _].
  apply same_then; [apply same_locked; same|intros _]. apply same_local_ids. intros s. by rewrite alone_our_url.
Qed.

Lemma same_who_has x p : same (s_who_has x p) (handle_who_has x p).
Proof.
  unfold s_who_has, handle_who_has. apply same_then; [same|intros nid]. apply same_local_ids. intros s.
  unfold st_bind, st_get. destruct (bool_decide _); [by rewrite alone_our_url|].
  rewrite alone_locked, alone_ask. by destruct (lookup_route nid (federation s)).
Qed.

(** What came as the decoded payload is decoded again. *)
Lemma same_peer_auth x p : same (s_peer_auth x p) (handle_peer_auth x p).
Proof.
  intros s. unfold s_peer_auth. rewrite alone_then. unfold st_bind. cbn [alone].
  destruct (decode _ _) as [a|e] eqn:Ed.
  - rewrite alone_locked, alone_then. unfold st_bind. rewrite alone_atom.
    by destruct (handle_peer_auth x p s) as [s' [[|r rs]|er]].
  - unfold handle_peer_auth, st_bind, st_lift. by rewrite Ed.
Qed.

Lemma same_peer_auth_reply x p : same (s_peer_auth_reply x p) (handle_peer_auth_reply x p).
Proof.
  intros s. unfold s_peer_auth_reply. rewrite alone_then. unfold st_bind. cbn [alone].
  destruct (decode _ _) as [a|e] eqn:Ed; [by rewrite alone_locked, alone_atom|].
  unfold handle_peer_auth_reply, st_bind, st_lift. by rewrite Ed.
Qed.

Lemma same_forward x p : same (s_forward x p) (handle_forward x p).
Proof.
  unfold s_forward, handle_forward. apply same_ask. intros s. unfold st_bind at 1, st_get.
  destruct (allow_relay s); cbn [negb]; [|done]. rewrite alone_then. unfold st_bind, st_lift. cbn [alone].
  destruct (decode _ _) as [f|e]; [|done]. rewrite alone_then. unfold st_bind. rewrite alone_locked, alone_ask.
  unfold forward_refusal. destruct (source_refused _ _); [done|]. cbn [alone ret]. rewrite alone_our_url.
  destruct (bool_decide _); [done|]. destruct (_ <=? _); [done|].
  rewrite alone_then. unfold st_bind. rewrite same_verify_and_store.
  by destruct (verify_and_store x (inner_request f) s) as [s' [|]].
Qed.

Lemma same_onion x p : same (s_onion x p) (handle_onion x p).
Proof.
  unfold s_onion, handle_onion. cbv zeta. apply same_then; [same|intros _]. intros s.
  rewrite alone_then. unfold st_bind at 1, st_get. unfold ask. by rewrite alone_locked, alone_atom.
Qed.

Lemma same_in_federation f : same (in_federation f) (st_modify f).
Proof. apply same_locked, same_change. Qed.

#[local] Hint Resolve same_fetch same_route_advertise same_who_has same_forward same_onion same_in_federation
  same_peer_auth same_peer_auth_reply : same.

Lemma same_message x e : same (s_message x e) (handle_message x e).
Proof.
  unfold s_message, handle_message, s_store, handle_store, s_ack, handle_ack, s_purge, handle_purge, handle_ping,
    handle_route_ack. same.
Qed.

Definition all_well {A} (sr : RelayState * A) : RelayState * result string A := (sr.1, Ok sr.2).

Lemma alone_text x raw s : alone (s_text x raw) s = all_well (Relay.handle_text x raw s).
Proof.
  unfold s_text, Relay.handle_text. destruct (relay_from_json raw) as [e|e]; [|done].
  destruct (f64_gtb _ _); [done|]. rewrite alone_after, same_message.
  by destruct (handle_message x e s) as [s' [rs|er]].
Qed.

Lemma alone_serve fs : forall sent s, alone (s_serve fs sent) s = all_well (Relay.serve fs s sent).
Proof.
  induction fs as [|[x f] fs IH]; intros sent s; [done|].
  destruct f as [raw| | | | | | |]; cbn [s_serve Relay.serve]; try apply IH; try done.
  rewrite alone_then. unfold st_bind. rewrite alone_text.
  destruct (Relay.handle_text x raw s) as [s' r]. apply IH.
Qed.

Lemma alone_send_all m us : forall s,
  alone (s_send_all m us) s =
    (set_federation (foldl (fun f u => (send_to_peer u m f).1) (federation s) us) s, Ok tt).
Proof.
  induction us as [|u us IH]; intros s; [by destruct s|]. cbn [s_send_all foldl].
  rewrite alone_then. unfold st_bind, s_send_to_peer. rewrite alone_locked. unfold change_to. rewrite alone_atom.
  unfold st_modify. by rewrite IH.
Qed.

Lemma alone_gossip x s : alone (s_gossip x) s = (gossip_round x s, Ok []).
Proof.
  unfold s_gossip, gossip_round. rewrite alone_then. unfold s_get_local_null_ids, st_bind at 1, ask at 1.
  rewrite alone_locked, alone_atom. destruct (elements (get_local_null_ids s)) as [|n nids]; [done|].
  rewrite alone_our_url. cbv zeta. rewrite alone_then. unfold st_bind at 1. rewrite alone_locked. unfold ask at 1.
  rewrite alone_atom, alone_then. unfold st_bind at 1. by rewrite alone_send_all.
Qed.

Lemma alone_peer_text x u raw s : alone (s_peer_text x u raw) s = (peer_text x u raw s, Ok tt).
Proof.
  unfold s_peer_text. destruct (relay_from_json raw) as [e|e] eqn:Ee; [|unfold peer_text; by rewrite Ee].
  destruct (String.eqb _ _) eqn:Et; [|unfold peer_text; by rewrite Ee, Et].
  destruct (get _ _ ≫= as_array) eqn:En; [by rewrite same_in_federation|unfold peer_text; by rewrite Ee, Et, En].
Qed.

(** A job that nobody comes between does what [Relay] and [RelayInv] say it does
    at once: it ends in the same state with the same replies. *)
Theorem job_alone (j : job) (s : RelayState) :
  alone (s_job j) s = ((run_job j s).1, Ok (run_job j s).2).
Proof.
  destruct j as [fs|e].
  - cbn [s_job run_job]. unfold s_connection, handle_ws_connection. rewrite alone_then. unfold st_bind.
    rewrite alone_locked, alone_ask. destruct (overloaded s); [done|]. apply alone_serve.
  - destruct e as [x raw|now x ip|fp|x|now|x|connect x u|sent u|x u raw]; cbn [s_job s_task run_job relay_step fst snd];
      try done; [apply alone_text|apply alone_gossip| |].
    + unfold connect_to_peer, st_bind, st_lift. by destruct (connect _).
    + rewrite alone_then. unfold st_bind. by rewrite alone_peer_text.
Qed.
End relay.
