(* ===== verification/RelaySchedules.v ===== *)
(** * The relay under any schedule (src/relay/src/main.rs)

    What holds however the sections of [RelayThreads] fall, whatever connections
    and tasks run side by side: the sizes of the relay are kept
    ([sizes_under_any_schedule]) and mail waits for its owner
    ([mail_under_any_schedule]); a fair run settles, whoever does not read
    ([schedules_settle]), and one peer that does not read can hold up the
    federation ([unread_reply_stalls_federation]). *)

From S2P Require Import Prelude Text Files Primitives Concrete Json Gpg Identity RateLimit Threads.
From S2P Require Import Mailbox RelayAuth Federation RelayState Relay RelayProps RelayLink RelayStart RelayInv RelayTable.
From S2P Require Import RelayThreads.

Section schedules.
Context `{Sequoia} `{Base64} `{Blake2} `{Hmac} `{Hex} `{Aead} `{Format} `{RelayCodec} `{JsonCodec}.
Context `{HashOrder (list f64)}.

Abbreviation section A := (prog lock RelayState string A).

(** What comes as text. *)
Definition texts (j : job) : list string :=
  match j with
  | Serve fs => omap (fun f : context * ws_frame => match f.2 with WText raw => Some raw | _ => None end) fs
  | Task (EvText _ raw) => [raw]
  | Task _ => []
  end.

(** ** Every fair run settles *)

(** What the relay sends while it holds a lock: that a connection is refused, and
    the answers to three requests. *)
Definition sends_inside (j : job) (l : lock) : Prop :=
  match l with
  | Mailboxes => exists fs, j = Serve fs
  | Federation => exists raw e, raw ∈ texts j /\ relay_from_json raw = Ok e /\
      re_type e ∈ ["who-has"; "peer-auth"; "relay-forward"]
  end.

Section brackets.
Variable ok : lock -> Prop.

Abbreviation brackets_ := (bracketed ok None).

Lemma brackets_gpg x sig data fp provided : brackets_ (s_check_gpg x sig data fp provided).
Proof. unfold s_check_gpg. brackets. Qed.
Lemma brackets_store_message x req : brackets_ (s_store_message x req).
Proof. unfold s_store_message. brackets. Qed.
Lemma brackets_fetch x nid : brackets_ (s_fetch_messages x nid).
Proof. unfold s_fetch_messages. brackets. Qed.
#[local] Hint Resolve brackets_gpg brackets_store_message brackets_fetch : threads.
Lemma brackets_authorize x what nid fp sig data cert key time :
  brackets_ (s_authorize_owner x what nid fp sig data cert key time).
Proof. unfold s_authorize_owner, s_check_nonce. brackets. Qed.
Lemma brackets_verify_and_store x r : brackets_ (s_verify_and_store x r).
Proof. unfold s_verify_and_store, s_verify_store_signature, s_check_nonce. brackets. Qed.
#[local] Hint Resolve brackets_authorize brackets_verify_and_store : threads.

Lemma brackets_message x e :
  (re_type e ∈ ["who-has"; "peer-auth"; "relay-forward"] -> ok Federation) -> brackets_ (s_message x e).
Proof.
  intros Hok. unfold s_message, s_store, s_fetch, s_ack, s_purge, s_onion, s_route_advertise, s_peer_auth_reply,
    s_ack_message, s_purge_all_messages, s_get_local_null_ids, s_our_url, s_send_to_peer, in_federation, fail. cbv zeta.
  destruct (String.eqb_spec (re_type e) "who-has") as [Et|_].
  { rewrite Et in Hok. specialize (Hok ltac:(set_solver)).
    unfold s_who_has, s_get_local_null_ids, s_our_url. brackets. }
  destruct (String.eqb_spec (re_type e) "peer-auth") as [Et|_].
  { rewrite Et in Hok. specialize (Hok ltac:(set_solver)). unfold s_peer_auth. brackets. }
  destruct (String.eqb_spec (re_type e) "relay-forward") as [Et|_].
  { rewrite Et in Hok. specialize (Hok ltac:(set_solver)). unfold s_forward, s_our_url. brackets. }
  brackets.
Qed.

Lemma brackets_text x raw :
  (forall e, relay_from_json raw = Ok e -> re_type e ∈ ["who-has"; "peer-auth"; "relay-forward"] -> ok Federation) ->
  brackets_ (s_text x raw).
Proof.
  intros Hok. unfold s_text. destruct (relay_from_json raw) as [e|]; [|brackets]. destruct (f64_gtb _ _); [brackets|].
  apply bracketed_after; [by apply brackets_message, Hok|]. intros [r|r]; brackets.
Qed.

Lemma brackets_serve fs :
  (forall raw e, raw ∈ texts (Serve fs) -> relay_from_json raw = Ok e ->
     re_type e ∈ ["who-has"; "peer-auth"; "relay-forward"] -> ok Federation) ->
  forall sent, brackets_ (s_serve fs sent).
Proof.
  induction fs as [|[x f] fs IH]; intros Hok sent; cbn [s_serve]; [brackets|].
  assert (Hfs : forall sent, brackets_ (s_serve fs sent)).
  { apply IH. intros raw e Hin. apply Hok. destruct f; cbn in *; try done. by right. }
  destruct f as [raw| | | | | | |]; try apply Hfs; try apply brackets_send; try apply Hfs; [|brackets..].
  apply bracketed_then; [|intros r; apply Hfs]. apply brackets_text. intros e. apply Hok. by left.
Qed.

Lemma brackets_send_all m us : brackets_ (s_send_all m us).
Proof. induction us as [|u us IH]; cbn [s_send_all]; unfold s_send_to_peer; brackets. Qed.
Lemma brackets_peer_text x u raw : brackets_ (s_peer_text x u raw).
Proof. unfold s_peer_text, in_federation. brackets. Qed.
End brackets.

#[local] Hint Resolve brackets_send_all brackets_peer_text : threads.

Lemma brackets_job j : bracketed (sends_inside j) None (s_job j).
Proof.
  destruct j as [fs|e]; cbn [s_job].
  - unfold s_connection. apply bracketed_then.
    + apply bracketed_locked. apply unlocked_then; [brackets|]. intros [|]; [|brackets].
      apply un_send; [by exists fs|]. apply free_answer. by exists fs.
    + intros [|]; [brackets|]. apply brackets_serve. intros raw e Hin He Ht. by exists raw, e.
  - destruct e as [x raw| | | | | | | |]; cbn [s_task];
      unfold s_cleanup_expired, s_gossip, s_get_local_null_ids, s_our_url, in_federation; try brackets.
    apply brackets_text. intros e He Ht. exists raw, e. by split; [left|].
Qed.

(** The relay with its jobs. *)
Definition relay_of (s : RelayState) (js : list job) : config lock RelayState string (list reply) :=
  start s (s_job <$> js).

(** What job [i] may send inside a lock. *)
Definition may_send (js : list job) (i : nat) (l : lock) : Prop := exists j, js !! i = Some j /\ sends_inside j l.

Lemma relay_orderly s js : orderly (may_send js) (relay_of s js).
Proof.
  apply start_orderly. intros i p Hi. rewrite list_lookup_fmap in Hi. apply fmap_Some in Hi as (j & Hj & ->).
  pose proof (brackets_job j) as Hb. revert Hb. generalize (s_job j) as q, (@None (lock * access)) as h.
  intros h q Hb. induction Hb; constructor; try done. intros l a E. exists j. split; [done|eauto].
Qed.

(** C6: nothing but a peer that does not read holds the relay up.  Take any run
    of connections and tasks in which nobody is passed over for ever who can go
    on: not the one that waits for a lock that is free, not the one whose peer
    reads.  Again and again a moment comes when everybody is settled: a job has
    ended; or it is sending to a peer of its own that does not read; or it waits
    for a lock inside which another job is sending to a peer that does not read.
    That job is a connection that is being refused, for the lock of the
    mailboxes, and for the lock of the federation one that asked [who-has],
    [peer-auth] or [relay-forward].  So if every peer reads, every connection is
    served to its end and every task is done: no deadlock, no request left
    hanging. *)
Theorem schedules_settle (s : RelayState) (js : list job) (deaf : nat -> bool)
    (r : nat -> config lock RelayState string (list reply)) :
  r 0%nat = relay_of s js -> fair_run deaf r ->
  forall n, exists m, (n <= m)%nat /\ forall i, (i < length js)%nat ->
    (exists out, outcome i (r m) = Some out) \/
    (deaf i = true /\ at_send i (r m)) \/
    (exists l d job, waits_for i l (r m) /\ deaf d = true /\ at_send d (r m) /\ holds d l (r m) /\
       js !! d = Some job /\ sends_inside job l).
Proof.
  intros Hjs Hr n.
  assert (Ho : orderly (may_send js) (r 0%nat)) by (rewrite Hjs; apply relay_orderly).
  destruct (run_settles (may_send js) deaf r Hr Ho n) as (m & Hm & Hall). exists m. split; [done|]. intros i Hi.
  destruct (Hall i) as [?|[?|(l & d & Hw & Hd & Hs & Hh & job & Hj & Hin)]].
  - rewrite Hjs. cbn. by rewrite length_fmap.
  - by left.
  - by right; left.
  - right; right. by exists l, d, job.
Qed.

(** ** A reply that is not read *)

(** A text of a connection, or a new link, that comes to the lock of the
    federation on every way to its end. *)
Definition needs_federation (j : job) : Prop :=
  match j with
  | Task (EvText y raw) => exists e, relay_from_json raw = Ok e /\
      f64_gtb (f64_abs (f64_sub (x_env_now y) (re_ts e))) (f64_of_Z STORE_TIMESTAMP_TOLERANCE_SECS) = false /\
      (re_type e = "route-advertise" /\ is_ok (route_count_of (re_payload e)) = true \/
       re_type e = "route-advertise-ack" \/
       re_type e = "who-has" /\ is_ok (who_has_of (re_payload e)) = true \/
       re_type e = "peer-auth" /\ is_ok (peer_auth_of (re_payload e)) = true \/
       re_type e = "peer-auth-reply" /\ is_ok (peer_auth_reply_of (re_payload e)) = true)
  | Task (EvConnect connect _ u) => is_ok (connect (u +:+ "/federation")) = true
  | _ => False
  end.

Lemma needs_meets j : needs_federation j -> meets Federation (s_job j).
Proof.
  destruct j as [fs|e]; [done|]. destruct e as [y raw| | | | | |connect y u| |]; try done; cbn [s_job s_task needs_federation].
  - intros (e & He & Hf & Ht). unfold s_text. rewrite He, Hf. apply meets_in. unfold s_message.
    destruct Ht as [[-> Hok]|[->|[[-> Hok]|[[-> Hok]|[-> Hok]]]]]; cbn [String.eqb Ascii.eqb Bool.eqb].
    + unfold s_route_advertise. destruct (route_count_of _); [|done]. apply meets_here.
    + apply meets_here.
    + unfold s_who_has. destruct (who_has_of _); [|done]. cbn. apply meets_lock, meets_act. intros s.
      apply meets_unlock. destruct (bool_decide _); apply meets_here.
    + unfold s_peer_auth. destruct (peer_auth_of _); [|done]. apply meets_here.
    + unfold s_peer_auth_reply. destruct (peer_auth_reply_of _); [|done]. apply meets_here.
  - intros ->. apply meets_here.
Qed.

(** C7: one peer that does not read its reply stops the federation.  On a relay
    with a federation secret, a connection that is not refused sends a challenge,
    well-formed and in time, and does not take the reply: the relay holds the lock of the federation for
    writing while it sends.  From then on, however the others take their turns
    and as long as the reply is not taken, no announcement of routes or its
    acknowledgement, no query for a route, no challenge or reply to one is ever
    done with, and no new link to a peer is set up. *)
Theorem unread_reply_stalls_federation (x : context) (raw : string) (e : RelayEnvelope) (a : PeerAuth)
    (secret : string) (fs : list (context * ws_frame)) (js : list job) (s : RelayState) :
  relay_from_json raw = Ok e -> re_type e = "peer-auth" -> peer_auth_of (re_payload e) = Ok a ->
  f64_gtb (f64_abs (f64_sub (x_env_now x) (re_ts e))) (f64_of_Z STORE_TIMESTAMP_TOLERANCE_SECS) = false ->
  overloaded s = false -> Federation.shared_secret (federation s) = Some secret ->
  let c := play [0; 0; 0; 0; 0]%nat (relay_of s (Serve ((x, WText raw) :: fs) :: js)) in
  at_send 0 c /\ holds 0 Federation c /\
  forall more, 0%nat ∉ more ->
    forall i j, js !! i = Some j -> needs_federation j -> outcome (S i) (play more c) = None.
Proof.
  intros He Ht Ha Hf Ho Hs c.
  assert (Hc : exists s' k, c = mkConfig s' [(0%nat, Federation, Writing)] (Send k :: (s_job <$> js))).
  { unfold c, relay_of, start. cbn [fmap list_fmap s_job]. unfold s_connection. cbn. rewrite Ho. cbn.
    unfold s_text. rewrite He, Hf. unfold s_message. rewrite Ht. cbn [String.eqb Ascii.eqb Bool.eqb].
    unfold s_peer_auth. rewrite Ha. cbn. unfold handle_peer_auth, st_bind, st_lift, st_get, st_put, decode.
    rewrite Ha. cbn.
    change (bool_decide (Mailboxes = Mailboxes)) with true. cbn. rewrite Hs. cbn. by eexists _, _. }
  destruct Hc as (s' & k & ->). split_and!; [by exists k|exists Writing; by left|].
  intros more Hmore i j Hj Hn.
  destruct (stalled 0 Federation more (mkConfig s' [(0%nat, Federation, Writing)] (Send k :: (s_job <$> js))) Hmore
    ltac:(by left) (S i) (s_job j)) as (q & Hq & Hm).
  - cbn [pool lookup list_lookup]. change (((s_job <$> js) !! i) = Some (s_job j)). by rewrite list_lookup_fmap, Hj.
  - by apply needs_meets.
  - by eapply meets_no_outcome.
Qed.

(** ** What every section respects *)

(** A request for the removal of messages: whose, and how it is signed. *)
Record removal : Type := mkRemoval { rm_nid : string; rm_fp : string; rm_sig : string; rm_data : string }.

Definition asks_removal (e : RelayEnvelope) : option removal :=
  let p := re_payload e in
  let nid := str_field p "recipient_nid" in
  let time := f64_field p "timestamp" (f64_of_Z 0) in
  let nonce := str_field p "nonce" in
  let request := mkRemoval nid (str_field p "requester_fp") (str_field p "sender_sig") in
  if String.eqb (re_type e) "relay-ack" then Some (request (ack_signing_data nid (i64_field p "seq" 0) time nonce))
  else if String.eqb (re_type e) "relay-purge" then Some (request (purge_signing_data nid time nonce))
  else None.

Section walk.
Variables (G : RelayState -> Prop) (R : RelayState -> RelayState -> Prop) (accepted : string -> string -> string -> Prop).

(** The sections that remove messages of a recipient. *)
Definition removable (nid : string) : Prop :=
  (forall sq s, G s -> R s (set_mail (ack_in_memory nid sq (mailboxes s)) (db_pool s) s)) /\
  (forall x sq s, G s -> R s (set_mail (mailboxes s) (on_rows (x_db x) (map (mark_delivered nid sq)) (db_pool s)) s)) /\
  (forall s, G s -> R s (set_mail (delete nid (mailboxes s)) (db_pool s) s)) /\
  (forall x s, G s -> R s (set_mail (mailboxes s)
    (on_rows (x_db x) (List.filter (fun w => negb (String.eqb (r_recipient w) nid))) (db_pool s)) s)).

Hypothesis R_same : forall s, R s s.
Hypothesis R_pin : forall fp armored s, G s -> R s (set_certs (pin_cert fp armored (cert_cache s)) s).
Hypothesis R_nonce : forall x fp nonce s, G s -> R s (check_nonce x fp nonce s).1.
Hypothesis R_memory : forall t req s, G s -> R s (store_in_memory t req s).
Hypothesis R_insert : forall x req s, G s -> R s (insert_statement x req s).1.
Hypothesis R_expire : forall x s, G s -> R s (expire_in_memory x s).
Hypothesis R_delete : forall x s, G s -> R s (delete_expired x s).
Hypothesis R_federation : forall f s, G s -> queues_kept (federation s) f -> R s (set_federation f s).
Hypothesis R_accepted : forall x sig data fp s,
  G s -> (check_gpg x sig data fp "" s).2 = Ok true -> accepted fp sig data.

(** The events that are one section. *)
Definition single (e : relay_event) : bool :=
  match e with EvText _ _ | EvCleanup _ | EvGossip _ => false | _ => true end.
Hypothesis R_single : forall e s, G s -> single e = true -> R s (relay_step s e).

Abbreviation walk := (every (L := lock) (E := string) G R (fun _ => True)).

Lemma walk_ret {A} (r : result string A) : walk (Ret r).
Proof. by constructor. Qed.
Lemma walk_then {A B} (p : section A) (k : A -> section B) : walk p -> (forall a, walk (k a)) -> walk (then_ p k).
Proof. intros Hp Hk. eapply every_then; [exact Hp|auto|done]. Qed.
Lemma walk_ask {A} (f : RelayState -> A) : walk (ask f).
Proof. by apply every_atom. Qed.
Lemma walk_read {A} (m : st RelayState string A) : (forall s, (m s).1 = s) -> walk (atom m).
Proof. intros Hm. apply every_atom; [|done]. intros s _. by rewrite Hm. Qed.
Lemma walk_change f : (forall s, G s -> R s (f s)) -> walk (change_to f).
Proof. intros Hf. by apply every_atom. Qed.
Lemma walk_send_ {A} (p : section A) : walk p -> walk (Send p).
Proof. by constructor. Qed.
Lemma walk_answer {A} (a : A) : walk (answer a).
Proof. by repeat constructor. Qed.
Lemma walk_locked {A} l a (p : section A) : walk p -> walk (locked l a p).
Proof. apply every_locked. Qed.
Lemma walk_guard c e : walk (guard c e).
Proof. unfold guard. destruct c; by constructor. Qed.

#[local] Hint Resolve walk_ret walk_ask walk_change walk_guard walk_locked walk_answer : walk.

Ltac walk :=
  repeat (first
    [ solve [eauto with walk]
    | apply walk_then; [|intros ?]
    | apply walk_locked
    | apply walk_send_
    | progress cbv zeta
    | match goal with |- every _ _ _ (if ?c then _ else _) => destruct c end
    | match goal with |- every _ _ _ (match ?c with _ => _ end) => destruct c end ]).

Lemma gpg_same x sig data fp s : (check_gpg x sig data fp "" s).1 = s.
Proof.
  unfold check_gpg. pose proof (verify_gpg_cache (x_locks x) sig data fp "" (cert_cache s)) as E.
  destruct (verify_gpg_detached _ _ _ _ _ _) as [c r]. cbn in E |- *. subst c. by destruct s.
Qed.

Lemma every_gpg x sig data fp provided :
  every (L := lock) G R (fun r => r = Ok true -> accepted fp sig data) (s_check_gpg x sig data fp provided).
Proof.
  assert (Ha : every (L := lock) G R (fun r => r = Ok true -> accepted fp sig data) (atom (check_gpg x sig data fp ""))).
  { apply every_atom; [intros s _; by rewrite gpg_same|]. intros s Hs Hr. by eapply R_accepted. }
  unfold s_check_gpg. destruct (str_is_empty provided); [exact Ha|].
  destruct (negb _); [by constructor|].
  eapply (every_then (L := lock) G R (fun _ => True)); [apply walk_change, R_pin|by intros _ _|done].
Qed.

Lemma every_authorize x what nid fp sig data cert key time :
  every (L := lock) G R (fun r => r = Ok tt -> compute_null_id fp = nid /\ accepted fp sig data)
    (s_authorize_owner x what nid fp sig data cert key time).
Proof.
  unfold s_authorize_owner, s_check_nonce.
  eapply (every_then (L := lock) G R (fun _ => True)); [by apply walk_ret|intros _ _|done].
  eapply (every_then (L := lock) G R (fun r => r = Ok tt -> compute_null_id fp = nid)); [|intros [] Hnid|done].
  { unfold guard. destruct (String.eqb_spec (compute_null_id fp) nid); by constructor. }
  specialize (Hnid eq_refl).
  eapply every_then; [apply every_gpg|intros b Hb|done].
  eapply (every_then (L := lock) G R (fun r => r = Ok tt -> b = true)); [|intros [] Eb|done].
  { unfold guard. by destruct b; constructor. }
  eapply (every_then (L := lock) G R (fun _ => True)); [apply every_atom; [apply R_nonce|done]|intros fresh _|done].
  unfold guard. destruct fresh; constructor; [|done]. intros _. split; [done|]. apply Hb. by rewrite Eb.
Qed.

Lemma walk_gpg x sig data fp provided : walk (s_check_gpg x sig data fp provided).
Proof. eapply every_impl; [done|done|apply every_gpg]. Qed.
Lemma walk_authorize x what nid fp sig data cert key time : walk (s_authorize_owner x what nid fp sig data cert key time).
Proof. eapply every_impl; [done|done|apply every_authorize]. Qed.
Lemma walk_nonce x fp nonce : walk (s_check_nonce x fp nonce).
Proof. apply every_atom; [apply R_nonce|done]. Qed.
Lemma walk_store_message x req : walk (s_store_message x req).
Proof. unfold s_store_message. walk. apply every_atom; [apply R_insert|done]. Qed.
Lemma walk_fetch x nid : walk (s_fetch_messages x nid).
Proof. unfold s_fetch_messages, ret. walk. Qed.
#[local] Hint Resolve walk_gpg walk_authorize walk_nonce walk_store_message walk_fetch : walk.

Lemma walk_verify_and_store x r : walk (s_verify_and_store x r).
Proof. unfold s_verify_and_store, s_verify_store_signature. walk. Qed.
Lemma walk_hmac data provided error : walk (atom (require_hmac data provided error)).
Proof. apply walk_read. intros s. by destruct (require_hmac_spec data provided error s) as (r & -> & _). Qed.
Lemma walk_ids : walk s_get_local_null_ids.
Proof. unfold s_get_local_null_ids. walk. Qed.
Lemma walk_our_url : walk s_our_url.
Proof. unfold s_our_url. walk. Qed.
Lemma walk_send u m : walk (s_send_to_peer u m).
Proof. unfold s_send_to_peer. walk. apply walk_change. intros s Hs. by apply R_federation, send_kept. Qed.
Lemma walk_learn x p : walk (in_federation (learn_routes x p)).
Proof.
  unfold in_federation. walk. apply walk_change. intros s Hs. apply R_federation; [done|]. etrans; [|apply touch_kept].
  by apply same_queues, add_routes_peers.
Qed.
#[local] Hint Resolve walk_verify_and_store walk_hmac walk_ids walk_our_url walk_send walk_learn : walk.

(** *** Messages *)

Lemma walk_ack_message x nid sq : removable nid -> walk (s_ack_message x nid sq).
Proof. intros (Hm & Hr & _). unfold s_ack_message. walk. Qed.
Lemma walk_purge_messages x nid : removable nid -> walk (s_purge_all_messages x nid).
Proof. intros (_ & _ & Hm & Hr). unfold s_purge_all_messages. walk. Qed.

Lemma walk_peer_auth x p : walk (s_peer_auth x p).
Proof.
  unfold s_peer_auth, ret. walk. apply every_atom; [|done]. intros s Hs. unfold handle_peer_auth, st_bind, st_lift, st_get, st_put.
  destruct (decode _ _) as [au|er]; [|apply R_same]. destruct (Federation.shared_secret _);
    by apply R_federation, same_queues.
Qed.

Lemma walk_auth_reply x p : walk (s_peer_auth_reply x p).
Proof.
  unfold s_peer_auth_reply. walk. apply every_atom; [|done]. intros s Hs.
  unfold handle_peer_auth_reply, st_bind, st_lift, st_get, st_put, st_guard.
  destruct (decode _ _) as [au|er]; [|apply R_same].
  destruct (pending_challenges _ !! _) as [[ch at_]|]; [|apply R_same]. set (f := set_challenges _ _).
  assert (Hf : queues_kept (federation s) f) by by apply same_queues.
  destruct (negb _); [|by apply R_federation]. unfold st_ret.
  destruct (Federation.shared_secret f); [|by apply R_federation].
  destruct (String.eqb _ _); apply R_federation; try done. etrans; [exact Hf|apply authenticate_kept].
Qed.
#[local] Hint Resolve walk_ack_message walk_purge_messages walk_peer_auth walk_auth_reply : walk.

Lemma walk_forward x p : walk (s_forward x p).
Proof. unfold s_forward, ret. walk. Qed.
#[local] Hint Resolve walk_forward : walk.

(** A request removes what its signer may remove. *)
Definition permitted (e : RelayEnvelope) : Prop :=
  forall q, asks_removal e = Some q -> compute_null_id (rm_fp q) = rm_nid q ->
    accepted (rm_fp q) (rm_sig q) (rm_data q) -> removable (rm_nid q).

Lemma walk_ack x e : re_type e = "relay-ack" -> permitted e -> walk (s_ack x (re_payload e)).
Proof.
  intros Et Hp. unfold permitted, asks_removal in Hp. rewrite Et in Hp. specialize (Hp _ eq_refl).
  cbn [rm_nid rm_fp rm_sig rm_data] in Hp. unfold s_ack. cbv zeta. apply walk_then; [walk|intros _].
  eapply every_then; [apply every_authorize|intros [] Ho|done]. destruct (Ho eq_refl) as [Hn Ha]. unfold ret. walk.
Qed.

Lemma walk_purge x e : re_type e = "relay-purge" -> permitted e -> walk (s_purge x (re_payload e)).
Proof.
  intros Et Hp. unfold permitted, asks_removal in Hp. rewrite Et in Hp. specialize (Hp _ eq_refl).
  cbn [rm_nid rm_fp rm_sig rm_data] in Hp. unfold s_purge. cbv zeta. do 2 (apply walk_then; [walk|intros _]).
  eapply every_then; [apply every_authorize|intros [] Ho|done]. destruct (Ho eq_refl) as [Hn Ha]. unfold ret. walk.
Qed.

Lemma walk_message x e : permitted e -> walk (s_message x e).
Proof.
  intros Hp. unfold s_message, ret, fail. cbv zeta.
  destruct (String.eqb_spec (re_type e) "relay-store"); [unfold s_store, ret; walk|].
  destruct (String.eqb_spec (re_type e) "relay-fetch"); [unfold s_fetch, ret; walk|].
  destruct (String.eqb_spec (re_type e) "relay-ack"); [by apply walk_ack|].
  destruct (String.eqb_spec (re_type e) "relay-ping"); [walk|].
  destruct (String.eqb_spec (re_type e) "route-advertise"); [unfold s_route_advertise, ret; walk|].
  destruct (String.eqb_spec (re_type e) "route-advertise-ack"); [walk|].
  destruct (String.eqb_spec (re_type e) "who-has"); [unfold s_who_has, ret; walk|].
  destruct (String.eqb_spec (re_type e) "peer-auth"); [walk|].
  destruct (String.eqb_spec (re_type e) "peer-auth-reply"); [walk|].
  destruct (String.eqb_spec (re_type e) "relay-forward"); [walk|].
  destruct (String.eqb_spec (re_type e) "relay-purge"); [by apply walk_purge|].
  unfold s_onion, ret. walk.
Qed.

(** *** Jobs *)

Lemma walk_text x raw :
  (forall e, relay_from_json raw = Ok e -> permitted e) -> walk (s_text x raw).
Proof.
  intros Hp. unfold s_text. destruct (relay_from_json raw) as [e|er]; [|walk].
  destruct (f64_gtb _ _); [walk|].
  eapply (every_after G R (fun _ => True)); [by apply walk_message, Hp|]. intros [r|r] _; unfold ret; walk.
Qed.

Lemma walk_serve fs :
  (forall raw e, raw ∈ texts (Serve fs) -> relay_from_json raw = Ok e -> permitted e) ->
  forall sent, walk (s_serve fs sent).
Proof.
  induction fs as [|[x f] fs IH]; intros Hp sent; cbn [s_serve]; [walk|].
  assert (Hfs : forall sent, walk (s_serve fs sent)).
  { apply IH. intros raw e Hin. apply Hp. destruct f; cbn in *; try done. by right. }
  destruct f as [raw| | | | | | |]; try apply Hfs; try (apply walk_send_; apply Hfs); try solve [walk].
  apply walk_then; [|intros r; apply Hfs]. apply walk_text. intros e. apply Hp. by left.
Qed.

Lemma walk_send_all m us : walk (s_send_all m us).
Proof. induction us as [|u us IH]; cbn [s_send_all]; unfold ret; walk. Qed.
#[local] Hint Resolve walk_send_all : walk.

Lemma walk_job j :
  (forall raw e, raw ∈ texts j -> relay_from_json raw = Ok e -> permitted e) -> walk (s_job j).
Proof.
  intros Hp. destruct j as [fs|e]; cbn [s_job].
  - unfold s_connection, ret. walk. by apply walk_serve.
  - destruct e as [x raw|now x ip|fp|x|now|x|connect x u|sent u|x u raw]; cbn [s_task]; unfold ret;
      try (apply walk_then; [apply walk_change; intros z Hz; by apply (R_single _ z Hz)|intros _; walk]);
      unfold in_federation, s_peer_text.
    + apply walk_text. intros e. apply Hp. by left.
    + unfold s_cleanup_expired. walk.
    + unfold s_gossip, in_federation, ret. walk. apply walk_change. intros z Hz. by apply R_federation, cleanup_kept.
    + unfold in_federation, ret. walk.
    + unfold in_federation, ret. walk. apply walk_change. intros z Hz. by apply (R_single (EvPeer x u raw) z Hz).
Qed.
End walk.

(** ** The sizes *)

Definition always {A} (R : RelayState -> RelayState -> Prop) : section A -> Prop :=
  every (fun _ => True) R (fun _ => True).

Definition kept (s s' : RelayState) : Prop := relay_inv s -> relay_inv s'.

Lemma kept_refl s : kept s s.
Proof. intros Hs. exact Hs. Qed.

Lemma changes_kept s s' : rtc change s s' -> kept s s'.
Proof. exact (changes_inv s s'). Qed.

Lemma fewer_kept mb db s :
  (forall nid m', mb !! nid = Some m' -> exists m, mailboxes s !! nid = Some m /\ fewer m m') ->
  kept s (set_mail mb db s).
Proof. intros Hf. by apply changes_kept, rtc_once, ch_fewer. Qed.

Lemma same_mail_kept db s : kept s (set_mail (mailboxes s) db s).
Proof. apply fewer_kept. intros nid m Hm. exists m. split; [done|apply fewer_refl]. Qed.

Lemma ack_fewer nid sq (ms : gmap string Mailbox) nid' m' :
  ack_in_memory nid sq ms !! nid' = Some m' -> exists m, ms !! nid' = Some m /\ fewer m m'.
Proof.
  unfold ack_in_memory. destruct (ms !! nid) as [mb|] eqn:Em.
  - intros [[<- <-]|[Hne Hm]]%lookup_insert_Some; [exists mb; split; [done|by eexists]|].
    exists m'. split; [done|apply fewer_refl].
  - intros Hm. exists m'. split; [done|apply fewer_refl].
Qed.

Lemma expire_fewer now (ms : gmap string Mailbox) nid m' :
  filter (fun km : string * Mailbox => Mailbox.entries km.2 <> []) (Mailbox.expire now <$> ms) !! nid = Some m' ->
  exists m, ms !! nid = Some m /\ fewer m m'.
Proof.
  intros [Hm _]%map_lookup_filter_Some. rewrite lookup_fmap in Hm.
  destruct (ms !! nid) as [m|]; [|done]. injection Hm as <-. exists m. split; [done|]. by eexists.
Qed.

Lemma insert_statement_cases x req s :
  (insert_statement x req s).1 = s \/
  exists enc, (insert_statement x req s).1 =
    insert_row (mkRow (ms_recipient_nid req) (entry_of (x_secs x) req) false enc) s.
Proof.
  unfold insert_statement, st_bind, st_get, st_lift, st_guard, st_modify, st_ret, st_fail.
  destruct (db_pool s); [|by left]. destruct (ok_or _ _) as [enc|]; [|by left].
  destruct (x_db x); [right; by exists enc|by left].
Qed.

Lemma removable_kept nid : removable (fun _ => True) kept nid.
Proof.
  split_and!; intros; [apply fewer_kept, ack_fewer|apply same_mail_kept|apply fewer_kept|apply same_mail_kept].
  intros nid' m [_ Hm]%lookup_delete_Some. exists m. split; [done|apply fewer_refl].
Qed.

Lemma job_kept j : always kept (s_job j).
Proof.
  apply (walk_job (fun _ => True) kept (fun _ _ _ => True)).
  - apply kept_refl.
  - intros fp a s _. apply changes_kept, rtc_once, ch_certs.
  - intros x fp n s _. apply changes_kept. apply (gentle_nonce x fp n s).
  - intros t req s _. apply changes_kept, rtc_once, ch_store.
  - intros x req s _. destruct (insert_statement_cases x req s) as [->|[enc ->]]; [apply kept_refl|apply same_mail_kept].
  - intros x s _. apply fewer_kept, expire_fewer.
  - intros x s _. apply same_mail_kept.
  - intros f s _ Hf. by apply changes_kept, rtc_once, ch_federation.
  - done.
  - intros e s _ _. exact (step_inv s e).
  - intros raw e _ _ q _ _ _. apply removable_kept.
Qed.

Lemma jobs_always R js : (forall j, always R (s_job j)) -> Forall (always R) (s_job <$> js).
Proof. intros Hj. apply Forall_fmap, Forall_true. exact Hj. Qed.

(** C9: the sizes of a relay, whatever runs side by side.  From its start on,
    under any schedule of any connections and tasks, section by section: a
    mailbox has at most a thousand entries and at most ten of one sender's, the
    log of a fingerprint at most a thousand nonces, the table of limiters at
    most ten thousand addresses, and the queue to a peer at most a hundred
    messages. *)
Theorem sizes_under_any_schedule `{Hkdf} `{SetText} (o : db_io) (random : bytes) (secret : option string)
    (home path : string) (allow : bool) (h : host) (s0 : RelayState) (js : list job) (sched : list nat) :
  new_state o random secret home (Some path) allow h = Ok s0 ->
  let s := shared (play sched (relay_of s0 js)) in
  (forall nid mb, mailboxes s !! nid = Some mb ->
     zlen (entries mb) <= MAX_MAILBOX_SIZE /\
     forall fp, zlen (from_sender fp (entries mb)) <= MAX_ENTRIES_PER_SENDER) /\
  (forall fp, (length (logged fp (seen_nonce_strs s)) <= 1000)%nat) /\
  Z.of_nat (size (conn_limiters s)) <= MAX_PEER_LIMITERS /\
  (forall u p c, peers (federation s) !! u = Some p -> sender p = Some c -> zlen (queue c) <= CHANNEL_SIZE).
Proof.
  intros Hstart s.
  assert (Hinv : relay_inv s).
  { assert (Hrun : rtc kept s0 s) by exact (play_always kept sched (relay_of s0 js) (jobs_always kept js job_kept)).
    pose proof (new_state_relay_inv _ _ _ _ _ _ _ _ Hstart) as Hs0.
    revert Hs0. clear -Hrun. induction Hrun as [|a b c Hab _ IH]; [done|]. intros Ha. by apply IH, Hab. }
  destruct Hinv as [Hm Hn Hl Hq]. split_and!; [|exact Hn|exact Hl|exact Hq].
  intros nid mb Hmb. destruct (Hm nid mb Hmb) as [Hs [Hi Hf]]. by rewrite <- Hs.
Qed.

(** ** The mail *)

(** Certificates on file stay. *)
Definition certs_kept (s s' : RelayState) : Prop := cert_cache s ⊆ cert_cache s'.

Lemma certs_same s s' : cert_cache s' = cert_cache s -> certs_kept s s'.
Proof. unfold certs_kept. by intros ->. Qed.

Lemma single_certs e s : single e = true -> cert_cache (relay_step s e) = cert_cache s.
Proof.
  destruct e as [x raw|now x ip|fp|x|now|x|connect x u|sent u|x u raw]; cbn [single relay_step]; try done; intros _.
  - unfold admit_peer. repeat case_match; by simplify_eq.
  - unfold connect_to_peer, st_bind, st_lift, st_modify. by case_match.
  - unfold pump. repeat case_match; by simplify_eq.
  - unfold peer_text. by repeat case_match.
Qed.

Lemma nonce_only x fp n s : exists l, (check_nonce x fp n s).1 = set_nonces l s.
Proof. destruct (check_nonce_spec x fp n s) as (l & b & -> & _). by exists l. Qed.

Lemma job_certs j : always certs_kept (s_job j).
Proof.
  apply (walk_job (fun _ => True) certs_kept (fun _ _ _ => True)); try (intros; by apply certs_same).
  - intros fp a s _. apply map_subseteq_spec. intros k v. apply pin_cert_keeps.
  - intros x fp n s _. destruct (nonce_only x fp n s) as [l ->]. by apply certs_same.
  - intros x req s _. destruct (insert_statement_cases x req s) as [->|[enc ->]]; by apply certs_same.
  - done.
  - intros e s _ He. by apply certs_same, single_certs.
  - intros raw e _ _ q _ _ _. split_and!; intros; by apply certs_same.
Qed.

#[local] Instance certs_preorder : PreOrder certs_kept.
Proof.
  split; unfold certs_kept; [intros s; reflexivity|intros a b c Hab Hbc; by etrans].
Qed.

Lemma rtc_certs a b : rtc certs_kept a b -> certs_kept a b.
Proof. induction 1; [done|by etrans]. Qed.

(** At every moment the certificates on file are among those of the end. *)
Lemma certs_of_the_end (c : config lock RelayState string (list reply)) sched n :
  Forall (always certs_kept) (pool c) ->
  cert_cache (shared (play (take n sched) c)) ⊆ cert_cache (shared (play sched c)).
Proof.
  intros Hall. destruct (play_every (fun _ => True) certs_kept (fun _ => True) (take n sched) c (fun _ => I) Hall)
    as [_ Hmid].
  rewrite <- (take_drop n sched) at 2. unfold play at 2. rewrite foldl_app.
  exact (rtc_certs _ _ (play_always certs_kept (drop n sched) (play (take n sched) c) Hmid)).
Qed.

(** The text asks for the removal of messages of an identifier, and is signed
    under the certificate on file for the fingerprint of that identifier. *)
Definition removal_signed (nid : string) (c : certs) (raw : string) : Prop :=
  exists e q, relay_from_json raw = Ok e /\ asks_removal e = Some q /\ rm_nid q = nid /\
    compute_null_id (rm_fp q) = nid /\ signed_under c (rm_fp q) (rm_sig q) (rm_data q).

Lemma signed_weaken c c' fp sig data : c ⊆ c' -> signed_under c fp sig data -> signed_under c' fp sig data.
Proof.
  intros Hc (armored & crt & raw & txt & Hl & Hr). exists armored, crt, raw, txt. split; [|done].
  by eapply lookup_weaken.
Qed.

Lemma other_removable G nid o : o <> nid -> removable G (keeps nid) o.
Proof.
  intros Hne. split_and!; intros; try by apply keeps_same.
  - eapply keeps_rows; [done|]. intros rows. by apply mark_delivered_other.
  - eapply keeps_rows; [done|]. intros rows. by apply purge_other.
Qed.

Lemma insert_keeps nid x req s : keeps nid s (insert_statement x req s).1.
Proof.
  destruct (insert_statement_cases x req s) as [->|[enc ->]]; [by apply keeps_same|].
  intros rows Hr. unfold insert_row, set_mail. cbn [db_pool]. rewrite Hr. eexists. split; [done|].
  unfold pending. rewrite List.filter_app, fmap_app. by apply prefix_app_r.
Qed.

Lemma single_keeps nid e s : single e = true -> keeps nid s (relay_step s e).
Proof. intros He. apply step_keeps. destruct e; try done; by intros []. Qed.

Lemma job_keeps nid (c : certs) j :
  (forall raw, raw ∈ texts j -> ~ removal_signed nid c raw) ->
  every (fun s => cert_cache s ⊆ c) (keeps nid) (fun _ => True) (s_job j).
Proof.
  intros Hno. apply (walk_job (fun s => cert_cache s ⊆ c) (keeps nid) (signed_under c));
    try (intros; by apply keeps_same).
  - intros x fp n s _. destruct (nonce_only x fp n s) as [l ->]. by apply keeps_same.
  - intros x req s _. apply insert_keeps.
  - intros x s _. exact (cleanup_keeps nid x s).
  - intros x sig data fp s Hs Hr. eapply signed_weaken; [exact Hs|].
    pose proof (accepted_is_signed x sig data fp "" s Hr) as Ha.
    by rewrite verify_gpg_cache in Ha.
  - intros e s _. apply single_keeps.
  - intros raw e Hin Hraw q Hq Hn Ha. apply other_removable. intros E.
    apply (Hno raw Hin). exists e, q. split_and!; [done|done|done|by rewrite Hn|done].
Qed.

Lemma rtc_keeps nid a b : rtc (keeps nid) a b -> keeps nid a b.
Proof.
  induction 1 as [a|a b c Hab _ IH]; [by apply keeps_same|]. intros rows Hr.
  destruct (Hab rows Hr) as (r1 & Hr1 & Hp1). destruct (IH r1 Hr1) as (r2 & Hr2 & Hp2).
  exists r2. split; [done|]. by etrans.
Qed.

(** C5: mail waits for its owner, whatever runs side by side.  Under any schedule
    of any connections and tasks, with whatever clocks and failures of the
    database, the messages that wait in the table for a recipient go on waiting
    in the order they came, and every fetch hands them all out, unless one of
    the texts that arrived asks for their removal, for an identifier that is the
    fingerprint's, with a signature that verifies under the certificate on file
    in the end.  No race between a check and what it guards lets anything else
    remove a message. *)
Theorem mail_under_any_schedule (nid : string) (js : list job) (sched : list nat) (s : RelayState) (rows : list row) :
  let s' := shared (play sched (relay_of s js)) in
  db_pool s = Some rows ->
  (forall j raw, j ∈ js -> raw ∈ texts j -> ~ removal_signed nid (cert_cache s') raw) ->
  exists rows', db_pool s' = Some rows' /\ pending nid rows `prefix_of` pending nid rows' /\
    forall y, x_db y = true -> pending nid rows <> [] ->
      fetch_messages y nid s' ≡ₚ pending nid rows' /\ pending nid rows ⊆ fetch_messages y nid s'.
Proof.
  intros s' Hr Hno.
  assert (Hk : keeps nid s s').
  { apply rtc_keeps. refine (proj1 (play_every (fun z => cert_cache z ⊆ cert_cache s') (keeps nid) (fun _ => True)
      sched (relay_of s js) _ _)).
    - intros n. apply certs_of_the_end, jobs_always, job_certs.
    - apply Forall_fmap, Forall_forall. intros j Hj. apply job_keeps. intros raw. by apply Hno. }
  destruct (Hk rows Hr) as (rows' & Hr' & Hp). exists rows'. split_and!; [done|done|]. intros y Hy Hne.
  assert (Hne' : pending nid rows' <> []).
  { intros E. rewrite E in Hp. by apply prefix_nil_inv in Hp. }
  rewrite (fetch_rows y nid _ rows') by done. split; [apply select_rows_perm|].
  rewrite select_rows_perm. destruct Hp as [l ->]. set_solver.
Qed.
End schedules.

(** ** Concrete schedules *)

#[local] Existing Instances toy_sequoia toy_base64 toy_blake2 toy_hmac toy_hex toy_aead toy_hkdf toy_format
  toy_json toy_relay toy_set_text.
#[local] Instance schedule_order : HashOrder (list f64) := list_order _.

(** A connection between the events of the tasks. *)
Definition some_jobs : list job :=
  Serve [(sample_context, WText "relay-ping"); (sample_context, WPing); (sample_context, WClose)] ::
  (Task <$> some_events).

Definition some_turns : list nat := [0; 5; 1; 0; 3; 2; 3; 5; 3; 4; 0; 5; 0; 4; 4; 4; 1; 5; 4; 4; 0; 2; 5]%nat.

Theorem sizes_under_any_schedule_witness :
  exists s0, new_state calm_db (replicate 32 1) None "/gpg" (Some "/gpg/mailbox.db") false empty_host = Ok s0 /\
    let s := shared (play some_turns (relay_of s0 some_jobs)) in
    peers (federation s) !! "ws://b" <> None /\ Z.of_nat (size (conn_limiters s)) <= MAX_PEER_LIMITERS.
Proof.
  destruct (new_state calm_db (replicate 32 1) None "/gpg" (Some "/gpg/mailbox.db") false empty_host) as [s0|e] eqn:E;
    [|discriminate E].
  exists s0. split; [reflexivity|]. split.
  - injection E as <-. vm_compute. discriminate.
  - exact (proj1 (proj2 (proj2 (sizes_under_any_schedule calm_db (replicate 32 1) None "/gpg" "/gpg/mailbox.db" false
      empty_host s0 some_jobs some_turns E)))).
Defined.

(** A cleanup and a connection side by side, a year later. *)
Definition year_of_jobs : list job :=
  [Serve [(year_later, WText "relay-ping"); (year_later, WText "relay-purge")]; Task (EvCleanup year_later)].

Definition year_turns : list nat := [1; 0; 1; 0; 1; 1; 0; 0; 0; 0; 0; 0]%nat.

Theorem mail_under_any_schedule_witness :
  sample_entry "FRIEND" 1 ∈
    fetch_messages year_later victim_nid (shared (play year_turns (relay_of victim_state year_of_jobs))).
Proof.
  destruct (mail_under_any_schedule victim_nid year_of_jobs year_turns victim_state
    [mkRow victim_nid (sample_entry "FRIEND" 1) false ""]) as (rows' & _ & _ & Hf).
  - reflexivity.
  - intros j raw _ _ (e & q & _ & _ & _ & _ & armored & crt & sig & text & Hl & _).
    assert (Hc : cert_cache (shared (play year_turns (relay_of victim_state year_of_jobs))) = ∅)
      by (vm_compute; reflexivity).
    rewrite Hc in Hl. by rewrite lookup_empty in Hl.
  - destruct (Hf year_later eq_refl) as [_ Hin]; [vm_compute; discriminate|].
    apply Hin. vm_compute. left.
Defined.

(** A relay with a federation secret, a peer that asks for authentication and
    does not read the reply, and others. *)
Definition federated : RelayState :=
  set_federation (mkFederationState ∅ ∅ None (Some "secret") ∅ ∅) victim_state.

Definition later : context :=
  mkContext (f64_of_Z 0) (f64_of_Z 0) 100 100 0 "id" (f64_of_Z 0) (replicate 12 0) (mkLocks true true) true.

Definition challenger : job := Serve [(later, WText "peer-auth"); (later, WClose)].

Definition others : list job :=
  [Task (EvText later "route-advertise"); Serve [(later, WText "relay-ping")]; Task (EvCleanup later)].

Definition settling_turns : list nat := repeat 0%nat 5 ++ repeat 2%nat 6 ++ repeat 3%nat 4 ++ [1%nat].

(** The first job is not read, the second waits for it, the others end. *)
Definition settling (n : nat) : config lock RelayState string (list reply) :=
  play (take n settling_turns) (relay_of federated (challenger :: others)).

Lemma settling_fair : fair_run (Nat.eqb 0) settling.
Proof.
  apply played_fair. intros i. do 4 (destruct i as [|i]; [vm_compute; reflexivity|]).
  unfold due. by rewrite lookup_ge_None_2 by (vm_compute; lia).
Qed.

Theorem schedules_settle_witness :
  outcome 2 (settling 16) = Some (Ok [REnvelope (mkRelayEnvelope "relay-pong" (VObject []) "id" (f64_of_Z 0))]) /\
  waits_for 1 Federation (settling 16) /\ at_send 0 (settling 16) /\
  exists m, (16 <= m)%nat /\ forall i, (i < 4)%nat ->
    (exists out, outcome i (settling m) = Some out) \/
    (Nat.eqb 0 i = true /\ at_send i (settling m)) \/
    (exists l d job, waits_for i l (settling m) /\ Nat.eqb 0 d = true /\ at_send d (settling m) /\
       holds d l (settling m) /\ (challenger :: others) !! d = Some job /\ sends_inside job l).
Proof.
  split; [vm_compute; reflexivity|]. split; [eexists _, _; vm_compute; reflexivity|].
  split; [eexists; vm_compute; reflexivity|].
  exact (schedules_settle federated (challenger :: others) (Nat.eqb 0) settling eq_refl settling_fair 16).
Defined.

Theorem unread_reply_stalls_federation_witness :
  let c := play [0; 0; 0; 0; 0]%nat (relay_of federated (challenger :: others)) in
  outcome 1 (play (repeat 1%nat 20 ++ repeat 2%nat 20) c) = None.
Proof.
  intros c.
  refine (proj2 (proj2 (unread_reply_stalls_federation later "peer-auth"
    (mkRelayEnvelope "peer-auth" VNull "" (f64_of_Z 0)) (mkPeerAuth "" "") "secret" [(later, WClose)] others federated
    eq_refl eq_refl eq_refl _ _ eq_refl)) (repeat 1%nat 20 ++ repeat 2%nat 20) _ 0%nat (Task (EvText later "route-advertise"))
    eq_refl _).
  - vm_compute. reflexivity.
  - vm_compute. reflexivity.
  - rewrite list_elem_of_In, in_app_iff. intros [Hin|Hin]; apply repeat_spec in Hin; discriminate.
  - eexists. split; [reflexivity|]. split; [vm_compute; reflexivity|]. left. by split.
Defined.
