(* ===== verification/RelayRaces.v ===== *)
(** * Races between requests (src/relay/src/main.rs)

    Two requests with one nonce at the same moment: at most one of them is
    granted ([replay_loses_every_race]).  A purge and a store at the same moment:
    the message can be left where only this life of the relay finds it
    ([purge_store_race]). *)

From S2P Require Import Prelude Text Files Primitives Concrete Json Gpg Identity RateLimit Threads.
From S2P Require Import Mailbox RelayAuth Federation RelayState Relay RelayProps RelayLink RelayStart RelayInv RelayTable.
From S2P Require Import RelayThreads RelaySchedules.

Section races.
Context `{Sequoia} `{Base64} `{Blake2} `{Hmac} `{Hex} `{Aead} `{Format} `{RelayCodec} `{JsonCodec}.
Context `{HashOrder (list f64)}.

Abbreviation section A := (prog lock RelayState string A).

(** ** Programs that use a nonce once *)

Definition nonces_kept (s s' : RelayState) : Prop := seen_nonce_strs s' = seen_nonce_strs s.

(** The log of nonces is left alone, and the outcome satisfies [F]. *)
Definition hush {A} (F : result string A -> Prop) : section A -> Prop := every (fun _ => True) nonces_kept F.

Definition stale (c : call) (s : RelayState) : bool :=
  existsb (fun e => String.eqb e.1 (c_nonce c)) (logged (c_fp c) (seen_nonce_strs s)).

(** One check of the nonce of [c]; without it, or when the nonce is stale, the
    outcome satisfies [F]. *)
Inductive asks {A} (c : call) (F : result string A -> Prop) : section A -> Prop :=
| asks_ret r : F r -> asks c F (Ret r)
| asks_act u k : (forall s, nonces_kept s (u s)) -> (forall s, asks c F (k s)) -> asks c F (Act u k)
| asks_check u k :
    (forall s, seen_nonce_strs (u s) = record_call (seen_nonce_strs s) c) ->
    (forall s, hush (fun _ => True) (k s)) -> (forall s, stale c s = true -> hush F (k s)) ->
    asks c F (Act u k)
| asks_lock l a p : asks c F p -> asks c F (Lock l a p)
| asks_unlock l p : asks c F p -> asks c F (Unlock l p)
| asks_send p : asks c F p -> asks c F (Send p).

Lemma asks_nonce x fp nonce :
  asks (mkCall (x_nonce_secs x) fp nonce) (fun r => r <> Ok true) (s_check_nonce x fp nonce).
Proof.
  apply asks_check.
  - intros s. unfold check_nonce, record_call. cbn [c_now c_fp c_nonce].
    by destruct (check_and_record_nonce_str _ _ _ _).
  - intros s. by constructor.
  - intros s Hs. constructor. unfold check_nonce, check_and_record_nonce_str. unfold stale, logged in Hs.
    cbn [c_fp c_nonce] in Hs. by rewrite Hs.
Qed.

Lemma hush_weaken {A} (F : result string A -> Prop) p : hush F p -> hush (fun _ => True) p.
Proof. by apply every_impl. Qed.

Lemma hush_after {A B} (F : result string A -> Prop) (F' : result string B -> Prop) p k :
  hush F p -> (forall r, F r -> hush F' (k r)) -> hush F' (after p k).
Proof. apply every_after. Qed.

(** What comes before the check, and what comes after it. *)
Lemma asks_later {A B} c (F : result string A -> Prop) (F' : result string B -> Prop) p k :
  hush F p -> (forall r, F r -> asks c F' (k r)) -> asks c F' (after p k).
Proof. intros Hp Hk. induction Hp; cbn [after]; [by apply Hk|apply asks_act; auto|by constructor..]. Qed.

Lemma asks_first {A B} c (F : result string A -> Prop) (F' : result string B -> Prop) p k :
  asks c F p -> (forall r, hush (fun _ => True) (k r)) -> (forall r, F r -> hush F' (k r)) -> asks c F' (after p k).
Proof.
  intros Hp Ht Hk. assert (Hka : forall r, F r -> asks c F' (k r)).
  { intros r Hr. specialize (Hk r Hr). clear -Hk. induction Hk; [by constructor|apply asks_act; auto|by constructor..]. }
  induction Hp as [r Hr|u q Hu Hq IH|u q Hu Hq Hs|l a p Hp IH|l p Hp IH|p Hp IH]; cbn [after]; [by apply Hka|by constructor| |by constructor..].
  apply asks_check; [exact Hu|..].
  - intros s. eapply hush_after; [apply Hq|]. intros r _. apply Ht.
  - intros s Hst. eapply hush_after; [by apply Hs|exact Hk].
Qed.

Definition failed {A} (r : result string A) : Prop := is_ok r = false.

Lemma asks_then_later {A B} c (F : result string B -> Prop) (p : section A) (k : A -> section B) :
  hush (fun _ => True) p -> (forall a, asks c F (k a)) -> (forall e, F (Err e)) -> asks c F (then_ p k).
Proof. intros Hp Hk He. eapply asks_later; [exact Hp|]. intros [a|e] _; [apply Hk|by constructor]. Qed.

Lemma asks_then_first {A B} c (F : result string B -> Prop) (p : section A) (k : A -> section B) :
  asks c failed p -> (forall a, hush (fun _ => True) (k a)) -> (forall e, F (Err e)) -> asks c F (then_ p k).
Proof.
  intros Hp Hk He. eapply asks_first; [exact Hp|..].
  - intros [a|e]; [apply Hk|by constructor].
  - intros [a|e] Hr; [done|by constructor].
Qed.

(** ** The requests *)

Lemma hush_ret {A} (r : result string A) : hush (fun _ => True) (Ret r).
Proof. by constructor. Qed.
Lemma hush_guard c e : hush (fun _ => True) (guard c e).
Proof. unfold guard. destruct c; by constructor. Qed.
Lemma hush_then {A B} (p : section A) (k : A -> section B) :
  hush (fun _ => True) p -> (forall a, hush (fun _ => True) (k a)) -> hush (fun _ => True) (then_ p k).
Proof. intros Hp Hk. eapply every_then; [exact Hp|intros a _; apply Hk|done]. Qed.
Lemma hush_atom {A} (m : st RelayState string A) :
  (forall s, seen_nonce_strs (m s).1 = seen_nonce_strs s) -> hush (fun _ => True) (atom m).
Proof. intros Hm. apply every_atom; [intros s _; apply Hm|done]. Qed.
Lemma hush_change f : (forall s, seen_nonce_strs (f s) = seen_nonce_strs s) -> hush (fun _ => True) (change_to f).
Proof. intros Hf. apply hush_atom. exact Hf. Qed.
Lemma hush_ask {A} (f : RelayState -> A) : hush (fun _ => True) (ask f).
Proof. by apply hush_atom. Qed.
Lemma hush_locked {A} l a (p : section A) : hush (fun _ => True) p -> hush (fun _ => True) (locked l a p).
Proof. apply every_locked. Qed.
Lemma hush_send {A} (p : section A) : hush (fun _ => True) p -> hush (fun _ => True) (Send p).
Proof. by constructor. Qed.
Lemma hush_answer {A} (a : A) : hush (fun _ => True) (answer a).
Proof. by repeat constructor. Qed.
#[local] Hint Resolve hush_ret hush_guard hush_ask hush_locked hush_answer : hush.

Ltac hush :=
  repeat (first
    [ solve [eauto with hush]
    | apply hush_then; [|intros ?]
    | apply hush_locked
    | apply hush_send
    | apply hush_change; [intros ?; done]
    | progress cbv zeta
    | match goal with |- hush _ (if ?c then _ else _) => destruct c end
    | match goal with |- hush _ (match ?c with _ => _ end) => destruct c end ]).

Lemma hush_gpg x sig data fp provided : hush (fun _ => True) (s_check_gpg x sig data fp provided).
Proof.
  assert (Ha : hush (fun _ => True) (atom (check_gpg x sig data fp ""))).
  { apply hush_atom. intros s. by rewrite gpg_same. }
  unfold s_check_gpg, ret. hush.
Qed.
Lemma hush_store_message x req : hush (fun _ => True) (s_store_message x req).
Proof.
  unfold s_store_message. hush. apply hush_atom. intros s.
  by destruct (insert_statement_cases x req s) as [->|[enc ->]].
Qed.
Lemma hush_fetch_messages x nid : hush (fun _ => True) (s_fetch_messages x nid).
Proof. unfold s_fetch_messages, ret. hush. Qed.
Lemma hush_ack_message x nid sq : hush (fun _ => True) (s_ack_message x nid sq).
Proof. unfold s_ack_message. hush. Qed.
Lemma hush_purge_messages x nid : hush (fun _ => True) (s_purge_all_messages x nid).
Proof. unfold s_purge_all_messages. hush. Qed.
Lemma hush_hmac data provided error : hush (fun _ => True) (atom (require_hmac data provided error)).
Proof. apply hush_atom. intros s. by destruct (require_hmac_spec data provided error s) as (r & -> & _). Qed.
#[local] Hint Resolve hush_gpg hush_store_message hush_fetch_messages hush_ack_message hush_purge_messages hush_hmac : hush.

Lemma asks_authorize x what nid fp sig data cert key time :
  asks (mkCall (x_nonce_secs x) fp key) failed (s_authorize_owner x what nid fp sig data cert key time).
Proof.
  unfold s_authorize_owner. do 4 (apply asks_then_later; [hush|intros ?|done]).
  eapply asks_first; [apply asks_nonce|..].
  - intros [b|er]; hush.
  - intros [[|]|er] Hr; [done|by repeat constructor..].
Qed.

Lemma asks_verify_and_store x r :
  asks (mkCall (x_nonce_secs x) (ms_sender_fp r) (ms_nonce r)) failed (s_verify_and_store x r).
Proof.
  unfold s_verify_and_store, s_verify_store_signature. do 2 (apply asks_then_later; [hush|intros ?|done]).
  eapply asks_first; [apply asks_nonce|..].
  - intros [b|er]; hush.
  - intros [[|]|er] Hr; [done|..]; [|by constructor]. unfold guard, fail. cbn. by constructor.
Qed.

(** ** The texts *)

(** The nonce that a text spends, and under which fingerprint. *)
Definition call_of (x : context) (raw : string) : option call :=
  let spends (fp nonce : string) := Some (mkCall (x_nonce_secs x) fp nonce) in
  let stores (r : MailboxStoreRequest) := spends (ms_sender_fp r) (ms_nonce r) in
  match relay_from_json raw with
  | Err _ => None
  | Ok e =>
      let t := re_type e in
      let p := re_payload e in
      let fp := str_field p "requester_fp" in
      let nonce := str_field p "nonce" in
      if String.eqb t "relay-store" then
        match decode "store request" (store_request_of p) with Ok r => stores r | Err _ => None end
      else if String.eqb t "relay-fetch" then
        match decode "fetch request" (fetch_request_of p) with
        | Ok r => spends (mf_requester_fp r) (mf_requester_fp r +:+ ":" +:+ mf_nonce r)
        | Err _ => None
        end
      else if String.eqb t "relay-ack" then spends fp (fp +:+ ":" +:+ nonce)
      else if String.eqb t "relay-purge" then spends fp ("purge:" +:+ fp +:+ ":" +:+ nonce)
      else if String.eqb t "relay-forward" then
        match decode "relay-forward" (forward_of p) with Ok f => stores (inner_request f) | Err _ => None end
      else None
  end.

(** The request was carried out, and its sender told so. *)
Definition granted (r : result string (list reply)) : Prop :=
  (exists v, r = Ok [ROk v]) \/ (exists x, r = Ok [forward_ack x None]).

Definition denied (r : result string (list reply)) : Prop := ~ granted r.

Lemma denied_error e : denied (Err e).
Proof. by intros [[v E]|[x E]]. Qed.
Lemma denied_reply e : denied (Ok [RError e]).
Proof. by intros [[v E]|[x E]]. Qed.
Lemma denied_ack x e : denied (Ok [forward_ack x (Some e)]).
Proof. by intros [[v E]|[y E]]. Qed.
#[local] Hint Resolve denied_error denied_reply denied_ack : hush.
#[local] Hint Constructors asks : hush.

(** Decoded. *)
Lemma then_decoded {A B} (r : result string A) a (k : A -> section B) : r = Ok a -> then_ (Ret r) k = k a.
Proof. by intros ->. Qed.

Lemma hush_undecoded {A B} (r : result string A) e (k : A -> section B) :
  r = Err e -> hush (fun _ => True) (then_ (Ret r) k).
Proof. intros ->. by constructor. Qed.

Lemma asks_store x p r : decode "store request" (store_request_of p) = Ok r ->
  asks (mkCall (x_nonce_secs x) (ms_sender_fp r) (ms_nonce r)) denied (s_store x p).
Proof.
  intros E. unfold s_store. rewrite (then_decoded _ _ _ E).
  apply asks_then_first; [apply asks_verify_and_store|intros _; unfold ret; hush|auto with hush].
Qed.

Lemma asks_fetch x p r : decode "fetch request" (fetch_request_of p) = Ok r ->
  asks (mkCall (x_nonce_secs x) (mf_requester_fp r) (mf_requester_fp r +:+ ":" +:+ mf_nonce r)) denied (s_fetch x p).
Proof.
  intros E. unfold s_fetch. rewrite (then_decoded _ _ _ E). apply asks_then_later; [hush|intros _|auto with hush].
  apply asks_then_first; [apply asks_authorize|intros _; unfold ret; hush|auto with hush].
Qed.

Lemma asks_ack x p :
  let fp := str_field p "requester_fp" in
  asks (mkCall (x_nonce_secs x) fp (fp +:+ ":" +:+ str_field p "nonce")) denied (s_ack x p).
Proof.
  intros fp. unfold s_ack. apply asks_then_later; [hush|intros _|auto with hush].
  apply asks_then_first; [apply asks_authorize|intros _; unfold ret; hush|auto with hush].
Qed.

Lemma asks_purge x p :
  let fp := str_field p "requester_fp" in
  asks (mkCall (x_nonce_secs x) fp ("purge:" +:+ fp +:+ ":" +:+ str_field p "nonce")) denied (s_purge x p).
Proof.
  intros fp. unfold s_purge. do 2 (apply asks_then_later; [hush|intros _|auto with hush]).
  apply asks_then_first; [apply asks_authorize|intros _; unfold ret; hush|auto with hush].
Qed.

Lemma asks_then_ask {A B} c (F : result string B -> Prop) (f : RelayState -> A) (k : A -> section B) :
  (forall a, asks c F (k a)) -> asks c F (then_ (ask f) k).
Proof. intros Hk. apply asks_act; [done|]. intros s. apply Hk. Qed.

Lemma asks_answer c (rs : list reply) : denied (Ok rs) -> asks c denied (answer rs).
Proof. intros Hd. by repeat constructor. Qed.
#[local] Hint Resolve asks_answer : hush.

(** Whoever is refused under the lock is denied. *)
Lemma hush_refusal x f :
  hush (fun r => forall rs, r = Ok (Some rs) -> denied (Ok rs))
    (locked Federation Reading
      (let* refused := ask (fun s => source_refused f (federation s)) in
       if (refused : bool) then
         answer (Some [forward_ack x (Some "peer not authenticated — HMAC challenge-response required")])
       else ret None)).
Proof.
  apply every_locked. eapply (every_then _ _ (fun _ => True)); [apply hush_ask|intros refused _|done].
  destruct refused; repeat constructor; [|done]. intros rs [= <-]. apply denied_ack.
Qed.

Lemma hush_our_url : hush (fun _ => True) s_our_url.
Proof. unfold s_our_url. hush. Qed.
#[local] Hint Resolve hush_our_url : hush.

Lemma asks_forward x p f : decode "relay-forward" (forward_of p) = Ok f ->
  asks (mkCall (x_nonce_secs x) (ms_sender_fp (inner_request f)) (ms_nonce (inner_request f))) denied (s_forward x p).
Proof.
  intros Ef. unfold s_forward. apply asks_then_ask. intros relays. destruct (negb relays); [auto with hush|].
  rewrite (then_decoded _ _ _ Ef). eapply asks_later; [apply hush_refusal|].
  intros [[rs|]|er] Hr; [constructor; by apply Hr| |auto with hush].
  apply asks_then_later; [hush|intros u|auto with hush]. destruct (bool_decide _); [auto with hush|].
  destruct (_ <=? _); [auto with hush|].
  apply asks_then_first; [apply asks_verify_and_store|intros _; hush|auto with hush].
Qed.

(** What a text does to the log of nonces. *)
Definition spends {A} (o : option call) (F : result string A -> Prop) (p : section A) : Prop :=
  match o with Some c => asks c F p | None => hush (fun _ => True) p end.

Lemma hush_ids : hush (fun _ => True) s_get_local_null_ids.
Proof. unfold s_get_local_null_ids. hush. Qed.
Lemma hush_peer_auth x p : hush (fun _ => True) (s_peer_auth x p).
Proof.
  unfold s_peer_auth, ret. hush. apply hush_atom. intros s. unfold handle_peer_auth, st_bind, st_lift, st_get, st_put.
  by repeat case_match; simplify_eq.
Qed.
Lemma hush_auth_reply x p : hush (fun _ => True) (s_peer_auth_reply x p).
Proof.
  unfold s_peer_auth_reply. hush. apply hush_atom. intros s. unfold handle_peer_auth_reply, st_bind, st_lift, st_get, st_put, st_guard, st_ret, st_fail.
  by repeat case_match; simplify_eq.
Qed.
#[local] Hint Resolve hush_ids hush_peer_auth hush_auth_reply : hush.

Lemma hush_forward x p e : decode "relay-forward" (forward_of p) = Err e -> hush (fun _ => True) (s_forward x p).
Proof.
  intros E. unfold s_forward, ret. apply hush_then; [hush|]. intros relays. destruct (negb relays); [hush|].
  by eapply hush_undecoded.
Qed.

Lemma spends_message x raw e : relay_from_json raw = Ok e -> spends (call_of x raw) denied (s_message x e).
Proof.
  intros E. unfold call_of, s_message. rewrite E. cbv zeta.
  destruct (String.eqb_spec (re_type e) "relay-store") as [_|_].
  { destruct (decode _ _) eqn:Ed; [by apply asks_store|]. unfold s_store. by eapply hush_undecoded. }
  destruct (String.eqb_spec (re_type e) "relay-fetch") as [_|_].
  { destruct (decode _ _) eqn:Ed; [by apply asks_fetch|]. unfold s_fetch. by eapply hush_undecoded. }
  destruct (String.eqb_spec (re_type e) "relay-ack") as [_|_]; [apply asks_ack|].
  destruct (String.eqb_spec (re_type e) "relay-purge") as [Ep|_]; [rewrite Ep; cbn; apply asks_purge|].
  destruct (String.eqb_spec (re_type e) "relay-forward") as [Ef|_].
  { rewrite Ef. cbn -[s_forward decode]. destruct (decode _ _) eqn:Ed; [by apply asks_forward|by eapply hush_forward]. }
  cbn [spends]. unfold s_route_advertise, s_who_has, s_onion, s_send_to_peer, in_federation, ret, fail. hush.
Qed.

Lemma spends_text x raw : spends (call_of x raw) denied (s_text x raw).
Proof.
  unfold s_text. destruct (relay_from_json raw) as [e|er] eqn:E.
  2: { unfold call_of. rewrite E. apply hush_answer. }
  pose proof (spends_message x raw e E) as Hm. destruct (f64_gtb _ _).
  { destruct (call_of x raw); cbn [spends]; [auto with hush|apply hush_answer]. }
  destruct (call_of x raw) as [c|]; cbn [spends] in Hm |- *.
  - eapply asks_first; [exact Hm|intros r; unfold ret; hush|]. intros [rs|er] Hr; [by constructor|].
    repeat constructor. apply denied_reply.
  - eapply hush_after; [exact Hm|]. intros [rs|er] _; [apply hush_ret|apply hush_answer].
Qed.

(** ** The contested nonce *)

Section contested.
Variables (fp nonce : string) (calls : list (option call)).

Definition contests (o : option call) : Prop := exists c, o = Some c /\ c_fp c = fp /\ c_nonce c = nonce.

(** The calls that were not made yet. *)
Abbreviation waiting os := (calls_of fp (omap id os)).

(** Where thread [i] stands: its call is still to be made, or was made; then, if
    it contests the nonce, it has won or is denied. *)
Definition lot (won : option nat) (i : nat) (c o : option call) (p : section (list reply)) : Prop :=
  match o with
  | Some c' => c = Some c' /\ asks c' denied p
  | None => hush (fun _ => True) p /\ (contests c -> won = Some i \/ hush denied p)
  end.

Definition lots (won : option nat) (os : list (option call)) (ps : list (section (list reply))) : Prop :=
  forall i p, ps !! i = Some p ->
    exists c o, calls !! i = Some c /\ os !! i = Some o /\ lot won i c o p.

(** Whoever won is remembered, with room for all that are still to come. *)
Definition room (won : option nat) (os : list (option call)) (m : str_nonces) : Prop :=
  match won with
  | None => (waiting os <= 500)%nat
  | Some i => exists c k, calls !! i = Some (Some c) /\ os !! i = Some None /\ c_fp c = fp /\ c_nonce c = nonce /\
                remembered fp nonce (c_now c) k m /\ (k + waiting os <= 499)%nat
  end.

Definition fair (s : RelayState) (ps : list (section (list reply))) : Prop :=
  (length (logged fp (seen_nonce_strs s)) <= 1000)%nat /\
  exists won os, lots won os ps /\ room won os (seen_nonce_strs s).

Lemma waiting_cons o os :
  waiting (o :: os) = ((match o with Some c => if String.eqb (c_fp c) fp then 1 else 0 | None => 0 end) + waiting os)%nat.
Proof.
  destruct o as [c|]; [|done]. unfold calls_of. change (omap id (Some c :: os)) with (c :: omap id os).
  cbn [List.filter]. by destruct (String.eqb _ _).
Qed.

Lemma waiting_made i c os : os !! i = Some (Some c) ->
  (waiting (<[i := None]> os) + (if String.eqb (c_fp c) fp then 1 else 0) = waiting os)%nat.
Proof.
  revert i. induction os as [|o os IH]; intros i Hi; [done|]. destruct i as [|i]; cbn in Hi.
  - injection Hi as ->. change (<[0%nat := None]> (Some c :: os)) with (None :: os). rewrite !waiting_cons. lia.
  - change (<[S i := None]> (o :: os)) with (o :: <[i := None]> os). rewrite !waiting_cons. specialize (IH i Hi). lia.
Qed.

Lemma lots_insert won os ps i p p' c o :
  lots won os ps -> ps !! i = Some p -> calls !! i = Some c -> os !! i = Some o ->
  lot won i c o p' -> lots won os (<[i := p']> ps).
Proof.
  intros Hl Hp Hc Ho Hp' j q. destruct (decide (j = i)) as [->|Hne].
  - rewrite list_lookup_insert_eq by by eapply lookup_lt_Some. intros [= <-]. by exists c, o.
  - rewrite list_lookup_insert_ne by done. apply Hl.
Qed.

(** A section that makes no call. *)
Lemma fair_quiet s s' ps i p p' :
  fair s ps -> ps !! i = Some p -> nonces_kept s s' ->
  (forall won c o, lot won i c o p -> lot won i c o p') -> fair s' (<[i := p']> ps).
Proof.
  intros (Hb & won & os & Hl & Hr) Hp Hs Hlot. split; [by rewrite Hs|]. exists won, os. split; [|by rewrite Hs].
  destruct (Hl i p Hp) as (c & o & Hc & Ho & Hio). eapply lots_insert; eauto.
Qed.

(** A section that makes its call. *)
Lemma lots_called won won' os ps i p p' c :
  lots won os ps -> ps !! i = Some p -> calls !! i = Some (Some c) -> os !! i = Some (Some c) ->
  (won = won' \/ won = None) -> lot won' i (Some c) None p' -> lots won' (<[i := None]> os) (<[i := p']> ps).
Proof.
  intros Hl Hp Hc Ho Hw Hp' j q. destruct (decide (j = i)) as [->|Hne].
  - rewrite !list_lookup_insert_eq by by eapply lookup_lt_Some. intros [= <-]. by exists (Some c), None.
  - rewrite !list_lookup_insert_ne by done. intros Hj. destruct (Hl j q Hj) as (cj & oj & Hcj & Hoj & Hlot).
    exists cj, oj. split_and!; [done|done|]. destruct oj as [c'|]; [exact Hlot|]. destruct Hlot as [Hh Hd].
    split; [done|]. intros Hcon. destruct Hw as [<-| ->]; [by apply Hd|]. destruct (Hd Hcon) as [?|?]; [done|by right].
Qed.

Lemma lot_act won i c o u k s :
  lot won i c o (Act u k) ->
  (nonces_kept s (u s) /\ lot won i c o (k s)) \/
  (exists c', o = Some c' /\ c = Some c' /\ seen_nonce_strs (u s) = record_call (seen_nonce_strs s) c' /\
     hush (fun _ => True) (k s) /\ (stale c' s = true -> hush denied (k s))).
Proof.
  destruct o as [c'|]; cbn [lot].
  - intros [-> Ha]. inversion Ha as [|? ? Hu Hk|? ? Hu Hk Hd| | |]; subst; [left; by split; [|split]|]. right. exists c'.
    split_and!; [done|done|apply Hu|apply Hk|apply Hd].
  - intros [Hh Hd]. left. inversion Hh as [|? ? Hu Hk| | |]; subst. split; [by apply Hu|]. split; [by apply Hk|].
    intros Hcon. destruct (Hd Hcon) as [->|Hhd]; [by left|]. right. inversion Hhd as [|? ? _ Hkd| | |]; subst. by apply Hkd.
Qed.

Lemma lot_lock won i c o l a p : lot won i c o (Lock l a p) -> lot won i c o p.
Proof.
  destruct o as [c'|]; cbn [lot]; [intros [-> Ha]; by inversion Ha|].
  intros [Hh Hd]. inversion Hh; subst. split; [done|]. intros Hcon. destruct (Hd Hcon) as [->|Hhd]; [by left|].
  right. by inversion Hhd.
Qed.
Lemma lot_unlock won i c o l p : lot won i c o (Unlock l p) -> lot won i c o p.
Proof.
  destruct o as [c'|]; cbn [lot]; [intros [-> Ha]; by inversion Ha|].
  intros [Hh Hd]. inversion Hh; subst. split; [done|]. intros Hcon. destruct (Hd Hcon) as [->|Hhd]; [by left|].
  right. by inversion Hhd.
Qed.

Lemma lot_send won i c o p : lot won i c o (Send p) -> lot won i c o p.
Proof.
  destruct o as [c'|]; cbn [lot]; [intros [-> Ha]; by inversion Ha|].
  intros [Hh Hd]. inversion Hh; subst. split; [done|]. intros Hcon. destruct (Hd Hcon) as [->|Hhd]; [by left|].
  right. by inversion Hhd.
Qed.

(** All who claim the fingerprint have clocks at most 300 seconds apart. *)
Hypothesis near : forall c c', Some c ∈ calls -> Some c' ∈ calls -> c_fp c = fp -> c_fp c' = fp ->
  c_now c' <= c_now c + STORE_TIMESTAMP_TOLERANCE_SECS.

Lemma remembered_more t k k' m : (k <= k')%nat -> remembered fp nonce t k m -> remembered fp nonce t k' m.
Proof. intros Hk (pre & post & E & Hp & Hl). exists pre, post. split_and!; [done|lia|done]. Qed.

Lemma room_called i j c os m :
  room (Some j) os m -> calls !! i = Some (Some c) -> os !! i = Some (Some c) ->
  room (Some j) (<[i := None]> os) (record_call m c).
Proof.
  intros (cj & k & Hj & Hoj & Hf & Hn & Hr & Hk) Hi Ho. pose proof (waiting_made i c os Ho) as Hw.
  assert (Hne : j <> i) by congruence.
  exists cj, (if String.eqb (c_fp c) fp then S k else k). split_and!; [done|by rewrite list_lookup_insert_ne|done|done|..].
  - destruct (String.eqb_spec (c_fp c) fp) as [E|E].
    + pose proof (remembered_step fp nonce (c_now cj) k m c Hr) as Hs. rewrite E, String.eqb_refl in Hs.
      apply Hs; [|lia]. apply near; try done; by eapply list_elem_of_lookup_2.
    + destruct Hr as (pre & post & El & Hp & Hlen). exists pre, post. by rewrite (record_call_other m c fp (not_eq_sym E)).
  - destruct (String.eqb _ _); lia.
Qed.

Lemma fair_called s ps i p c won os u k :
  (length (logged fp (seen_nonce_strs s)) <= 1000)%nat -> lots won os ps -> room won os (seen_nonce_strs s) ->
  ps !! i = Some p -> calls !! i = Some (Some c) -> os !! i = Some (Some c) ->
  seen_nonce_strs (u s) = record_call (seen_nonce_strs s) c ->
  hush (fun _ => True) (k s) -> (stale c s = true -> hush denied (k s)) ->
  fair (u s) (<[i := k s]> ps).
Proof.
  intros Hb Hl Hr Hp Hc Ho Hu Hh Hd. split; [rewrite Hu; by apply record_call_bounded|]. rewrite Hu.
  pose proof (waiting_made i c os Ho) as Hw. destruct (stale c s) eqn:Est.
  { exists won, (<[i := None]> os). split.
    - eapply lots_called; eauto. split; [done|]. intros _. right. by apply Hd.
    - destruct won as [j|]; [by apply room_called|]. cbn [room] in *. lia. }
  destruct (decide (c_fp c = fp /\ c_nonce c = nonce)) as [[Ef En]|Hother].
  - destruct won as [j|].
    + destruct Hr as (cj & kj & _ & _ & _ & _ & Hr & _). apply remembered_seen in Hr. unfold stale in Est. rewrite Ef, En in Est. congruence.
    + rewrite Ef, String.eqb_refl in Hw. cbn [room] in Hr. exists (Some i), (<[i := None]> os). split.
      * eapply lots_called; eauto. split; [done|]. intros _. by left.
      * exists c, 0%nat. split_and!; [done|by rewrite list_lookup_insert_eq by by eapply lookup_lt_Some|done|done| |lia].
        pose proof (fresh_remembered (seen_nonce_strs s) c Est) as Hfr. rewrite Ef, En in Hfr. by apply Hfr.
  - exists won, (<[i := None]> os). split.
    + eapply lots_called; eauto. split; [done|]. intros (c' & [= <-] & Hcon). by destruct Hother.
    + destruct won as [j|]; [by apply room_called|]. cbn [room] in *. lia.
Qed.

Lemma turn_fair cfg i : fair (shared cfg) (pool cfg) -> fair (shared (turn cfg i)) (pool (turn cfg i)).
Proof.
  intros Hf. unfold turn, advance. destruct (pool cfg !! i) as [p|] eqn:Ei; [|exact Hf].
  cbn [mbind option_bind]. destruct p as [r|u k|l a p|l p|p]; cbn [opt_or]; [exact Hf|..].
  - cbn [shared pool]. pose proof Hf as (Hb & won & os & Hl & Hr). destruct (Hl i _ Ei) as (c & o & Hc & Ho & Hlot).
    destruct (lot_act _ _ _ _ _ _ (shared cfg) Hlot) as [[Hq Hlot']|(c' & -> & -> & Hu & Hh & Hd)].
    + split; [by rewrite Hq|]. exists won, os. split; [|by rewrite Hq]. by eapply lots_insert.
    + by eapply fair_called.
  - destruct (may_enter _ _ _); [|exact Hf]. eapply fair_quiet; [exact Hf|exact Ei|done|]. intros w c o. apply lot_lock.
  - eapply fair_quiet; [exact Hf|exact Ei|done|]. intros w c o. apply lot_unlock.
  - eapply fair_quiet; [exact Hf|exact Ei|done|]. intros w c o. apply lot_send.
Qed.

Lemma play_fair sched : forall cfg,
  fair (shared cfg) (pool cfg) -> fair (shared (play sched cfg)) (pool (play sched cfg)).
Proof. induction sched as [|i sched IH]; intros cfg Hf; [done|]. cbn [play foldl]. by apply IH, turn_fair. Qed.

(** Who is granted the contested nonce has won. *)
Lemma fair_winner s ps : fair s ps -> exists won, forall i c r,
  calls !! i = Some c -> contests c -> ps !! i = Some (Ret r) -> granted r -> won = Some i.
Proof.
  intros (_ & won & os & Hl & _). exists won. intros i c r Hc Hcon Hp Hg.
  destruct (Hl i _ Hp) as (c' & o & Hc' & _ & Hlot). assert (c' = c) as -> by congruence.
  destruct o as [co|]; cbn [lot] in Hlot.
  - destruct Hlot as [_ Ha]. inversion Ha as [? Hden| | | | |]; subst. by destruct Hden.
  - destruct (proj2 Hlot Hcon) as [?|Hden]; [done|]. inversion Hden as [? Hnot| | | |]; subst. by destruct Hnot.
Qed.
End contested.

(** ** Who is granted a nonce *)

Definition event_call (e : relay_event) : option call :=
  match e with EvText x raw => call_of x raw | _ => None end.

Lemma single_nonces e s : single e = true -> nonces_kept s (relay_step s e).
Proof.
  unfold nonces_kept.
  destruct e as [x raw|now x ip|fp|x|now|x|connect x u|sent u|x u raw]; cbn [single relay_step]; try done; intros _.
  - unfold admit_peer. repeat case_match; by simplify_eq.
  - unfold connect_to_peer, st_bind, st_lift, st_modify. by case_match.
  - unfold pump. repeat case_match; by simplify_eq.
  - unfold peer_text. by repeat case_match.
Qed.

Lemma hush_send_all m us : hush (fun _ => True) (s_send_all m us).
Proof. induction us as [|u us IH]; cbn [s_send_all]; unfold s_send_to_peer, ret; hush. Qed.

Lemma spends_task e : spends (event_call e) denied (s_task e).
Proof.
  destruct e as [x raw|now x ip|fp|x|now|x|connect x u|sent u|x u raw]; cbn [event_call s_task spends]; unfold ret;
    try (apply hush_then; [apply hush_change; intros z; by apply single_nonces|intros _; hush]).
  - apply spends_text.
  - unfold s_cleanup_expired. hush.
  - unfold s_gossip, in_federation, ret. hush. apply hush_send_all.
  - unfold in_federation. hush. apply hush_change. intros z. by apply (single_nonces (EvConnect connect x u)).
  - unfold s_peer_text, in_federation, ret. hush. apply hush_change. intros z. by apply (single_nonces (EvPeer x u raw)).
Qed.

(** C8: a replay loses every race.  Two requests with one nonce of one
    fingerprint arrive at the same moment, among any others and beside the tasks
    of the relay.  Whatever the schedule, at most one of them is granted: of two
    that were, each is the other.  The clocks of the requests of that
    fingerprint may be 300 seconds apart, and there may be 500 of them. *)
Theorem replay_loses_every_race (fp nonce : string) (es : list relay_event) (sched : list nat) (s : RelayState)
    (i j : nat) (ci cj : call) (ri rj : result string (list reply)) :
  let calls := event_call <$> es in
  let cfg := play sched (relay_of s (Task <$> es)) in
  (length (logged fp (seen_nonce_strs s)) <= 1000)%nat ->
  (calls_of fp (omap id calls) <= 500)%nat ->
  (forall c c', Some c ∈ calls -> Some c' ∈ calls -> c_fp c = fp -> c_fp c' = fp ->
     c_now c' <= c_now c + STORE_TIMESTAMP_TOLERANCE_SECS) ->
  calls !! i = Some (Some ci) -> c_fp ci = fp -> c_nonce ci = nonce ->
  calls !! j = Some (Some cj) -> c_fp cj = fp -> c_nonce cj = nonce ->
  outcome i cfg = Some ri -> granted ri -> outcome j cfg = Some rj -> granted rj ->
  i = j.
Proof.
  intros calls cfg Hlog Hn Hnear Hi Hfi Hni Hj Hfj Hnj Ei Gi Ej Gj.
  assert (Hf : fair fp nonce calls (shared cfg) (pool cfg)).
  { apply (play_fair fp nonce calls Hnear). split; [exact Hlog|]. exists None, calls. split; [|exact Hn].
    intros k p. unfold relay_of, start. cbn [pool]. rewrite !list_lookup_fmap.
    destruct (es !! k) as [e|] eqn:Ek; [|done]. intros [= <-]. exists (event_call e), (event_call e).
    unfold calls. rewrite list_lookup_fmap, Ek. split_and!; [done|done|]. pose proof (spends_task e) as Hs.
    destruct (event_call e) as [c|]; cbn [lot]; [done|]. split; [exact Hs|]. by intros (? & ? & _). }
  destruct (fair_winner _ _ _ _ _ Hf) as [won Hw].
  assert (Hout : forall k r, outcome k cfg = Some r -> pool cfg !! k = Some (Ret r)).
  { intros k r. unfold outcome. destruct (pool cfg !! k) as [[]|]; congruence. }
  pose proof (Hw i _ ri Hi ltac:(by exists ci) (Hout _ _ Ei) Gi) as E1.
  pose proof (Hw j _ rj Hj ltac:(by exists cj) (Hout _ _ Ej) Gj) as E2. congruence.
Qed.

(** ** A purge and a store *)

Lemma insert_statement_ok x req s rows :
  db_pool s = Some rows -> x_db x = true -> slen (ms_sender_nid req) + slen (ms_sender_fp req) + 1 < 2 ^ 32 ->
  exists enc, insert_statement x req s =
    (insert_row (mkRow (ms_recipient_nid req) (entry_of (x_secs x) req) false enc) s, Ok tt).
Proof.
  intros Hr Hx Hl. unfold insert_statement, st_bind, st_modify, st_get, st_lift, st_guard. rewrite Hr.
  match goal with |- context [encrypt_metadata ?iv ?t ?k] => destruct (encrypt_metadata_total iv t k) as [enc ->] end.
  { rewrite slen_app. unfold slen at 2. cbn [String.length]. fold (slen (ms_sender_fp req)). unfold slen in *. lia. }
  cbn [ok_or]. rewrite Hx. by exists enc.
Qed.

(** Into a mailbox that is not there. *)
Lemma store_into_none t req s :
  mailboxes s !! ms_recipient_nid req = None ->
  mailboxes (store_in_memory t req s) !! ms_recipient_nid req = Some (mkMailbox [entry_of t req] MAX_MAILBOX_SIZE).
Proof. intros Hm. unfold store_in_memory, set_mail. cbn [mailboxes]. by rewrite lookup_insert_eq, Hm. Qed.

Lemma fetch_none_pending y nid s rows mb :
  db_pool s = Some rows -> pending nid rows = [] -> mailboxes s !! nid = Some mb ->
  fetch_messages y nid s = Mailbox.fetch (x_secs y) mb.
Proof.
  intros Hr Hp Hm. unfold fetch_messages. rewrite Hr, Hm. destruct (x_db y); [|done].
  pose proof (select_rows_perm nid rows) as E. rewrite Hp in E. by apply Permutation_nil_r in E as ->.
Qed.

Lemma fetch_after_restart y nid s rows :
  db_pool s = Some rows -> pending nid rows = [] -> mailboxes s = ∅ -> fetch_messages y nid s = [].
Proof.
  intros Hr Hp Hm. unfold fetch_messages. rewrite Hr, Hm, lookup_empty. destruct (x_db y); [|done].
  pose proof (select_rows_perm nid rows) as E. rewrite Hp in E. by apply Permutation_nil_r in E as ->.
Qed.

(** The purge gives the lock back between the mailbox and the table. *)
Definition store_between : list nat := [0; 0; 0; 1; 1; 1; 1; 0]%nat.

Lemma store_between_runs x y req s rows enc :
  let nid := ms_recipient_nid req in
  let s1 := store_in_memory (x_secs y) req (set_mail (delete nid (mailboxes s)) (db_pool s) s) in
  let s2 := insert_row (mkRow nid (entry_of (x_secs y) req) false enc) s1 in
  let s3 := set_mail (mailboxes s2) (on_rows (x_db x) (List.filter (fun w => negb (String.eqb (r_recipient w) nid))) (db_pool s2)) s2 in
  db_pool s = Some rows -> insert_statement y req s1 = (s2, Ok tt) ->
  play store_between (start s [s_purge_all_messages x nid; s_store_message y req]) =
  mkConfig s3 [] [Ret (Ok tt); Ret (Ok tt)].
Proof.
  intros nid s1 s2 s3 Hr Hi. subst nid s1 s2 s3. unfold s_purge_all_messages, s_store_message, locked, change_to, then_, atom, st_modify.
  cbn -[insert_statement store_in_memory on_rows]. change (bool_decide (Mailboxes = Mailboxes)) with true.
  cbn -[insert_statement store_in_memory on_rows]. rewrite !Hi. by change (bool_decide (Mailboxes = Mailboxes)) with true.
Qed.

Lemma fetch_one y nid s rows e :
  db_pool s = Some rows -> pending nid rows = [e] -> x_db y = true -> fetch_messages y nid s = [e].
Proof.
  intros Hr Hp Hy. rewrite (fetch_rows y nid s rows Hr Hy) by by rewrite Hp.
  pose proof (select_rows_perm nid rows) as E. rewrite Hp in E. by apply Permutation_singleton_r in E.
Qed.

(** A purge, then a store. *)
Lemma purged_then_stored x y req s rows :
  let nid := ms_recipient_nid req in
  db_pool s = Some rows -> x_db x = true -> x_db y = true ->
  slen (ms_sender_nid req) + slen (ms_sender_fp req) + 1 < 2 ^ 32 ->
  exists rows', db_pool (store_message y req (purge_all_messages x nid s)).1 = Some rows' /\
    pending nid rows' = [entry_of (x_secs y) req].
Proof.
  intros nid Hr Hx Hy Hl. set (s0 := purge_all_messages x nid s).
  assert (Hr0 : db_pool s0 = Some (List.filter (fun w => negb (String.eqb (r_recipient w) nid)) rows)).
  { unfold s0, purge_all_messages, set_mail. cbn [db_pool]. unfold on_rows. by rewrite Hr, Hx. }
  destruct (insert_statement_ok y req (store_in_memory (x_secs y) req s0) _ Hr0 Hy Hl) as [enc Hi].
  assert (Hs : store_message y req s0 = (insert_row (mkRow nid (entry_of (x_secs y) req) false enc) (store_in_memory (x_secs y) req s0), Ok tt))
    by exact Hi.
  rewrite Hs. destruct (table_has_no_cap y req s0 _ _ Hr0 Hs) as (rows' & Hr' & Hp). exists rows'. split; [exact Hr'|].
  etrans; [exact Hp|]. unfold pending. by rewrite purge_same.
Qed.

(** What the race leaves. *)
Lemma race_left_over x y req s rows :
  let nid := ms_recipient_nid req in
  db_pool s = Some rows -> x_db x = true -> x_db y = true ->
  slen (ms_sender_nid req) + slen (ms_sender_fp req) + 1 < 2 ^ 32 ->
  exists t rows', play store_between (start s [s_purge_all_messages x nid; s_store_message y req]) =
      mkConfig t [] [Ret (Ok tt); Ret (Ok tt)] /\
    db_pool t = Some rows' /\ pending nid rows' = [] /\
    mailboxes t !! nid = Some (mkMailbox [entry_of (x_secs y) req] MAX_MAILBOX_SIZE).
Proof.
  intros nid Hr Hx Hy Hlen.
  set (s1 := store_in_memory (x_secs y) req (set_mail (delete nid (mailboxes s)) (db_pool s) s)).
  destruct (insert_statement_ok y req s1 rows Hr Hy Hlen) as [enc Hi].
  eexists _, _. split_and!; [exact (store_between_runs x y req s rows enc Hr Hi)|..].
  - unfold set_mail, insert_row. cbn [db_pool]. change (db_pool s1) with (db_pool s). unfold on_rows. rewrite Hr, Hx. done.
  - unfold pending. by rewrite purge_same.
  - apply store_into_none, lookup_delete_eq.
Qed.

(** C10: a message that is stored while its recipient purges can be left in the
    memory of the relay alone.  The purge empties the mailbox and gives the lock
    back, the store puts the message into both, the purge deletes it from the
    table.  Both report success.  The recipient is handed the message as long as
    the relay lives, for seven days at most; after a restart on the same table
    it is gone.  Neither order of the two does this: after a store and a purge
    nothing is fetched, after a purge and a store the message is fetched, also
    after a restart. *)
Theorem purge_store_race (x y z : context) (req : MailboxStoreRequest) (s : RelayState) (rows : list row) :
  let nid := ms_recipient_nid req in
  let e := entry_of (x_secs y) req in
  db_pool s = Some rows -> x_db x = true -> x_db y = true -> x_db z = true -> live (x_secs z) e = true ->
  slen (ms_sender_nid req) + slen (ms_sender_fp req) + 1 < 2 ^ 32 ->
  let c := play store_between (start s [s_purge_all_messages x nid; s_store_message y req]) in
  let stored_first := purge_all_messages x nid (store_message y req s).1 in
  let purged_first := (store_message y req (purge_all_messages x nid s)).1 in
  let fetched t := fetch_messages z nid t in
  let restarted t t' := mailboxes t' = ∅ /\ db_pool t' = db_pool t in
  outcome 0 c = Some (Ok tt) /\ outcome 1 c = Some (Ok tt) /\
  fetched (shared c) = [e] /\ (forall t', restarted (shared c) t' -> fetched t' = []) /\
  fetched stored_first = [] /\
  fetched purged_first = [e] /\ (forall t', restarted purged_first t' -> fetched t' = [e]).
Proof.
  intros nid e Hr Hx Hy Hz Hlive Hlen c stored_first purged_first fetched restarted.
  destruct (race_left_over x y req s rows Hr Hx Hy Hlen) as (t & rows' & Ec & Ht & Hp & Hm).
  change (c = mkConfig t [] [Ret (Ok tt); Ret (Ok tt)]) in Ec. rewrite Ec. unfold outcome. cbn [shared pool].
  split_and!; [done|done|..].
  - unfold fetched. rewrite (fetch_none_pending z nid t rows' _ Ht Hp Hm).
    change (List.filter (live (x_secs z)) [e] = [e]). cbn [List.filter]. by rewrite Hlive.
  - intros t' [Hm' Hr']. unfold fetched. eapply fetch_after_restart; [by rewrite Hr'|done|done].
  - by apply purge_fetch_same.
  - destruct (purged_then_stored x y req s rows Hr Hx Hy Hlen) as (rows2 & Hr2 & Hp2). by eapply fetch_one.
  - intros t' [_ Hr']. destruct (purged_then_stored x y req s rows Hr Hx Hy Hlen) as (rows2 & Hr2 & Hp2).
    eapply fetch_one; [by rewrite Hr'|done|done].
Qed.
End races.

(** ** Concrete races *)

#[local] Existing Instances toy_sequoia toy_base64 toy_blake2 toy_hmac toy_hex toy_aead toy_hkdf toy_format
  toy_json.

(** Everything that arrives is the sealed message. *)
#[local] Instance racing_relay : RelayCodec := {|
  store_request_of := @store_request_of toy_relay; fetch_request_of := @fetch_request_of toy_relay;
  route_count_of := @route_count_of toy_relay; who_has_of := @who_has_of toy_relay;
  peer_auth_of := @peer_auth_of toy_relay; peer_auth_reply_of := @peer_auth_reply_of toy_relay;
  forward_of := toy_forward_of; forward_value := toy_forward_value; relay_to_json := re_type;
  relay_from_json := fun t => Ok (mkRelayEnvelope t sealed_value "" (f64_of_Z 100));
  forward_of_value := toy_forward_of_value |}.

#[local] Instance racing_order : HashOrder (list f64) := list_order _.

Definition twice : list relay_event :=
  [EvText sample_context "relay-store"; EvText sample_context "relay-store"; EvCleanup sample_context].

Lemma one_of_two {A} (c o : A) : Some o ∈ [Some c; Some c; None] -> o = c.
Proof. set_solver. Qed.

Definition racing_turns : list nat := [2; 0; 1; 0; 0; 2; 0; 0; 2; 2; 2; 0; 0; 0; 0; 0; 1; 1; 1; 1; 1; 1]%nat.

Theorem replay_loses_every_race_witness :
  let cfg := play racing_turns (relay_of victim_state (Task <$> twice)) in
  outcome 0 cfg = Some (Ok [ROk None]) /\ forall r, outcome 1 cfg = Some r -> granted r -> False.
Proof.
  intros cfg. assert (E0 : outcome 0 cfg = Some (Ok [ROk None])) by (vm_compute; reflexivity). split; [exact E0|].
  intros r E1 Hr. enough (0 = 1)%nat by discriminate.
  pose (c := mkCall (x_nonce_secs sample_context) "FRIEND" "n3").
  assert (Ec : event_call <$> twice = [Some c; Some c; None]) by (vm_compute; reflexivity).
  apply (replay_loses_every_race "FRIEND" "n3" twice racing_turns victim_state 0 1 c c (Ok [ROk None]) r);
    rewrite ?Ec; first [exact E0 | exact E1 | exact Hr | reflexivity | idtac].
  - vm_compute. lia.
  - vm_compute. lia.
  - intros a b Ha Hb _ _.
    apply one_of_two in Ha as ->. apply one_of_two in Hb as ->. unfold STORE_TIMESTAMP_TOLERANCE_SECS. lia.
  - left. by exists None.
Defined.

Theorem purge_store_race_witness :
  let c := play store_between (start victim_state
             [s_purge_all_messages sample_context victim_nid; s_store_message sample_context sealed_request]) in
  fetch_messages sample_context victim_nid (shared c) = [entry_of (x_secs sample_context) sealed_request] /\
  fetch_messages sample_context victim_nid (set_mail ∅ (db_pool (shared c)) (shared c)) = [].
Proof.
  destruct (purge_store_race sample_context sample_context sample_context sealed_request victim_state _
    eq_refl eq_refl eq_refl eq_refl eq_refl) as (_ & _ & Hf & Hr & _); [vm_compute; reflexivity|].
  split; [exact Hf|]. exact (Hr (set_mail ∅ _ _) (conj eq_refl eq_refl)).
Defined.
