(* ===== verification/Handshake.v ===== *)
(** * The peer-to-peer handshake (src/p2p/src/handshake.rs, protocol.rs)

    The envelopes of the protocol, the exchange of a [p2p-hello] and a
    [p2p-hello-ack], each with a proof of work, and what the two ends learn.
    Random nonces, identifiers and the clock are arguments; the connection is
    the outcome of each send and each receive. *)

From S2P Require Import Prelude Text Primitives Concrete Constants Json Pow Braid Envelope.

(** Source: p2p/src/lib.rs:22-48, P2pError. *)
Inductive P2pError : Type :=
| Connection (e : string)
| InvalidAddress (e : string)
| SerializationError (e : string)
| HandshakeError (e : string)
| PeerError (e : string)
| NatError (e : string)
| Timeout
| Io (e : string).

(** [json!] of an [f64]: infinities and NaN become [null]. *)
Definition json_f64 (x : f64) : value := if f64_finite x then VNumber (Float x) else VNull.

(** The random identifier and the time of an envelope that is built. *)
Record stamp : Type := mkStamp { st_uuid : Z; st_now : f64 }.

(** ** Messages (protocol.rs) *)

(** The envelope of a builder. Source: p2p/src/protocol.rs:77-89, build_p2p_hello. *)
Definition p2p_envelope (st : stamp) (t : string) (m : list (string * value)) : WireEnvelope :=
  {| msg_type := t; payload := VObject m; msg_id := Envelope.uuid_hex (st_uuid st);
     ts := st_now st; sig := "" |}.

(** Source: p2p/src/protocol.rs:66-90, build_p2p_hello. *)
Definition build_p2p_hello (st : stamp) (public_key_b64 : string) (nonce pow_bits : Z)
    (kyber_enc_key_b64 sealed_identity : string) : WireEnvelope :=
  p2p_envelope st MSG_P2P_HELLO
    [("public_key", VString public_key_b64); ("nonce", json_int nonce);
     ("pow_bits", json_int pow_bits); ("kyber_enc_key", VString kyber_enc_key_b64);
     ("sealed_identity", VString sealed_identity)].

(** Source: p2p/src/protocol.rs:92-107, build_p2p_hello_signed. *)
Definition build_p2p_hello_signed (st : stamp) (public_key_b64 : string) (nonce pow_bits : Z)
    (kyber_enc_key_b64 sealed_identity signature : string) : WireEnvelope :=
  set_signature
    (build_p2p_hello st public_key_b64 nonce pow_bits kyber_enc_key_b64 sealed_identity) signature.

(** Source: p2p/src/protocol.rs:109-137, build_p2p_hello_ack. *)
Definition build_p2p_hello_ack (st : stamp) (public_key_b64 : string) (nonce pow_bits : Z)
    (server_challenge kyber_enc_key_b64 : string) : WireEnvelope :=
  p2p_envelope st MSG_P2P_HELLO_ACK
    [("public_key", VString public_key_b64); ("nonce", json_int nonce);
     ("pow_bits", json_int pow_bits); ("server_challenge", VString server_challenge);
     ("kyber_enc_key", VString kyber_enc_key_b64)].

(** Source: p2p/src/protocol.rs:139-154, build_p2p_hello_ack_signed. *)
Definition build_p2p_hello_ack_signed (st : stamp) (public_key_b64 : string) (nonce pow_bits : Z)
    (server_challenge kyber_enc_key_b64 signature : string) : WireEnvelope :=
  set_signature
    (build_p2p_hello_ack st public_key_b64 nonce pow_bits server_challenge kyber_enc_key_b64)
    signature.

(** Source: p2p/src/protocol.rs:156-174, build_p2p_message. *)
Definition build_p2p_message (st : stamp) (seq : Z) (ciphertext_b64 msg_hash : string)
  : WireEnvelope :=
  p2p_envelope st MSG_P2P_MESSAGE
    [("seq", json_int seq); ("ciphertext", VString ciphertext_b64); ("msg_hash", VString msg_hash)].

(** Source: p2p/src/protocol.rs:176-189, build_p2p_message_signed. *)
Definition build_p2p_message_signed (st : stamp) (seq : Z)
    (ciphertext_b64 msg_hash signature : string) : WireEnvelope :=
  set_signature (build_p2p_message st seq ciphertext_b64 msg_hash) signature.

(** Source: p2p/src/protocol.rs:191-204, build_p2p_ack. *)
Definition build_p2p_ack (st : stamp) (seq : Z) (msg_hash : string) : WireEnvelope :=
  p2p_envelope st MSG_P2P_ACK [("seq", json_int seq); ("msg_hash", VString msg_hash)].

(** Source: p2p/src/protocol.rs:206-218, build_p2p_ack_signed. *)
Definition build_p2p_ack_signed (st : stamp) (seq : Z) (msg_hash signature : string)
  : WireEnvelope :=
  set_signature (build_p2p_ack st seq msg_hash) signature.

(** Source: p2p/src/protocol.rs:220-230, build_p2p_ping. *)
Definition build_p2p_ping (st : stamp) : WireEnvelope := p2p_envelope st MSG_P2P_PING [].

(** A [Vec<u8>] in [json!]: the array of its bytes. *)
Definition json_bytes (b : bytes) : value := VArray (json_int <$> b).

(** Source: protocol/src/braid.rs:142-157, build_braid_chunk_msg. *)
Definition build_braid_chunk_msg (st : stamp) (chunk : BraidChunk) : WireEnvelope :=
  p2p_envelope st MSG_P2P_BRAID_CHUNK
    [("chunk_num", json_int (chunk_num chunk)); ("total_chunks", json_int (total_chunks chunk));
     ("ek_hash", json_bytes (Braid.ek_hash chunk)); ("seed", json_bytes (Braid.seed chunk));
     ("payload", json_bytes (Braid.payload chunk))].

(** Source: p2p/src/protocol.rs:244-265, build_p2p_receipt. *)
Definition build_p2p_receipt (st : stamp) (msg_hash : string) (received_at : f64) (seq : Z)
    (signature : string) : WireEnvelope :=
  set_signature
    (p2p_envelope st MSG_P2P_RECEIPT
       [("msg_hash", VString msg_hash); ("received_at", json_f64 received_at);
        ("seq", json_int seq)]) signature.

(** Source: p2p/src/protocol.rs:267-277, build_p2p_pong. *)
Definition build_p2p_pong (st : stamp) : WireEnvelope := p2p_envelope st MSG_P2P_PONG [].

(** ** The handshake (handshake.rs) *)

(** Source: p2p/src/handshake.rs:27-28, HELLO_POW_BITS. *)
Definition HELLO_POW_BITS : Z := 16.
(** Bound on the nonce of a peer. Source: p2p/src/handshake.rs:78-84, handshake_initiator. *)
Definition MAX_PEER_NONCE : Z := 1000000000.
(** Attempts of the solver. Source: p2p/src/handshake.rs:180-181, solve_hello_pow. *)
Definition HELLO_ATTEMPTS : Z := 1000000.

(** The fields of a greeting as the other end reads them; the difficulty is cut
    to 32 bits. Source: p2p/src/handshake.rs:60-76, handshake_initiator. *)
Definition peer_fields (e : WireEnvelope) : string * Z * Z :=
  (str_field (payload e) "public_key", u64_field (payload e) "nonce" 0,
   wrap 32 (u64_field (payload e) "pow_bits" 0)).

(** Source: p2p/src/handshake.rs:78-84, handshake_initiator. *)
Definition bad_pow_fields (nonce bits : Z) : bool :=
  (MAX_PEER_NONCE <? nonce) || (bits =? 0) || (32 <? bits).

(** [WireEnvelope::to_json] and [from_json] are serde_json's: an envelope with a
    finite time and a payload of strings and [u64] numbers is read back with
    the same type and the same members. *)
Class WireLaws `{WireCodec} : Prop := {
  from_json_to_json e m :
    payload e = VObject m -> NoDup m.*1 -> Forall (fun kv => flat kv.2) m ->
    f64_finite (ts e) = true ->
    exists e', from_json (to_json e) = Ok e' /\ msg_type e' = msg_type e /\
      forall k, payload_field e' k = payload_field e k;
}.

Section handshake.
Context `{Argon2}.

(** [pow_check(..).unwrap_or(false)] without a node secret.
    Source: p2p/src/handshake.rs:101-103, handshake_initiator. *)
Definition pow_holds (data : string) (nonce bits : Z) : bool :=
  unwrap_or (pow_check data nonce bits []) false.

(** [for i in 0..1_000_000] of the two solvers, which differ in the data of a
    nonce. Source: p2p/src/handshake.rs:181-187, solve_hello_pow. *)
Fixpoint hello_search (count : nat) (i : Z) (data : Z -> string) (base_nonce difficulty : Z)
  : option Z :=
  match count with
  | O => None
  | S count' =>
      let nonce := wrap 64 (base_nonce + i) in
      if pow_holds (data nonce) nonce difficulty then Some nonce
      else hello_search count' (i + 1) data base_nonce difficulty
  end.

(** Source: p2p/src/handshake.rs:183-183, solve_hello_pow. *)
Definition hello_data (public_key_b64 : string) (nonce : Z) : string :=
  public_key_b64 +:+ pretty nonce.
(** Source: p2p/src/handshake.rs:199-199, solve_hello_pow_challenged. *)
Definition ack_data (public_key_b64 challenge : string) (nonce : Z) : string :=
  public_key_b64 +:+ pretty nonce +:+ challenge.

(** Source: p2p/src/handshake.rs:175-190, solve_hello_pow. *)
Definition solve_hello_pow (public_key_b64 : string) (base_nonce difficulty : Z) : Z :=
  opt_or (hello_search (Z.to_nat HELLO_ATTEMPTS) 0 (hello_data public_key_b64) base_nonce
            difficulty) base_nonce.

(** Source: p2p/src/handshake.rs:192-205, solve_hello_pow_challenged. *)
Definition solve_hello_pow_challenged (public_key_b64 : string) (base_nonce difficulty : Z)
    (challenge : string) : Z :=
  opt_or (hello_search (Z.to_nat HELLO_ATTEMPTS) 0 (ack_data public_key_b64 challenge) base_nonce
            difficulty) base_nonce.

(** Source: p2p/src/handshake.rs:207-213, verify_hello_pow. *)
Definition verify_hello_pow (public_key_b64 : string) (nonce difficulty : Z) : bool :=
  pow_holds (hello_data public_key_b64 nonce) nonce difficulty.

(** The greeting of the initiator. Source: p2p/src/handshake.rs:38-48, handshake_initiator. *)
Definition initiator_hello (st : stamp) (base_nonce : Z) (public_key_b64 kyber : string)
  : WireEnvelope :=
  build_p2p_hello st public_key_b64 (solve_hello_pow public_key_b64 base_nonce HELLO_POW_BITS)
    HELLO_POW_BITS kyber "".

(** What the initiator requires of the answer.
    Source: p2p/src/handshake.rs:53-106, handshake_initiator. *)
Definition initiator_check (ack : WireEnvelope) : result P2pError WireEnvelope :=
  if negb (String.eqb (msg_type ack) MSG_P2P_HELLO_ACK)
  then Err (HandshakeError ("expected p2p-hello-ack, got " +:+ msg_type ack))
  else
    let '(peer_key, peer_nonce, peer_pow_bits) := peer_fields ack in
    if bad_pow_fields peer_nonce peer_pow_bits
    then Err (HandshakeError "invalid PoW parameters: nonce out of range or invalid difficulty")
    else
      let server_challenge := str_field (payload ack) "server_challenge" in
      if negb (peer_pow_bits =? HELLO_POW_BITS)
      then Err (HandshakeError ("peer PoW difficulty mismatch: " +:+ pretty peer_pow_bits +:+
                                " vs " +:+ pretty HELLO_POW_BITS))
      else if negb (pow_holds (ack_data peer_key server_challenge peer_nonce) peer_nonce
                      peer_pow_bits)
      then Err (HandshakeError "peer PoW verification failed")
      else Ok ack.

(** Source: p2p/src/handshake.rs:30-107, handshake_initiator. *)
Definition handshake_initiator (send : WireEnvelope -> result P2pError unit)
    (recv : result P2pError WireEnvelope) (st : stamp) (base_nonce : Z)
    (public_key_b64 kyber : string) : result P2pError WireEnvelope :=
  let? _ := send (initiator_hello st base_nonce public_key_b64 kyber) in
  let? ack := recv in
  initiator_check ack.

(** What the responder requires of the greeting.
    Source: p2p/src/handshake.rs:120-155, handshake_responder. *)
Definition responder_check (hello : WireEnvelope) : result P2pError unit :=
  if negb (String.eqb (msg_type hello) MSG_P2P_HELLO)
  then Err (HandshakeError ("expected p2p-hello, got " +:+ msg_type hello))
  else
    let '(peer_key, peer_nonce, peer_pow_bits) := peer_fields hello in
    if bad_pow_fields peer_nonce peer_pow_bits
    then Err (HandshakeError "invalid PoW parameters: nonce out of range or invalid difficulty")
    else if negb (pow_holds (hello_data peer_key peer_nonce) peer_nonce peer_pow_bits)
    then Err (HandshakeError "peer PoW verification failed")
    else Ok tt.

(** The answer of the responder. Source: p2p/src/handshake.rs:157-170, handshake_responder. *)
Definition responder_ack (st : stamp) (challenge : bytes) (base_nonce : Z)
    (public_key_b64 kyber : string) : WireEnvelope :=
  let server_challenge := foldr (fun b s => hex_fixed 2 b +:+ s) "" challenge in
  build_p2p_hello_ack st public_key_b64
    (solve_hello_pow_challenged public_key_b64 base_nonce HELLO_POW_BITS server_challenge)
    HELLO_POW_BITS server_challenge kyber.

(** Source: p2p/src/handshake.rs:109-173, handshake_responder. *)
Definition handshake_responder (recv : result P2pError WireEnvelope)
    (send : WireEnvelope -> result P2pError unit) (st : stamp) (challenge : bytes)
    (base_nonce : Z) (public_key_b64 kyber : string) : result P2pError WireEnvelope :=
  let? hello := recv in
  let? _ := responder_check hello in
  let? _ := send (responder_ack st challenge base_nonce public_key_b64 kyber) in
  Ok hello.
End handshake.

(** ** The solver *)

Section search.
Context `{Argon2}.

(** The solver returns the first nonce from its base, modulo 2^64, that the
    check accepts. *)
Lemma hello_search_some count data base d : forall i k,
  hello_search count i data base d = Some k ->
  exists j, i <= j < i + Z.of_nat count /\ k = wrap 64 (base + j) /\
    pow_holds (data k) k d = true /\
    forall j', i <= j' < j -> pow_holds (data (wrap 64 (base + j'))) (wrap 64 (base + j')) d = false.
Proof.
  induction count as [|n IH]; intros i k Hs; [done|]. cbn [hello_search] in Hs.
  destruct (pow_holds _ _ _) eqn:E.
  - injection Hs as <-. exists i. split; [lia|]. split; [done|]. split; [done|]. lia.
  - destruct (IH _ _ Hs) as (j & Hj & -> & Hp & Hall). exists j.
    split; [lia|]. split; [done|]. split; [done|]. intros j' Hj'.
    destruct (decide (j' = i)) as [->|]; [done|]. apply Hall. lia.
Qed.

Lemma hello_search_none count data base d : forall i,
  hello_search count i data base d = None <->
  forall j, i <= j < i + Z.of_nat count ->
    pow_holds (data (wrap 64 (base + j))) (wrap 64 (base + j)) d = false.
Proof.
  induction count as [|n IH]; intros i; cbn [hello_search].
  - split; [|done]. intros _ j Hj. lia.
  - destruct (pow_holds _ _ _) eqn:E.
    + split; [done|]. intros Hall. rewrite Hall in E by lia. done.
    + rewrite IH. split; intros Hall j Hj; [|apply Hall; lia].
      destruct (decide (j = i)) as [->|]; [done|]. apply Hall. lia.
Qed.

(** Where the solved nonce lies: it starts at the base and wraps at 2^64. *)
Lemma solve_range data base d :
  0 <= base < 2 ^ 64 ->
  let n := opt_or (hello_search (Z.to_nat HELLO_ATTEMPTS) 0 data base d) base in
  0 <= n < 2 ^ 64 /\ (base < 2 ^ 64 - HELLO_ATTEMPTS -> base <= n < base + HELLO_ATTEMPTS).
Proof.
  intros Hb n. unfold n. destruct (hello_search _ _ _ _ _) as [k|] eqn:E; simpl.
  - destruct (hello_search_some _ _ _ _ _ _ E) as (j & Hj & -> & _ & _).
    unfold HELLO_ATTEMPTS in *. rewrite Z2Nat.id in Hj by lia.
    split; [apply wrap_range; lia|]. intros Hs. rewrite wrap_small by lia. lia.
  - unfold HELLO_ATTEMPTS. lia.
Qed.
End search.

(** ** What each end requires *)

Section checks.
Context `{Argon2}.

Lemma bad_pow_fields_false n b :
  bad_pow_fields n b = false <-> n <= MAX_PEER_NONCE /\ b <> 0 /\ b <= 32.
Proof. unfold bad_pow_fields. rewrite !orb_false_iff, !Z.ltb_ge, Z.eqb_neq. tauto. Qed.

Lemma pow_holds_difficulty data n d : pow_holds data n d = true -> MIN_POW_DIFFICULTY <= d.
Proof.
  unfold pow_holds, pow_check. destruct (Z.ltb_spec d MIN_POW_DIFFICULTY); [done|]. lia.
Qed.

(** The responder accepts exactly the greetings below: any difficulty from 8
    to 32 the peer names, not the 16 it would use itself. *)
Lemma responder_check_ok e k n b :
  peer_fields e = (k, n, b) ->
  responder_check e = Ok tt <->
  msg_type e = MSG_P2P_HELLO /\ n <= MAX_PEER_NONCE /\ MIN_POW_DIFFICULTY <= b <= 32 /\
  pow_holds (hello_data k n) n b = true.
Proof.
  intros Hf. unfold responder_check. rewrite Hf.
  destruct (String.eqb_spec (msg_type e) MSG_P2P_HELLO) as [Et|Et]; cbn [negb];
    [|split; [done|by intros [? _]]].
  destruct (bad_pow_fields n b) eqn:Eb.
  - split; [done|]. intros (_ & Hn & Hb & _).
    assert (bad_pow_fields n b = false); [|congruence].
    apply bad_pow_fields_false. unfold MIN_POW_DIFFICULTY in Hb. lia.
  - apply bad_pow_fields_false in Eb. destruct (pow_holds _ _ _) eqn:Ep; cbn [negb].
    + split; [|done]. intros _. apply pow_holds_difficulty in Ep. tauto.
    + split; [done|]. by intros (_ & _ & _ & ?).
Qed.

Lemma initiator_check_ok e k n b e' :
  peer_fields e = (k, n, b) ->
  initiator_check e = Ok e' <->
  e' = e /\ msg_type e = MSG_P2P_HELLO_ACK /\ n <= MAX_PEER_NONCE /\ b = HELLO_POW_BITS /\
  pow_holds (ack_data k (str_field (payload e) "server_challenge") n) n b = true.
Proof.
  intros Hf. unfold initiator_check. rewrite Hf.
  destruct (String.eqb_spec (msg_type e) MSG_P2P_HELLO_ACK) as [Et|Et]; cbn [negb];
    [|split; [done|by intros (_ & ? & _)]].
  destruct (bad_pow_fields n b) eqn:Eb.
  - split; [done|]. intros (_ & _ & Hn & -> & _).
    assert (bad_pow_fields n HELLO_POW_BITS = false); [|congruence].
    apply bad_pow_fields_false. done.
  - apply bad_pow_fields_false in Eb.
    destruct (Z.eqb_spec b HELLO_POW_BITS) as [->|Hb]; cbn [negb];
      [|split; [done|by intros (_ & _ & _ & ? & _)]].
    destruct (pow_holds _ _ _) eqn:Ep; cbn [negb].
    + split; [intros [= <-]; tauto|by intros [-> _]].
    + split; [done|]. by intros (_ & _ & _ & _ & ?).
Qed.

(** Only the type and the members of an envelope are read. *)
Lemma get_payload_field e k : get (payload e) k = payload_field e k.
Proof. done. Qed.

Lemma peer_fields_ext e e' :
  (forall k, payload_field e' k = payload_field e k) -> peer_fields e' = peer_fields e.
Proof.
  intros Hk. unfold peer_fields, str_field, u64_field. by rewrite !get_payload_field, !Hk.
Qed.

Lemma str_field_ext e e' k :
  (forall k, payload_field e' k = payload_field e k) ->
  str_field (payload e') k = str_field (payload e) k.
Proof. intros Hk. unfold str_field. by rewrite !get_payload_field, Hk. Qed.

Lemma u64_json_int n : 0 <= n -> as_u64 (json_int n) = Some n.
Proof. intros Hn. unfold json_int. destruct (Z.ltb_spec n 0); [lia|done]. Qed.

Lemma flat_json_int n : 0 <= n < 2 ^ 64 -> flat (json_int n).
Proof. intros Hn. unfold json_int. destruct (Z.ltb_spec n 0); [lia|done]. Qed.

#[local] Arguments as_u64 : simpl never.
#[local] Arguments json_int : simpl never.
#[local] Arguments wrap : simpl never.

Lemma hello_fields st k n b ky si :
  0 <= n -> 0 <= b < 2 ^ 32 -> peer_fields (build_p2p_hello st k n b ky si) = (k, n, b).
Proof.
  intros Hn Hb. unfold peer_fields, u64_field, build_p2p_hello, p2p_envelope. simpl.
  rewrite !u64_json_int by lia. simpl. by rewrite wrap_small by lia.
Qed.

Lemma ack_fields st k n b c ky :
  0 <= n -> 0 <= b < 2 ^ 32 -> peer_fields (build_p2p_hello_ack st k n b c ky) = (k, n, b).
Proof.
  intros Hn Hb. unfold peer_fields, u64_field, build_p2p_hello_ack, p2p_envelope. simpl.
  rewrite !u64_json_int by lia. simpl. by rewrite wrap_small by lia.
Qed.
End checks.

(** ** A session over a connection *)

(** A frame of the WebSocket. *)
Inductive frame : Type :=
| FText (s : string)
| FClose
| FError (e : string)
| FOther.

(** What waiting for a frame gives. *)
Inductive awaited : Type :=
| Late
| Gone
| Arrived (f : frame).

Section session.
Context `{Argon2} `{WireLaws}.

(** Source: p2p/src/transport.rs:245-257, send_envelope. *)
Definition send_envelope (sink : string -> result string unit) (e : WireEnvelope)
  : result P2pError unit :=
  match sink (to_json e) with Ok _ => Ok tt | Err er => Err (Connection er) end.

(** Source: p2p/src/transport.rs:259-282, recv_envelope. *)
Definition recv_envelope (a : awaited) : result P2pError WireEnvelope :=
  match a with
  | Late => Err Timeout
  | Gone => Err (Connection "connection closed")
  | Arrived (FText text) =>
      match from_json text with Ok e => Ok e | Err er => Err (SerializationError er) end
  | Arrived FClose => Err (Connection "connection closed")
  | Arrived (FError er) => Err (Connection er)
  | Arrived FOther => Err (Connection "unexpected message type")
  end.

(** One end of a handshake: its random numbers and its keys. *)
Record party : Type := mkParty {
  p_stamp : stamp; p_base : Z; p_public_key : string; p_kyber : string
}.

(** The two functions over a connection that delivers every frame; the
    responder closes it when it refuses the greeting. *)
Definition run (i r : party) (challenge : bytes)
  : result P2pError WireEnvelope * result P2pError WireEnvelope :=
  let fine := send_envelope (fun _ => Ok tt) in
  let hello := initiator_hello (p_stamp i) (p_base i) (p_public_key i) (p_kyber i) in
  let answer := responder_ack (p_stamp r) challenge (p_base r) (p_public_key r) (p_kyber r) in
  let at_responder :=
    handshake_responder (recv_envelope (Arrived (FText (to_json hello)))) fine (p_stamp r) challenge
      (p_base r) (p_public_key r) (p_kyber r) in
  let back := if is_ok at_responder then Arrived (FText (to_json answer)) else Gone in
  (handshake_initiator fine (recv_envelope back) (p_stamp i) (p_base i) (p_public_key i)
     (p_kyber i), at_responder).

Definition challenge_text (challenge : bytes) : string :=
  foldr (fun b s => hex_fixed 2 b +:+ s) "" challenge.

(** The nonces the two ends find. *)
Definition hello_nonce (i : party) : Z :=
  solve_hello_pow (p_public_key i) (p_base i) HELLO_POW_BITS.
Definition ack_nonce (r : party) (challenge : bytes) : Z :=
  solve_hello_pow_challenged (p_public_key r) (p_base r) HELLO_POW_BITS (challenge_text challenge).

Definition party_ok (p : party) : Prop :=
  0 <= p_base p < 2 ^ 64 /\ f64_finite (st_now (p_stamp p)) = true.

(** The greeting and the answer that the other end does not refuse. *)
Definition hello_acceptable (i : party) : bool :=
  (hello_nonce i <=? MAX_PEER_NONCE) &&
  verify_hello_pow (p_public_key i) (hello_nonce i) HELLO_POW_BITS.
Definition ack_acceptable (r : party) (challenge : bytes) : bool :=
  (ack_nonce r challenge <=? MAX_PEER_NONCE) &&
  pow_holds (ack_data (p_public_key r) (challenge_text challenge) (ack_nonce r challenge))
    (ack_nonce r challenge) HELLO_POW_BITS.

(** Both ends complete from every base below the bound whose search succeeds
    in time. *)
Lemma handshake_completes i r challenge n m :
  hello_search (Z.to_nat HELLO_ATTEMPTS) 0 (hello_data (p_public_key i)) (p_base i)
    HELLO_POW_BITS = Some n -> n <= MAX_PEER_NONCE ->
  hello_search (Z.to_nat HELLO_ATTEMPTS) 0
    (ack_data (p_public_key r) (challenge_text challenge)) (p_base r) HELLO_POW_BITS = Some m ->
  m <= MAX_PEER_NONCE ->
  hello_acceptable i = true /\ ack_acceptable r challenge = true.
Proof.
  intros Hs Hn Hs' Hm.
  destruct (hello_search_some _ _ _ _ _ _ Hs) as (_ & _ & _ & Hp & _).
  destruct (hello_search_some _ _ _ _ _ _ Hs') as (_ & _ & _ & Hp' & _).
  unfold hello_acceptable, ack_acceptable, hello_nonce, ack_nonce, solve_hello_pow,
    solve_hello_pow_challenged, verify_hello_pow.
  rewrite Hs, Hs'. cbn [opt_or]. by rewrite Hp, Hp', !(proj2 (Z.leb_le _ _)).
Qed.

(** A greeting arrives with every member as it was sent. *)
Lemma hello_arrives i :
  party_ok i ->
  let hello := initiator_hello (p_stamp i) (p_base i) (p_public_key i) (p_kyber i) in
  exists e, recv_envelope (Arrived (FText (to_json hello))) = Ok e /\
    msg_type e = MSG_P2P_HELLO /\ (forall k, payload_field e k = payload_field hello k).
Proof.
  intros [Hb Hf] hello.
  destruct (from_json_to_json hello _ eq_refl) as (e & He & Ht & Hk).
  - repeat constructor; set_solver.
  - repeat apply Forall_cons_2; try exact I; try by apply flat_json_int.
    + apply flat_json_int, solve_range. done.
    + apply Forall_nil_2.
  - done.
  - exists e. simpl. by rewrite He.
Qed.

Lemma ack_arrives r challenge :
  party_ok r ->
  let ack := responder_ack (p_stamp r) challenge (p_base r) (p_public_key r) (p_kyber r) in
  exists e, recv_envelope (Arrived (FText (to_json ack))) = Ok e /\
    msg_type e = MSG_P2P_HELLO_ACK /\ (forall k, payload_field e k = payload_field ack k).
Proof.
  intros [Hb Hf] ack.
  destruct (from_json_to_json ack _ eq_refl) as (e & He & Ht & Hk).
  - repeat constructor; set_solver.
  - repeat apply Forall_cons_2; try exact I; try by apply flat_json_int.
    + apply flat_json_int, solve_range. done.
    + apply Forall_nil_2.
  - done.
  - exists e. simpl. by rewrite He.
Qed.

(** The outcome at one end: the envelope of the other, with its keys. *)
Definition learned (res : result P2pError WireEnvelope) (p : party) : Prop :=
  forall e, res = Ok e ->
    str_field (payload e) "public_key" = p_public_key p /\
    str_field (payload e) "kyber_enc_key" = p_kyber p.

Lemma responder_outcome i r challenge :
  party_ok i ->
  is_ok (run i r challenge).2 = hello_acceptable i /\ learned (run i r challenge).2 i.
Proof.
  intros Hi. destruct (hello_arrives i Hi) as (e & He & Ht & Hk).
  unfold run. cbv zeta. cbn [snd]. unfold handshake_responder. rewrite He. cbn [rbind].
  assert (Hf : peer_fields e = (p_public_key i, hello_nonce i, HELLO_POW_BITS)).
  { rewrite (peer_fields_ext _ _ Hk). apply hello_fields; [|done].
    apply (solve_range (hello_data (p_public_key i)) (p_base i)), Hi. }
  pose proof (responder_check_ok _ _ _ _ Hf) as Hc. split.
  - unfold hello_acceptable, verify_hello_pow.
    destruct (responder_check e) as [[]|er]; cbn [rbind send_envelope is_ok].
    + destruct Hc as [(_ & Hn & _ & ->) _]; [done|]. rewrite andb_true_r. symmetry. by apply Z.leb_le.
    + symmetry. apply not_true_iff_false. rewrite andb_true_iff, Z.leb_le. intros [Hn Hp].
      discriminate (proj2 Hc). split_and!; [done|done|done|done|done].
  - intros e' He'. assert (e' = e) as ->.
    { destruct (responder_check e); [|done]. by injection He'. }
    split; by rewrite (str_field_ext _ _ _ Hk).
Qed.

Lemma initiator_outcome i r challenge :
  party_ok i -> party_ok r ->
  is_ok (run i r challenge).1 = hello_acceptable i && ack_acceptable r challenge /\
  learned (run i r challenge).1 r.
Proof.
  intros Hi Hr. destruct (responder_outcome i r challenge Hi) as [Ho _].
  destruct (ack_arrives r challenge Hr) as (e & He & Ht & Hk).
  unfold run in *. cbv zeta in *. cbn [fst snd] in *.
  set (at_r := handshake_responder _ _ _ _ _ _ _) in *. rewrite Ho.
  unfold handshake_initiator. cbn [send_envelope rbind].
  destruct (hello_acceptable i); [|split; [done|by intros ?]].
  rewrite He. cbn [rbind andb].
  assert (Hf : peer_fields e = (p_public_key r, ack_nonce r challenge, HELLO_POW_BITS)).
  { rewrite (peer_fields_ext _ _ Hk). apply ack_fields; [|done].
    apply (solve_range (ack_data (p_public_key r) (challenge_text challenge)) (p_base r)), Hr. }
  pose proof (fun e' => initiator_check_ok _ _ _ _ e' Hf) as Hc.
  rewrite (str_field_ext _ _ _ Hk) in Hc.
  change (str_field _ "server_challenge") with (challenge_text challenge) in Hc. split.
  - unfold ack_acceptable. destruct (initiator_check e) as [e'|er]; cbn [is_ok].
    + destruct (Hc e') as [(_ & _ & Hn & _ & ->) _]; [done|].
      rewrite andb_true_r. symmetry. by apply Z.leb_le.
    + symmetry. apply not_true_iff_false. rewrite andb_true_iff, Z.leb_le. intros [Hn Hp].
      discriminate (proj2 (Hc e)). done.
  - intros e' He'. destruct (Hc e') as [(-> & _) _]; [done|].
    split; by rewrite (str_field_ext _ _ _ Hk).
Qed.

(** C33: what a handshake comes to.  Over a connection that delivers every frame
    the responder accepts exactly when the nonce the initiator found is at
    most 10^9 and satisfies the check, and the initiator completes exactly
    when moreover the responder's own nonce, solved over the fresh challenge,
    does the same; each end that completes holds the other's public key and
    Kyber key. *)
Theorem handshake_outcome (i r : party) (challenge : bytes) :
  party_ok i -> party_ok r ->
  let (at_i, at_r) := run i r challenge in
  is_ok at_r = hello_acceptable i /\
  is_ok at_i = hello_acceptable i && ack_acceptable r challenge /\
  learned at_i r /\ learned at_r i.
Proof.
  intros Hi Hr. destruct (responder_outcome i r challenge Hi) as [Hr1 Hr2].
  destruct (initiator_outcome i r challenge Hi Hr) as [Hi1 Hi2].
  destruct (run i r challenge) as [at_i at_r]. done.
Qed.

(** An honest handshake is refused for nearly every start of the search.
    The initiator searches from a random 64-bit number, the responder refuses
    nonces above 10^9: from every base above 10^9 and below 2^64 - 10^6, all
    but a share of 1 in 10^10 of them, the greeting is refused whatever work
    was done, and both ends fail. *)
Theorem honest_hello_refused (i r : party) (challenge : bytes) :
  party_ok i -> party_ok r ->
  MAX_PEER_NONCE < p_base i < 2 ^ 64 - HELLO_ATTEMPTS ->
  let (at_i, at_r) := run i r challenge in
  at_r = Err (HandshakeError "invalid PoW parameters: nonce out of range or invalid difficulty") /\
  at_i = Err (Connection "connection closed").
Proof.
  intros Hi Hr Hb. destruct (hello_arrives i Hi) as (e & He & Ht & Hk).
  assert (Hf : peer_fields e = (p_public_key i, hello_nonce i, HELLO_POW_BITS)).
  { rewrite (peer_fields_ext _ _ Hk). apply hello_fields; [|done].
    apply (solve_range (hello_data (p_public_key i)) (p_base i)), Hi. }
  assert (Hn : bad_pow_fields (hello_nonce i) HELLO_POW_BITS = true).
  { apply not_false_iff_true. rewrite bad_pow_fields_false. intros [Hn _].
    destruct (solve_range (hello_data (p_public_key i)) (p_base i) HELLO_POW_BITS (proj1 Hi))
      as [_ Hs]. specialize (Hs (proj2 Hb)).
    change (opt_or _ _) with (hello_nonce i) in Hs. lia. }
  assert (Hc : responder_check e = Err (HandshakeError
    "invalid PoW parameters: nonce out of range or invalid difficulty")).
  { unfold responder_check. rewrite Ht, Hf, Hn. done. }
  unfold run. cbv zeta. unfold handshake_responder. rewrite He. cbn [rbind]. by rewrite Hc.
Qed.
End session.

(** ** Concrete runs *)

(** An envelope as one flat object: its type, and its payload under keys of
    their own; the rest is left out. *)
Definition toy_prefix : string := "p.".
Definition toy_to_json (e : WireEnvelope) : string :=
  @json_print toy_json
    (VObject (("type", VString (msg_type e)) ::
       match payload e with
       | VObject m => (fun kv => (toy_prefix +:+ kv.1, kv.2)) <$> m
       | _ => []
       end)).

Definition toy_payload (m : list (string * value)) : list (string * value) :=
  omap (fun kv => (fun k => (k, kv.2)) <$> strip_prefix toy_prefix kv.1) m.

Definition toy_from_json (s : string) : result string WireEnvelope :=
  match @json_parse toy_json s with
  | Some (VObject m) =>
      match assoc "type" m with
      | Some (VString t) => Ok (mkWireEnvelope t (VObject (toy_payload m)) "" (f64_of_Z 0) "")
      | _ => Err "no type"
      end
  | _ => Err "not an object"
  end.

#[local] Instance toy_wire : WireCodec := {| to_json := toy_to_json; from_json := toy_from_json |}.

Lemma toy_strip_prefix k k' :
  strip_prefix toy_prefix k' = Some k <-> k' = toy_prefix +:+ k.
Proof.
  unfold toy_prefix. destruct k' as [|a [|b k']]; cbn [strip_prefix String.append];
    [done|by destruct (Ascii.eqb _ a)|].
  destruct (Ascii.eqb_spec "p" a) as [<-|Ha]; [|split; [done|]; intros [= ?]; congruence].
  destruct (Ascii.eqb_spec "." b) as [<-|Hb]; [|split; [done|]; intros [= ?]; congruence].
  split; [by intros [= ->]|]. intros [= E]. change ("" +:+ k) with k in E. by rewrite E.
Qed.

#[local] Instance toy_prefix_inj : Inj (=) (=) (String.append toy_prefix).
Proof. intros a b [= E]. exact E. Qed.

Lemma toy_payload_assoc m k : assoc k (toy_payload m) = assoc (toy_prefix +:+ k) m.
Proof.
  induction m as [|[k' v] m IH]; [done|]. unfold toy_payload in *. cbn [omap list_omap fst snd].
  cbn [assoc]. destruct (strip_prefix toy_prefix k') as [k0|] eqn:E; cbn [fmap option_fmap option_map].
  - apply toy_strip_prefix in E as ->. cbn [assoc]. rewrite IH.
    destruct (String.eqb_spec k k0) as [->|Hk]; [by rewrite String.eqb_refl|].
    destruct (String.eqb_spec (toy_prefix +:+ k) (toy_prefix +:+ k0)) as [Ek|]; [|done].
    by apply (inj _) in Ek.
  - destruct (String.eqb_spec (toy_prefix +:+ k) k') as [<-|]; [|exact IH].
    by rewrite (proj2 (toy_strip_prefix _ _) eq_refl) in E.
Qed.

#[local] Instance toy_wire_laws : WireLaws.
Proof.
  constructor. intros e m Hp Hnd Hfl _. cbn [to_json from_json toy_wire].
  unfold toy_to_json, toy_from_json. rewrite Hp.
  set (l := ("type", VString (msg_type e)) :: _).
  destruct (@json_parse_print_flat toy_json l) as (m' & -> & Hm).
  - unfold l. cbn [fmap list_fmap]. rewrite <- list_fmap_compose.
    apply NoDup_cons. split.
    + intros (kv & Hk & _)%list_elem_of_fmap. simpl in Hk. done.
    + change (NoDup ((String.append toy_prefix ∘ fst) <$> m)).
      rewrite list_fmap_compose. by apply (NoDup_fmap_2 _).
  - unfold l. apply Forall_cons. split; [exact I|]. apply Forall_fmap. exact Hfl.
  - rewrite Hm. cbn [assoc l String.eqb]. eexists. split; [done|]. split; [done|].
    intros k. unfold payload_field. cbn [payload]. rewrite toy_payload_assoc, Hm, Hp.
    unfold l. cbn [assoc]. clear. induction m as [|[k' v] m IH]; [done|].
    cbn [fmap list_fmap assoc fst snd]. destruct (String.eqb_spec k k') as [->|Hk].
    + by rewrite String.eqb_refl.
    + destruct (String.eqb_spec (toy_prefix +:+ k) (toy_prefix +:+ k')) as [E|]; [|exact IH].
      by apply (inj _) in E.
Qed.

#[local] Existing Instance toy_argon2.

Definition party_at (base : Z) (key : string) : party :=
  mkParty (mkStamp 7 (f64_of_Z 1000)) base key ("kyber of " +:+ key).

Theorem handshake_outcome_witness :
  let (at_i, at_r) := run (party_at 100 "alice") (party_at 900000000 "bob") [1; 2; 3] in
  is_ok at_r = true /\ is_ok at_i = true /\
  learned at_i (party_at 900000000 "bob") /\ learned at_r (party_at 100 "alice").
Proof.
  pose proof (handshake_outcome (party_at 100 "alice") (party_at 900000000 "bob") [1; 2; 3]
    ltac:(split; [vm_compute; split; congruence|reflexivity])
    ltac:(split; [vm_compute; split; congruence|reflexivity])) as Ho.
  destruct (run _ _ _) as [at_i at_r]. destruct Ho as (Hr & Hi & Hl).
  split; [rewrite Hr; vm_compute; reflexivity|].
  split; [rewrite Hi; vm_compute; reflexivity|exact Hl].
Defined.

Theorem honest_hello_refused_witness :
  let (at_i, at_r) := run (party_at (2 ^ 63) "alice") (party_at 5 "bob") [1; 2; 3] in
  at_r = Err (HandshakeError "invalid PoW parameters: nonce out of range or invalid difficulty") /\
  at_i = Err (Connection "connection closed").
Proof.
  apply (honest_hello_refused (party_at (2 ^ 63) "alice") (party_at 5 "bob") [1; 2; 3]).
  - split; [vm_compute; split; congruence|reflexivity].
  - split; [vm_compute; split; congruence|reflexivity].
  - vm_compute. split; reflexivity.
Defined.
