(* ===== verification/Socks.v ===== *)
(** * Connecting to a peer (src/p2p/src/transport.rs)

    The choice between a direct connection and the SOCKS5 proxy of Tor, the
    bytes exchanged with the proxy, and the helpers on addresses.  Parsing of
    URLs (the url crate), TCP, TLS and the websocket upgrade are arguments. *)

From S2P Require Import Prelude Text Primitives Handshake.

(** Source: p2p/src/transport.rs:28-34, TransportConfig. *)
Record TransportConfig : Type := mkTransportConfig {
  use_tor : bool;
  tor_socks_host : string;
  tor_socks_port : Z;   (* u16 *)
}.

(** Source: p2p/src/transport.rs:37-43, TransportConfig::default. *)
Definition default_config : TransportConfig := mkTransportConfig false "127.0.0.1" 9050.

(** Source: p2p/src/transport.rs:47-49, TransportConfig::tor_socks_url. *)
Definition tor_socks_url (c : TransportConfig) : string :=
  "socks5://" +:+ tor_socks_host c +:+ ":" +:+ pretty (tor_socks_port c).

(** The parts of a parsed URL: a port that is the default of the scheme is
    dropped by the parser. *)
Record url : Type := mkUrl { scheme : string; host_str : option string; url_port : option Z }.

(** How an awaited operation ends. *)
Inductive outcome (A : Type) : Type :=
| Done (a : A)
| TimedOut
| Failed (e : string).
Arguments Done {A} a.
Arguments TimedOut {A}.
Arguments Failed {A} e.

(** [.map_err(|_| Timeout)?.map_err(|e| Connection(format!(..)))?] *)
Definition settle {A} (what : string) (o : outcome A) : result P2pError A :=
  match o with
  | Done a => Ok a
  | TimedOut => Err Timeout
  | Failed e => Err (Connection (what +:+ e))
  end.

(** ** Direct *)

(** Source: p2p/src/transport.rs:80-122, TransportManager::connect_direct. *)
Definition connect_direct {C} (parsed : result string url) (dial : outcome C) : result P2pError C :=
  match parsed with
  | Err e => Err (InvalidAddress e)
  | Ok u =>
      if String.eqb (scheme u) "ws" || String.eqb (scheme u) "wss" then settle "" dial
      else Err (InvalidAddress ("unsupported scheme: " +:+ scheme u))
  end.

(** ** SOCKS5 *)

(** Source: p2p/src/transport.rs:160-164, TransportManager::socks5_handshake. *)
Definition socks_greeting : bytes := [5; 1; 0].

(** [host.len() as u8]. Source: p2p/src/transport.rs:177-182, TransportManager::socks5_handshake. *)
Definition socks_request (host : string) (port : Z) : bytes :=
  [5; 1; 0; 3] ++ [u8 (slen host)] ++ str_bytes host ++ [u8 (Z.shiftr port 8); u8 (Z.land port 255)].

(** The proxy: whether the writes succeed, its two answers, and the upgrade of
    the tunnel to a websocket. *)
Record proxy (C : Type) : Type := mkProxy {
  px_write_greeting : outcome unit;
  px_greeting : outcome bytes;      (* read_exact of two bytes *)
  px_write_request : outcome unit;
  px_response : outcome bytes;      (* one read of at most 256 bytes *)
  px_upgrade : string -> result string C;
}.
Arguments mkProxy {C}.
Arguments px_write_greeting {C} p.
Arguments px_greeting {C} p.
Arguments px_write_request {C} p.
Arguments px_response {C} p.
Arguments px_upgrade {C} p uri.

(** Source: p2p/src/transport.rs:220-223, uri_dummy. *)
Definition uri_dummy (host : string) (port : Z) : string := "wss://" +:+ host +:+ ":" +:+ pretty port.

Definition nth_byte (l : bytes) (i : nat) : Z := opt_or (l !! i) 0.

(** What is written to the proxy, and the connection.
    Source: p2p/src/transport.rs:149-212, TransportManager::socks5_handshake. *)
Definition socks5_handshake {C} (p : proxy C) (host : string) (port : Z) : list bytes * result P2pError C :=
  match settle "SOCKS5 write greeting: " (px_write_greeting p) with
  | Err e => ([], Err e)
  | Ok _ =>
      match settle "SOCKS5 read greeting: " (px_greeting p) with
      | Err e => ([socks_greeting], Err e)
      | Ok resp =>
          if negb (nth_byte resp 0 =? 5) || negb (nth_byte resp 1 =? 0)
          then ([socks_greeting], Err (Connection "SOCKS5 auth method rejected"))
          else
            match settle "SOCKS5 write request: " (px_write_request p) with
            | Err e => ([socks_greeting], Err e)
            | Ok _ =>
                ([socks_greeting; socks_request host port],
                 let? buf := settle "SOCKS5 read response: " (px_response p) in
                 if (zlen buf <? 10) || negb (nth_byte buf 1 =? 0)
                 then Err (Connection ("SOCKS5 connect failed with REP=" +:+
                                       pretty (if 1 <? zlen buf then nth_byte buf 1 else 255)))
                 else
                   match px_upgrade p (uri_dummy host port) with
                   | Ok c => Ok c
                   | Err e => Err (Connection ("WebSocket handshake failed: " +:+ e))
                   end)
            end
      end
  end.

(** Where the tunnel leads. Source: p2p/src/transport.rs:131-133, TransportManager::connect_through_tor. *)
Definition tor_target (u : url) : string * Z := (opt_or (host_str u) "127.0.0.1", opt_or (url_port u) 443).

(** Source: p2p/src/transport.rs:124-147, TransportManager::connect_through_tor. *)
Definition connect_through_tor {C} (parsed : result string url) (dial : outcome unit) (p : proxy C)
  : list bytes * result P2pError C :=
  match parsed with
  | Err e => ([], Err (InvalidAddress e))
  | Ok u =>
      let (host, port) := tor_target u in
      match settle "SOCKS5 connect failed: " dial with
      | Err e => ([], Err e)
      | Ok _ => socks5_handshake p host port
      end
  end.

(** Source: p2p/src/transport.rs:67-78, TransportManager::connect. *)
Definition connect {C} (c : TransportConfig) (parsed : result string url) (direct : outcome C) (dial : outcome unit)
    (p : proxy C) : list bytes * result P2pError C :=
  if use_tor c then connect_through_tor parsed dial p else ([], connect_direct parsed direct).

(** ** Addresses *)

(** Source: p2p/src/transport.rs:214-217, TransportManager::get_peer_uri. *)
Definition get_peer_uri (host : string) (port : Z) : string := "wss://" +:+ host +:+ ":" +:+ pretty port.

(** Source: p2p/src/transport.rs:225-228, is_onion_address. *)
Definition is_onion_address (addr : string) : bool := contains addr ".onion".

(** Source: p2p/src/transport.rs:230-243, normalize_peer_address. *)
Definition normalize_peer_address (addr : string) : string :=
  if str_is_empty addr then addr
  else if is_onion_address addr then
    let onion_part := opt_or (head (split_on ":"%char addr)) addr in
    if ends_with onion_part ".onion" && (slen onion_part =? 62) then addr else addr
  else addr.

(** Normalising changes nothing: a malformed onion address is only logged. *)
Lemma normalize_id addr : normalize_peer_address addr = addr.
Proof. unfold normalize_peer_address. by repeat destruct (_ : bool). Qed.

(** ** The proxy's reading

    RFC 1928, section 4: version, command CONNECT, a reserved zero, and for a
    domain name its length, the name, and the port in network order. *)
Definition read_request (l : bytes) : option (bytes * Z * bytes) :=
  match l with
  | 5 :: 1 :: 0 :: 3 :: len :: rest =>
      let n := Z.to_nat len in
      match drop n rest with
      | hi :: lo :: after => if (n <=? length rest)%nat then Some (take n rest, hi * 256 + lo, after) else None
      | _ => None
      end
  | _ => None
  end.

Lemma port_bytes port :
  0 <= port < 2 ^ 16 -> u8 (Z.shiftr port 8) * 256 + u8 (Z.land port 255) = port.
Proof.
  intros Hp. unfold u8, wrap. rewrite Z.shiftr_div_pow2 by lia. change 255 with (Z.ones 8).
  rewrite Z.land_ones by lia. change (2 ^ 8) with 256 in *. change (2 ^ 16) with 65536 in Hp.
  rewrite Z.mod_mod by lia. rewrite (Z.mod_small (port / 256)).
  - pose proof (Z.div_mod port 256). lia.
  - split; [apply Z.div_pos; lia|]. apply Z.div_lt_upper_bound; lia.
Qed.

(** A name that is too long is cut, and the port is read inside of it. *)
Lemma long_name_cut host port :
  256 <= slen host ->
  exists name p after, read_request (socks_request host port) = Some (name, p, after) /\
    name = take (Z.to_nat (slen host mod 256)) (str_bytes host) /\ zlen name < 256 /\ after <> [].
Proof.
  intros Hl. assert (Hlen : length (str_bytes host) = Z.to_nat (slen host)).
  { pose proof (str_bytes_length host) as E. unfold zlen in E. lia. }
  unfold socks_request. cbn [app read_request]. unfold u8 at 1 2 3 4, wrap. change (2 ^ 8) with 256.
  set (n := Z.to_nat (slen host mod 256)). pose proof (Z.mod_pos_bound (slen host) 256 ltac:(lia)) as Hm.
  set (tl := [_; _]).
  assert (Hal : length (str_bytes host ++ tl) = (length (str_bytes host) + 2)%nat) by (by rewrite length_app).
  assert (Hn' : (n < 256)%nat) by (unfold n; lia).
  assert (Hge : (256 <= length (str_bytes host))%nat) by lia.
  assert (Hdl : length (drop n (str_bytes host ++ tl)) = (length (str_bytes host) + 2 - n)%nat)
    by (rewrite length_drop; lia).
  destruct (drop n (str_bytes host ++ tl)) as [|hi [|lo after]] eqn:E; [simpl in Hdl; lia|simpl in Hdl; lia|].
  destruct (Nat.leb_spec n (length (str_bytes host ++ tl))); [|lia].
  eexists _, _, _. split; [done|]. fold n.
  change (Z.to_nat (u8 (slen host))) with n.
  rewrite take_app_le by lia. split; [done|]. split.
  - unfold zlen. rewrite length_take. lia.
  - intros ->. simpl in Hdl. lia.
Qed.

(** The proxy connects where it is told, up to 255 bytes.  The length of the
    host is written in one byte without a check, so the request is read back,
    to its end, as the host and port that were meant exactly when the host has
    fewer than 256 bytes; a longer one is read as a prefix of it, with a port
    taken from its middle, and bytes left over that the proxy takes for data. *)
Theorem socks_request_read (host : string) (port : Z) :
  0 <= port < 2 ^ 16 ->
  (read_request (socks_request host port) = Some (str_bytes host, port, []) <-> slen host < 256) /\
  (256 <= slen host ->
   exists name p after, read_request (socks_request host port) = Some (name, p, after) /\
     name = take (Z.to_nat (slen host mod 256)) (str_bytes host) /\ zlen name < 256 /\ after <> []).
Proof.
  intros Hp. split; [|apply long_name_cut]. split.
  - intros Hr. destruct (decide (slen host < 256)) as [|Hn]; [done|].
    destruct (long_name_cut host port) as (name & p & after & Hr' & _ & _ & Ha); [lia|].
    rewrite Hr in Hr'. injection Hr' as _ _ <-. done.
  - intros Hl. pose proof (slen_nonneg host). unfold socks_request. cbn [app read_request].
    assert (Hlen : Z.to_nat (u8 (slen host)) = length (str_bytes host)).
    { unfold u8. rewrite wrap_small by lia. pose proof (str_bytes_length host) as E. unfold zlen in E. lia. }
    rewrite Hlen, drop_app_length, take_app_length. rewrite port_bytes by done.
    rewrite length_app. by destruct (Nat.leb_spec (length (str_bytes host)) (length (str_bytes host) + length [u8 (Z.shiftr port 8); u8 (Z.land port 255)])); [|lia].
Qed.

(** What a connection through the proxy has passed: both answers of the proxy
    granted, the second of ten bytes at least, and the tunnel upgraded. *)
Lemma socks5_handshake_ok {C} (p : proxy C) host port w c :
  socks5_handshake p host port = (w, Ok c) ->
  w = [socks_greeting; socks_request host port] /\
  (exists resp, px_greeting p = Done resp /\ nth_byte resp 0 = 5 /\ nth_byte resp 1 = 0) /\
  (exists buf, px_response p = Done buf /\ 10 <= zlen buf /\ nth_byte buf 1 = 0) /\
  px_upgrade p (uri_dummy host port) = Ok c.
Proof.
  unfold socks5_handshake. destruct (px_write_greeting p); cbn [settle]; [|done..].
  destruct (px_greeting p) as [resp| |]; cbn [settle]; [|done..].
  destruct (Z.eqb_spec (nth_byte resp 0) 5); [|done]. destruct (Z.eqb_spec (nth_byte resp 1) 0); [|done].
  cbn [negb orb]. destruct (px_write_request p); cbn [settle]; [|done..].
  destruct (px_response p) as [buf| |]; cbn [settle rbind]; [|done..].
  destruct (Z.ltb_spec (zlen buf) 10); [done|]. destruct (Z.eqb_spec (nth_byte buf 1) 0); [|done].
  cbn [negb orb]. destruct (px_upgrade p _) eqn:E; [|done]. intros [= <- <-].
  split_and!; [done|by exists resp|by exists buf|done].
Qed.

(** A plain websocket at its default port is looked for at the port of TLS. *)
Lemma tor_default_port h : tor_target (mkUrl "ws" (Some h) None) = (h, 443).
Proof. done. Qed.

Theorem socks_request_read_witness :
  read_request (socks_request "abc.onion" 9001) = Some (str_bytes "abc.onion", 9001, []).
Proof.
  apply (socks_request_read "abc.onion" 9001); [split; [discriminate|reflexivity]|reflexivity].
Defined.
