(* ===== verification/WireText.v ===== *)
(** * The text of an envelope

    What the clients of src/client/src/main.rs rely on when the text of an
    envelope is read as an envelope or as plain JSON: laws of serde_json on
    [WireEnvelope] (src/protocol/src/envelope.rs:63-72), whose fields are
    written under the names ["type"], ["payload"], ["msg_id"], ["ts"] and
    ["sig"], and an instance. *)

From S2P Require Import Prelude Text Primitives Concrete Json Envelope Handshake.

Definition wire_keys : list string := ["type"; "payload"; "msg_id"; "ts"; "sig"].

(** An envelope as a client makes it: a flat payload and a time in whole
    seconds, far below [2 ^ 53]. *)
Definition plain_envelope (e : WireEnvelope) (m : list (string * value)) (secs : Z) : Prop :=
  payload e = VObject m /\ NoDup m.*1 /\ Forall (fun kv => flat kv.2) m /\
  ts e = f64_of_Z secs /\ 0 <= secs < 2 ^ 53.

(** Such an envelope is read back as it was, up to the order of the members of
    its payload; as JSON, its text is an object with its type and no other
    members than those of the struct, whatever its time; and an object without
    a payload is no envelope. *)
Class WireText `{WireCodec} `{JsonCodec} : Prop := {
  wire_read e m secs :
    plain_envelope e m secs ->
    exists e', from_json (to_json e) = Ok e' /\ msg_type e' = msg_type e /\ ts e' = ts e /\
      sig e' = sig e /\ forall k, payload_field e' k = payload_field e k;
  wire_members e m :
    payload e = VObject m -> NoDup m.*1 -> Forall (fun kv => flat kv.2) m -> f64_finite (ts e) = true ->
    exists m', json_parse (to_json e) = Some (VObject m') /\
      assoc "type" m' = Some (VString (msg_type e)) /\
      forall k, k ∉ wire_keys -> assoc k m' = None;
  wire_missing m :
    NoDup m.*1 -> Forall (fun kv => flat kv.2) m -> assoc "payload" m = None ->
    is_ok (from_json (json_print (VObject m))) = false;
}.

(** ** An instance

    The text is one flat object; the payload is its own text inside, and the
    time the digits of its representation. *)

Fixpoint pos_str (p : positive) : string :=
  match p with
  | xH => ","
  | xO p' => String "0" (pos_str p')
  | xI p' => String "1" (pos_str p')
  end.

Fixpoint read_pos (s : string) : positive * string :=
  match s with
  | String "0" s' => let (p, r) := read_pos s' in (xO p, r)
  | String "1" s' => let (p, r) := read_pos s' in (xI p, r)
  | String _ s' => (xH, s')
  | EmptyString => (xH, EmptyString)
  end.

Lemma read_pos_str p t : read_pos (pos_str p +:+ t) = (p, t).
Proof.
  induction p as [p IH|p IH|]; [| |done]; cbn [pos_str];
    change (String ?a ?s +:+ t) with (String a (s +:+ t)); cbn [read_pos]; by rewrite IH.
Qed.

Definition pos_of_Z (z : Z) : positive :=
  match z with Z0 => xH | Zpos p => xO p | Zneg p => xI p end.
Definition Z_of_pos (p : positive) : Z :=
  match p with xH => Z0 | xO p' => Zpos p' | xI p' => Zneg p' end.

Definition sign_str (b : bool) : string := if b then "-" else "+".

Definition time_str (x : f64) : string :=
  match x with
  | S754_nan => "n"
  | S754_zero b => "z" +:+ sign_str b
  | S754_infinity b => "i" +:+ sign_str b
  | S754_finite b m e => "f" +:+ sign_str b +:+ pos_str m +:+ pos_str (pos_of_Z e)
  end.

Definition read_time (s : string) : f64 :=
  match s with
  | String "z" r => S754_zero (String.eqb r "-")
  | String "i" r => S754_infinity (String.eqb r "-")
  | String "f" (String c r) =>
      let (m, r) := read_pos r in let (e, _) := read_pos r in
      S754_finite (Ascii.eqb c "-"%char) m (Z_of_pos e)
  | _ => S754_nan
  end.

Lemma read_time_str x : read_time (time_str x) = x.
Proof.
  destruct x as [[]|[]| |b m e]; try done. unfold time_str.
  assert (He : Z_of_pos (pos_of_Z e) = e) by (by destruct e).
  assert (Hr : read_pos (pos_str (pos_of_Z e)) = (pos_of_Z e, "")).
  { rewrite <- (str_app_nil_r (pos_str _)). apply read_pos_str. }
  assert (Hs : forall c t, "f" +:+ String c "" +:+ t = String "f" (String c t)) by done.
  destruct b; cbn [sign_str]; rewrite Hs; cbn [read_time]; by rewrite read_pos_str, Hr, He.
Qed.

Definition toy_to_json (e : WireEnvelope) : string :=
  @json_print toy_json
    (str_object [("type", msg_type e); ("payload", @json_print toy_json (payload e));
                 ("msg_id", msg_id e); ("ts", time_str (ts e)); ("sig", sig e)]).

Definition toy_from_json (s : string) : result string WireEnvelope :=
  match @json_parse toy_json s with
  | Some (VObject m) =>
      let field k := assoc k m ≫= as_str in
      match field "type", field "payload" ≫= @json_parse toy_json, field "msg_id", field "ts", field "sig" with
      | Some t, Some p, Some id, Some time, Some sg => Ok (mkWireEnvelope t p id (read_time time) sg)
      | _, _, _, _, _ => Err "missing field"
      end
  | _ => Err "not an object"
  end.

Definition text_codec : WireCodec := {| to_json := toy_to_json; from_json := toy_from_json |}.

Lemma text_codec_laws : @WireText text_codec toy_json.
Proof.
  assert (Hmem : forall e, exists m', @json_parse toy_json (toy_to_json e) = Some (VObject m') /\
    forall k, assoc k m' = VString <$> assoc k
      [("type", msg_type e); ("payload", @json_print toy_json (payload e));
       ("msg_id", msg_id e); ("ts", time_str (ts e)); ("sig", sig e)]).
  { intros e. apply (@json_parse_print toy_json). cbn [fmap list_fmap fst].
    apply (bool_decide_eq_true_1 _). vm_compute. reflexivity. }
  constructor.
  - intros e m secs (Hp & Hnd & Hf & _ & _). destruct (Hmem e) as (m' & Hj & Hk).
    destruct (@json_parse_print_flat toy_json m Hnd Hf) as (p & Hp' & Hpk).
    cbn [to_json from_json text_codec]. unfold toy_from_json. rewrite Hj, !Hk.
    cbn [assoc String.eqb Ascii.eqb Bool.eqb fmap option_fmap option_map mbind option_bind as_str].
    rewrite Hp, Hp', read_time_str. eexists. split; [done|].
    split_and!; [done..|]. intros k. unfold payload_field. cbn [payload]. by rewrite Hpk, Hp.
  - intros e m _ _ _ _. destruct (Hmem e) as (m' & Hj & Hk). exists m'. split; [done|].
    split; [by rewrite Hk|]. intros k Hn. rewrite Hk. cbn [assoc].
    unfold wire_keys in Hn. rewrite !not_elem_of_cons in Hn.
    repeat (rewrite (proj2 (String.eqb_neq k _)) by tauto). done.
  - intros m Hnd Hf Hn. destruct (@json_parse_print_flat toy_json m Hnd Hf) as (m' & Hj & Hk).
    cbn [from_json text_codec]. unfold toy_from_json. rewrite Hj, (Hk "payload"), Hn.
    cbn [mbind option_bind]. by destruct (assoc "type" m' ≫= as_str).
Qed.

Lemma text_codec_wire : @WireLaws text_codec.
Proof.
  constructor. intros e m Hp Hnd Hf _.
  destruct (@json_parse_print_flat toy_json m Hnd Hf) as (p & Hp' & Hpk).
  exists (mkWireEnvelope (msg_type e) (VObject p) (msg_id e) (ts e) (sig e)). split_and!; [|done|].
  - cbn [to_json from_json text_codec]. unfold toy_from_json, toy_to_json.
    destruct (@json_parse_print toy_json
                [("type", msg_type e); ("payload", @json_print toy_json (payload e));
                 ("msg_id", msg_id e); ("ts", time_str (ts e)); ("sig", sig e)]) as (m' & -> & Hk);
      [apply (bool_decide_eq_true_1 _); vm_compute; reflexivity|].
    rewrite !Hk. cbn [assoc String.eqb Ascii.eqb Bool.eqb fmap option_fmap option_map mbind option_bind as_str].
    by rewrite Hp, Hp', read_time_str.
  - intros k. unfold payload_field. cbn [payload]. by rewrite Hpk, Hp.
Qed.
