(* ===== verification/Peer.v ===== *)
(** * The peers of a node (src/p2p/src/peer.rs)

    Connections and the queue of messages kept for each peer.  The two maps
    are behind mutexes taken one after the other; an operation of this file
    holds both ([PeerThreads] has them one by one).  Instants are nanoseconds on the monotonic clock. *)

From S2P Require Import Prelude Envelope Handshake.

(** Source: p2p/src/peer.rs:24-25, MAX_IDLE_SECONDS. *)
Definition MAX_IDLE_SECONDS : Z := 300.
(** Source: p2p/src/peer.rs:27-28, MAX_PENDING_MESSAGES. *)
Definition MAX_PENDING_MESSAGES : Z := 100.

(** Source: p2p/src/peer.rs:30-39, PeerState. *)
Inductive PeerState : Type := Connecting | Connected | Disconnected.

#[global] Instance peer_state_eq : EqDecision PeerState.
Proof. solve_decision. Defined.

(** Source: p2p/src/peer.rs:41-51, PeerInfo. *)
Record PeerInfo : Type := mkPeerInfo {
  peer_id : string;
  state : PeerState;
  connected_at : Z;
  last_activity : Z;
  messages_sent : Z;
  messages_received : Z;
  public_key : option string;
}.

(** Source: p2p/src/peer.rs:54-65, PeerInfo::new. *)
Definition new_info (now : Z) (id : string) : PeerInfo :=
  mkPeerInfo id Connecting now now 0 0 None.

(** [Duration] comparison; an instant ahead of the clock has elapsed zero.
    Source: p2p/src/peer.rs:67-69, PeerInfo::is_idle. *)
Definition is_idle (now : Z) (p : PeerInfo) : bool :=
  MAX_IDLE_SECONDS * 1000000000 <? Z.max 0 (now - last_activity p).

(** Source: p2p/src/peer.rs:71-74, PeerInfo::mark_sent. *)
Definition mark_sent (now : Z) (p : PeerInfo) : PeerInfo :=
  mkPeerInfo (peer_id p) (state p) (connected_at p) now (wrap 64 (messages_sent p + 1))
    (messages_received p) (public_key p).

(** Source: p2p/src/peer.rs:76-79, PeerInfo::mark_received. *)
Definition mark_received (now : Z) (p : PeerInfo) : PeerInfo :=
  mkPeerInfo (peer_id p) (state p) (connected_at p) now (messages_sent p)
    (wrap 64 (messages_received p + 1)) (public_key p).

(** Source: p2p/src/peer.rs:82-88, PendingMessage. *)
Record PendingMessage : Type := mkPending { envelope : WireEnvelope; queued_at : Z; retry_count : Z }.

(** Source: p2p/src/peer.rs:90-96, PeerManager. *)
Record PeerManager : Type := mkManager {
  peers : gmap string PeerInfo;
  pending : gmap string (list PendingMessage);
  max_peers : Z;
}.

(** Source: p2p/src/peer.rs:99-105, PeerManager::new. *)
Definition new (max : Z) : PeerManager := mkManager ∅ ∅ max.

Definition set_peers (m : PeerManager) (p : gmap string PeerInfo) : PeerManager :=
  mkManager p (pending m) (max_peers m).
Definition set_pending (m : PeerManager) (q : gmap string (list PendingMessage)) : PeerManager :=
  mkManager (peers m) q (max_peers m).

(** Source: p2p/src/peer.rs:107-120, PeerManager::add_peer. *)
Definition add_peer (now : Z) (id : string) (m : PeerManager) : PeerManager * result P2pError unit :=
  if max_peers m <=? Z.of_nat (size (peers m))
  then (m, Err (PeerError ("max peers reached (" +:+ pretty (max_peers m) +:+ ")")))
  else (set_peers m (<[id := new_info now id]> (peers m)), Ok tt).

(** Source: p2p/src/peer.rs:122-129, PeerManager::remove_peer. *)
Definition remove_peer (id : string) (m : PeerManager) : PeerManager :=
  mkManager (delete id (peers m)) (delete id (pending m)) (max_peers m).

(** Source: p2p/src/peer.rs:131-138, PeerManager::set_state. *)
Definition set_state (now : Z) (id : string) (st : PeerState) (m : PeerManager) : PeerManager :=
  set_peers m (alter (fun p => mkPeerInfo (peer_id p) st (connected_at p) now (messages_sent p)
                                 (messages_received p) (public_key p)) id (peers m)).

(** Source: p2p/src/peer.rs:140-146, PeerManager::set_public_key. *)
Definition set_public_key (id key : string) (m : PeerManager) : PeerManager :=
  set_peers m (alter (fun p => mkPeerInfo (peer_id p) (state p) (connected_at p) (last_activity p)
                                 (messages_sent p) (messages_received p) (Some key)) id (peers m)).

(** Source: p2p/src/peer.rs:148-152, PeerManager::get_peer. *)
Definition get_peer (id : string) (m : PeerManager) : option PeerInfo := peers m !! id.

(** In the order of the map. Source: p2p/src/peer.rs:154-158, PeerManager::list_peers. *)
Definition list_peers (m : PeerManager) : list PeerInfo :=
  filter (fun p => state p = Connected) (snd <$> map_to_list (peers m)).

(** Source: p2p/src/peer.rs:160-180, PeerManager::queue_message. *)
Definition queue_message (now : Z) (id : string) (e : WireEnvelope) (m : PeerManager)
  : PeerManager * result P2pError unit :=
  let queue := opt_or (pending m !! id) [] in
  if MAX_PENDING_MESSAGES <=? zlen queue
  then (set_pending m (<[id := queue]> (pending m)),
        Err (PeerError ("message queue full for peer " +:+ id)))
  else (set_pending m (<[id := queue ++ [mkPending e now 0]]> (pending m)), Ok tt).

(** Source: p2p/src/peer.rs:182-186, PeerManager::drain_pending. *)
Definition drain_pending (id : string) (m : PeerManager) : PeerManager * list PendingMessage :=
  match pending m !! id with
  | Some q => (set_pending m (<[id := []]> (pending m)), q)
  | None => (m, [])
  end.

(** Source: p2p/src/peer.rs:188-195, PeerManager::is_connected. *)
Definition is_connected (id : string) (m : PeerManager) : bool :=
  match peers m !! id with Some p => bool_decide (state p = Connected) | None => false end.

(** Source: p2p/src/peer.rs:197-201, PeerManager::connected_count. *)
Definition connected_count (m : PeerManager) : Z := zlen (list_peers m).

(** [clock]: when each peer was looked at. *)
Definition idle_ids (clock : string -> Z) (m : PeerManager) : list string :=
  fst <$> filter (fun kv => is_idle (clock kv.1) kv.2 = true) (map_to_list (peers m)).

(** Source: p2p/src/peer.rs:203-223, PeerManager::cleanup_idle. *)
Definition cleanup_idle (clock : string -> Z) (m : PeerManager) : PeerManager * list string :=
  let ids := idle_ids clock m in
  (mkManager (foldl (fun ps id => delete id ps) (peers m) ids)
     (foldl (fun q id => delete id q) (pending m) ids) (max_peers m), ids).

(** ** Traces *)

Inductive op : Type :=
| OAdd (id : string)
| ORemove (id : string)
| OSetState (id : string) (st : PeerState)
| OSetKey (id key : string)
| OQueue (id : string) (e : WireEnvelope)
| ODrain (id : string)
| OCleanup (clock : string -> Z).

(** What an operation gives back, as far as messages go. *)
Inductive outcome : Type :=
| Accepted (id : string) (e : WireEnvelope)
| Refused (e : P2pError)
| Drained (id : string) (l : list PendingMessage)
| Dropped (ids : list string)
| Done.

Definition step (o : op) (now : Z) (m : PeerManager) : PeerManager * outcome :=
  match o with
  | OAdd id => match add_peer now id m with
               | (m', Ok _) => (m', Done) | (m', Err e) => (m', Refused e) end
  | ORemove id => (remove_peer id m, Dropped [id])
  | OSetState id st => (set_state now id st m, Done)
  | OSetKey id key => (set_public_key id key m, Done)
  | OQueue id e => match queue_message now id e m with
                   | (m', Ok _) => (m', Accepted id e) | (m', Err er) => (m', Refused er) end
  | ODrain id => let (m', l) := drain_pending id m in (m', Drained id l)
  | OCleanup clock => let (m', ids) := cleanup_idle clock m in (m', Dropped ids)
  end.

Fixpoint run (ops : list (op * Z)) (m : PeerManager) : PeerManager * list outcome :=
  match ops with
  | [] => (m, [])
  | (o, now) :: ops' =>
      let (m1, out) := step o now m in
      let (m2, outs) := run ops' m1 in (m2, out :: outs)
  end.

(** ** Bounds *)

Definition bounded (m : PeerManager) : Prop :=
  Z.of_nat (size (peers m)) <= Z.max 0 (max_peers m) /\
  map_Forall (fun id p => peer_id p = id) (peers m) /\
  map_Forall (fun _ q => zlen q <= MAX_PENDING_MESSAGES) (pending m).

Lemma foldl_delete_lookup {A} (ids : list string) (m : gmap string A) k :
  foldl (fun m id => delete id m) m ids !! k = if decide (k ∈ ids) then None else m !! k.
Proof.
  revert m. induction ids as [|id ids IH]; intros m; cbn [foldl].
  - rewrite decide_False; [done|]. apply not_elem_of_nil.
  - rewrite IH. destruct (decide (k ∈ ids)) as [Hk|Hk].
    + rewrite decide_True; [done|]. by apply elem_of_cons; right.
    + destruct (decide (k = id)) as [->|Hne].
      * rewrite lookup_delete_eq, decide_True; [done|]. by apply elem_of_cons; left.
      * rewrite lookup_delete_ne by done. rewrite decide_False; [done|].
        rewrite elem_of_cons. intros [?|?]; done.
Qed.

Lemma foldl_delete_subseteq {A} (ids : list string) (m : gmap string A) :
  foldl (fun m id => delete id m) m ids ⊆ m.
Proof.
  apply map_subseteq_spec. intros k x. rewrite foldl_delete_lookup.
  by destruct (decide (k ∈ ids)).
Qed.

Lemma size_subseteq {A} (m m' : gmap string A) : m ⊆ m' -> (size m <= size m')%nat.
Proof.
  intros Hs. rewrite <- !size_dom. apply subseteq_size. by apply subseteq_dom.
Qed.

Lemma map_Forall_sub {A} (P : string -> A -> Prop) (m m' : gmap string A) :
  m' ⊆ m -> map_Forall P m -> map_Forall P m'.
Proof. intros Hs Hf k x Hx. apply Hf. by eapply lookup_weaken. Qed.

Lemma bounded_drop m p q :
  bounded m -> p ⊆ peers m -> q ⊆ pending m -> bounded (mkManager p q (max_peers m)).
Proof.
  intros (Hs & Hp & Hq) Hsp Hsq. split_and!; cbn [peers pending max_peers].
  - pose proof (size_subseteq _ _ Hsp). lia.
  - by eapply map_Forall_sub.
  - by eapply map_Forall_sub.
Qed.

Lemma bounded_alter m id f :
  (forall p, peer_id (f p) = peer_id p) -> bounded m ->
  bounded (set_peers m (alter f id (peers m))).
Proof.
  intros Hf (Hs & Hp & Hq). split_and!; cbn [set_peers peers pending max_peers]; [| |done].
  - rewrite <- size_dom, dom_alter, size_dom. done.
  - intros k p. rewrite lookup_alter_Some. intros [(-> & p' & Hp' & ->)|[_ Hk]].
    + rewrite Hf. by apply Hp.
    + by apply Hp.
Qed.

Lemma bounded_queue m id q :
  zlen q <= MAX_PENDING_MESSAGES -> bounded m -> bounded (set_pending m (<[id := q]> (pending m))).
Proof.
  intros Hl (Hs & Hp & Hq). split_and!; cbn [set_pending peers pending max_peers]; [done|done|].
  by apply map_Forall_insert_2.
Qed.

Lemma queue_bounded m id : bounded m -> zlen (opt_or (pending m !! id) []) <= MAX_PENDING_MESSAGES.
Proof.
  intros (_ & _ & Hq). destruct (pending m !! id) as [q|] eqn:E; [exact (Hq _ _ E)|].
  unfold MAX_PENDING_MESSAGES. done.
Qed.

Lemma step_bounded o now m : bounded m -> bounded (step o now m).1 /\ max_peers (step o now m).1 = max_peers m.
Proof.
  intros Hb. destruct o; cbn [step].
  - unfold add_peer. destruct (Z.leb_spec (max_peers m) (Z.of_nat (size (peers m)))); [done|].
    split; [|done]. destruct Hb as (Hs & Hp & Hq). split_and!; cbn [fst set_peers peers pending max_peers]; [| |done].
    + rewrite map_size_insert. destruct (peers m !! id); cbn [Datatypes.id]; lia.
    + by apply map_Forall_insert_2.
  - split; [|done]. apply bounded_drop; [done|apply delete_subseteq|apply delete_subseteq].
  - split; [|done]. by apply bounded_alter.
  - split; [|done]. by apply bounded_alter.
  - unfold queue_message. pose proof (queue_bounded m id Hb) as Hq.
    destruct (Z.leb_spec MAX_PENDING_MESSAGES (zlen (opt_or (pending m !! id) []))); cbn [fst];
      (split; [|done]); apply bounded_queue; try done.
    unfold zlen in *. rewrite length_app. cbn [length]. lia.
  - unfold drain_pending. destruct (pending m !! id); [|done]. split; [|done].
    apply bounded_queue; [|done]. unfold zlen, MAX_PENDING_MESSAGES. cbn. lia.
  - split; [|done]. unfold cleanup_idle. cbn [fst].
    apply bounded_drop; [done|apply foldl_delete_subseteq|apply foldl_delete_subseteq].
Qed.

Lemma run_bounded ops : forall m, bounded m ->
  bounded (run ops m).1 /\ max_peers (run ops m).1 = max_peers m.
Proof.
  induction ops as [|[o now] ops IH]; intros m Hb; [done|]. cbn [run].
  pose proof (step_bounded o now m Hb) as [Hb1 Hm1].
  destruct (step o now m) as [m1 out]. cbn [fst] in *.
  destruct (IH m1 Hb1) as [Hb2 Hm2]. destruct (run ops m1) as [m2 outs]. cbn [fst] in *.
  split; [done|congruence].
Qed.

(** ** The queue of a peer *)

Definition queue (id : string) (m : PeerManager) : list WireEnvelope :=
  envelope <$> opt_or (pending m !! id) [].

Definition accepted (id : string) (outs : list outcome) : list WireEnvelope :=
  o ← outs; match o with Accepted id' e => if String.eqb id' id then [e] else [] | _ => [] end.
Definition drained (id : string) (outs : list outcome) : list WireEnvelope :=
  o ← outs;
  match o with Drained id' l => if String.eqb id' id then envelope <$> l else [] | _ => [] end.
Definition kept (id : string) (outs : list outcome) : Prop :=
  Forall (fun o => match o with Dropped ids => id ∉ ids | _ => True end) outs.

Lemma queue_insert id id' q m :
  queue id (set_pending m (<[id' := q]> (pending m))) =
    if String.eqb id' id then envelope <$> q else queue id m.
Proof.
  unfold queue, set_pending. cbn [pending]. destruct (String.eqb_spec id' id) as [->|Hne].
  - by rewrite lookup_insert_eq.
  - by rewrite lookup_insert_ne.
Qed.

Lemma step_fifo id o now m m' out :
  step o now m = (m', out) -> kept id [out] ->
  queue id m ++ accepted id [out] = drained id [out] ++ queue id m'.
Proof.
  intros Hs Hk. unfold kept in Hk. rewrite Forall_singleton in Hk.
  assert (Hsame : forall p, queue id (set_peers m p) = queue id m) by done.
  destruct o as [id'|id'|id' st|id' key|id' e|id'|clock]; cbn [step] in Hs.
  - unfold add_peer in Hs. destruct (_ <=? _); injection Hs as <- <-; by rewrite app_nil_r.
  - injection Hs as <- <-. rewrite app_nil_r. cbn [drained]. unfold queue, remove_peer. cbn [pending].
    rewrite lookup_delete_ne; [done|]. intros ->. by apply Hk, list_elem_of_singleton.
  - injection Hs as <- <-. by rewrite app_nil_r.
  - injection Hs as <- <-. by rewrite app_nil_r.
  - unfold queue_message in Hs. destruct (_ <=? _); injection Hs as <- <-; rewrite queue_insert.
    + cbn. rewrite app_nil_r. destruct (String.eqb_spec id' id) as [->|]; done.
    + cbn. destruct (String.eqb_spec id' id) as [->|]; cbn; [|by rewrite app_nil_r].
      unfold queue. by rewrite fmap_app.
  - unfold drain_pending in Hs. destruct (pending m !! id') as [q|] eqn:E; injection Hs as <- <-.
    + rewrite queue_insert. cbn. rewrite app_nil_r.
      destruct (String.eqb_spec id' id) as [->|]; [|done].
      unfold queue. rewrite E. cbn. by rewrite !app_nil_r.
    + cbn. rewrite app_nil_r. by destruct (String.eqb id' id).
  - unfold cleanup_idle in Hs. injection Hs as <- <-. cbn. rewrite app_nil_r. unfold queue.
    cbn [pending]. rewrite foldl_delete_lookup. by rewrite decide_False.
Qed.

Lemma run_fifo id ops : forall m m' outs,
  run ops m = (m', outs) -> kept id outs ->
  queue id m ++ accepted id outs = drained id outs ++ queue id m'.
Proof.
  induction ops as [|[o now] ops IH]; intros m m' outs Hr Hk; cbn [run] in Hr.
  - injection Hr as <- <-. by rewrite app_nil_r.
  - destruct (step o now m) as [m1 out] eqn:Es. destruct (run ops m1) as [m2 outs'] eqn:Er.
    injection Hr as <- <-. apply Forall_cons in Hk as [Hk1 Hk2].
    pose proof (step_fifo id o now m m1 out Es (Forall_cons_2 _ _ _ Hk1 (Forall_nil_2 _))) as H1.
    pose proof (IH m1 m2 outs' Er Hk2) as H2.
    assert (Ha : forall a b, accepted id (a :: b) = accepted id [a] ++ accepted id b)
      by (intros; cbn; by rewrite app_nil_r).
    assert (Hd : forall a b, drained id (a :: b) = drained id [a] ++ drained id b)
      by (intros; cbn; by rewrite app_nil_r).
    rewrite Ha, Hd, app_assoc, H1, <- !app_assoc. by rewrite H2.
Qed.

(** The peer manager under any sequence of operations.  It never holds more
    peers than its maximum nor more than a hundred messages for a peer, and
    the messages of a peer form a queue: as long as the peer is not removed,
    the messages accepted for it are those handed out so far followed by
    those still waiting, in order, none lost and none twice. *)
Theorem peer_manager_queues (ops : list (op * Z)) (max : Z) (id : string)
    (m : PeerManager) (outs : list outcome) :
  0 <= max -> run ops (new max) = (m, outs) ->
  Z.of_nat (size (peers m)) <= max /\
  zlen (queue id m) <= MAX_PENDING_MESSAGES /\
  (kept id outs -> accepted id outs = drained id outs ++ queue id m).
Proof.
  intros Hmax Hr.
  assert (Hb : bounded (new max)).
  { split_and!; [|by apply map_Forall_empty|by apply map_Forall_empty].
    cbn [peers new]. rewrite map_size_empty. cbn [max_peers]. lia. }
  destruct (run_bounded ops _ Hb) as [Hb' Hm]. rewrite Hr in Hb', Hm. cbn [fst] in *.
  split_and!.
  - destruct Hb' as (Hs & _). rewrite Hm in Hs. cbn [max_peers new] in Hs. lia.
  - unfold queue, zlen. rewrite length_fmap. by apply queue_bounded.
  - intros Hk. exact (run_fifo id ops _ _ _ Hr Hk).
Qed.

(** At the maximum even a peer that is already registered is refused. *)
Lemma readd_refused now id m :
  Z.of_nat (size (peers m)) = max_peers m -> is_ok (add_peer now id m).2 = false.
Proof. intros Hs. unfold add_peer. by rewrite (proj2 (Z.leb_le _ _)) by lia. Qed.

(** A message can be queued for a peer that was never registered, and the
    cleanup of idle peers leaves that queue alone. *)
Lemma queue_of_nobody now later id e m :
  peers m !! id = None -> zlen (queue id m) < MAX_PENDING_MESSAGES ->
  let m1 := (queue_message now id e m).1 in
  queue id m1 = queue id m ++ [e] /\ queue id (cleanup_idle later m1).1 = queue id m1.
Proof.
  intros Hn Hl m1. unfold queue, zlen in Hl. rewrite length_fmap in Hl.
  unfold m1, queue_message. unfold zlen. destruct (Z.leb_spec MAX_PENDING_MESSAGES
    (Z.of_nat (length (opt_or (pending m !! id) [])))); [lia|]. cbn [fst]. split.
  - rewrite queue_insert, String.eqb_refl. unfold queue. by rewrite fmap_app.
  - unfold cleanup_idle. cbn [fst]. unfold queue at 1. cbn [pending].
    rewrite foldl_delete_lookup. destruct (decide _) as [Hin|]; [|done]. exfalso.
    unfold idle_ids in Hin. cbn [peers set_pending] in Hin.
    apply list_elem_of_fmap in Hin as ([k p] & -> & Hin).
    apply list_elem_of_filter in Hin as [_ Hin%elem_of_map_to_list]. cbn [fst] in Hn. congruence.
Qed.

Definition text_envelope (t : string) : WireEnvelope :=
  mkWireEnvelope t Json.VNull "" (f64_of_Z 0) "".

Theorem peer_manager_queues_witness :
  let r := run [(OAdd "a", 1); (OAdd "b", 2); (OQueue "a" (text_envelope "1"), 3);
                (OQueue "a" (text_envelope "2"), 4); (ODrain "a", 5);
                (OQueue "a" (text_envelope "3"), 6)] (new 1) in
  accepted "a" r.2 = [text_envelope "1"; text_envelope "2"; text_envelope "3"] /\
  accepted "a" r.2 = drained "a" r.2 ++ queue "a" r.1.
Proof.
  intros r. split; [vm_compute; reflexivity|].
  apply (peer_manager_queues
           [(OAdd "a", 1); (OAdd "b", 2); (OQueue "a" (text_envelope "1"), 3);
            (OQueue "a" (text_envelope "2"), 4); (ODrain "a", 5);
            (OQueue "a" (text_envelope "3"), 6)] 1 "a" r.1 r.2).
  - lia.
  - apply surjective_pairing.
  - repeat constructor.
Defined.
