(* ===== verification/PeerThreads.v ===== *)
(** * The peers of a node, section by section (src/p2p/src/peer.rs)

    [PeerManager] has two mutexes.  Most operations take one of them for one
    section; [remove_peer] and [cleanup_idle] take the second while they hold
    the first, so messages can be queued and drained between what they do to the
    peers and what they do to the queues.  Here the mutex of the peers is the
    lock of [Threads] and that of the queues guards single sections.  Whatever
    the schedule, it is as if each operation of [Peer] were done at once
    ([peer_manager_linearizable]). *)

From S2P Require Import Prelude Envelope Handshake Threads Peer.

(** The mutex of the peers. *)
Abbreviation lock := unit.
Abbreviation section A := (prog lock PeerManager unit A).
Abbreviation locked p := (Threads.locked tt Writing p).

Definition holder {A} (c : config lock PeerManager unit A) : option nat :=
  match inside c with (i, _, _) :: _ => Some i | [] => None end.
Definition inside_by (h : option nat) : list (nat * lock * access) :=
  match h with Some i => [(i, tt, Writing)] | None => [] end.

Lemma may_enter_by h : may_enter tt Writing (inside_by h) = match h with Some _ => false | None => true end.
Proof. by destruct h. Qed.

(** One operation at once, as a section. *)
Definition whole (o : op) (now : Z) : section outcome :=
  atom (fun m => ((step o now m).1, Ok (step o now m).2)).

Definition clear {A} (ids : list string) (m : gmap string A) : gmap string A :=
  foldl (fun m id => delete id m) m ids.

(** What is left to do when the peers are gone: their queues, under the second mutex. *)
Definition clear_queues (ids : list string) : section outcome :=
  let* _ := change_to (fun m => set_pending m (clear ids (pending m))) in ret (Dropped ids).

(** Source: p2p/src/peer.rs:122-129, PeerManager::remove_peer. *)
Definition p_remove_peer (id : string) : section outcome :=
  locked
    (let* _ := change_to (fun m => set_peers m (delete id (peers m))) in
     let* _ := change_to (fun m => set_pending m (delete id (pending m))) in
     ret (Dropped [id])).

(** Source: p2p/src/peer.rs:203-223, PeerManager::cleanup_idle. *)
Definition p_cleanup_idle (clock : string -> Z) : section outcome :=
  locked
    (let* ids := atom (fun m => (set_peers m (clear (idle_ids clock m) (peers m)), Ok (idle_ids clock m))) in
     clear_queues ids).

(** Every operation of [Peer.op]; the queues alone are one section of the second
    mutex. *)
Definition p_op (o : op) (now : Z) : section outcome :=
  match o with
  | OQueue _ _ | ODrain _ => whole o now
  | ORemove id => p_remove_peer id
  | OCleanup clock => p_cleanup_idle clock
  | OAdd _ | OSetState _ _ | OSetKey _ _ => locked (whole o now)
  end.

(** ** Where an operation stands *)

(** The peers an operation drops before it drops their queues. *)
Definition drops (o : op) (now : Z) (m : PeerManager) : option (list string) :=
  match o with ORemove id => Some [id] | OCleanup clock => Some (idle_ids clock m) | _ => None end.

(** What an operation does under the lock. *)
Definition body (o : op) (now : Z) : section outcome :=
  match o with
  | ORemove id =>
      let* _ := change_to (fun m => set_peers m (delete id (peers m))) in clear_queues [id]
  | OCleanup clock =>
      let* ids := atom (fun m => (set_peers m (clear (idle_ids clock m) (peers m)), Ok (idle_ids clock m))) in
      clear_queues ids
  | _ => whole o now
  end.

Definition give_back (r : result unit outcome) : section outcome := Unlock tt (Ret r).

Definition unlocked_op (o : op) : bool := match o with OQueue _ _ | ODrain _ => true | _ => false end.

Lemma p_op_eq o now :
  p_op o now = if unlocked_op o then whole o now else Lock tt Writing (after (body o now) give_back).
Proof. by destruct o. Qed.

Inductive phase : Type := Waiting | Inside | Halfway (ids : list string) | Leaving (out : outcome) | Ended (out : outcome).

Definition at_ (o : op) (now : Z) (ph : phase) : section outcome :=
  match ph with
  | Waiting => p_op o now
  | Inside => after (body o now) give_back
  | Halfway ids => after (clear_queues ids) give_back
  | Leaving out => give_back (Ok out)
  | Ended out => Ret (Ok out)
  end.

Definition holds (ph : phase) : bool := match ph with Inside | Halfway _ | Leaving _ => true | _ => false end.
Definition result_of (ph : phase) : option outcome := match ph with Leaving out | Ended out => Some out | _ => None end.

(** ** What the operations do to the two maps *)

(** The state between the two halves of an operation. *)
Definition gapped (gap : option (list string)) (m : PeerManager) : PeerManager :=
  match gap with Some ids => set_peers m (clear ids (peers m)) | None => m end.

Lemma step_drops o now m ids : drops o now m = Some ids ->
  step o now m = (set_pending (gapped (Some ids) m) (clear ids (pending m)), Dropped ids).
Proof. destruct o; try done; by intros [= <-]. Qed.

(** The queues do not see the peers. *)
Lemma step_gapped o now gap m : unlocked_op o = true ->
  step o now (gapped gap m) = (gapped gap (step o now m).1, (step o now m).2) /\
  peers (step o now m).1 = peers m.
Proof.
  destruct gap as [ids|]; [|destruct (step o now m) eqn:E; intros Ho; split; [done|]];
    destruct o; try done; cbn [step unlocked_op] in *;
    unfold queue_message, drain_pending, gapped, set_peers, set_pending in *; cbn [peers pending max_peers] in *;
    repeat case_match; simplify_eq; done.
Qed.

Lemma drops_peers o now m m' : peers m = peers m' -> drops o now m = drops o now m'.
Proof. intros E. destruct o; try done. cbn. unfold idle_ids. by rewrite E. Qed.

(** The first turn inside. *)
Lemma inside_turn o now m :
  exists u k, after (body o now) give_back = Act u k /\
    match drops o now m with
    | Some ids => u m = gapped (Some ids) m /\ k m = at_ o now (Halfway ids)
    | None => u m = (step o now m).1 /\ k m = at_ o now (Leaving (step o now m).2)
    end.
Proof. destruct o; by eexists _, _. Qed.

Lemma whole_turn o now m :
  exists u k, whole o now = Act u k /\ u m = (step o now m).1 /\ k m = at_ o now (Ended (step o now m).2).
Proof. by eexists _, _. Qed.

Lemma halfway_turn o now ids m :
  exists u k, at_ o now (Halfway ids) = Act u k /\
    u m = set_pending m (clear ids (pending m)) /\ k m = at_ o now (Leaving (Dropped ids)).
Proof. by eexists _, _. Qed.

(** ** As if at once *)

Section history.
Variables (m0 : PeerManager) (ops : list (op * Z)).

Definition programs (phs : list phase) : list (section outcome) :=
  zip_with (fun on ph => at_ on.1 on.2 ph) ops phs.

(** The operations of a history, in its order. *)
Definition pick (h : list nat) : list (op * Z) := omap (fun i => ops !! i) h.

(** Run in this order and at once, the operations that have their result give_back
    [a] and give these results. *)
Record hist (phs : list phase) (h : list (nat * outcome)) (a : PeerManager) : Prop := {
  hist_run : run (pick h.*1) m0 = (a, h.*2);
  hist_once : NoDup h.*1;
  hist_who i out : (i, out) ∈ h <-> phs !! i ≫= result_of = Some out }.

Definition own (phs : list phase) (holder : option nat) : Prop :=
  forall i, holder = Some i <-> exists ph, phs !! i = Some ph /\ holds ph = true.

Definition gap_ok (phs : list phase) (gap : option (list string)) (a : PeerManager) : Prop :=
  (forall i ids, phs !! i = Some (Halfway ids) ->
     gap = Some ids /\ exists o now, ops !! i = Some (o, now) /\ drops o now a = Some ids) /\
  (forall ids, gap = Some ids -> exists i, phs !! i = Some (Halfway ids)).

Definition inv (h : list (nat * outcome)) (c : config lock PeerManager unit outcome) : Prop :=
  exists phs a gap, length phs = length ops /\ pool c = programs phs /\ hist phs h a /\
    own phs (holder c) /\ shared c = gapped gap a /\ gap_ok phs gap a /\ inside c = inside_by (holder c).

Lemma run_snoc l o now m a outs :
  run l m = (a, outs) -> run (l ++ [(o, now)]) m = ((step o now a).1, outs ++ [(step o now a).2]).
Proof.
  revert m outs. induction l as [|[o' t] l IH]; intros m outs; cbn [app run].
  - intros [= <- <-]. by destruct (step o now m).
  - destruct (step o' t m) as [m1 out1]. destruct (run l m1) as [m2 outs2] eqn:E. intros [= <- <-].
    by rewrite (IH m1 outs2 E).
Qed.

Lemma programs_lookup phs i p : programs phs !! i = Some p ->
  exists o now ph, ops !! i = Some (o, now) /\ phs !! i = Some ph /\ p = at_ o now ph.
Proof.
  unfold programs. intros Hp. apply lookup_zip_with_Some in Hp as ([o now] & ph & -> & Ho & Hph).
  by exists o, now, ph.
Qed.

Lemma programs_insert phs i o now ph :
  ops !! i = Some (o, now) -> <[i := at_ o now ph]> (programs phs) = programs (<[i := ph]> phs).
Proof.
  intros Ho. unfold programs. rewrite <- (list_insert_id ops i (o, now) Ho) at 2.
  by rewrite <- insert_zip_with.
Qed.

Lemma lookup_phase (phs : list phase) i j ph ph' : phs !! i = Some ph ->
  <[i := ph']> phs !! j = if decide (j = i) then Some ph' else phs !! j.
Proof.
  intros Hi. destruct (decide (j = i)) as [->|Hne].
  - rewrite list_lookup_insert_eq; [done|]. by eapply lookup_lt_Some.
  - by rewrite list_lookup_insert_ne.
Qed.

Lemma hist_quiet phs h a i ph ph' :
  hist phs h a -> phs !! i = Some ph -> result_of ph' = result_of ph -> hist (<[i := ph']> phs) h a.
Proof.
  intros [Hr Hn Hw] Hi E. split; [done|done|]. intros j out. rewrite Hw, (lookup_phase _ _ _ _ _ Hi).
  destruct (decide (j = i)) as [->|_]; [|done]. rewrite Hi. cbn. by rewrite E.
Qed.

Lemma hist_add phs h a i o now ph ph' :
  hist phs h a -> phs !! i = Some ph -> result_of ph = None -> ops !! i = Some (o, now) ->
  result_of ph' = Some (step o now a).2 ->
  hist (<[i := ph']> phs) (h ++ [(i, (step o now a).2)]) (step o now a).1.
Proof.
  intros [Hr Hn Hw] Hi Hph Ho E. split.
  - rewrite !fmap_app. unfold pick. rewrite omap_app. cbn. rewrite Ho. by apply run_snoc.
  - rewrite fmap_app. apply NoDup_app. split_and!; [done| |apply NoDup_singleton].
    intros j Hj ->%list_elem_of_singleton. apply list_elem_of_fmap in Hj as ([k out] & [= ->] & Hin).
    apply Hw in Hin. rewrite Hi in Hin. cbn in Hin. congruence.
  - intros j out. rewrite elem_of_app, Hw, (lookup_phase _ _ _ _ _ Hi), list_elem_of_singleton.
    destruct (decide (j = i)) as [->|Hne].
    + rewrite Hi. cbn. rewrite Hph, E. split; [intros [?|[= ->]]; done|intros [= <-]; by right].
    + split; [intros [?|[= -> _]]; done|by left].
Qed.

Lemma own_same phs hd i ph ph' :
  own phs hd -> phs !! i = Some ph -> holds ph' = holds ph -> own (<[i := ph']> phs) hd.
Proof.
  intros Ho Hi E j. rewrite (Ho j), (lookup_phase _ _ _ _ _ Hi). destruct (decide (j = i)) as [->|_]; [|done].
  split; intros (q & Hq & Hh); [exists ph'|exists ph]; split; try done; congruence.
Qed.

Lemma own_take phs i ph ph' :
  own phs None -> phs !! i = Some ph -> holds ph' = true -> own (<[i := ph']> phs) (Some i).
Proof.
  intros Ho Hi E j. rewrite (lookup_phase _ _ _ _ _ Hi). destruct (decide (j = i)) as [->|Hne].
  - split; [intros _; by exists ph'|done].
  - split; [congruence|]. intros Hq. by apply (Ho j) in Hq.
Qed.

Lemma own_give phs hd i ph ph' :
  own phs hd -> phs !! i = Some ph -> holds ph = true -> holds ph' = false -> own (<[i := ph']> phs) None.
Proof.
  intros Ho Hi Hh E j. rewrite (lookup_phase _ _ _ _ _ Hi). split; [done|]. intros (q & Hq & Hqh).
  destruct (decide (j = i)) as [->|Hne]; [congruence|]. exfalso. apply Hne.
  assert (hd = Some i) by (apply Ho; by exists ph). assert (hd = Some j) by (apply Ho; by exists q). congruence.
Qed.

(** Only the holder can be halfway. *)
Lemma gap_none phs hd gap a i ph :
  own phs hd -> gap_ok phs gap a -> phs !! i = Some ph -> holds ph = true ->
  (forall ids, ph <> Halfway ids) -> gap = None.
Proof.
  intros Ho [_ Hg] Hi Hh Hne. destruct gap as [ids|]; [|done]. destruct (Hg ids eq_refl) as [j Hj].
  assert (hd = Some i) by (apply Ho; by exists ph). assert (hd = Some j) by (apply Ho; by exists (Halfway ids)).
  assert (i = j) as -> by congruence. rewrite Hj in Hi. injection Hi as <-. by destruct (Hne ids).
Qed.

(** A phase that is not halfway becomes another that is not. *)
Lemma gap_same phs gap a a' i ph ph' :
  gap_ok phs gap a -> phs !! i = Some ph -> (forall ids, ph <> Halfway ids) -> (forall ids, ph' <> Halfway ids) ->
  (gap = None \/ peers a' = peers a) -> gap_ok (<[i := ph']> phs) gap a'.
Proof.
  intros [H1 H2] Hi Hne Hne' Ha. split.
  - intros j ids. rewrite (lookup_phase _ _ _ _ _ Hi). destruct (decide (j = i)) as [->|_].
    { intros [= ->]. by destruct (Hne' ids). }
    intros Hj. destruct (H1 j ids Hj) as (E & o & now & Ho & Hd). split; [done|]. exists o, now. split; [done|].
    destruct Ha as [?|Ha]; [congruence|]. by rewrite (drops_peers o now a' a Ha).
  - intros ids E. destruct (H2 ids E) as [j Hj]. exists j. rewrite (lookup_phase _ _ _ _ _ Hi).
    destruct (decide (j = i)) as [->|_]; [|done]. rewrite Hj in Hi. injection Hi as <-. by destruct (Hne ids).
Qed.

(** The turn of thread [i] from phase [ph] to phase [ph']. *)
Lemma turn_act c i o now ph ph' u k phs :
  pool c = programs phs -> phs !! i = Some ph -> ops !! i = Some (o, now) ->
  at_ o now ph = Act u k -> k (shared c) = at_ o now ph' ->
  turn c i = mkConfig (u (shared c)) (inside c) (programs (<[i := ph']> phs)).
Proof.
  intros Hp Hi Ho E Ek. unfold turn, advance. rewrite Hp.
  assert (El : programs phs !! i = Some (Act u k)).
  { unfold programs. rewrite lookup_zip_with, Ho, Hi. cbn. by rewrite E. }
  rewrite El. cbn [mbind option_bind opt_or]. rewrite Ek. f_equal. by apply programs_insert.
Qed.

Lemma inv_whole h c i o now phs a gap :
  length phs = length ops -> pool c = programs phs -> hist phs h a -> own phs (holder c) ->
  shared c = gapped gap a -> gap_ok phs gap a -> inside c = inside_by (holder c) ->
  ops !! i = Some (o, now) -> phs !! i = Some Waiting ->
  unlocked_op o = true -> exists h', h `prefix_of` h' /\ inv h' (turn c i).
Proof.
  intros Hl Hp Hh Ho Hs Hg Hin Hop Hi Hu. destruct (whole_turn o now (shared c)) as (u & k & E & Eu & Ek).
  assert (Ew : at_ o now Waiting = Act u k) by (cbn [at_]; rewrite p_op_eq, Hu; exact E).
  destruct (step_gapped o now gap a Hu) as [Eg Epe]. rewrite Hs, Eg in Ek. cbn [snd] in Ek.
  exists (h ++ [(i, (step o now a).2)]). split; [by apply prefix_app_r|].
  rewrite (turn_act c i o now Waiting (Ended (step o now a).2) u k phs Hp Hi Hop Ew ltac:(by rewrite Hs)).
  exists (<[i := Ended (step o now a).2]> phs), (step o now a).1, gap. cbn [pool shared inside].
  split_and!; [by rewrite length_insert|done|by eapply hist_add|by eapply own_same|by rewrite Eu, Hs, Eg| |exact Hin].
  eapply gap_same; [exact Hg|exact Hi|done|done|by right].
Qed.

(** Under the lock. *)
Lemma inv_inside h c i o now phs a gap :
  length phs = length ops -> pool c = programs phs -> hist phs h a -> own phs (holder c) ->
  shared c = gapped gap a -> gap_ok phs gap a -> inside c = inside_by (holder c) ->
  ops !! i = Some (o, now) -> phs !! i = Some Inside ->
  exists h', h `prefix_of` h' /\ inv h' (turn c i).
Proof.
  intros Hl Hp Hh Ho Hs Hg Hin Hop Hi.
  assert (gap = None) as -> by (by eapply (gap_none phs (holder c) gap a i Inside)). cbn [gapped] in Hs.
  destruct (inside_turn o now (shared c)) as (u & k & E & Huk). rewrite Hs in Huk.
  destruct (drops o now a) as [ids|] eqn:Ed; destruct Huk as [Eu Ek].
  - exists h. split; [done|]. rewrite (turn_act c i o now Inside (Halfway ids) u k phs Hp Hi Hop E ltac:(by rewrite Hs)).
    exists (<[i := Halfway ids]> phs), a, (Some ids). cbn [pool shared inside].
    split_and!; [by rewrite length_insert|done|by eapply hist_quiet|by eapply own_same|by rewrite Hs, Eu| |exact Hin].
    destruct Hg as [H1 H2]. split.
    + intros j ids'. rewrite (lookup_phase _ _ _ _ _ Hi). destruct (decide (j = i)) as [->|_].
      * intros [= <-]. split; [done|]. by exists o, now.
      * intros Hj. by destruct (H1 j ids' Hj).
    + intros ids' [= <-]. exists i. rewrite (lookup_phase _ _ _ _ _ Hi). by rewrite decide_True.
  - exists (h ++ [(i, (step o now a).2)]). split; [by apply prefix_app_r|].
    rewrite (turn_act c i o now Inside (Leaving (step o now a).2) u k phs Hp Hi Hop E ltac:(by rewrite Hs)).
    exists (<[i := Leaving (step o now a).2]> phs), (step o now a).1, None. cbn [pool shared inside].
    split_and!; [by rewrite length_insert|done|by eapply hist_add|by eapply own_same|by rewrite Hs, Eu| |exact Hin].
    eapply gap_same; [exact Hg|exact Hi|done|done|by left].
Qed.

Lemma inv_halfway h c i o now ids phs a gap :
  length phs = length ops -> pool c = programs phs -> hist phs h a -> own phs (holder c) ->
  shared c = gapped gap a -> gap_ok phs gap a -> inside c = inside_by (holder c) ->
  ops !! i = Some (o, now) -> phs !! i = Some (Halfway ids) ->
  exists h', h `prefix_of` h' /\ inv h' (turn c i).
Proof.
  intros Hl Hp Hh Ho Hs Hg Hin Hop Hi. destruct (proj1 Hg i ids Hi) as (-> & o' & now' & Hop' & Hd).
  assert (o' = o /\ now' = now) as [-> ->] by (split; congruence).
  destruct (halfway_turn o now ids (shared c)) as (u & k & E & Eu & Ek).
  pose proof (step_drops o now a ids Hd) as Es. assert (Eout : (step o now a).2 = Dropped ids) by by rewrite Es.
  exists (h ++ [(i, (step o now a).2)]). split; [by apply prefix_app_r|].
  rewrite (turn_act c i o now (Halfway ids) (Leaving (step o now a).2) u k phs Hp Hi Hop E ltac:(by rewrite Eout)).
  exists (<[i := Leaving (step o now a).2]> phs), (step o now a).1, None. cbn [pool shared inside].
  split_and!; [by rewrite length_insert|done|by eapply hist_add|by eapply own_same|by rewrite Eu, Hs, Es| |exact Hin].
  split; [|done]. intros j ids'. rewrite (lookup_phase _ _ _ _ _ Hi). destruct (decide (j = i)) as [->|Hne]; [done|].
  intros Hj. exfalso. apply Hne. assert (holder c = Some i) by (apply Ho; by exists (Halfway ids)).
  assert (holder c = Some j) by (apply Ho; by exists (Halfway ids')). congruence.
Qed.

(** A turn adds at most one operation to the history. *)
Lemma inv_turn h c i : inv h c -> exists h', h `prefix_of` h' /\ inv h' (turn c i).
Proof.
  intros (phs & a & gap & Hl & Hp & Hh & Ho & Hs & Hg & Hin).
  assert (Hstay : turn c i = c -> exists h', h `prefix_of` h' /\ inv h' (turn c i)).
  { intros ->. exists h. split; [done|]. by exists phs, a, gap. }
  destruct (pool c !! i) as [p|] eqn:Ei; [|apply Hstay; unfold turn, advance; by rewrite Ei].
  rewrite Hp in Ei. destruct (programs_lookup phs i p Ei) as (o & now & ph & Hop & Hi & ->). rewrite <- Hp in Ei.
  destruct ph as [| |ids|out|out].
  - destruct (unlocked_op o) eqn:Hu; [by eapply inv_whole|]. cbn [at_] in Ei. rewrite p_op_eq, Hu in Ei.
    unfold turn, advance. rewrite Ei. cbn [mbind option_bind]. rewrite Hin, may_enter_by.
    destruct (holder c) as [j|] eqn:Eh; cbn [opt_or].
    { exists h. split; [done|]. exists phs, a, gap. rewrite Eh. by split_and!. }
    exists h. split; [done|]. exists (<[i := Inside]> phs), a, gap. cbn [pool shared inside].
    split_and!; [by rewrite length_insert| |by eapply hist_quiet|by eapply own_take|done| |done].
    + rewrite Hp. by apply (programs_insert phs i o now Inside).
    + eapply gap_same; [exact Hg|exact Hi|done|done|by right].
  - by eapply inv_inside.
  - by eapply inv_halfway.
  - assert (Eh : holder c = Some i) by (apply Ho; by exists (Leaving out)).
    unfold turn, advance. rewrite Ei, Hin, Eh. cbn [at_ give_back mbind option_bind opt_or inside_by leave List.filter fst snd].
    rewrite Nat.eqb_refl, bool_decide_eq_true_2 by done. exists h. split; [done|].
    exists (<[i := Ended out]> phs), a, gap. cbn [pool shared inside negb andb].
    split_and!; [by rewrite length_insert| |by eapply hist_quiet|by eapply own_give|done| |done].
    + rewrite Hp. by apply (programs_insert phs i o now (Ended out)).
    + eapply gap_same; [exact Hg|exact Hi|done|done|by right].
  - apply Hstay. unfold turn, advance. by rewrite Ei.
Qed.

Lemma inv_play sched : forall h c, inv h c -> exists h', h `prefix_of` h' /\ inv h' (play sched c).
Proof.
  induction sched as [|i sched IH]; intros h c Hc; [by exists h|].
  destruct (inv_turn h c i Hc) as (h1 & P1 & H1). destruct (IH h1 (turn c i) H1) as (h2 & P2 & H2).
  exists h2. split; [by etrans|exact H2].
Qed.

Lemma inv_start : inv [] (start m0 ((fun on => p_op on.1 on.2) <$> ops)).
Proof.
  exists (replicate (length ops) Waiting), m0, None. cbn [pool holder shared start].
  assert (Hw : forall i ph, replicate (length ops) Waiting !! i = Some ph -> ph = Waiting)
    by (intros i ph Hi; by apply lookup_replicate in Hi as [-> _]).
  split_and!; [by rewrite length_replicate| | | |done| |done].
  - unfold programs. clear. induction ops as [|[o now] l IH]; [done|]. cbn. f_equal. exact IH.
  - split; [done|apply NoDup_nil_2|]. intros i out. split; [by intros ?%elem_of_nil|].
    destruct (replicate (length ops) Waiting !! i) as [ph|] eqn:E; [|done]. by rewrite (Hw i ph E).
  - intros i. split; [done|]. intros (ph & Hi & Hh). by rewrite (Hw i ph Hi) in Hh.
  - split; [|done]. intros i ids Hi. by apply Hw in Hi.
Qed.

(** The history explains what is seen: the operations that ended are in it, those
    that did not begin are not, and run in its order, each at once, they give_back
    the state of the manager, once nobody is inside, and give the results. *)
Record explains (h : list (nat * outcome)) (c : config lock PeerManager unit outcome) : Prop := {
  exp_once : NoDup h.*1;
  exp_run : exists a, run (pick h.*1) m0 = (a, h.*2) /\ (holder c = None -> shared c = a);
  exp_ended i out : Threads.outcome i c = Some (Ok out) -> (i, out) ∈ h;
  exp_waiting i o now : ops !! i = Some (o, now) -> pool c !! i = Some (p_op o now) -> i ∉ h.*1 }.

Lemma waiting_only o now ph : at_ o now ph = p_op o now -> result_of ph = None.
Proof. destruct ph; try done; destruct o; done. Qed.

Lemma inv_explains h c : inv h c -> explains h c.
Proof.
  intros (phs & a & gap & Hl & Hp & [Hr Hn Hw] & Ho & Hs & [H1 H2] & Hin0). split; [done| | |].
  - exists a. split; [done|]. intros Hh. destruct gap as [ids|]; [|done]. exfalso.
    destruct (H2 ids eq_refl) as [i Hi]. assert (holder c = Some i) by (apply Ho; by exists (Halfway ids)). congruence.
  - intros i out Hout. apply Hw. unfold Threads.outcome in Hout. destruct (pool c !! i) as [p|] eqn:Ei; [|done].
    rewrite Hp in Ei. destruct (programs_lookup phs i p Ei) as (o & now & ph & _ & Hi & ->). rewrite Hi.
    destruct ph as [| |ids|out'|out']; cbn [at_ give_back] in Hout; try done.
    + destruct o; done.
    + destruct o; done.
    + by injection Hout as ->.
  - intros i o now Hop Hpi Hin. rewrite Hp in Hpi.
    destruct (programs_lookup phs i _ Hpi) as (o' & now' & ph & Hop' & Hi & E).
    assert (o' = o /\ now' = now) as [-> ->] by (split; congruence). symmetry in E. apply waiting_only in E.
    apply list_elem_of_fmap in Hin as ([k out] & -> & Hin). apply Hw in Hin. cbn [fst] in Hi.
    rewrite Hi in Hin. cbn in Hin. congruence.
Qed.
End history.

(** C35: the manager of peers is linearizable.  Operations of a new manager run
    side by side under any schedule, one first half of which leads to [c1] and
    the whole to [c2].  Then there is one order of them, begun in [c1] and only
    extended in [c2], which explains both: done at once in this order, as the
    operations of [Peer], those that have ended gave the results that were seen,
    and they give_back the state that is seen when nobody holds the mutex of the
    peers.  An operation that ended before another began comes before it.  So
    the manager keeps its bounds, and the messages of a peer that is not dropped
    are a queue in that order: accepted are those handed out and those waiting. *)
Theorem peer_manager_linearizable (max : Z) (ops : list (op * Z)) (sched1 sched2 : list nat) :
  let c1 := play sched1 (start (new max) ((fun on => p_op on.1 on.2) <$> ops)) in
  let c2 := play sched2 c1 in
  exists h1 h2, h1 `prefix_of` h2 /\ explains (new max) ops h1 c1 /\ explains (new max) ops h2 c2 /\
    (holder c2 = None ->
       Z.of_nat (size (peers (shared c2))) <= Z.max 0 max /\
       forall id, zlen (queue id (shared c2)) <= MAX_PENDING_MESSAGES /\
         (kept id h2.*2 -> accepted id h2.*2 = drained id h2.*2 ++ queue id (shared c2))).
Proof.
  intros c1 c2. set (m0 := new max). destruct (inv_play m0 ops sched1 [] _ (inv_start m0 ops)) as (h1 & _ & H1).
  destruct (inv_play m0 ops sched2 h1 c1 H1) as (h2 & P & H2).
  pose proof (inv_explains m0 ops h2 c2 H2) as E2. exists h1, h2.
  split_and!; [done|by apply inv_explains|done|]. intros Hh.
  destruct (exp_run _ _ _ _ E2) as (a & Hr & Ha). rewrite (Ha Hh). clear Ha.
  destruct (run_bounded (pick ops h2.*1) m0) as [Hb Hm].
  { split_and!; [|by apply map_Forall_empty|by apply map_Forall_empty].
    unfold m0. cbn [peers new]. rewrite map_size_empty. cbn [max_peers]. lia. }
  rewrite Hr in Hb, Hm. cbn [fst] in Hb, Hm. split.
  - destruct Hb as (Hs & _). by rewrite Hm in Hs.
  - intros id. split; [unfold queue, zlen; rewrite length_fmap; by apply queue_bounded|].
    intros Hk. exact (run_fifo id _ _ _ _ Hr Hk).
Qed.

(** A message queued between the two halves of a removal: accepted, and dropped
    with the queue, as if it had been queued before. *)
Example queued_halfway :
  let c := play [0; 0; 1; 0; 0]%nat (start (new 1) [p_op (ORemove "a") 1; p_op (OQueue "a" (text_envelope "1")) 2]) in
  Threads.outcome 0 c = Some (Ok (Dropped ["a"])) /\
  Threads.outcome 1 c = Some (Ok (Accepted "a" (text_envelope "1"))) /\ pending (shared c) = ∅ /\ holder c = None.
Proof. vm_compute. done. Qed.
