(* ===== verification/Stun.v ===== *)
(** * Address discovery (src/p2p/src/nat.rs)

    The parser of STUN responses, byte for byte, and what the manager concludes
    from several servers.  The datagrams come from the network and are
    arguments.  [None] stands for a panic on an index out of range. *)

From S2P Require Import Prelude Text Handshake.

(** Source: p2p/src/nat.rs:31-36, StunResult. *)
Record StunResult : Type := mkStunResult { public_ip : string; public_port : Z }.

#[global] Instance stun_result_eq : EqDecision StunResult.
Proof. solve_decision. Defined.

(** Source: p2p/src/nat.rs:38-53, NatType. *)
Inductive NatType : Type :=
| FullCone | RestrictedCone | PortRestrictedCone | Symmetric | Open | Unknown.

(** A Binding Request: type, no attributes, cookie and twelve random bytes.
    Source: p2p/src/nat.rs:102-117, query_stun. *)
Definition stun_request (transaction_id : bytes) : bytes :=
  [0x00; 0x01; 0x00; 0x00; 0x21; 0x12; 0xA4; 0x42] ++ transaction_id.

(** [format!("{}.{}.{}.{}", ..)] of [ip.to_be_bytes()].
    Source: p2p/src/nat.rs:176-180, query_stun. *)
Definition dotted (ip : Z) : string := join "."%char (pretty <$> be_bytes 4 ip).

(** [(attr_len + 3) & !3]. Source: p2p/src/nat.rs:189-190, query_stun. *)
Definition padded (attr_len : Z) : Z := Z.land (attr_len + 3) (Z.lnot 3).

(** The magic cookie. Source: p2p/src/nat.rs:175-175, query_stun. *)
Definition MAGIC : Z := 0x2112A442.

(** The attribute at an offset, when it is a usable XOR-MAPPED-ADDRESS.
    Source: p2p/src/nat.rs:159-187, query_stun. *)
Definition mapped_address (response : bytes) (offset : nat) (attr_type attr_len : Z)
  : option (option StunResult) :=
  if negb ((attr_type =? 0x0020) && (Nat.leb (offset + 4 + 8) (length response)) && (8 <=? attr_len))
  then Some None
  else
    family ← response !! (offset + 5)%nat;
    p1 ← response !! (offset + 6)%nat;
    p2 ← response !! (offset + 7)%nat;
    let port := Z.lxor (from_be_bytes [p1; p2]) 0x2112 in
    if negb (family =? 1) then Some None
    else
      a ← response !! (offset + 8)%nat;
      b ← response !! (offset + 9)%nat;
      c ← response !! (offset + 10)%nat;
      d ← response !! (offset + 11)%nat;
      Some (Some (mkStunResult (dotted (Z.lxor (from_be_bytes [a; b; c; d]) MAGIC)) port)).

(** The loop over the attributes. Source: p2p/src/nat.rs:153-194, query_stun. *)
Fixpoint scan (fuel : nat) (response : bytes) (offset : nat) : option (result P2pError StunResult) :=
  if negb (Nat.leb (offset + 4) (length response))
  then Some (Err (NatError "No XOR-MAPPED-ADDRESS in STUN response"))
  else
    match fuel with
    | O => None
    | S fuel' =>
        t1 ← response !! offset; t2 ← response !! (offset + 1)%nat;
        l1 ← response !! (offset + 2)%nat; l2 ← response !! (offset + 3)%nat;
        let attr_len := from_be_bytes [l1; l2] in
        found ← mapped_address response offset (from_be_bytes [t1; t2]) attr_len;
        match found with
        | Some r => Some (Ok r)
        | None => scan fuel' response (offset + 4 + Z.to_nat (padded attr_len))
        end
    end.

(** Source: p2p/src/nat.rs:143-195, query_stun. *)
Definition parse_stun (response : bytes) : option (result P2pError StunResult) :=
  if Nat.ltb (length response) 20 then Some (Err (NatError "STUN response too short"))
  else
    b0 ← response !! 0%nat; b1 ← response !! 1%nat;
    if negb ((b0 =? 1) && (b1 =? 1)) then Some (Err (NatError "Not a STUN success response"))
    else scan (length response) response 20.

(** Source: p2p/src/nat.rs:77-98, discover_public_address. *)
Fixpoint discover_public_address (query : string -> result P2pError StunResult)
    (stun_servers : list string) : result P2pError StunResult :=
  match stun_servers with
  | [] => Err (NatError "All STUN servers unreachable")
  | s :: l => match query s with Ok r => Ok r | Err _ => discover_public_address query l end
  end.

(** Source: p2p/src/nat.rs:55-60, NatManager. *)
Record NatManager : Type := mkNatManager { stun_servers : list string; nat_type : NatType }.

(** Source: p2p/src/nat.rs:70-75, NatManager::with_servers. *)
Definition with_servers (servers : list string) : NatManager := mkNatManager servers Unknown.

(** The answers are compared with the first one.
    Source: p2p/src/nat.rs:206-221, detect_nat_type. *)
Definition classify (results : list StunResult) : NatType :=
  match results with
  | [] => Unknown
  | [_] => Open
  | first :: _ =>
      if forallb (fun r => String.eqb (public_ip r) (public_ip first) &&
                           (public_port r =? public_port first)) results
      then FullCone else Symmetric
  end.

(** Source: p2p/src/nat.rs:197-224, detect_nat_type. *)
Definition detect_nat_type (query : string -> result P2pError StunResult) (m : NatManager)
  : NatManager * NatType :=
  let results :=
    omap (fun s => match query s with Ok r => Some r | Err _ => None end) (stun_servers m) in
  (mkNatManager (stun_servers m) (classify results), classify results).

(** Source: p2p/src/nat.rs:20-26, STUN_SERVERS. *)
Definition STUN_SERVERS : list string :=
  ["stun.l.google.com:19302"; "stun1.l.google.com:19302"; "stun2.l.google.com:19302"; "stun.stunprotocol.org:3478"].

(** Source: p2p/src/nat.rs:63-68, NatManager::new. *)
Definition new : NatManager := mkNatManager STUN_SERVERS Unknown.

(** A socket of its own for a query: how its calls end; [None] when no datagram
    comes in time. *)
Record exchange : Type := mkExchange {
  u_bind : result string unit;
  u_connect : result string unit;
  u_send : result string unit;
  u_recv : option (result string bytes);
}.

Definition nat_error {A} (what : string) (r : result string A) : result P2pError A :=
  match r with Ok a => Ok a | Err e => Err (NatError (what +:+ e)) end.

(** Of a datagram the first 512 bytes are read.
    Source: p2p/src/nat.rs:100-195, query_stun. *)
Definition query_stun (u : exchange) : option (result P2pError StunResult) :=
  match nat_error "UDP bind: " (u_bind u), nat_error "STUN connect: " (u_connect u),
        nat_error "STUN send: " (u_send u) with
  | Err e, _, _ | Ok _, Err e, _ | Ok _, Ok _, Err e => Some (Err e)
  | Ok _, Ok _, Ok _ =>
      match u_recv u with
      | None => Some (Err Timeout)
      | Some (Err e) => Some (Err (NatError ("STUN recv: " +:+ e)))
      | Some (Ok datagram) => parse_stun (take 512 datagram)
      end
  end.

Definition punch_payload : string := "nullnode-p2p-hole-punch".

(** The rounds left, and the number of the next datagram: what is sent before
    the first failure. Source: p2p/src/nat.rs:242-259, hole_punch. *)
Fixpoint punch (rounds k : nat) (send : nat -> result string unit) (peer_public : string)
    (peer_local : option string) : list (string * string) * result P2pError unit :=
  match rounds with
  | O => ([], Ok tt)
  | S rounds' =>
      match nat_error "hole punch send: " (send k) with
      | Err e => ([], Err e)
      | Ok _ =>
          match peer_local with
          | None =>
              let (l, r) := punch rounds' (k + 1) send peer_public peer_local in
              ((peer_public, punch_payload) :: l, r)
          | Some local =>
              match nat_error "hole punch local: " (send (k + 1)%nat) with
              | Err e => ([(peer_public, punch_payload)], Err e)
              | Ok _ =>
                  let (l, r) := punch rounds' (k + 2) send peer_public peer_local in
                  ((peer_public, punch_payload) :: (local, punch_payload) :: l, r)
              end
          end
      end
  end.

(** A socket of its own: not the one whose address the servers reported.
    Source: p2p/src/nat.rs:231-263, hole_punch. *)
Definition hole_punch (bind : result string unit) (send : nat -> result string unit) (peer_public : string)
    (peer_local : option string) : list (string * string) * result P2pError unit :=
  match nat_error "UDP bind: " bind with
  | Err e => ([], Err e)
  | Ok _ => punch 5 0 send peer_public peer_local
  end.

(** Five rounds, each to both addresses, whether or not anything answers. *)
Lemma hole_punch_sends send pub loc :
  (forall k, send k = Ok tt) ->
  hole_punch (Ok tt) send pub loc =
    (concat (replicate 5 ((fun a => (a, punch_payload)) <$> pub :: option_list loc)), Ok tt).
Proof. intros Hs. unfold hole_punch. destruct loc; cbn; by rewrite !Hs. Qed.

(** A single answer, whatever it says, is taken for a host without NAT; the two
    restricted kinds are never reported. *)
Lemma classify_range results :
  classify results <> RestrictedCone /\ classify results <> PortRestrictedCone /\
  (classify results = Open <-> length results = 1%nat).
Proof.
  destruct results as [|r [|r' l]]; cbn; [done|done|].
  destruct (_ && _); (split_and!; [done|done|]); (split; [done|cbn; lia]).
Qed.

(** ** Totality *)

Lemma scan_total response : forall fuel offset,
  (length response < offset + 4 + fuel)%nat -> is_Some (scan fuel response offset).
Proof.
  induction fuel as [|fuel IH]; intros offset Hl; cbn [scan];
    (destruct (Nat.leb_spec (offset + 4) (length response)) as [Hle|]; cbn [negb]; [|done]);
    [lia|].
  assert (Hat : forall k, (k < length response)%nat -> exists b, response !! k = Some b)
    by (intros k Hk; by apply lookup_lt_is_Some).
  destruct (Hat offset ltac:(lia)) as [t1 ->]. destruct (Hat (offset + 1)%nat ltac:(lia)) as [t2 ->].
  destruct (Hat (offset + 2)%nat ltac:(lia)) as [l1 ->].
  destruct (Hat (offset + 3)%nat ltac:(lia)) as [l2 ->]. cbn [mbind option_bind].
  assert (Hm : is_Some (mapped_address response offset (from_be_bytes [t1; t2]) (from_be_bytes [l1; l2]))).
  { unfold mapped_address. destruct (_ && _) eqn:E; cbn [negb]; [|done].
    rewrite !andb_true_iff, Nat.leb_le in E.
    repeat match goal with
      |- context [response !! ?k] => let b := fresh in destruct (Hat k ltac:(lia)) as [b ->]
    end. cbn [mbind option_bind]. by destruct (negb _). }
  destruct Hm as [[r|] ->]; cbn [mbind option_bind]; [done|]. apply IH. lia.
Qed.

(** ** Responses *)

(** An attribute as RFC 5389 lays it out: type, length, value, padding. *)
Definition attribute (t : Z) (v : bytes) : bytes :=
  be_bytes 2 t ++ be_bytes 2 (zlen v) ++ v ++ replicate (Z.to_nat (padded (zlen v) - zlen v)) 0.

(** The attribute that carries an IPv4 address and a port. *)
Definition xor_mapped (ip port : Z) : bytes :=
  attribute 0x0020 ([0; 1] ++ be_bytes 2 (Z.lxor port 0x2112) ++ be_bytes 4 (Z.lxor ip MAGIC)).

Definition other_attribute (tv : Z * bytes) : Prop :=
  0 <= tv.1 < 2 ^ 16 /\ tv.1 <> 0x0020 /\ zlen tv.2 < 2 ^ 16.

Lemma padded_ge n : 0 <= n -> n <= padded n <= n + 3.
Proof.
  intros Hn. unfold padded. change (Z.lnot 3) with (- 2 ^ 2).
  assert (E : Z.land (n + 3) (- 2 ^ 2) = (n + 3) / 2 ^ 2 * 2 ^ 2).
  { rewrite <- Z.shiftr_div_pow2, <- Z.shiftl_mul_pow2 by lia. apply Z.bits_inj'. intros i Hi.
    rewrite Z.land_spec, Z.shiftl_spec by lia.
    change (- 2 ^ 2) with (Z.lnot (Z.ones 2)). rewrite Z.lnot_spec by lia.
    destruct (Z.lt_ge_cases i 2).
    - rewrite Z.ones_spec_low by lia. rewrite (Z.testbit_neg_r _ (i - 2)) by lia. by rewrite andb_false_r.
    - rewrite Z.ones_spec_high, andb_true_r by lia. rewrite Z.shiftr_spec by lia. f_equal. lia. }
  rewrite E. pose proof (Z.div_mod (n + 3) (2 ^ 2)). pose proof (Z.mod_pos_bound (n + 3) (2 ^ 2)). lia.
Qed.

Lemma attribute_length t v :
  length (attribute t v) = (4 + Z.to_nat (padded (zlen v)))%nat.
Proof.
  unfold attribute. rewrite !length_app, !be_bytes_length, length_replicate.
  pose proof (padded_ge (zlen v) ltac:(unfold zlen; lia)). unfold zlen in *. lia.
Qed.

Lemma be2_shape z : exists a b, be_bytes 2 z = [a; b].
Proof. by eexists _, _. Qed.

(** The four bytes at the head of an attribute are its type and its length. *)
Lemma scan_attribute fuel pre t v rest :
  0 <= t < 2 ^ 16 -> zlen v < 2 ^ 16 ->
  let response := pre ++ attribute t v ++ rest in
  scan (S fuel) response (length pre) =
    found ← mapped_address response (length pre) t (zlen v);
    match found with
    | Some r => Some (Ok r)
    | None => scan fuel response (length pre + length (attribute t v))
    end.
Proof.
  intros Ht Hv response. cbn [scan].
  assert (Hl : (length pre + 4 <= length response)%nat).
  { unfold response. rewrite !length_app, attribute_length. lia. }
  rewrite (proj2 (Nat.leb_le _ _) Hl). cbn [negb].
  destruct (be2_shape t) as (t1 & t2 & Et). destruct (be2_shape (zlen v)) as (l1 & l2 & El).
  assert (Hat : forall k, (k < 4)%nat -> response !! (length pre + k)%nat = [t1; t2; l1; l2] !! k).
  { intros k Hk. unfold response. rewrite lookup_app_r by lia.
    replace (length pre + k - length pre)%nat with k by lia.
    unfold attribute. rewrite Et, El. do 4 (destruct k as [|k]; [done|]). lia. }
  rewrite <- (Nat.add_0_r (length pre)) at 1.
  rewrite !Hat by lia. cbn [lookup list_lookup mbind option_bind].
  rewrite <- Et, <- El.
  rewrite !from_be_be_bytes by (change (8 * Z.of_nat 2) with 16; unfold zlen in *; lia).
  destruct (mapped_address _ _ _ _) as [[r|]|]; cbn [mbind option_bind]; [done| |done].
  f_equal. rewrite attribute_length. lia.
Qed.

Lemma mapped_address_other response offset t n :
  t <> 0x0020 -> mapped_address response offset t n = Some None.
Proof. intros Ht. unfold mapped_address. by rewrite (proj2 (Z.eqb_neq _ _) Ht). Qed.

Lemma lxor_twice a b : Z.lxor (Z.lxor a b) b = a.
Proof. by rewrite Z.lxor_assoc, Z.lxor_nilpotent, Z.lxor_0_r. Qed.

Lemma lxor_range n a b : 0 <= n -> 0 <= a < 2 ^ n -> 0 <= b < 2 ^ n -> 0 <= Z.lxor a b < 2 ^ n.
Proof.
  intros Hn Ha Hb. enough (Z.lxor a b = Z.lxor a b mod 2 ^ n) as ->
    by (apply Z.mod_pos_bound; lia).
  apply Z.bits_inj'. intros i Hi. destruct (Z.lt_ge_cases i n).
  - by rewrite Z.mod_pow2_bits_low.
  - rewrite Z.mod_pow2_bits_high by lia. rewrite Z.lxor_spec.
    rewrite <- (Z.mod_small a (2 ^ n)), <- (Z.mod_small b (2 ^ n)) by done.
    by rewrite !Z.mod_pow2_bits_high by lia.
Qed.

Lemma xor_mapped_length ip port : length (xor_mapped ip port) = 12%nat.
Proof. reflexivity. Qed.

Lemma mapped_address_hit pre ip port rest :
  0 <= ip < 2 ^ 32 -> 0 <= port < 2 ^ 16 ->
  mapped_address (pre ++ xor_mapped ip port ++ rest) (length pre) 0x0020 8
    = Some (Some (mkStunResult (dotted ip) port)).
Proof.
  intros Hip Hport. unfold mapped_address.
  assert (Hl : (length pre + 4 + 8 <= length (pre ++ xor_mapped ip port ++ rest))%nat).
  { rewrite !length_app, xor_mapped_length. lia. }
  rewrite (proj2 (Nat.leb_le _ _) Hl). cbn [Z.eqb Z.leb andb negb Z.compare Pos.eqb Pos.compare Pos.compare_cont].
  assert (Hat : forall k x, (xor_mapped ip port) !! k = Some x ->
    (pre ++ xor_mapped ip port ++ rest) !! (length pre + k)%nat = Some x).
  { intros k x Hk. rewrite lookup_app_r by lia.
    replace (length pre + k - length pre)%nat with k by lia.
    rewrite lookup_app_l; [done|]. by apply lookup_lt_is_Some. }
  set (xp := Z.lxor port 0x2112) in *. set (xi := Z.lxor ip MAGIC) in *.
  assert (Hx : xor_mapped ip port =
    [0; 32; 0; 8; 0; 1; u8 (Z.shiftr xp 8); u8 (Z.shiftr xp 0);
     u8 (Z.shiftr xi 24); u8 (Z.shiftr xi 16); u8 (Z.shiftr xi 8); u8 (Z.shiftr xi 0)]) by reflexivity.
  repeat (erewrite Hat by (rewrite Hx; reflexivity)). cbn [mbind option_bind].
  change [u8 (Z.shiftr xp 8); u8 (Z.shiftr xp 0)] with (be_bytes 2 xp).
  change [u8 (Z.shiftr xi 24); u8 (Z.shiftr xi 16); u8 (Z.shiftr xi 8); u8 (Z.shiftr xi 0)]
    with (be_bytes 4 xi).
  change (negb (1 =? 1)) with false.
  rewrite !from_be_be_bytes.
  - unfold xp, xi. by rewrite !lxor_twice.
  - change (8 * Z.of_nat 2) with 16. apply lxor_range; [done|done|lia].
  - change (8 * Z.of_nat 4) with 32. apply lxor_range; [done|done|unfold MAGIC; lia].
Qed.

Lemma scan_attributes ip port rest : forall attrs fuel pre,
  0 <= ip < 2 ^ 32 -> 0 <= port < 2 ^ 16 -> Forall other_attribute attrs ->
  (length attrs < fuel)%nat ->
  scan fuel (pre ++ concat ((fun tv => attribute tv.1 tv.2) <$> attrs) ++ xor_mapped ip port ++ rest)
    (length pre) = Some (Ok (mkStunResult (dotted ip) port)).
Proof.
  induction attrs as [|[t v] attrs IH]; intros fuel pre Hip Hport Ha Hf;
    (destruct fuel as [|fuel]; [cbn in Hf; lia|]); cbn [fmap list_fmap concat].
  - rewrite app_nil_l. unfold xor_mapped at 1. rewrite scan_attribute; [|lia|done].
    change (zlen _) with 8. fold (xor_mapped ip port). by rewrite mapped_address_hit.
  - apply Forall_cons in Ha as [(Ht & Hne & Hv) Ha]. cbn [fst snd] in *.
    rewrite <- app_assoc. rewrite scan_attribute by done.
    rewrite mapped_address_other by done. cbn [mbind option_bind].
    rewrite <- length_app, app_assoc. apply IH; [done|done|done|]. cbn in Hf. lia.
Qed.

Lemma parse_stun_total d : is_Some (parse_stun d).
Proof.
  unfold parse_stun. destruct (Nat.ltb_spec (length d) 20); [done|].
  destruct d as [|b0 [|b1 d]]; [cbn in *; lia|cbn in *; lia|]. cbn [lookup list_lookup mbind option_bind].
  destruct (negb _); [done|]. apply scan_total. lia.
Qed.

(** No answer of the network makes a query panic or hang. *)
Lemma query_stun_total u : is_Some (query_stun u).
Proof.
  unfold query_stun. destruct (u_bind u), (u_connect u), (u_send u); try done.
  destruct (u_recv u) as [[d|e]|]; try done. apply parse_stun_total.
Qed.

(** C34: the STUN parser is total and reads what a server writes.  On every
    datagram it ends within bounds with an address or an error; and on a
    success response that carries an XOR-MAPPED-ADDRESS after any other
    attributes and before anything, it returns that address and port.  The
    header enters only through its first two bytes: the cookie and the
    transaction identifier of the request are not compared. *)
Theorem stun_response_read (header : bytes) (attrs : list (Z * bytes)) (ip port : Z) (rest : bytes) :
  (forall datagram, is_Some (parse_stun datagram)) /\
  (length header = 20%nat -> take 2 header = [1; 1] -> Forall other_attribute attrs ->
   0 <= ip < 2 ^ 32 -> 0 <= port < 2 ^ 16 ->
   parse_stun (header ++ concat ((fun tv => attribute tv.1 tv.2) <$> attrs) ++
               xor_mapped ip port ++ rest)
     = Some (Ok (mkStunResult (dotted ip) port))).
Proof.
  split.
  - apply parse_stun_total.
  - intros Hl Ht Ha Hip Hport. unfold parse_stun.
    set (response := header ++ _).
    assert (Hlen : (20 + length attrs <= length response)%nat).
    { unfold response. rewrite !length_app, Hl. enough (length attrs <=
        length (concat ((fun tv => attribute tv.1 tv.2) <$> attrs)))%nat by lia.
      clear. induction attrs as [|tv attrs IH]; [done|]. cbn [fmap list_fmap concat length].
      rewrite length_app, attribute_length. lia. }
    destruct (Nat.ltb_spec (length response) 20); [lia|].
    destruct header as [|b0 [|b1 header]]; [done|done|]. cbn in Ht. injection Ht as -> ->.
    change (response !! 0%nat) with (Some 1). change (response !! 1%nat) with (Some 1).
    cbn [mbind option_bind]. change (negb _) with false.
    rewrite <- Hl. unfold response. apply scan_attributes; [done|done|done|]. fold response. lia.
Qed.

Theorem stun_response_read_witness :
  parse_stun (([1; 1; 0; 36] ++ replicate 16 9) ++ concat ((fun tv => attribute tv.1 tv.2) <$> [(1, [1; 2; 3])]) ++
              xor_mapped 0xCB007105 51000 ++ [7])
    = Some (Ok (mkStunResult "203.0.113.5" 51000)).
Proof.
  pose proof (proj2 (stun_response_read ([1; 1; 0; 36] ++ replicate 16 9) [(1, [1; 2; 3])]
    0xCB007105 51000 [7])) as Hs.
  change (dotted 0xCB007105) with "203.0.113.5" in Hs. apply Hs.
  - reflexivity.
  - reflexivity.
  - repeat constructor; vm_compute; congruence.
  - lia.
  - lia.
Defined.
