(* ===== verification/Padding.v ===== *)
(** * Message padding of the client (src/client/src/main.rs)

    Messages are padded to a bucket before they are encrypted and stripped
    after they are decrypted.  The random padding is an argument; [None] of
    [pad_message_bucket] is a panic. *)

From S2P Require Import Prelude Text Files Primitives Concrete.
From S2P Require Identity.

(** ** [String::from_utf8_lossy]

    Every maximal invalid part becomes U+FFFD. *)

Definition REPLACEMENT : bytes := [0xEF; 0xBF; 0xBD].

Fixpoint utf8_lossy (l : bytes) : bytes :=
  match l with
  | [] => []
  | a :: l1 =>
      if in_range 0 127 a then a :: utf8_lossy l1
      else if in_range 194 223 a then
        match l1 with
        | b :: l2 => if cont b then a :: b :: utf8_lossy l2 else REPLACEMENT ++ utf8_lossy l1
        | [] => REPLACEMENT
        end
      else if in_range 224 239 a then
        match l1 with
        | b :: l2 =>
            if snd3 a b then
              match l2 with
              | c :: l3 => if cont c then a :: b :: c :: utf8_lossy l3 else REPLACEMENT ++ utf8_lossy l2
              | [] => REPLACEMENT
              end
            else REPLACEMENT ++ utf8_lossy l1
        | [] => REPLACEMENT
        end
      else if in_range 240 244 a then
        match l1 with
        | b :: l2 =>
            if snd4 a b then
              match l2 with
              | c :: l3 =>
                  if cont c then
                    match l3 with
                    | d :: l4 =>
                        if cont d then a :: b :: c :: d :: utf8_lossy l4
                        else REPLACEMENT ++ utf8_lossy l3
                    | [] => REPLACEMENT
                    end
                  else REPLACEMENT ++ utf8_lossy l2
              | [] => REPLACEMENT
              end
            else REPLACEMENT ++ utf8_lossy l1
        | [] => REPLACEMENT
        end
      else REPLACEMENT ++ utf8_lossy l1
  end.

Lemma list_len_ind {A} (P : list A -> Prop) :
  (forall l, (forall l', (length l' < length l)%nat -> P l') -> P l) -> forall l, P l.
Proof.
  intros Hs l. remember (length l) as n eqn:Hn. revert l Hn.
  induction n as [n IH] using lt_wf_ind. intros l ->. apply Hs. intros l' Hl. by eapply IH.
Qed.

(** What is valid is kept, whatever follows it. *)
Lemma utf8_lossy_valid : forall l r, utf8_valid l = true -> utf8_lossy (l ++ r) = l ++ utf8_lossy r.
Proof.
  intros l r. induction l as [l IH] using list_len_ind. intros Hv.
  destruct l as [|a l1]; [done|]. cbn [utf8_valid] in Hv. cbn [utf8_lossy app].
  destruct (in_range 0 127 a).
  { cbn [app]. rewrite IH; [done|cbn; lia|done]. }
  destruct (in_range 194 223 a).
  { destruct l1 as [|b l2]; [done|]. apply andb_true_iff in Hv as [Hb Hv].
    cbn [app]. rewrite Hb, IH; [done|cbn; lia|done]. }
  destruct (in_range 224 239 a).
  { destruct l1 as [|b [|c l3]]; [done|done|].
    rewrite !andb_true_iff in Hv. destruct Hv as [[Hb Hc] Hv].
    cbn [app]. rewrite Hb, Hc, IH; [done|cbn; lia|done]. }
  destruct (in_range 240 244 a); [|done].
  destruct l1 as [|b [|c [|d l4]]]; [done|done|done|].
  rewrite !andb_true_iff in Hv. destruct Hv as [[[Hb Hc] Hd] Hv].
  cbn [app]. rewrite Hb, Hc, Hd, IH; [done|cbn; lia|done].
Qed.

Lemma utf8_valid_app : forall l r, utf8_valid l = true -> utf8_valid r = true -> utf8_valid (l ++ r) = true.
Proof.
  intros l r Hl Hr. induction l as [l IH] using list_len_ind.
  destruct l as [|a l1]; [done|]. cbn [utf8_valid app] in *.
  destruct (in_range 0 127 a); [apply IH; [cbn; lia|done]|].
  destruct (in_range 194 223 a).
  { destruct l1 as [|b l2]; [done|]. apply andb_true_iff in Hl as [Hb Hl].
    cbn [app]. rewrite Hb. apply IH; [cbn; lia|done]. }
  destruct (in_range 224 239 a).
  { destruct l1 as [|b [|c l3]]; [done|done|]. rewrite !andb_true_iff in Hl. destruct Hl as [[Hb Hc] Hl].
    cbn [app]. rewrite Hb, Hc. apply IH; [cbn; lia|done]. }
  destruct (in_range 240 244 a); [|done].
  destruct l1 as [|b [|c [|d l4]]]; [done|done|done|].
  rewrite !andb_true_iff in Hl. destruct Hl as [[[Hb Hc] Hd] Hl].
  cbn [app]. rewrite Hb, Hc, Hd. apply IH; [cbn; lia|done].
Qed.

(** Nothing gets shorter. *)
Lemma utf8_lossy_length l : (length l <= length (utf8_lossy l))%nat.
Proof.
  induction l as [l IH] using list_len_ind. destruct l as [|a l1]; [done|]. cbn [utf8_lossy].
  destruct (in_range 0 127 a); [specialize (IH l1); cbn in *; lia|].
  assert (Hr : forall k l', (k <= 3)%nat -> (length l' < length (a :: l1))%nat ->
            (k + length l' <= length (REPLACEMENT ++ utf8_lossy l'))%nat).
  { intros k l' Hk Hl. specialize (IH l' Hl). rewrite length_app. cbn. lia. }
  destruct (in_range 194 223 a).
  { destruct l1 as [|b l2]; [cbn; lia|].
    destruct (cont b); [specialize (IH l2); cbn in *; lia|]. apply (Hr 1%nat); cbn; lia. }
  destruct (in_range 224 239 a).
  { destruct l1 as [|b l2]; [cbn; lia|]. destruct (snd3 a b); [|apply (Hr 1%nat); cbn; lia].
    destruct l2 as [|c l3]; [cbn; lia|].
    destruct (cont c); [specialize (IH l3); cbn in *; lia|]. apply (Hr 2%nat); cbn; lia. }
  destruct (in_range 240 244 a); [|apply (Hr 1%nat); cbn; lia].
  destruct l1 as [|b l2]; [cbn; lia|]. destruct (snd4 a b); [|apply (Hr 1%nat); cbn; lia].
  destruct l2 as [|c l3]; [cbn; lia|]. destruct (cont c); [|apply (Hr 2%nat); cbn; lia].
  destruct l3 as [|d l4]; [cbn; lia|].
  destruct (cont d); [specialize (IH l4); cbn in *; lia|]. apply (Hr 3%nat); cbn; lia.
Qed.

(** ** Padding *)

(** The next power of two, from 256 to 65536.
    Source: client/src/main.rs:2380-2399, pad_message_bucket. *)
Definition bucket_size (total_len : Z) : Z :=
  if total_len <=? 256 then 256
  else if total_len <=? 512 then 512
  else if total_len <=? 1024 then 1024
  else if total_len <=? 2048 then 2048
  else if total_len <=? 4096 then 4096
  else if total_len <=? 8192 then 8192
  else if total_len <=? 16384 then 16384
  else if total_len <=? 32768 then 32768
  else 65536.

Section padding.
Context `{Hex}.

(** The subtraction of [usize] below zero aborts: with overflow checks at once,
    without them when the vector of that length is made.
    Source: client/src/main.rs:2368-2412, pad_message_bucket. *)
Definition pad_message_bucket (random : Z -> bytes) (message : string) : option string :=
  let msg_bytes := str_bytes message in
  let msg_len := zlen msg_bytes in
  let total_len := msg_len + 1 in
  let pad_len := bucket_size total_len - msg_len - 1 in
  if pad_len <? 0 then None
  else Some (hex_encode (u8 pad_len :: msg_bytes ++ random pad_len)).

(** Source: client/src/main.rs:2414-2427, unpad_message_bucket. *)
Definition unpad_message_bucket (padded_hex : string) : result string string :=
  let? data := ok_or (hex_decode padded_hex) "hex decode" in
  match data with
  | [] => Err "empty padded message"
  | b :: rest =>
      let pad_len := b in
      if zlen data <? pad_len + 1 then Err "invalid padding length"
      else Ok (bytes_str (utf8_lossy (take (Z.to_nat (zlen data - pad_len - 1)) rest)))
  end.
End padding.

(** ** Padding and stripping *)

Lemma bucket_size_ge n : n <= 65536 -> n <= bucket_size n <= 65536.
Proof.
  intros Hn. unfold bucket_size.
  repeat match goal with |- context [?a <=? ?b] => destruct (Z.leb_spec a b) end; lia.
Qed.

Lemma bucket_size_lt n : 65536 < n -> bucket_size n < n.
Proof.
  intros Hn. unfold bucket_size.
  repeat match goal with |- context [?a <=? ?b] => destruct (Z.leb_spec a b) end; lia.
Qed.

Lemma bytes_str_app a b : bytes_str (a ++ b) = bytes_str a +:+ bytes_str b.
Proof. induction a as [|x a IH]; [done|]. cbn [app bytes_str String.append]. by rewrite IH. Qed.

Lemma slen_bytes_str l : slen (bytes_str l) = zlen l.
Proof.
  unfold slen, zlen. induction l as [|x l IH]; [done|]. cbn [bytes_str String.length length]. lia.
Qed.

Lemma zlen_str_bytes s : zlen (str_bytes s) = slen s.
Proof. by rewrite <- (bytes_str_bytes s) at 2; rewrite slen_bytes_str. Qed.

Section roundtrip.
Context `{Hex}.

(** The random source delivers the bytes it is asked for. *)
Definition fills (random : Z -> bytes) : Prop :=
  forall n, 0 <= n -> zlen (random n) = n /\ bytes_ok (random n).

Definition pad_len (message : string) : Z := bucket_size (slen message + 1) - slen message - 1.

Lemma unpad_padded pl msg rand :
  bytes_ok msg -> bytes_ok rand -> zlen rand = pl -> 0 <= pl -> utf8_valid msg = true ->
  unpad_message_bucket (hex_encode (u8 pl :: msg ++ rand)) =
    Ok (bytes_str msg +:+ bytes_str (utf8_lossy (take (Z.to_nat (pl - pl mod 256)) rand))).
Proof.
  intros Hm Hr Hl Hp Hv. unfold unpad_message_bucket.
  rewrite hex_decode_encode.
  2: { constructor; [apply (wrap_range 8); lia|]. by apply Forall_app. }
  cbn [ok_or rbind]. change (u8 pl) with (pl mod 256).
  pose proof (Z.mod_pos_bound pl 256). pose proof (Z.mod_le pl 256).
  assert (Hz : zlen (pl mod 256 :: msg ++ rand) = zlen msg + pl + 1).
  { unfold zlen in *. cbn [length]. rewrite length_app. lia. }
  rewrite Hz. destruct (Z.ltb_spec (zlen msg + pl + 1) (pl mod 256 + 1)); [unfold zlen in *; lia|].
  replace (Z.to_nat (zlen msg + pl + 1 - pl mod 256 - 1))
    with (length msg + Z.to_nat (pl - pl mod 256))%nat by (unfold zlen in *; lia).
  rewrite take_app_add, utf8_lossy_valid, bytes_str_app by done. done.
Qed.

(** C22: what padding costs.  A message of at most 65535 bytes is padded to the
    next power of two from 256 and a longer one aborts the client.  Stripping
    takes the length of the padding modulo 256, so what comes back is the
    message followed by the first [pad_len - pad_len mod 256] random bytes of
    the padding: the message itself exactly when fewer than 256 bytes were
    added, which holds for all messages below 512 bytes and fails, for
    instance, for all of 512 to 767 bytes. *)
Theorem pad_unpad (random : Z -> bytes) (message : string) :
  fills random -> str_ok message ->
  let n := slen message in
  (65535 < n -> pad_message_bucket random message = None) /\
  (n <= 65535 ->
   exists p, pad_message_bucket random message = Some p /\ slen p = 2 * bucket_size (n + 1) /\
     let kept := Z.to_nat (pad_len message - pad_len message mod 256) in
     unpad_message_bucket p =
       Ok (message +:+ bytes_str (utf8_lossy (take kept (random (pad_len message))))) /\
     (unpad_message_bucket p = Ok message <-> pad_len message < 256)) /\
  (n < 512 -> pad_len message < 256) /\ (512 <= n < 768 -> 256 <= pad_len message).
Proof.
  intros Hr Hs n. unfold pad_message_bucket. rewrite zlen_str_bytes. fold n.
  change (bucket_size (n + 1) - n - 1) with (pad_len message). split_and!.
  - intros Hn. pose proof (bucket_size_lt (n + 1) ltac:(lia)) as Hb.
    rewrite (proj2 (Z.ltb_lt _ _)); [done|]. unfold pad_len. fold n. lia.
  - intros Hn. pose proof (bucket_size_ge (n + 1) ltac:(lia)) as Hb.
    assert (Hp : 0 <= pad_len message) by (unfold pad_len; fold n; lia).
    rewrite (proj2 (Z.ltb_ge _ _)) by done. eexists. split; [done|].
    destruct (Hr _ Hp) as [Hl Hok]. split; [|].
    { rewrite hex_encode_length. unfold zlen. cbn [length]. rewrite length_app.
      rewrite Nat2Z.inj_succ, Nat2Z.inj_add. fold (zlen (str_bytes message)).
      fold (zlen (random (pad_len message))). rewrite zlen_str_bytes, Hl.
      fold n. unfold pad_len. fold n. lia. }
    cbv zeta. rewrite unpad_padded by (try done; apply str_bytes_ok).
    rewrite bytes_str_bytes. split; [done|].
    set (kept := pad_len message - pad_len message mod 256).
    pose proof (Z.div_mod (pad_len message) 256). pose proof (Z.mod_pos_bound (pad_len message) 256).
    split.
    + intros [= E]. apply (f_equal slen) in E. rewrite slen_app, slen_bytes_str in E.
      pose proof (utf8_lossy_length (take (Z.to_nat kept) (random (pad_len message)))) as Hlen.
      rewrite length_take in Hlen. unfold zlen in *. lia.
    + intros Hlt. assert (kept = 0) as -> by (unfold kept; rewrite Z.mod_small by lia; lia).
      cbn. by rewrite str_app_nil_r.
  - intros Hn. unfold pad_len. fold n. pose proof (slen_nonneg message). unfold bucket_size.
    destruct (Z.leb_spec (n + 1) 256); [lia|].
    destruct (Z.leb_spec (n + 1) 512); lia.
  - intros Hn. unfold pad_len. fold n. unfold bucket_size.
    destruct (Z.leb_spec (n + 1) 256); [lia|]. destruct (Z.leb_spec (n + 1) 512); [lia|].
    destruct (Z.leb_spec (n + 1) 1024); lia.
Qed.
End roundtrip.

(** ** The padding of the crypto crate

    Exported under the same names and called by nothing. *)

Section crate.
Context `{Hex}.

Definition NUL : ascii := Ascii.ascii_of_nat 0.

(** Eight zero digits for every byte of the message.
    Source: crypto/src/lib.rs:407-413, pad_message_bucket. *)
Definition crate_pad (message : string) : string :=
  hex_encode (replicate (8 * length (str_bytes message)) 48).

(** Source: crypto/src/lib.rs:415-430, unpad_message_bucket. *)
Definition crate_unpad (padded_hex : string) : result Identity.CryptoError string :=
  let? b := ok_or (hex_decode padded_hex) (Identity.DecryptFailed "hex decode") in
  match from_utf8 b with
  | Some s => Ok (trim (trim_end NUL s))
  | None => Ok ""
  end.

(** Nothing of a message but its length is in its padding. *)
Lemma crate_pad_loses_message m m' : crate_pad m = crate_pad m' <-> slen m = slen m'.
Proof.
  unfold crate_pad. rewrite <- !zlen_str_bytes. unfold zlen. split; [|intros E; f_equal; f_equal; lia].
  intros E. apply (f_equal hex_decode) in E.
  rewrite !hex_decode_encode in E by (apply Forall_replicate; unfold byte_ok; lia).
  injection E as E. apply (f_equal length) in E. rewrite !length_replicate in E. lia.
Qed.

End crate.

#[local] Existing Instance toy_hex.

Definition zeros_source (n : Z) : bytes := replicate (Z.to_nat n) 0.

Theorem pad_unpad_witness :
  exists p, pad_message_bucket zeros_source "hello" = Some p /\ slen p = 512 /\
    unpad_message_bucket p = Ok "hello".
Proof.
  destruct (pad_unpad zeros_source "hello") as (_ & Hp & _).
  - intros n Hn. unfold zeros_source, zlen. rewrite length_replicate.
    split; [lia|]. apply Forall_replicate. unfold byte_ok. lia.
  - reflexivity.
  - destruct Hp as (p & E & Hl & _ & Hu); [vm_compute; discriminate|].
    exists p. split; [exact E|]. split; [exact Hl|]. apply Hu. vm_compute. reflexivity.
Defined.
