(* ===== verification/ClientStore.v ===== *)
(** * The local database of the client (src/client/src/main.rs)

    The encryption of data at rest, the log of messages and the saved ratchet
    sessions.  The tables are lists of rows in the order of their identifiers;
    whether a statement fails, the random nonces and the clock are arguments. *)

From S2P Require Import Prelude Text Files Primitives Concrete Padding.

(** ** Encryption at rest *)

Section db_key.
Context `{Aead} `{Base64} `{Hex}.

(** A file of the client's directory, when it exists, holds text. *)
Abbreviation file := (option string).

(** The key of [DbEncryptionKey] is 32 bytes, in hexadecimal on disk; a new
    file is made when there is none; that its permissions cannot be set is
    ignored. Source: client/src/main.rs:186-218, load_or_create. *)
Definition load_or_create (w : Files.write_end) (random : bytes) (f : file) : file * result string bytes :=
  match f with
  | Some text =>
      (f, let? key := ok_or (hex_decode (trim text)) "hex decode" in
          if zlen key =? 32 then Ok key else Err "invalid db key length")
  | None =>
      match w with
      | Files.Written | Files.Unprotected => (Some (hex_encode random), Ok random)
      | Files.NotOpened => (None, Err "open")
      | Files.CutShort => (Some "", Err "write")
      end
  end.

(** Source: client/src/main.rs:230-252, encrypt. *)
Definition encrypt (nonce key : bytes) (plaintext : string) : result string string :=
  let? ciphertext := ok_or (aes_encrypt key nonce (str_bytes plaintext)) "encryption failed: aead::Error" in
  Ok (b64_encode (nonce ++ ciphertext)).

(** Source: client/src/main.rs:254-277, decrypt. *)
Definition decrypt (key : bytes) (encrypted_b64 : string) : result string string :=
  let? data := ok_or (b64_decode encrypted_b64) "base64 decode" in
  if zlen data <? 12 + 16 then Err "ciphertext too short"
  else
    let? plaintext := ok_or (aes_decrypt key (take 12 data) (drop 12 data))
                        "decryption failed: aead::Error" in
    ok_or (from_utf8 plaintext) "invalid utf-8".

Definition nonce_ok (nonce : bytes) : Prop := length nonce = 12%nat /\ bytes_ok nonce.

Lemma encrypt_total nonce key plaintext :
  slen plaintext < 2 ^ 32 -> exists c, encrypt nonce key plaintext = Ok c.
Proof.
  intros Hl. unfold encrypt.
  destruct (aes_encrypt_total key nonce (str_bytes plaintext)) as [ct ->].
  - by rewrite zlen_str_bytes.
  - by eexists.
Qed.

Lemma decrypt_encrypt nonce key plaintext c :
  nonce_ok nonce -> str_ok plaintext -> encrypt nonce key plaintext = Ok c ->
  decrypt key c = Ok plaintext.
Proof.
  intros [Hn Hb] Hs. unfold encrypt, decrypt.
  destruct (aes_encrypt key nonce (str_bytes plaintext)) as [ct|] eqn:E; [|done].
  cbn [ok_or rbind]. intros [= <-].
  rewrite b64_decode_encode by (apply Forall_app; split; [done|]; by eapply aes_encrypt_ok, E; apply str_bytes_ok).
  cbn [ok_or rbind]. apply aes_encrypt_length in E as Hl.
  destruct (Z.ltb_spec (zlen (nonce ++ ct)) (12 + 16));
    [unfold zlen in *; rewrite length_app in *; lia|].
  rewrite take_app_length', drop_app_length' by lia.
  rewrite (aes_decrypt_encrypt _ _ _ _ E). cbn [ok_or rbind]. by rewrite from_utf8_str.
Qed.

(** ** Messages and sessions *)

(** Source: client/src/main.rs:666-674, StoredMessage. *)
Record StoredMessage : Type := mkStored {
  sm_id : Z; sm_from : string; sm_to : string; sm_ciphertext : string;
  sm_timestamp : string; sm_delivered : bool;
}.

(** Source: client/src/main.rs:887-895, MessageRow. *)
Record MessageRow : Type := mkRow {
  row_id : Z; row_from : string; row_to : string; row_ciphertext : string;
  row_timestamp : string; row_delivered : Z;
}.

(** A row of [ratchet_sessions]; [peer_nid] is unique and the key of the map. *)
Record SessionRow : Type := mkSession { session_data : string; updated_at : string }.

(** The tables; [last_id] is the counter of [AUTOINCREMENT].
    Source: client/src/main.rs:676-743, MessageStore and open. *)
Record MessageStore : Type := mkStore {
  messages : list MessageRow;
  last_id : Z;
  ratchet_sessions : gmap string SessionRow;
  db_key : bytes;
}.

(** Source: client/src/main.rs:689-743, open. *)
Definition open (key : bytes) : MessageStore := mkStore [] 0 ∅ key.

(** Source: client/src/main.rs:772-793, store_message. *)
Definition store_message (io : bool) (nonce : bytes) (timestamp from_nid to_nid ciphertext : string)
    (s : MessageStore) : MessageStore * result string Z :=
  match encrypt nonce (db_key s) ciphertext with
  | Err e => (s, Err e)
  | Ok encrypted_ct =>
      if io then
        let id := last_id s + 1 in
        (mkStore (messages s ++ [mkRow id from_nid to_nid encrypted_ct timestamp 1]) id
           (ratchet_sessions s) (db_key s), Ok id)
      else (s, Err "insert failed")
  end.

(** [ORDER BY id DESC LIMIT ?]; a negative limit is none. *)
Definition newest_first (limit : Z) (rows : list MessageRow) : list MessageRow :=
  let l := reverse rows in if limit <? 0 then l else take (Z.to_nat limit) l.

(** Rows that do not decrypt are skipped.
    Source: client/src/main.rs:805-819, get_messages. *)
Definition read_row (key : bytes) (r : MessageRow) : option StoredMessage :=
  match decrypt key (row_ciphertext r) with
  | Ok pt => Some (mkStored (row_id r) (row_from r) (row_to r) pt (row_timestamp r)
                     (negb (row_delivered r =? 0)))
  | Err _ => None
  end.

(** Source: client/src/main.rs:795-818, get_messages. *)
Definition get_messages (io : bool) (limit : Z) (s : MessageStore) : result string (list StoredMessage) :=
  if io then Ok (omap (read_row (db_key s)) (newest_first limit (messages s)))
  else Err "select failed".

(** Source: client/src/main.rs:860-884, get_messages_from. *)
Definition get_messages_from (io : bool) (from_nid : string) (limit : Z) (s : MessageStore)
  : result string (list StoredMessage) :=
  if io then
    Ok (omap (read_row (db_key s))
          (newest_first limit (filter (fun r => row_from r = from_nid) (messages s))))
  else Err "select failed".

(** Source: client/src/main.rs:820-842, save_session. *)
Definition save_session (io : bool) (nonce : bytes) (timestamp peer_nid session_json : string)
    (s : MessageStore) : MessageStore * result string unit :=
  match encrypt nonce (db_key s) session_json with
  | Err e => (s, Err e)
  | Ok encrypted_data =>
      if io then
        (mkStore (messages s) (last_id s)
           (<[peer_nid := mkSession encrypted_data timestamp]> (ratchet_sessions s)) (db_key s), Ok tt)
      else (s, Err "upsert failed")
  end.

(** Source: client/src/main.rs:844-858, load_session. *)
Definition load_session (io : bool) (peer_nid : string) (s : MessageStore)
  : result string (option string) :=
  if negb io then Err "select failed"
  else
    match ratchet_sessions s !! peer_nid with
    | None => Ok None
    | Some r => let? pt := decrypt (db_key s) (session_data r) in Ok (Some pt)
    end.
End db_key.

(** ** The key file *)

Section log.
Context `{Aead} `{Base64} `{Hex}.

(** The key written at the first start is the key of every later one. *)
Lemma key_survives random r w :
  zlen random = 32 -> bytes_ok random ->
  let f := (load_or_create Files.Written random None).1 in
  (load_or_create Files.Written random None).2 = Ok random /\ load_or_create w r f = (f, Ok random).
Proof.
  intros Hl Hb f. split; [done|]. unfold f, load_or_create. cbn [fst].
  rewrite trim_hex by apply hex_encode_digits. rewrite hex_decode_encode by done.
  cbn [ok_or rbind]. by rewrite Hl.
Qed.

(** A key file whose first write is cut short is an empty file: from then on the
    database does not open. *)
Lemma key_cut_short random :
  let f := (load_or_create Files.CutShort random None).1 in
  forall w r, is_ok (load_or_create w r f).2 = false /\ (load_or_create w r f).1 = f.
Proof.
  intros f w r. unfold f. cbn [load_or_create fst]. split; [|done].
  assert (E : hex_decode (trim "") = Some []).
  { change (trim "") with "". rewrite <- (hex_decode_encode [] ltac:(constructor)). f_equal.
    pose proof (hex_encode_length []) as Hl. destruct (hex_encode []); [done|]. unfold slen, zlen in Hl. cbn in Hl. lia. }
  by rewrite E.
Qed.

(** ** The log *)

(** What a caller stores. *)
Record entry : Type := mkEntry {
  e_nonce : bytes; e_time : string; e_from : string; e_to : string; e_text : string
}.

Definition entry_ok (e : entry) : Prop :=
  nonce_ok (e_nonce e) /\ str_ok (e_text e) /\ slen (e_text e) < 2 ^ 32.

(** What reading gives back for the [i]th one. *)
Definition read_back (i : Z) (e : entry) : StoredMessage :=
  mkStored i (e_from e) (e_to e) (e_text e) (e_time e) true.

(** A session as a caller saves it. *)
Record saved : Type := mkSaved { v_nonce : bytes; v_time : string; v_peer : string; v_json : string }.

Definition saved_ok (v : saved) : Prop := nonce_ok (v_nonce v) /\ str_ok (v_json v) /\ slen (v_json v) < 2 ^ 32.

(** What is written, and whether the database takes it. *)
Inductive write : Type := WMessage (io : bool) (e : entry) | WSession (io : bool) (v : saved).

Definition write_ok (w : write) : Prop := match w with WMessage _ e => entry_ok e | WSession _ v => saved_ok v end.

Definition do_write (s : MessageStore) (w : write) : MessageStore :=
  match w with
  | WMessage io e => (store_message io (e_nonce e) (e_time e) (e_from e) (e_to e) (e_text e) s).1
  | WSession io v => (save_session io (v_nonce v) (v_time v) (v_peer v) (v_json v) s).1
  end.

Definition writes (ws : list write) (s : MessageStore) : MessageStore := foldl do_write s ws.

(** The messages that were taken, and the last session of a peer that was. *)
Definition taken (ws : list write) : list entry :=
  omap (fun w => match w with WMessage true e => Some e | _ => None end) ws.

Definition saves (peer : string) (o : option string) (w : write) : option string :=
  match w with WSession true v => if String.eqb (v_peer v) peer then Some (v_json v) else o | _ => o end.

Definition last_saved (peer : string) (ws : list write) : option string := foldl (saves peer) None ws.

(** The table holds the given messages, in order, with identifiers from one. *)
Definition holds (es : list entry) (s : MessageStore) : Prop :=
  last_id s = zlen es /\
  Forall2 (fun e r => entry_ok e /\ exists c, encrypt (e_nonce e) (db_key s) (e_text e) = Ok c /\
             r = mkRow (row_id r) (e_from e) (e_to e) c (e_time e) 1)
    es (messages s) /\
  row_id <$> messages s = Z.of_nat <$> List.seq 1 (length es).

Lemma store_holds es e s :
  entry_ok e -> holds es s ->
  let r := store_message true (e_nonce e) (e_time e) (e_from e) (e_to e) (e_text e) s in
  r.2 = Ok (zlen es + 1) /\ holds (es ++ [e]) r.1 /\ db_key r.1 = db_key s /\
  ratchet_sessions r.1 = ratchet_sessions s.
Proof.
  intros He (Hl & Hm & Hi). unfold store_message.
  destruct (encrypt_total (e_nonce e) (db_key s) (e_text e)) as [c Hc]; [apply He|]. rewrite Hc.
  cbn [fst snd]. rewrite Hl. split; [done|]. split; [|done]. split_and!; cbn [last_id messages db_key].
  - unfold zlen. rewrite length_app. cbn [length]. lia.
  - apply Forall2_app; [done|]. constructor; [|constructor]. split; [done|]. by exists c.
  - rewrite fmap_app, Hi, length_app. cbn [length]. rewrite seq_app, fmap_app. f_equal.
    cbn. f_equal. unfold zlen. lia.
Qed.

(** The session of a peer, if there is one, decrypts to the last that was saved. *)
Definition keeps (peer : string) (o : option string) (s : MessageStore) : Prop :=
  match o with
  | None => ratchet_sessions s !! peer = None
  | Some json => exists nonce c time, nonce_ok nonce /\ str_ok json /\ encrypt nonce (db_key s) json = Ok c /\
                   ratchet_sessions s !! peer = Some (mkSession c time)
  end.

Lemma do_write_holds es peer o w s :
  write_ok w -> holds es s -> keeps peer o s ->
  holds (es ++ taken [w]) (do_write s w) /\ keeps peer (saves peer o w) (do_write s w) /\ db_key (do_write s w) = db_key s.
Proof.
  intros Hw Hh Hk. destruct w as [[|] e|[|] v]; cbn [do_write taken omap list_omap saves] in *; rewrite ?app_nil_r.
  - destruct (store_holds es e s Hw Hh) as (_ & Hh' & Ek & Er). split_and!; [done| |done].
    unfold keeps in *. by rewrite Ek, Er.
  - unfold store_message. by destruct (encrypt _ _ _).
  - destruct Hw as (Hn & Hs & Hl). unfold save_session.
    destruct (encrypt_total (v_nonce v) (db_key s) (v_json v) Hl) as [c Hc]. rewrite Hc. cbn [fst].
    split_and!; [exact Hh| |done]. unfold keeps in *. cbn [ratchet_sessions db_key].
    destruct (String.eqb_spec (v_peer v) peer) as [->|Hne]; [|by rewrite lookup_insert_ne].
    rewrite lookup_insert_eq. by exists (v_nonce v), c, (v_time v).
  - unfold save_session. by destruct (encrypt _ _ _).
Qed.

Lemma writes_hold peer ws : forall es o s,
  Forall write_ok ws -> holds es s -> keeps peer o s ->
  holds (es ++ taken ws) (writes ws s) /\ keeps peer (foldl (saves peer) o ws) (writes ws s) /\
  db_key (writes ws s) = db_key s.
Proof.
  induction ws as [|w ws IH]; intros es o s Hw Hh Hk; [by rewrite app_nil_r|].
  apply Forall_cons in Hw as [Hw Hws]. destruct (do_write_holds es peer o w s Hw Hh Hk) as (Hh' & Hk' & Ek).
  destruct (IH _ _ _ Hws Hh' Hk') as (Hh2 & Hk2 & Ek2). cbn [foldl]. unfold writes in *. cbn [foldl].
  rewrite <- app_assoc in Hh2. split_and!; [|done|congruence].
  replace (taken (w :: ws)) with (taken [w] ++ taken ws); [done|]. unfold taken. cbn [omap list_omap].
  by destruct w as [[|] e|[|] v].
Qed.

Lemma read_row_ok key e r c :
  entry_ok e -> encrypt (e_nonce e) key (e_text e) = Ok c ->
  r = mkRow (row_id r) (e_from e) (e_to e) c (e_time e) 1 ->
  read_row key r = Some (read_back (row_id r) e).
Proof.
  intros (Hn & Hs & _) Hc Hr. unfold read_row. rewrite Hr. cbn [row_ciphertext].
  by rewrite (decrypt_encrypt _ _ _ _ Hn Hs Hc).
Qed.

(** Every stored message, numbered from one. *)
Definition numbered (es : list entry) : list StoredMessage :=
  zip_with read_back (Z.of_nat <$> List.seq 1 (length es)) es.

Lemma read_rows es s :
  holds es s -> read_row (db_key s) <$> messages s = Some <$> numbered es.
Proof.
  intros (_ & Hm & Hi). unfold numbered. rewrite <- Hi. clear Hi.
  induction Hm as [|e r es rows (He & c & Hc & Hr) _ IH]; [done|].
  cbn [fmap list_fmap zip_with]. f_equal; [|exact IH]. by eapply read_row_ok.
Qed.

Lemma omap_fmap_Some {A B} (f : A -> option B) (l : list A) (l' : list B) :
  f <$> l = Some <$> l' -> omap f l = l'.
Proof.
  revert l'. induction l as [|x l IH]; intros [|y l'] E; [done|done|done|].
  cbn [fmap list_fmap] in E. injection E as Hx E. cbn. rewrite Hx. f_equal. by apply IH.
Qed.

(** C27: the message log and the saved sessions.  After any messages were stored
    in a new database and any sessions saved, in any order, under any nonces, of
    fewer than 2^32 bytes each, some of them not taken by the database, reading with a limit gives the newest messages first,
    as many as the limit (all of them for a negative one), each with its own
    identifier, counted from one, and its own text decrypted; and the session of
    a peer is loaded as the text that was last saved for it, none if there is
    none: what is written of other peers and messages does not touch it, and
    nothing of it is lost. *)
Theorem message_log (ws : list write) (key : bytes) (peer : string) (limit : Z) :
  Forall write_ok ws ->
  let s := writes ws (open key) in
  let es := taken ws in
  get_messages true limit s =
    Ok (if limit <? 0 then reverse (numbered es)
        else take (Z.to_nat limit) (reverse (numbered es))) /\
  load_session true peer s = Ok (last_saved peer ws).
Proof.
  intros Hw s es. destruct (writes_hold peer ws [] None (open key) Hw) as (Hh & Hk & _); [done|done|].
  fold s in Hh, Hk. split.
  - unfold get_messages. f_equal. apply omap_fmap_Some. unfold newest_first. pose proof (read_rows _ _ Hh) as Hrows.
    destruct (limit <? 0); rewrite ?fmap_take, !fmap_reverse, Hrows; done.
  - unfold load_session, last_saved. cbn [negb]. unfold keeps in Hk. destruct (foldl (saves peer) None ws) as [json|].
    + destruct Hk as (nonce & c & time & Hn & Hs & Hc & Hl). rewrite Hl. cbn [session_data].
      by rewrite (decrypt_encrypt _ _ _ _ Hn Hs Hc).
    + by rewrite Hk.
Qed.
End log.

#[local] Existing Instance toy_aead.
#[local] Existing Instance toy_base64.

Theorem message_log_witness :
  let save n peer json := WSession true (mkSaved (replicate 12 n) "t" peer json) in
  let ws := [WMessage true (mkEntry (replicate 12 1) "t1" "NN-A" "NN-B" "hello"); save 2 "NN-B" "{}"; save 3 "NN-C" "{c}";
             WMessage true (mkEntry (replicate 12 4) "t2" "NN-B" "NN-A" "hi"); save 5 "NN-C" "{d}"] in
  let s := writes ws (open (replicate 32 7)) in
  get_messages true 1 s = Ok [mkStored 2 "NN-B" "NN-A" "hi" "t2" true] /\
  load_session true "NN-B" s = Ok (Some "{}").
Proof.
  intros save ws s. apply (message_log ws (replicate 32 7) "NN-B" 1).
  repeat constructor; vm_compute; congruence.
Defined.
