(* ===== verification/ClientRelay.v ===== *)
(** * Sending and reading through a relay (src/client/src/main.rs)

    The Kyber key of an identity, [send_via_relay] and [relay_decrypt_message]
    over the two places the client keeps state in: its files and its database.
    Random bytes, the clock, signing, the outcome of each statement and the
    frames the relay sends are arguments. *)

From S2P Require Import Prelude Text Primitives Concrete Json Pow Identity Ratchet Kyber.
From S2P Require Import Padding ClientStore.

(** What ends a command: a message, an error of the crypto library under a
    heading, or a panic. *)
Inductive client_error : Type :=
| Plain (m : string)
| Wrapped (what : string) (e : CryptoError)
| Panicked.

Definition wrapped {A} (what : string) (r : result CryptoError A) : result client_error A :=
  match r with Ok a => Ok a | Err e => Err (Wrapped what e) end.
Definition plain {A} (r : result string A) : result client_error A :=
  match r with Ok a => Ok a | Err e => Err (Plain e) end.

(** Source: client/src/main.rs:399-403, Identity. *)
Record Identity : Type := mkIdentity { fingerprint : string; null_id : string }.

(** Names of at most a thousand bytes, keys of 32 bytes, [u64] counters, and no
    skipped keys: so are all the sessions of this program. *)
Definition name_ok (n : string) : Prop := str_ok n /\ slen n <= 1000.
Definition key_ok (k : bytes) : Prop := bytes_ok k /\ length k = 32%nat.
Definition session_wf (s : RatchetState) : Prop :=
  (name_ok (peer_fp s) /\ name_ok (peer_nid s) /\ name_ok (our_fp s)) /\
  (key_ok (root_key s) /\ key_ok (send_chain_key s) /\ key_ok (recv_chain_key s)) /\
  0 <= send_message_number s < 2 ^ 64 /\ 0 <= recv_message_number s < 2 ^ 64 /\
  skipped_keys s = ∅.

(** A session as JSON text: serde_json's encoder and decoder of [RatchetState].
    Such a state is read back from its text, which is UTF-8 and, at no more
    than six bytes for a byte, far below a megabyte. *)
Class SessionCodec := {
  session_to_json : RatchetState -> string;
  session_from_json : string -> result CryptoError RatchetState;
  session_from_to_json s : session_wf s -> session_from_json (session_to_json s) = Ok s;
  session_to_json_ok s :
    session_wf s -> str_ok (session_to_json s) /\ slen (session_to_json s) < 2 ^ 20;
}.

(** A frame from the relay's socket. *)
Inductive relay_frame : Type :=
| RText (s : string)
| RPing
| RPong
| RClose
| ROther
| RError (e : string).

(** The surroundings of a call. *)
Record surroundings : Type := mkSurroundings {
  x_file_io : bool;              (* writing the key file *)
  x_file_nonce : bytes;
  x_coins : bytes;               (* encapsulation *)
  x_nonce : bytes;               (* ratchet *)
  x_padding : Z -> bytes;
  x_nanos : Z;                   (* i64 *)
  x_secs : f64;
  x_msg_id : string;
  x_select : bool;               (* database *)
  x_save : bool;
  x_save_nonce : bytes;
  x_save_time : string;
  x_sign : string -> result string string;
  x_cert : result string string;
  x_frames : list relay_frame;
}.

Section client.
Context `{Kem} `{Aead} `{Hkdf} `{Hex} `{Base64} `{Sha2} `{Blake2} `{JsonCodec} `{Format} `{SessionCodec}.

Abbreviation disk := (gmap string string).
Abbreviation client := (st (disk * MessageStore) client_error).

(** ** The Kyber key of an identity *)

Definition kyber_seed_info : string := "nullnode-sealed-sender-kyber-seed".
(** Source: client/src/main.rs:284-285, KYBER_KEY_PATH. *)
Definition KYBER_KEY_PATH : string := ".nullnode/kyber_key.json".

(** A key pair made from the identifier alone.
    Source: client/src/main.rs:1323-1331, load_or_generate_kyber. *)
Definition derive_kyber (nid : string) : result client_error keypair :=
  let? seed := ok_or (hkdf_expand (sha256 (str_bytes nid)) (str_bytes kyber_seed_info) 64)
                 (Plain "HKDF expand failed") in
  wrapped "kyber keypair from seed: " (from_seed seed).

(** Source: client/src/main.rs:1780-1798, lookup_kyber_for_nid. *)
Definition lookup_kyber_for_nid (nid : string) : result client_error enc_key :=
  let? kp := derive_kyber nid in Ok (enc kp).

Definition unpanic {A} (what : string) (r : may_panic A) : result client_error A :=
  match r with None => Err Panicked | Some r => wrapped what r end.

(** Source: client/src/main.rs:1307-1336, load_or_generate_kyber. *)
Definition load_or_generate_kyber (x : surroundings) (nid : string) : client keypair :=
  fun '(d, m) =>
    match d !! KYBER_KEY_PATH with
    | Some _ => ((d, m), unpanic "kyber keypair load failed: " (load KYBER_KEY_PATH (db_key m) d))
    | None =>
        match derive_kyber nid with
        | Err e => ((d, m), Err e)
        | Ok kp =>
            match save (x_file_io x) (x_file_nonce x) KYBER_KEY_PATH (db_key m) kp d with
            | (d', Err e) => ((d', m), Err (Wrapped "kyber keypair save failed: " e))
            | (d', Ok _) => ((d', m), Ok kp)
            end
        end
    end.

(** ** The session table *)

Definition session_of (x : surroundings) (nid : string) : client (option string) :=
  fun dm => (dm, plain (load_session (x_select x) nid dm.2)).

Definition keep_session (x : surroundings) (nid : string) (s : RatchetState) : client unit :=
  fun '(d, m) =>
    let (m', r) := save_session (x_save x) (x_save_nonce x) (x_save_time x) nid (session_to_json s) m in
    ((d, m'), plain r).

(** ** Sending *)

(** The session saved for the peer, or a new one over a fresh encapsulation,
    whose ciphertext goes with the message.
    Source: client/src/main.rs:1518-1543, send_via_relay. *)
Definition sending_session (x : surroundings) (self : Identity) (recipient_nid recipient_fp : string)
    (recipient_kyber : enc_key) (session_json : option string)
  : result client_error (RatchetState * option bytes) :=
  match session_json with
  | Some json => let? s := wrapped "ratchet load: " (session_from_json json) in Ok (s, None)
  | None =>
      let (ct, shared_secret) := encapsulate recipient_kyber (x_coins x) in
      let? s := wrapped "ratchet init: "
                  (Ratchet.new recipient_fp recipient_nid (fingerprint self) true shared_secret) in
      Ok (s, Some ct)
  end.

(** Source: client/src/main.rs:1548-1557, send_via_relay. *)
Definition encrypt_padded (x : surroundings) (kyber_ct : option bytes) (padded : string)
    (recipient_kyber : enc_key) (s : RatchetState) : RatchetState * result client_error bytes :=
  match kyber_ct with
  | Some _ =>
      let (s', r) := encrypt_first (x_nonce x) padded s in (s', wrapped "ratchet encrypt_first: " r)
  | None =>
      let (s', r) := encrypt_message (x_nonce x) (x_coins x) padded recipient_kyber s in
      (s', wrapped "ratchet encrypt: " r)
  end.

(** Source: client/src/main.rs:1565-1583, send_via_relay. *)
Definition message_blob (ciphertext : bytes) (kyber_ct : option bytes) : value :=
  VObject ([("type", VString "p2p-message"); ("seq", json_int 1);
            ("ciphertext", VString (b64_encode ciphertext));
            ("msg_hash", VString (hex_encode (sha256 ciphertext)))] ++
           match kyber_ct with Some ct => [("kyber_ciphertext", VString (hex_encode ct))] | None => [] end).

(** Source: client/src/main.rs:1584-1586, send_via_relay. *)
Definition transport_data (x : surroundings) (self : Identity) (recipient_nid : string) : string :=
  recipient_nid +:+ "|" +:+ null_id self +:+ "|" +:+ fingerprint self +:+ "|" +:+ pretty 1 +:+ "|"
  +:+ fmt_f64 (x_secs x) +:+ "|" +:+ pretty (x_nanos x).

(** The payload and the request. Source: client/src/main.rs:1597-1608, send_via_relay. *)
Definition store_payload (x : surroundings) (self : Identity) (recipient_nid blob sig cert_armored : string)
  : value :=
  VObject [("recipient_nid", VString recipient_nid); ("signed_blob", VString blob);
           ("sender_nid", VString (null_id self)); ("sender_fp", VString (fingerprint self));
           ("sender_cert", VString cert_armored); ("seq", json_int 1);
           ("timestamp", VNumber (Float (x_secs x))); ("nonce", VString (pretty (x_nanos x)));
           ("sender_sig", VString sig); ("sealed_sender", VString "")].

(** Source: client/src/main.rs:1593-1609, send_via_relay. *)
Definition store_request (x : surroundings) (payload : value) : value :=
  VObject [("msg_type", VString "relay-store"); ("msg_id", VString (x_msg_id x));
           ("ts", VNumber (Float (x_secs x))); ("payload", payload)].

Definition as_bool (v : value) : option bool := match v with VBool b => Some b | _ => None end.

(** Reading until a text frame. Source: client/src/main.rs:1617-1643, send_via_relay. *)
Fixpoint await_ok (fs : list relay_frame) : result client_error unit :=
  match fs with
  | [] => Err (Plain "no response from relay")
  | RText resp :: _ =>
      match json_parse resp with
      | None => Err (Plain "json")
      | Some v =>
          if bool_decide ((get v "ok" ≫= as_bool) = Some true) then Ok tt
          else Err (Plain ("relay error: " +:+ resp))
      end
  | RError e :: _ => Err (Plain ("relay websocket error: " +:+ e))
  | _ :: fs' => await_ok fs'
  end.

(** What is sent to the relay: the request, and the session to keep once the
    relay has answered. Source: client/src/main.rs:1496-1644, send_via_relay. *)
Definition prepare (x : surroundings) (self : Identity) (recipient_nid recipient_fp message : string)
  : client (value * RatchetState) :=
  do! load_or_generate_kyber x (null_id self);
  do recipient_kyber <- st_lift (lookup_kyber_for_nid recipient_nid);
  do session_json <- session_of x recipient_nid;
  do (session, kyber_ct) <- st_lift (sending_session x self recipient_nid recipient_fp recipient_kyber
                                       session_json);
  do padded <- st_lift (ok_or (pad_message_bucket (x_padding x) message) Panicked);
  let (session', r) := encrypt_padded x kyber_ct padded recipient_kyber session in
  do ciphertext <- st_lift r;
  do sig <- st_lift (plain (x_sign x (transport_data x self recipient_nid)));
  do cert_armored <- st_lift (plain (x_cert x));
  st_ret (store_payload x self recipient_nid (json_print (message_blob ciphertext kyber_ct)) sig
            cert_armored, session').

(** The session is kept when the relay has answered ok; the second component is
    what was sent. Source: client/src/main.rs:1496-1644, send_via_relay. *)
Definition send_via_relay (x : surroundings) (self : Identity)
    (recipient_nid recipient_fp message : string) (dm : disk * MessageStore)
  : (disk * MessageStore) * option value * result client_error unit :=
  match prepare x self recipient_nid recipient_fp message dm with
  | (dm', Err e) => (dm', None, Err e)
  | (dm', Ok (payload, session)) =>
      let (dm'', r) := (do! st_lift (await_ok (x_frames x));
                        keep_session x recipient_nid session) dm' in
      (dm'', Some (store_request x payload), r)
  end.

(** ** Reading *)

(** Source: client/src/main.rs:1815-1820, relay_decrypt_message. *)
Definition sender_id (sender_nid sender_fp : string) : string :=
  if str_is_empty sender_nid && negb (str_is_empty sender_fp) then Identity.null_id sender_fp
  else sender_nid.

(** Source: client/src/main.rs:1832-1862, relay_decrypt_message. *)
Definition receiving_session (our_kyber : keypair) (nid sender_fp our_fingerprint : string)
    (session_json kyber_ct_hex : option string) : result client_error RatchetState :=
  match session_json, kyber_ct_hex with
  | Some json, _ => wrapped "ratchet deserialize: " (session_from_json json)
  | None, Some ct_hex =>
      let? ct := ok_or (hex_decode ct_hex) (Plain "kyber_ct hex decode") in
      if negb (zlen ct =? 1568) then Err (Plain "kyber_ct parse")
      else wrapped "ratchet init: "
             (Ratchet.new sender_fp nid our_fingerprint false (decapsulate (dec our_kyber) ct))
  | None, None =>
      Err (Plain ("no ratchet session for sender " +:+ nid +:+ " (need first message with kyber_ciphertext)"))
  end.

(** The session is kept once the message was decrypted and stripped.
    Source: client/src/main.rs:1800-1880, relay_decrypt_message. *)
Definition relay_decrypt_message (x : surroundings) (signed_blob sender_nid sender_fp our_fingerprint : string)
    (our_kyber : keypair) : client string :=
  do env <- st_lift (ok_or (json_parse signed_blob) (Plain "parse signed_blob"));
  let nid := sender_id sender_nid sender_fp in
  do! st_guard (negb (str_is_empty nid)) (Plain "relay message has no sender identification");
  do ciphertext <- st_lift (ok_or (get env "ciphertext" ≫= as_str) (Plain "no ciphertext in relay message"));
  let kyber_ct_hex := get env "kyber_ciphertext" ≫= as_str in
  do session_json <- session_of x nid;
  do session <- st_lift (receiving_session our_kyber nid sender_fp our_fingerprint session_json kyber_ct_hex);
  let (session', r) := decrypt_message ciphertext (dec our_kyber) session in
  do padded_plaintext <- st_lift (wrapped "ratchet decrypt: " r);
  do plaintext <- st_lift (plain (unpad_message_bucket padded_plaintext));
  do! keep_session x nid session';
  st_ret plaintext.

(** The entries of a reply, one after the other; those that fail are reported
    and skipped. Source: client/src/main.rs:1414-1446, relay_fetch. *)
Fixpoint read_entries (our_fingerprint : string) (our_kyber : keypair)
    (entries : list (surroundings * value)) (dm : disk * MessageStore)
  : (disk * MessageStore) * list string :=
  match entries with
  | [] => (dm, [])
  | (x, entry) :: entries' =>
      match get entry "signed_blob" ≫= as_str with
      | None => read_entries our_fingerprint our_kyber entries' dm
      | Some blob =>
          let (dm1, r) := relay_decrypt_message x blob (str_field entry "sender_nid")
                            (str_field entry "sender_fp") our_fingerprint our_kyber dm in
          let (dm2, l) := read_entries our_fingerprint our_kyber entries' dm1 in
          (dm2, match r with Ok text => text :: l | Err _ => l end)
      end
  end.
End client.
