(* ===== verification/ClientRelayProps.v ===== *)
(** * Conversations through a relay

    What one client sends the other reads: the sessions of both sides, kept in
    their databases between commands, stay in step. *)

From S2P Require Import Prelude Text Primitives Concrete Json Pow Identity Ratchet Kyber.
From S2P Require Import Padding ClientStore ClientRelay.

(** ** Text *)

Lemma hex_str_ok `{Hex} d : str_ok (hex_encode d).
Proof. apply ascii_str_ok. eapply str_all_impl, hex_encode_digits. apply hex_ascii. Qed.

(** ** Sessions stay well formed *)

Section sessions.
Context `{Hkdf} `{Aead} `{Kem} `{Base64}.

Lemma expand_key ikm info e out : expand ikm info 64 e = Ok out -> bytes_ok out /\ length out = 64%nat.
Proof.
  unfold expand. destruct (hkdf_expand_ok ikm (str_bytes info) 64) as (o & Ho & Hl);
    [apply Nat.leb_le; reflexivity|].
  rewrite Ho. intros [= <-]. split; [by eapply hkdf_expand_bytes|done].
Qed.

Lemma halves_ok out : bytes_ok out -> length out = 64%nat -> key_ok (take 32 out) /\ key_ok (drop 32 out).
Proof.
  intros Hb Hl. rewrite <- (take_drop 32 out) in Hb. apply Forall_app in Hb as [Hb1 Hb2].
  split; (split; [done|]); [rewrite length_take|rewrite length_drop]; lia.
Qed.

Lemma derive_key_ok ck k ck' : derive_message_key ck = Ok (k, ck') -> key_ok ck'.
Proof.
  unfold derive_message_key. destruct (expand _ _ _ _) as [out|] eqn:E; [|done].
  apply expand_key in E as [Hb Hl]. cbn [rbind]. intros [= _ <-]. by apply halves_ok.
Qed.

Lemma new_wf pf pn o i secret s :
  name_ok pf -> name_ok pn -> name_ok o -> Ratchet.new pf pn o i secret = Ok s ->
  session_wf s /\ peer_fp s = pf /\ peer_nid s = pn /\ our_fp s = o.
Proof.
  intros Hpf Hpn Ho. unfold Ratchet.new. destruct (zlen secret <? 32); [done|].
  destruct (expand secret _ 32 _) as [root|] eqn:Er; [|done]. cbn [rbind].
  destruct (expand secret _ 64 _) as [chains|] eqn:Ec; [|done]. cbn [rbind].
  apply expand_key in Ec as [Hb Hl]. destruct (halves_ok _ Hb Hl) as [Ht Hd].
  assert (Hr : key_ok root).
  { unfold expand in Er. destruct (hkdf_expand_ok secret (str_bytes "nullnode-double-ratchet-v1-root") 32)
      as (o' & Eo & Hlo); [apply Nat.leb_le; reflexivity|].
    rewrite Eo in Er. injection Er as <-. split; [by eapply hkdf_expand_bytes|done]. }
  destruct i; intros [= <-]; cbn; (split; [|done]); (split_and!; try done; lia).
Qed.

Lemma new_total pf pn o i secret :
  length secret = 32%nat -> exists s, Ratchet.new pf pn o i secret = Ok s.
Proof.
  intros Hl. unfold Ratchet.new, zlen. rewrite Hl. cbn [Z.of_nat Z.ltb]. unfold expand.
  destruct (hkdf_expand_ok secret (str_bytes "nullnode-double-ratchet-v1-root") 32) as (r & -> & _);
    [apply Nat.leb_le; reflexivity|].
  destruct (hkdf_expand_ok secret (str_bytes "nullnode-double-ratchet-v1-chains") 64) as (c & -> & _);
    [apply Nat.leb_le; reflexivity|].
  cbn [ok_or rbind]. destruct i; by eexists.
Qed.

Lemma set_send_wf ck s : key_ok ck -> session_wf s -> session_wf (count_sent (set_send_chain ck s)).
Proof.
  intros Hk (Hn & (Hr & Hs & Hv) & Hc & Hc' & He).
  split_and!; cbn; try done; try apply Hn; try (apply (wrap_range 64); lia); lia.
Qed.

Lemma set_recv_wf ck s : key_ok ck -> session_wf s -> session_wf (set_recv_chain ck s).
Proof.
  intros Hk (Hn & (Hr & Hs & Hv) & Hc & Hc' & He).
  split_and!; cbn; try done; try apply Hn; lia.
Qed.

Lemma count_received_wf s : session_wf s -> session_wf (count_received s).
Proof.
  intros (Hn & (Hr & Hs & Hv) & Hc & Hc' & He).
  split_and!; cbn; try done; try apply Hn; try (apply (wrap_range 64); lia); lia.
Qed.

Lemma encrypt_first_wf nonce pt s s' raw :
  encrypt_first nonce pt s = (s', Ok raw) -> session_wf s -> session_wf s'.
Proof.
  intros (k & ck & ct & Hd & _ & _ & ->)%encrypt_first_inv Hw.
  apply set_send_wf; [by eapply derive_key_ok|done].
Qed.

Lemma encrypt_message_wf nonce coins pt ek s s' raw :
  encrypt_message nonce coins pt ek s = (s', Ok raw) -> session_wf s -> session_wf s'.
Proof.
  intros (k & ck & ct & kct & kss & _ & Hd & _ & _ & ->)%encrypt_message_inv Hw.
  apply set_send_wf; [by eapply derive_key_ok|done].
Qed.

Lemma open_with_wf chain nonce ct s : session_wf s -> session_wf (open_with chain nonce ct s).1.
Proof.
  intros Hw. unfold open_with, st_bind, st_lift, st_modify, st_ret.
  destruct (derive_message_key chain) as [[k ck]|] eqn:Ed; [|done].
  pose proof (set_recv_wf _ _ (derive_key_ok _ _ _ Ed) Hw) as Hw'.
  destruct (aes_decrypt k nonce ct); cbn [ok_or fst]; [by apply count_received_wf|done].
Qed.

Lemma decrypt_wf text dk s : session_wf s -> session_wf (decrypt_message text dk s).1.
Proof.
  intros Hw. unfold decrypt_message. unfold st_bind at 1, st_lift at 1.
  destruct (b64_decode text) as [raw|]; cbn [ok_or]; [|done].
  unfold st_bind at 1, st_guard. destruct (zlen raw <? _); cbn [negb]; [done|]. unfold st_ret.
  set (m := if has_kyber _ then _ else _). unfold st_bind.
  assert (Hm : session_wf (m s).1).
  { unfold m. destruct (has_kyber _).
    - unfold kyber_decrypt, st_bind, st_guard, st_get. destruct (_ =? 1568); [|done].
      cbn [st_ret]. by apply open_with_wf.
    - unfold simple_decrypt, st_bind, st_get. by apply open_with_wf. }
  destruct (m s) as [s1 [pt|]]; [|done]. unfold st_lift. done.
Qed.

End sessions.

(** ** Between the commands *)

Section clients.
Context `{Kem} `{Aead} `{Hkdf} `{Hex} `{Base64} `{Sha2} `{Blake2} `{JsonCodec} `{Format} `{SessionCodec}.

Abbreviation state := (gmap string string * MessageStore)%type.

(** The database holds a session for a peer. *)
Definition holds_session (nid : string) (s : RatchetState) (m : MessageStore) : Prop :=
  session_wf s /\
  exists row, ratchet_sessions m !! nid = Some row /\
    decrypt (db_key m) (session_data row) = Ok (session_to_json s).

(** A command changed nothing but the session with one peer. *)
Definition only_session (nid : string) (dm dm' : state) : Prop :=
  dm'.1 = dm.1 /\ db_key dm'.2 = db_key dm.2 /\
  forall o, o <> nid -> ratchet_sessions dm'.2 !! o = ratchet_sessions dm.2 !! o.

(** The statements succeed, the random bytes have their lengths, signing works
    and the relay answers ok. *)
Definition sound (x : surroundings) : Prop :=
  (x_select x = true /\ x_save x = true /\ nonce_ok (x_save_nonce x)) /\
  (bytes_ok (x_nonce x) /\ length (x_nonce x) = NONCE_SIZE /\ fills (x_padding x)) /\
  (forall data, exists sig, x_sign x data = Ok sig) /\ (exists c, x_cert x = Ok c) /\
  await_ok (x_frames x) = Ok tt.

(** A message that padding does not spoil. *)
Definition text_ok (message : string) : Prop :=
  str_ok message /\ slen message <= 65535 /\ pad_len message < 256.

(** The key file of an identity is there and loads. *)
Definition device (self : Identity) (dm : state) (kp : keypair) : Prop :=
  is_Some (dm.1 !! KYBER_KEY_PATH) /\ load KYBER_KEY_PATH (db_key dm.2) dm.1 = Some (Ok kp) /\
  derive_kyber (null_id self) = Ok kp.

Lemma derive_kyber_total nid : exists kp, derive_kyber nid = Ok kp /\ enc kp = ek_of (dec kp).
Proof.
  unfold derive_kyber. destruct (hkdf_expand_ok (sha256 (str_bytes nid)) (str_bytes kyber_seed_info) 64)
    as (o & -> & Hl); [apply Nat.leb_le; reflexivity|].
  cbn [ok_or rbind]. unfold from_seed, zlen. rewrite Hl. by eexists.
Qed.

Lemma derive_kyber_ek nid kp : derive_kyber nid = Ok kp -> enc kp = ek_of (dec kp).
Proof. intros Hk. destruct (derive_kyber_total nid) as (kp' & Hk' & He). congruence. Qed.

Lemma load_device x self dm kp :
  device self dm kp -> load_or_generate_kyber x (null_id self) dm = (dm, Ok kp).
Proof.
  intros ([f Hf] & Hl & _). unfold load_or_generate_kyber. destruct dm as [d m]. cbn [fst snd] in *.
  by rewrite Hf, Hl.
Qed.

(** The first command of an identity makes the file. *)
Lemma first_device x self d m :
  d !! KYBER_KEY_PATH = None -> x_file_io x = true -> nonce_ok (x_file_nonce x) ->
  exists dm' kp, load_or_generate_kyber x (null_id self) (d, m) = (dm', Ok kp) /\
    device self dm' kp /\ dm'.2 = m.
Proof.
  intros Hd Hio [Hn Hb]. unfold load_or_generate_kyber. rewrite Hd.
  destruct (derive_kyber_total (null_id self)) as (kp & Hk & _). rewrite Hk, Hio.
  assert (Hfk : exists k, file_key (db_key m) = Ok k).
  { unfold file_key. destruct (hkdf_expand_ok (db_key m) (str_bytes "nullnode-kyber-key-enc-v1") 32)
      as (o & -> & _); [apply Nat.leb_le; reflexivity|]. by eexists. }
  destruct Hfk as [k Hfk].
  destruct (aes_encrypt_total k (x_file_nonce x) (dk_to_bytes (dec kp))) as [ct Hct].
  { unfold zlen. rewrite dk_to_bytes_length. done. }
  destruct (save_load (x_file_nonce x) (db_key m) KYBER_KEY_PATH kp d ct k) as [Hs Hl]; [done..|].
  rewrite Hs. eexists _, kp. split; [done|]. split; [|done].
  split_and!; cbn [fst snd]; [by rewrite lookup_insert_eq|exact Hl|exact Hk].
Qed.

Lemma device_only nid self dm dm' kp : device self dm kp -> only_session nid dm dm' -> device self dm' kp.
Proof. unfold device, only_session. intros (Hf & Hl & Hk) (-> & -> & _). done. Qed.

Lemma holds_other nid o s dm dm' :
  only_session nid dm dm' -> o <> nid -> holds_session o s dm.2 -> holds_session o s dm'.2.
Proof.
  intros (_ & Hk & Ho) Hne (Hw & row & Hr & Hd). split; [done|]. exists row.
  by rewrite Ho, Hk.
Qed.

Lemma session_of_holds x nid s d m :
  x_select x = true -> holds_session nid s m ->
  session_of x nid (d, m) = ((d, m), Ok (Some (session_to_json s))).
Proof.
  intros Hx (_ & row & Hr & Hd). unfold session_of, load_session. cbn [snd].
  rewrite Hx. cbn [negb]. by rewrite Hr, Hd.
Qed.

Lemma session_of_none x nid d m :
  x_select x = true -> ratchet_sessions m !! nid = None ->
  session_of x nid (d, m) = ((d, m), Ok None).
Proof.
  intros Hx Hr. unfold session_of, load_session. cbn [snd]. rewrite Hx. cbn [negb]. by rewrite Hr.
Qed.

Lemma keep_session_ok x nid s dm :
  x_save x = true -> nonce_ok (x_save_nonce x) -> session_wf s ->
  exists dm', keep_session x nid s dm = (dm', Ok tt) /\ holds_session nid s dm'.2 /\
    only_session nid dm dm'.
Proof.
  intros Hx Hn Hw. destruct dm as [d m]. unfold keep_session, save_session.
  destruct (session_to_json_ok s Hw) as [Hs Hl].
  destruct (encrypt_total (x_save_nonce x) (db_key m) (session_to_json s)) as [c Hc]; [lia|].
  rewrite Hc, Hx. eexists. split; [done|]. cbn [snd]. split.
  - split; [done|]. exists (mkSession c (x_save_time x)). cbn [ratchet_sessions db_key session_data].
    rewrite lookup_insert_eq. split; [done|]. by eapply decrypt_encrypt.
  - split_and!; [done|done|]. intros o Ho. cbn [snd ratchet_sessions]. by rewrite lookup_insert_ne.
Qed.

(** ** Padding *)

Lemma pad_text x message :
  sound x -> text_ok message ->
  exists padded, pad_message_bucket (x_padding x) message = Some padded /\ str_ok padded /\
    2 <= slen padded < 2 ^ 32 /\ unpad_message_bucket padded = Ok message.
Proof.
  intros (_ & (_ & _ & Hf) & _) (Hs & Hl & Hp).
  assert (Hp0 : 0 <= pad_len message).
  { unfold pad_len. pose proof (bucket_size_ge (slen message + 1) ltac:(lia)). lia. }
  destruct (Hf _ Hp0) as [Hlen Hok].
  unfold pad_message_bucket. rewrite zlen_str_bytes. fold (pad_len message).
  destruct (Z.ltb_spec (pad_len message) 0); [lia|]. eexists. split; [done|].
  split; [apply hex_str_ok|]. split.
  - rewrite hex_encode_length. unfold zlen in *. cbn [length]. rewrite length_app.
    pose proof (zlen_str_bytes message) as Hm. unfold zlen in Hm. lia.
  - rewrite unpad_padded by (try done; apply str_bytes_ok). rewrite Z.mod_small by lia.
    rewrite Z.sub_diag. cbn. by rewrite str_app_nil_r, bytes_str_bytes.
Qed.

(** ** Sending *)

Definition blob_text (raw : bytes) (kct : option bytes) : string := json_print (message_blob raw kct).

(** What the relay hands on of a request: the blob and the two names. *)
Definition handed_on (req : value) : string * string * string :=
  let p := opt_or (get req "payload") VNull in
  (str_field p "signed_blob", str_field p "sender_nid", str_field p "sender_fp").

Lemma send_ok x self nid fp message dm kp kp_to js s kct padded s' raw :
  device self dm kp -> sound x -> derive_kyber nid = Ok kp_to ->
  session_of x nid dm = (dm, Ok js) ->
  sending_session x self nid fp (enc kp_to) js = Ok (s, kct) ->
  pad_message_bucket (x_padding x) message = Some padded ->
  encrypt_padded x kct padded (enc kp_to) s = (s', Ok raw) -> session_wf s' ->
  exists dm' req, send_via_relay x self nid fp message dm = (dm', Some req, Ok tt) /\
    handed_on req = (blob_text raw kct, null_id self, fingerprint self) /\
    holds_session nid s' dm'.2 /\ only_session nid dm dm'.
Proof.
  intros Hd ((Hsel & Hsave & Hsn) & _ & Hsig & [c Hc] & Haw) Hk Hjs Hss Hp He Hw.
  destruct (Hsig (transport_data x self nid)) as [sig Es].
  destruct (keep_session_ok x nid s' dm Hsave Hsn Hw) as (dm' & Hkeep & Hh & Ho).
  assert (Hpre : prepare x self nid fp message dm =
    (dm, Ok (store_payload x self nid (blob_text raw kct) sig c, s'))).
  { unfold prepare. unfold st_bind at 1. rewrite (load_device x self dm kp Hd).
    unfold st_bind at 1, st_lift at 1, lookup_kyber_for_nid. rewrite Hk. cbn [rbind].
    unfold st_bind at 1. rewrite Hjs. unfold st_bind at 1, st_lift at 1. rewrite Hss.
    unfold st_bind at 1, st_lift at 1. rewrite Hp. cbn [ok_or]. rewrite He.
    unfold st_bind, st_lift. rewrite Es, Hc. done. }
  unfold send_via_relay. rewrite Hpre. unfold st_bind, st_lift. rewrite Haw, Hkeep.
  eexists _, _. split; [done|]. done.
Qed.

(** ** Reading *)

Lemma blob_parses raw kct :
  exists env, json_parse (blob_text raw kct) = Some env /\
    get env "ciphertext" ≫= as_str = Some (b64_encode raw) /\
    get env "kyber_ciphertext" ≫= as_str = hex_encode <$> kct.
Proof.
  unfold blob_text, message_blob. set (l := _ ++ _).
  destruct (json_parse_print_flat l) as (m' & Hp & Hm).
  - unfold l. destruct kct; repeat constructor; set_solver.
  - unfold l. destruct kct; repeat constructor; done.
  - exists (VObject m'). split; [done|]. cbn [get]. rewrite !Hm. unfold l. by destruct kct.
Qed.

Lemma read_ok x raw kct nid fp our kp dm js s s' padded text :
  sound x -> nid <> "" ->
  session_of x nid dm = (dm, Ok js) ->
  receiving_session kp nid fp our js (hex_encode <$> kct) = Ok s ->
  decrypt_message (b64_encode raw) (dec kp) s = (s', Ok padded) -> session_wf s ->
  unpad_message_bucket padded = Ok text ->
  exists dm', relay_decrypt_message x (blob_text raw kct) nid fp our kp dm = (dm', Ok text) /\
    holds_session nid s' dm'.2 /\ only_session nid dm dm'.
Proof.
  intros ((Hsel & Hsave & Hsn) & _) Hnid Hjs Hr Hd Hw Hu.
  assert (Hw' : session_wf s') by (pose proof (decrypt_wf (b64_encode raw) (dec kp) s Hw) as Hw';
                                   by rewrite Hd in Hw').
  destruct (keep_session_ok x nid s' dm Hsave Hsn Hw') as (dm' & Hkeep & Hh & Ho).
  exists dm'. split; [|done]. destruct (blob_parses raw kct) as (env & Hp & Hct & Hkc).
  unfold relay_decrypt_message. unfold st_bind at 1, st_lift at 1. rewrite Hp. cbn [ok_or].
  assert (Hid : sender_id nid fp = nid) by (unfold sender_id; by destruct nid).
  rewrite Hid. unfold st_bind at 1, st_guard. assert (str_is_empty nid = false) as -> by (by destruct nid).
  cbn [negb st_ret]. unfold st_bind at 1, st_lift at 1. rewrite Hct. cbn [ok_or].
  unfold st_bind at 1. rewrite Hjs. unfold st_bind at 1, st_lift at 1. rewrite Hkc, Hr.
  rewrite Hd. unfold st_bind, st_lift. cbn [wrapped]. rewrite Hu. cbn [plain]. by rewrite Hkeep.
Qed.
End clients.

(** ** Conversations *)

Section conversations.
Context `{Kem} `{Aead} `{Hkdf} `{Hex} `{Base64} `{Sha2} `{Blake2} `{JsonCodec} `{Format} `{SessionCodec}.

Abbreviation state := (gmap string string * MessageStore)%type.

(** One client sends, the other reads what the relay hands on. *)
Definition deliver (xs xr : surroundings) (from to : Identity) (message : string) (df dt : state)
  : state * state * option string :=
  match send_via_relay xs from (null_id to) (fingerprint to) message df with
  | (df', Some req, Ok _) =>
      let '(blob, nid, fp) := handed_on req in
      let (dt', r) := (do kp <- load_or_generate_kyber xr (null_id to);
                       relay_decrypt_message xr blob nid fp (fingerprint to) kp) dt in
      (df', dt', match r with Ok text => Some text | Err _ => None end)
  | (df', _, _) => (df', dt, None)
  end.

(** ** Reading, seen from one sender *)

(** What waits leaves the session with [nid] as it is: it names another sender,
    or it cannot be read with what the reader keeps for [nid]. *)
Definition apart (key : bytes) (our_fp : string) (kp : keypair) (nid : string) (row : option SessionRow)
    (blob sender_nid sender_fp : string) : Prop :=
  sender_id sender_nid sender_fp <> nid \/
  forall x dm, db_key dm.2 = key -> ratchet_sessions dm.2 !! nid = row ->
    is_ok (relay_decrypt_message x blob sender_nid sender_fp our_fp kp dm).2 = false.

(** A message is read by a decision on the session with its sender; then it is kept. *)
Definition kept (x : surroundings) (nid : string) (r : result client_error (RatchetState * string)) : st state client_error string :=
  fun dm => match r with
            | Ok (s, t) => (do! keep_session x nid s; st_ret t) dm
            | Err e => (dm, Err e)
            end.

Lemma decrypt_kept x blob snid sfp our kp :
  let nid := sender_id snid sfp in
  exists f, forall dm, relay_decrypt_message x blob snid sfp our kp dm =
    kept x nid (f (plain (load_session (x_select x) nid dm.2))) dm.
Proof.
  intros nid. exists (fun loaded =>
    let? env := ok_or (json_parse blob) (Plain "parse signed_blob") in
    let? _ := (if negb (str_is_empty nid) then Ok tt else Err (Plain "relay message has no sender identification")) in
    let? ct := ok_or (get env "ciphertext" ≫= as_str) (Plain "no ciphertext in relay message") in
    let? js := loaded in
    let? session := receiving_session kp nid sfp our js (get env "kyber_ciphertext" ≫= as_str) in
    let (session', r) := decrypt_message ct (dec kp) session in
    let? padded := wrapped "ratchet decrypt: " r in
    let? pt := plain (unpad_message_bucket padded) in Ok (session', pt)).
  intros dm. unfold relay_decrypt_message. fold nid. unfold st_bind at 1, st_lift at 1.
  destruct (ok_or (json_parse blob) _) as [env|e]; [|done]. cbv zeta. cbn [rbind].
  unfold st_bind at 1, st_guard at 1. destruct (negb _); [|done]. unfold st_ret at 1. cbn [rbind].
  unfold st_bind at 1, st_lift at 1. destruct (ok_or (_ ≫= as_str) _) as [ct|e]; [|done]. cbn [rbind].
  unfold st_bind at 1, session_of. destruct (plain (load_session _ nid dm.2)) as [js|e]; [|done]. cbn [rbind].
  unfold st_bind at 1, st_lift at 1. destruct (receiving_session _ _ _ _ js _) as [session|e]; [|done]. cbn [rbind].
  destruct (decrypt_message ct (dec kp) session) as [session' r].
  unfold st_bind at 1, st_lift at 1. destruct (wrapped _ r) as [padded|e]; [|done]. cbn [rbind].
  unfold st_bind at 1, st_lift at 1. by destruct (plain _).
Qed.

(** Only the session with the sender is written, and only when the message is read. *)
Lemma kept_frame x nid r dm :
  let dm' := (kept x nid r dm).1 in
  dm'.1 = dm.1 /\ db_key dm'.2 = db_key dm.2 /\
  (forall o, o <> nid -> ratchet_sessions dm'.2 !! o = ratchet_sessions dm.2 !! o) /\
  (is_ok (kept x nid r dm).2 = false -> dm' = dm).
Proof.
  destruct dm as [d m], r as [[s t]|e]; [|done]. unfold kept, st_bind, keep_session, save_session, st_ret.
  destruct (encrypt _ _ _); [|done]. destruct (x_save x); [|done]. cbn. split_and!; [done|done| |done].
  intros o Ho. by rewrite lookup_insert_ne.
Qed.

Lemma decrypt_frame x blob snid sfp our kp dm :
  let m := relay_decrypt_message x blob snid sfp our kp in
  (m dm).1.1 = dm.1 /\ db_key (m dm).1.2 = db_key dm.2 /\
  (forall o, o <> sender_id snid sfp -> ratchet_sessions (m dm).1.2 !! o = ratchet_sessions dm.2 !! o) /\
  (is_ok (m dm).2 = false -> (m dm).1 = dm).
Proof. intros m. unfold m. destruct (decrypt_kept x blob snid sfp our kp) as [f ->]. apply kept_frame. Qed.

(** Only the session with the sender is looked at. *)
Lemma decrypt_local x blob snid sfp our kp dm1 dm2 :
  let nid := sender_id snid sfp in
  let m := relay_decrypt_message x blob snid sfp our kp in
  db_key dm1.2 = db_key dm2.2 -> ratchet_sessions dm1.2 !! nid = ratchet_sessions dm2.2 !! nid ->
  (m dm1).2 = (m dm2).2 /\ ratchet_sessions (m dm1).1.2 !! nid = ratchet_sessions (m dm2).1.2 !! nid.
Proof.
  intros nid m Hk Hr. unfold m. destruct (decrypt_kept x blob snid sfp our kp) as [f Hf]. fold nid in Hf. rewrite !Hf.
  assert (El : load_session (x_select x) nid dm1.2 = load_session (x_select x) nid dm2.2)
    by (unfold load_session; by rewrite Hr, Hk).
  rewrite El. destruct (f _) as [[s t]|e]; [|done]. destruct dm1 as [d1 m1], dm2 as [d2 m2]. cbn [snd] in *.
  unfold kept, st_bind, keep_session, save_session, st_ret. rewrite Hk.
  destruct (encrypt _ _ _); [|done]. destruct (x_save x); [|done]. cbn. by rewrite !lookup_insert_eq.
Qed.

(** The blob, the identifier and the fingerprint of an entry that has them. *)
Definition reads_as (v : value) (e : string * string * string) : Prop :=
  get v "signed_blob" ≫= as_str = Some e.1.1 /\ str_field v "sender_nid" = e.1.2 /\ str_field v "sender_fp" = e.2.

(** Entries that are apart from a sender leave the session with it as it is. *)
Lemma read_apart key our kp nid row (xs : list (surroundings * value)) es dm :
  Forall2 (fun xv e => reads_as xv.2 e) xs es ->
  Forall (fun e => apart key our kp nid row e.1.1 e.1.2 e.2) es ->
  db_key dm.2 = key -> ratchet_sessions dm.2 !! nid = row ->
  let '(dm', l) := read_entries our kp xs dm in
  db_key dm'.2 = key /\ ratchet_sessions dm'.2 !! nid = row /\ (length l <= length es)%nat.
Proof.
  intros Hxs. revert dm. induction Hxs as [|[x v] [[blob sn] sf] xs es (Hb & Hn & Hf) _ IH]; intros dm He Hk Hr; [done|].
  apply Forall_cons in He as [Ha He]. cbn [fst snd] in *. cbn [read_entries]. rewrite Hb, Hn, Hf.
  destruct (decrypt_frame x blob sn sf our kp dm) as (_ & Hk' & Ho & Herr).
  assert (Hr' : ratchet_sessions (relay_decrypt_message x blob sn sf our kp dm).1.2 !! nid = row).
  { destruct Ha as [Ha|Ha]; [by rewrite Ho|]. by rewrite Herr by (by apply Ha). }
  destruct (relay_decrypt_message _ _ _ _ _ _ dm) as [dm1 r]. cbn [fst] in *.
  specialize (IH dm1 He ltac:(congruence) Hr'). destruct (read_entries our kp xs dm1) as [dm2 l].
  destruct IH as (Hk2 & Hr2 & Hl). split_and!; [done|done|]. destruct r; cbn [length] in *; lia.
Qed.

Lemma read_app our kp (xs ys : list (surroundings * value)) : forall dm,
  read_entries our kp (xs ++ ys) dm =
    let (da, l) := read_entries our kp xs dm in let (db, l') := read_entries our kp ys da in (db, l ++ l').
Proof.
  induction xs as [|[x v] xs IH]; intros dm.
  { change (read_entries our kp [] dm) with (dm, @nil string). by destruct (read_entries our kp ([] ++ ys) dm) eqn:E; cbn [app] in *; rewrite E. }
  cbn [app read_entries]. destruct (get v "signed_blob" ≫= as_str); [|apply IH].
  destruct (relay_decrypt_message _ _ _ _ _ _ dm) as [dm1 r]. rewrite IH.
  destruct (read_entries our kp xs dm1) as [da l]. destruct (read_entries our kp ys da) as [db l'].
  by destruct r.
Qed.

(** A message among others that are apart from its sender, before it is read and
    after, is read as it would be alone. *)
Lemma read_amid our kp x v blob sn sf xs1 xs2 es1 es2 dm dm1 text row' :
  let nid := sender_id sn sf in
  reads_as v (blob, sn, sf) ->
  Forall2 (fun xv e => reads_as xv.2 e) xs1 es1 -> Forall2 (fun xv e => reads_as xv.2 e) xs2 es2 ->
  relay_decrypt_message x blob sn sf our kp dm = (dm1, Ok text) -> ratchet_sessions dm1.2 !! nid = row' ->
  Forall (fun e => apart (db_key dm.2) our kp nid (ratchet_sessions dm.2 !! nid) e.1.1 e.1.2 e.2) es1 ->
  Forall (fun e => apart (db_key dm.2) our kp nid row' e.1.1 e.1.2 e.2) es2 ->
  exists dm' l1 l2, read_entries our kp (xs1 ++ (x, v) :: xs2) dm = (dm', l1 ++ text :: l2) /\
    ratchet_sessions dm'.2 !! nid = row' /\ (length l1 <= length es1)%nat /\ (length l2 <= length es2)%nat.
Proof.
  intros nid (Hb & Hn & Hf) Hx1 Hx2 Hread Hrow Ha1 Ha2. cbn [fst snd] in Hb, Hn, Hf.
  rewrite read_app. pose proof (read_apart _ our kp nid _ xs1 es1 dm Hx1 Ha1 eq_refl eq_refl) as Hp1.
  destruct (read_entries our kp xs1 dm) as [da l1]. destruct Hp1 as (Hka & Hra & Hl1).
  cbn [read_entries]. rewrite Hb, Hn, Hf.
  destruct (decrypt_local x blob sn sf our kp da dm Hka Hra) as [Hres Hses]. rewrite Hread in Hres, Hses.
  destruct (decrypt_frame x blob sn sf our kp da) as (_ & Hkb & _).
  destruct (relay_decrypt_message x blob sn sf our kp da) as [db r]. cbn [fst snd] in *. subst r.
  pose proof (read_apart (db_key dm.2) our kp nid row' xs2 es2 db Hx2 Ha2 ltac:(congruence) (eq_trans Hses Hrow)) as Hp2.
  destruct (read_entries our kp xs2 db) as [dc l2]. destruct Hp2 as (_ & Hrc & Hl2).
  by exists dc, l1, l2.
Qed.

Definition identity_ok (i : Identity) : Prop :=
  name_ok (null_id i) /\ name_ok (fingerprint i) /\ null_id i <> "".

(** Both hold a session with the other, and the two are in step. *)
Definition paired (a b : Identity) (da db : state) : Prop :=
  exists sa sb, holds_session (null_id b) sa da.2 /\ holds_session (null_id a) sb db.2 /\ in_step sa sb.

Lemma paired_sym a b da db : paired a b da db -> paired b a db da.
Proof. intros (sa & sb & Ha & Hb & Hs). exists sb, sa. split_and!; [done|done|by apply in_step_sym]. Qed.

Lemma deliver_later xs xr a b message da db ka kb :
  device a da ka -> device b db kb -> identity_ok a -> identity_ok b ->
  sound xs -> sound xr -> text_ok message -> paired a b da db ->
  exists da' db', deliver xs xr a b message da db = (da', db', Some message) /\
    device a da' ka /\ device b db' kb /\ paired a b da' db'.
Proof.
  intros Hda Hdb (_ & _ & Hna) Hb Hxs Hxr Ht (sa & sb & Hsa & Hsb & Hst & Hrt).
  destruct (pad_text xs message Hxs Ht) as (padded & Hp & Hpo & Hpl & Hu).
  destruct Hdb as (Hf & Hl & Hkb). pose proof (derive_kyber_ek _ _ Hkb) as Hek.
  destruct (encrypt_message_total (x_nonce xs) (x_coins xs) padded (enc kb) sa) as (sa' & raw & He); [lia|].
  assert (He' := He). rewrite Hek in He'.
  destruct (kyber_roundtrip (x_nonce xs) (x_coins xs) padded (dec kb) sa sa' sb raw)
    as (sb' & Hdec & E1 & E2 & E3); [apply Hxs|apply Hxs|done|done|done|].
  pose proof (encrypt_message_wf _ _ _ _ _ _ _ He (proj1 Hsa)) as Hwa.
  destruct da as [d m].
  destruct (send_ok xs a (null_id b) (fingerprint b) message (d, m) ka kb
              (Some (session_to_json sa)) sa None padded sa' raw) as (da' & req & Hsend & Hreq & Hha & Hoa).
  - done.
  - done.
  - done.
  - apply session_of_holds; [apply Hxs|done].
  - unfold sending_session. by rewrite session_from_to_json by apply Hsa.
  - done.
  - unfold encrypt_padded. by rewrite He.
  - done.
  - destruct (read_ok xr raw None (null_id a) (fingerprint a) (fingerprint b) kb db
                (Some (session_to_json sb)) sb sb' padded message) as (db' & Hread & Hhb & Hob).
    + done.
    + done.
    + destruct db as [d' m']. apply session_of_holds; [apply Hxr|done].
    + unfold receiving_session. by rewrite session_from_to_json by apply Hsb.
    + done.
    + apply Hsb.
    + done.
    + exists da', db'. split_and!.
      * unfold deliver. rewrite Hsend, Hreq. unfold st_bind.
        rewrite (load_device xr b db kb) by done. by rewrite Hread.
      * by eapply device_only.
      * by eapply device_only, Hob.
      * exists sa', sb'. split_and!; [done|done|split; congruence].
Qed.

(** The authentication tag of a first message does not end in what looks like
    the length of a Kyber ciphertext. *)
Definition first_fits (x : surroundings) (self : Identity) (nid fp message : string) (k : keypair) : Prop :=
  forall s kct padded s' raw,
    sending_session x self nid fp (enc k) None = Ok (s, kct) ->
    pad_message_bucket (x_padding x) message = Some padded ->
    encrypt_first (x_nonce x) padded s = (s', Ok raw) -> first_ok raw.

(** A first message: what is sent opens for everyone who has the key pair that
    goes with the recipient's identifier and no session with the sender. *)
Lemma first_message x a nid fp message da ka k :
  device a da ka -> identity_ok a -> name_ok nid -> name_ok fp -> sound x -> text_ok message ->
  derive_kyber nid = Ok k -> ratchet_sessions da.2 !! nid = None ->
  first_fits x a nid fp message k ->
  exists da' req blob sa, send_via_relay x a nid fp message da = (da', Some req, Ok tt) /\
    handed_on req = (blob, null_id a, fingerprint a) /\
    holds_session nid sa da'.2 /\ only_session nid da da' /\
    forall y our dm, sound y -> name_ok our -> ratchet_sessions dm.2 !! null_id a = None ->
      exists dm' sb, relay_decrypt_message y blob (null_id a) (fingerprint a) our k dm = (dm', Ok message) /\
        holds_session (null_id a) sb dm'.2 /\ only_session (null_id a) dm dm' /\ in_step sa sb.
Proof.
  intros Hda (Hna & Hfa & Hne) Hn Hfp Hx Ht Hk Hno Hff.
  destruct (pad_text x message Hx Ht) as (padded & Hp & Hpo & Hpl & Hu).
  destruct (encapsulate (enc k) (x_coins x)) as [kct kss] eqn:Ek.
  destruct (encapsulate_length _ _ _ _ Ek) as [Hkl Hsl].
  destruct (new_total fp nid (fingerprint a) true kss Hsl) as [s Hs].
  destruct (new_wf _ _ _ _ _ _ Hfp Hn Hfa Hs) as (Hw & _).
  assert (Hss : sending_session x a nid fp (enc k) None = Ok (s, Some kct)).
  { unfold sending_session. by rewrite Ek, Hs. }
  destruct (encrypt_first_total (x_nonce x) padded s) as (sa & raw & He); [lia|].
  pose proof (encrypt_first_wf _ _ _ _ _ He Hw) as Hwa.
  destruct da as [d m]. cbn [snd] in Hno.
  destruct (send_ok x a nid fp message (d, m) ka k None s (Some kct) padded sa raw)
    as (da' & req & Hsend & Hreq & Hh & Ho); [done|done|done| |done|done| |done|].
  - apply session_of_none; [apply Hx|done].
  - unfold encrypt_padded. by rewrite He.
  - exists da', req, (blob_text raw (Some kct)), sa. split_and!; [done|done|done|done|].
    intros y our dm Hy Hour Hnone.
    destruct (new_total (fingerprint a) (null_id a) our false kss Hsl) as [sb0 Hsb0].
    destruct (new_wf _ _ _ _ _ _ Hfa Hna Hour Hsb0) as (Hwb & _).
    destruct (new_in_step _ _ _ _ _ _ _ _ _ Hs Hsb0) as [[Hst Hrt] _].
    destruct (first_roundtrip (x_nonce x) padded (dec k) s sa sb0 raw)
      as (sb & Hd & E1 & E2 & E3); [apply Hx|apply Hx|done|done|done|lia|by eapply Hff|].
    destruct (read_ok y raw (Some kct) (null_id a) (fingerprint a) our k dm None sb0 sb padded message)
      as (dm' & Hread & Hhb & Hob); [done|done| | |done|done|done|].
    + destruct dm as [d' m']. apply session_of_none; [apply Hy|done].
    + unfold receiving_session. cbn [fmap option_fmap option_map].
      rewrite hex_decode_encode by (by eapply encapsulate_ok). cbn [ok_or rbind].
      unfold zlen. rewrite Hkl. change (negb (Z.of_nat 1568 =? 1568)) with false.
      rewrite (derive_kyber_ek _ _ Hk) in Ek.
      by rewrite (decapsulate_encapsulate _ _ _ _ Ek), Hsb0.
    + exists dm', sb. split_and!; [done|done|done|split; congruence].
Qed.

(** A later message of a conversation: who sends it, in which surroundings. *)
Record turn : Type := mkTurn { t_first : bool; t_send : surroundings; t_read : surroundings; t_text : string }.

Fixpoint talk (a b : Identity) (ts : list turn) (da db : state) : list (option string) :=
  match ts with
  | [] => []
  | t :: ts' =>
      if t_first t then
        let '(da', db', r) := deliver (t_send t) (t_read t) a b (t_text t) da db in
        r :: talk a b ts' da' db'
      else
        let '(db', da', r) := deliver (t_send t) (t_read t) b a (t_text t) db da in
        r :: talk a b ts' da' db'
  end.

Definition turn_ok (t : turn) : Prop := sound (t_send t) /\ sound (t_read t) /\ text_ok (t_text t).

Lemma talk_ok a b ka kb ts : forall da db,
  device a da ka -> device b db kb -> identity_ok a -> identity_ok b -> Forall turn_ok ts ->
  paired a b da db -> talk a b ts da db = Some ∘ t_text <$> ts.
Proof.
  induction ts as [|t ts IH]; intros da db Hda Hdb Ha Hb Hts Hp; [done|].
  apply Forall_cons in Hts as [(Hs & Hr & Ht) Hts]. cbn [talk fmap list_fmap]. destruct (t_first t).
  - destruct (deliver_later (t_send t) (t_read t) a b (t_text t) da db ka kb)
      as (da' & db' & -> & Hda' & Hdb' & Hp'); [done..|]. f_equal. by apply IH.
  - apply paired_sym in Hp.
    destruct (deliver_later (t_send t) (t_read t) b a (t_text t) db da kb ka)
      as (db' & da' & -> & Hdb' & Hda' & Hp'); [done..|]. f_equal.
    apply IH; [done|done|done|done|done|by apply paired_sym].
Qed.

(** The first message between two clients is read, and leaves them paired. *)
Lemma deliver_first xs xr a b message da db ka kb :
  device a da ka -> device b db kb -> identity_ok a -> identity_ok b ->
  ratchet_sessions da.2 !! null_id b = None -> ratchet_sessions db.2 !! null_id a = None ->
  sound xs -> sound xr -> text_ok message ->
  first_fits xs a (null_id b) (fingerprint b) message kb ->
  exists da' db', deliver xs xr a b message da db = (da', db', Some message) /\
    device a da' ka /\ device b db' kb /\ paired a b da' db'.
Proof.
  intros Hda Hdb Ha Hb Hna Hnb Hxs Hxr Ht Hff.
  destruct (first_message xs a (null_id b) (fingerprint b) message da ka kb)
    as (da' & req & blob & sa & Hsend & Hreq & Hha & Hoa & Hread);
    [done|done|apply Hb|apply Hb|done|done|apply Hdb|done|done|].
  destruct (Hread xr (fingerprint b) db) as (db' & sb & Hrd & Hhb & Hob & Hst); [done|apply Hb|done|].
  exists da', db'. split_and!; [|by eapply device_only|by eapply device_only|by exists sa, sb].
  unfold deliver. rewrite Hsend, Hreq. unfold st_bind. rewrite (load_device xr b db kb) by done.
  by rewrite Hrd.
Qed.

(** C3: two clients talk through the relay.  From two databases without a
    session for the other, whatever else they hold, the first message sent is
    read as it was written, and so is every later one, in either direction
    and any number of them, each command loading the sessions the last one
    saved: as long as messages are read in the order they were sent, padding
    adds fewer than 256 bytes to each, and the tag of the first does not end
    in what looks like a length. *)
Theorem relay_conversation (a b : Identity) (da db : state) (ka kb : keypair)
    (xs xr : surroundings) (message : string) (ts : list turn) :
  device a da ka -> device b db kb -> identity_ok a -> identity_ok b ->
  ratchet_sessions da.2 !! null_id b = None -> ratchet_sessions db.2 !! null_id a = None ->
  sound xs -> sound xr -> text_ok message ->
  first_fits xs a (null_id b) (fingerprint b) message kb -> Forall turn_ok ts ->
  exists da' db', deliver xs xr a b message da db = (da', db', Some message) /\
    talk a b ts da' db' = Some ∘ t_text <$> ts.
Proof.
  intros Hda Hdb Ha Hb Hna Hnb Hxs Hxr Ht Hff Hts.
  destruct (deliver_first xs xr a b message da db ka kb) as (da' & db' & Hd & Hda' & Hdb' & Hp); [done..|].
  exists da', db'. split; [done|]. by apply (talk_ok a b ka kb).
Qed.

(** C16: whoever knows the recipient's identifier reads the first message.  The
    Kyber key pair, the secret half included, is computed from the Null ID,
    which is public; so the text of a first message, and with it the session
    that opens the later ones, is open to any reader of the request, the
    relay for one: its own fingerprint and database do not matter. *)
Theorem first_message_public (x y : surroundings) (a : Identity) (nid fp eavesdropper message : string)
    (da dm : state) (ka : keypair) :
  device a da ka -> identity_ok a -> name_ok nid -> name_ok fp -> sound x -> text_ok message ->
  ratchet_sessions da.2 !! nid = None ->
  (forall k, derive_kyber nid = Ok k -> first_fits x a nid fp message k) ->
  sound y -> name_ok eavesdropper -> ratchet_sessions dm.2 !! null_id a = None ->
  exists da' req k dm' sa sb,
    send_via_relay x a nid fp message da = (da', Some req, Ok tt) /\
    derive_kyber nid = Ok k /\
    (let '(blob, n, f) := handed_on req in relay_decrypt_message y blob n f eavesdropper k dm)
      = (dm', Ok message) /\
    holds_session nid sa da'.2 /\ holds_session (null_id a) sb dm'.2 /\ in_step sa sb.
Proof.
  intros Hda Ha Hn Hfp Hx Ht Hno Hff Hy He Hnone.
  destruct (derive_kyber_total nid) as (k & Hk & _).
  destruct (first_message x a nid fp message da ka k)
    as (da' & req & blob & sa & Hsend & Hreq & Hha & Hoa & Hread); [done..|by apply Hff|].
  destruct (Hread y eavesdropper dm Hy He Hnone) as (dm' & sb & Hrd & Hhb & _ & Hst).
  exists da', req, k, dm', sa, sb. rewrite Hreq. split_and!; done.
Qed.
End conversations.

(** ** A concrete codec for sessions *)

Definition toy_members (s : RatchetState) : list (string * value) :=
  [("peer_fp", VString (peer_fp s)); ("peer_nid", VString (peer_nid s)); ("our_fp", VString (our_fp s));
   ("is_initiator", VNumber (PosInt (if is_initiator s then 1 else 0)));
   ("root_key", VString (hex_enc (root_key s))); ("send_chain_key", VString (hex_enc (send_chain_key s)));
   ("recv_chain_key", VString (hex_enc (recv_chain_key s)));
   ("send_message_number", VNumber (PosInt (send_message_number s)));
   ("recv_message_number", VNumber (PosInt (recv_message_number s)))].

Definition text_member (v : value) (k : string) : option string := x ← get v k; as_str x.
Definition key_member (v : value) (k : string) : option bytes := t ← text_member v k; hex_dec t.
Definition number_member (v : value) (k : string) : option Z := x ← get v k; as_u64 x.

Definition toy_session_of (v : value) : option RatchetState :=
  pf ← text_member v "peer_fp"; pn ← text_member v "peer_nid"; o ← text_member v "our_fp";
  i ← number_member v "is_initiator";
  r ← key_member v "root_key"; sk ← key_member v "send_chain_key"; rk ← key_member v "recv_chain_key";
  sn ← number_member v "send_message_number"; rn ← number_member v "recv_message_number";
  Some (mkRatchetState pf pn o (i =? 1) r sk rk sn rn ∅).

Definition toy_session_to_json (s : RatchetState) : string := toy_print (VObject (toy_members s)).
Definition toy_session_from_json (t : string) : result CryptoError RatchetState :=
  ok_or (v ← toy_parse t; toy_session_of v) (Serialization "json").

Lemma toy_session_from_to s :
  session_wf s -> toy_session_from_json (toy_session_to_json s) = Ok s.
Proof.
  intros (_ & ([Hr _] & [Hs _] & [Hv _]) & Hsn & Hrn & He).
  unfold toy_session_from_json, toy_session_to_json.
  destruct (toy_parse_print (toy_members s)) as (m' & -> & Hm).
  - repeat constructor; set_solver.
  - repeat constructor; cbn; try lia; by destruct (is_initiator s).
  - cbn [mbind option_bind]. unfold toy_session_of, key_member, text_member, number_member. cbn [get]. rewrite !Hm. cbn [assoc toy_members].
    cbn [mbind option_bind as_str as_u64 String.eqb Ascii.eqb Bool.eqb].
    rewrite !hex_dec_enc by done. cbn [mbind option_bind ok_or]. f_equal.
    destruct s as [? ? ? i ? ? ? ? ? sk]. cbn in *. subst sk. by destruct i.
Qed.

Lemma join_length c l : slen (join c l) <= foldr (fun x n => slen x + 1 + n) 0 l.
Proof.
  induction l as [|x l IH]; [done|]. cbn [join foldr]. destruct l as [|y l]; [cbn; lia|].
  rewrite slen_app. unfold slen at 2. cbn [String.length]. fold (slen (join c (y :: l))).
  unfold slen in *. lia.
Qed.

Lemma join_all p c l : p c = true -> Forall (fun x => str_all p x = true) l -> str_all p (join c l) = true.
Proof.
  intros Hc. induction 1 as [|x l Hx Hl IH]; [done|]. cbn [join]. destruct l as [|y l]; [done|].
  rewrite str_all_app, Hx. cbn [str_all]. by rewrite Hc.
Qed.

Lemma toy_member_ascii kv : str_all is_ascii (toy_member kv) = true.
Proof.
  assert (Hh : forall l, str_all is_ascii (hex_enc l) = true).
  { intros l. eapply str_all_impl, hex_enc_hex. apply hex_ascii. }
  unfold toy_member. rewrite str_all_app, Hh. cbn [str_all andb].
  destruct (kv.2) as [|b|[n| |]|s| |]; cbn [toy_value str_all]; rewrite ?Hh; try done. by destruct b.
Qed.

Lemma slen_hex_enc l : slen (hex_enc l) = 2 * zlen l.
Proof. exact (@hex_encode_length toy_hex l). Qed.

Lemma toy_string_member k s : slen (toy_member (k, VString s)) = 2 * slen k + 2 * slen s + 2.
Proof.
  unfold toy_member. cbn [fst snd toy_value]. rewrite slen_app. unfold slen at 2. cbn [String.length].
  fold (slen (hex_enc (str_bytes s))). pose proof (slen_hex_enc (str_bytes k)) as Ek.
  pose proof (slen_hex_enc (str_bytes s)) as Es. rewrite zlen_str_bytes in Ek, Es.
  unfold slen in *. lia.
Qed.

Lemma toy_number_member k n : slen (toy_member (k, VNumber (PosInt n))) = 2 * slen k + 18.
Proof.
  unfold toy_member. cbn [fst snd toy_value]. rewrite slen_app. unfold slen at 2. cbn [String.length].
  fold (slen (hex_enc (be_bytes 8 n))). pose proof (slen_hex_enc (str_bytes k)) as Ek.
  pose proof (slen_hex_enc (be_bytes 8 n)) as Es. rewrite zlen_str_bytes in Ek.
  unfold zlen in Es. rewrite be_bytes_length in Es. unfold slen in *. lia.
Qed.

Lemma toy_session_ok s :
  session_wf s -> str_ok (toy_session_to_json s) /\ slen (toy_session_to_json s) < 2 ^ 20.
Proof.
  intros ((Hpf & Hpn & Ho) & ([_ Hr] & [_ Hs] & [_ Hv]) & _).
  unfold toy_session_to_json. split.
  - apply ascii_str_ok. change (toy_print _) with (join ","%char (toy_member <$> toy_members s)).
    apply join_all; [done|]. apply Forall_fmap, Forall_forall. intros kv _. apply toy_member_ascii.
  - change (toy_print _) with (join ","%char (toy_member <$> toy_members s)).
    eapply Z.le_lt_trans; [apply join_length|].
    unfold toy_members. cbn [fmap list_fmap foldr]. rewrite !toy_string_member, !toy_number_member, !slen_hex_enc.
    unfold zlen. rewrite Hr, Hs, Hv. destruct Hpf as [_ Hpf], Hpn as [_ Hpn], Ho as [_ Ho].
    repeat match goal with |- context [slen (String ?a ?b)] =>
      let n := eval vm_compute in (slen (String a b)) in change (slen (String a b)) with n end.
    lia.
Qed.

Definition toy_session_codec : SessionCodec := {|
  session_to_json := toy_session_to_json; session_from_json := toy_session_from_json;
  session_from_to_json := toy_session_from_to; session_to_json_ok := toy_session_ok |}.

(** ** Concrete conversations *)

#[local] Existing Instances toy_kem toy_aead toy_hkdf toy_hex toy_base64 toy_sha2 toy_blake2 toy_json
  toy_format toy_session_codec.

Definition ok_text : string := toy_print (VObject [("ok", VBool true)]).

(** A calm surrounding; the number varies its randomness. *)
Definition calm (n : Z) : surroundings :=
  mkSurroundings true (replicate 12 n) [n; 1] (replicate 12 n) (fun k => replicate (Z.to_nat k) 5)
    (1000 + n) (f64_of_Z 1000) "id" true true (replicate 12 (n + 1)) "now"
    (fun data => Ok ("SIG:" +:+ data)) (Ok "CERT") [RPing; RText ok_text].

Lemma calm_sound n : 0 <= n < 100 -> sound (calm n).
Proof.
  intros Hn. assert (Hr : forall k, 0 <= k < 200 -> bytes_ok (replicate 12 k)).
  { intros k Hk. apply Forall_replicate. unfold byte_ok. lia. }
  split_and!; try reflexivity; cbn.
  - split; [reflexivity|apply (Hr (n + 1)); lia].
  - apply (Hr n). lia.
  - intros k Hk. unfold zlen. rewrite length_replicate. split; [lia|].
    apply Forall_replicate. unfold byte_ok. lia.
  - intros data. by eexists.
  - by eexists.
Qed.

Definition alice : Identity := mkIdentity "AAAA" "NN-alice".
Definition bob : Identity := mkIdentity "BBBB" "NN-bob".

Lemma named n : str_ok n -> slen n <=? 1000 = true -> name_ok n.
Proof. intros Hs Hl. split; [done|]. by apply Z.leb_le. Qed.

Lemma alice_ok : identity_ok alice.
Proof. split_and!; [apply named; reflexivity|apply named; reflexivity|discriminate]. Qed.
Lemma bob_ok : identity_ok bob.
Proof. split_and!; [apply named; reflexivity|apply named; reflexivity|discriminate]. Qed.

(** The files and the database of an identity after its first command. *)
Definition fresh (i : Identity) (key : Z) : gmap string string * MessageStore :=
  (load_or_generate_kyber (calm 9) (null_id i) (∅, open (replicate 32 key))).1.

Lemma fresh_device i key :
  exists kp, device i (fresh i key) kp /\ ratchet_sessions (fresh i key).2 = ∅.
Proof.
  destruct (first_device (calm 9) i ∅ (open (replicate 32 key))) as (dm & kp & Hl & Hd & Hm).
  - by rewrite lookup_empty.
  - done.
  - split; [done|]. apply Forall_replicate. unfold byte_ok. cbn. lia.
  - exists kp. unfold fresh. rewrite Hl. split; [done|]. cbn [fst]. by rewrite Hm.
Qed.

Lemma text_ok_small t : str_ok t -> slen t <=? 255 = true -> text_ok t.
Proof.
  intros Hs Hl. apply Z.leb_le in Hl. split_and!; [done|lia|].
  unfold pad_len, bucket_size. pose proof (slen_nonneg t).
  rewrite (proj2 (Z.leb_le _ _)) by lia. lia.
Qed.

(** The condition on the tag, decided. *)
Definition fits (x : surroundings) (self : Identity) (nid fp message : string) : bool :=
  match derive_kyber nid with
  | Ok k =>
      match sending_session x self nid fp (enc k) None, pad_message_bucket (x_padding x) message with
      | Ok (s, _), Some padded =>
          match (encrypt_first (x_nonce x) padded s).2 with
          | Ok raw => negb (has_kyber (drop NONCE_SIZE raw))
          | Err _ => true
          end
      | _, _ => true
      end
  | Err _ => true
  end.

Lemma fits_first x self nid fp message k :
  fits x self nid fp message = true -> derive_kyber nid = Ok k -> first_fits x self nid fp message k.
Proof.
  unfold fits. intros Hf Hk s kct padded s' raw Hss Hp He. rewrite Hk, Hss, Hp, He in Hf.
  by apply negb_true_iff in Hf.
Qed.

Lemma alice_fits : fits (calm 1) alice (null_id bob) (fingerprint bob) "hello" = true.
Proof. vm_compute. reflexivity. Qed.

Definition chat : list turn :=
  [mkTurn false (calm 2) (calm 3) "hi"; mkTurn true (calm 4) (calm 5) "how are you";
   mkTurn true (calm 6) (calm 7) "?"].

Lemma chat_ok : Forall turn_ok chat.
Proof.
  repeat apply Forall_cons_2; [| | |apply Forall_nil_2];
    (split; [apply calm_sound; cbn; lia|split; [apply calm_sound; cbn; lia|by apply text_ok_small]]).
Qed.

Theorem relay_conversation_witness :
  exists da db, deliver (calm 1) (calm 8) alice bob "hello" (fresh alice 1) (fresh bob 2)
      = (da, db, Some "hello") /\
    talk alice bob chat da db = [Some "hi"; Some "how are you"; Some "?"].
Proof.
  destruct (fresh_device alice 1) as (ka & Hda & Hsa). destruct (fresh_device bob 2) as (kb & Hdb & Hsb).
  apply (relay_conversation alice bob (fresh alice 1) (fresh bob 2) ka kb (calm 1) (calm 8) "hello" chat).
  - exact Hda.
  - exact Hdb.
  - apply alice_ok.
  - apply bob_ok.
  - by rewrite Hsa.
  - by rewrite Hsb.
  - apply calm_sound. lia.
  - apply calm_sound. lia.
  - apply text_ok_small; reflexivity.
  - apply fits_first; [exact alice_fits|apply Hdb].
  - apply chat_ok.
Defined.

Theorem first_message_public_witness :
  exists da req k dm sa sb,
    send_via_relay (calm 1) alice (null_id bob) (fingerprint bob) "hello" (fresh alice 1)
      = (da, Some req, Ok tt) /\
    derive_kyber (null_id bob) = Ok k /\
    (let '(blob, n, f) := handed_on req in
     relay_decrypt_message (calm 3) blob n f "EVE" k (∅, open (replicate 32 66))) = (dm, Ok "hello") /\
    holds_session (null_id bob) sa da.2 /\ holds_session (null_id alice) sb dm.2 /\ in_step sa sb.
Proof.
  destruct (fresh_device alice 1) as (ka & Hda & Hsa).
  apply (first_message_public (calm 1) (calm 3) alice (null_id bob) (fingerprint bob) "EVE" "hello"
           (fresh alice 1) (∅, open (replicate 32 66)) ka).
  - exact Hda.
  - apply alice_ok.
  - apply bob_ok.
  - apply bob_ok.
  - apply calm_sound. lia.
  - apply text_ok_small; reflexivity.
  - by rewrite Hsa.
  - intros k Hk. apply fits_first; [exact alice_fits|exact Hk].
  - apply calm_sound. lia.
  - apply named; reflexivity.
  - reflexivity.
Defined.
