(* ===== verification/ClientHome.v ===== *)
(** * The home directory of the client (src/client/src/main.rs)

    The files a client keeps under its home: identity, certificate, contacts,
    aliases and delivery secrets, the commands that change them, the safety
    number and the choice of a server.  Files are a map from paths to
    contents; how a write ends, random bytes and the passphrase typed are
    arguments. *)

From S2P Require Import Prelude Text Files Primitives Concrete Json Gpg Pow Identity CertCache DeliveryTokens Pir Kyber.
From S2P Require Import ClientStore ClientRelay.

Abbreviation write_text := (Files.write_file Plain).

(** Source: client/src/main.rs:40-40, GPG_HOME. *)
Definition GPG_HOME : string := ".nullnode/gnupg".
(** Source: client/src/main.rs:41-41, CONTACTS_PATH. *)
Definition CONTACTS_PATH : string := ".nullnode/contacts.json".
(** Source: client/src/main.rs:42-42, ALIASES_PATH. *)
Definition ALIASES_PATH : string := ".nullnode/aliases.json".
(** Source: client/src/main.rs:43-43, DELIVERY_SECRETS_PATH. *)
Definition DELIVERY_SECRETS_PATH : string := ".nullnode/delivery_secrets.json".
(** Source: client/src/main.rs:49-49, DB_KEY_PATH. *)
Definition DB_KEY_PATH : string := ".nullnode/db_key.json".
(** Source: client/src/main.rs:44-44, IDENTITY_PATH. *)
Definition IDENTITY_PATH : string := ".nullnode/identity.json".

Definition CERT_AGE : string := GPG_HOME +:+ "/own_cert.age".
Definition CERT_ASC : string := GPG_HOME +:+ "/own_cert.asc".

(** The age crate, with a passphrase: an armored file of some bytes, or the step
    that failed, and back.  What was sealed opens with the same passphrase. *)
Inductive age_step : Type := ArmorWrap | AgeEncrypt | AgeWrite | AgeFinish | ArmorFinish.

Class Age := {
  age_seal : string -> bytes -> result (age_step * string) bytes;
  age_open : string -> bytes -> result string bytes;
  age_open_seal pass text b :
    bytes_ok text -> age_seal pass text = Ok b -> bytes_ok b /\ age_open pass b = Ok text;
}.

Definition step_text (s : age_step) : string :=
  match s with
  | ArmorWrap => "age armor wrap: "
  | AgeEncrypt => "age encrypt: "
  | AgeWrite => "age write: "
  | AgeFinish => "age finish: "
  | ArmorFinish => "age armor finish: "
  end.

(** Source: client/src/main.rs:345-367, encrypt_cert_armored. *)
Definition encrypt_cert_armored `{Age} (plaintext password : string) : result string string :=
  match age_seal password (str_bytes plaintext) with
  | Err (step, e) => Err (step_text step +:+ e)
  | Ok buf => ok_or (from_utf8 buf) "age output utf8"
  end.

(** Source: client/src/main.rs:369-379, decrypt_cert_armored. *)
Definition decrypt_cert_armored `{Age} (armored password : string) : result string string :=
  match age_open password (str_bytes armored) with
  | Err e => Err ("age decrypt: " +:+ e)
  | Ok plaintext => ok_or (from_utf8 plaintext) "decrypted cert utf8"
  end.

Lemma decrypt_encrypt_cert `{Age} text pass a :
  str_ok text -> encrypt_cert_armored text pass = Ok a -> decrypt_cert_armored a pass = Ok text.
Proof.
  intros Ht. unfold encrypt_cert_armored, decrypt_cert_armored.
  destruct (age_seal pass (str_bytes text)) as [buf|[step e]] eqn:E; [|done].
  unfold from_utf8 at 1. destruct (utf8_valid buf) eqn:Eu; [|done]. intros [= <-].
  destruct (age_open_seal _ _ _ (str_bytes_ok text) E) as [Hb Ho].
  rewrite str_bytes_str, Ho by done. by rewrite from_utf8_str.
Qed.

(** Without echo, or from the line typed when that cannot be switched off.
    Source: client/src/main.rs:287-305, prompt_passphrase. *)
Definition prompt_passphrase (flush : result string unit) (read_password read_line : result string string)
  : result string string :=
  let? _ := flush in
  match read_password with
  | Ok pass => Ok pass
  | Err _ => let? buf := read_line in Ok (trim_end_ws buf)
  end.

Section home.
Context `{JsonCodec} `{Sha2} `{Hex} `{Hmac} `{Blake2} `{Base64}.

(** ** Maps kept as JSON: contacts, aliases and delivery secrets *)

(** [serde_json::from_str::<HashMap<String, String>>]: an object of strings. *)
Definition string_map (v : value) : option (gmap string string) :=
  match v with
  | VObject m =>
      if forallb (fun kv => bool_decide (is_Some (assoc kv.1 m ≫= as_str))) m
      then Some (list_to_map ((fun kv => (kv.1, opt_or (assoc kv.1 m ≫= as_str) "")) <$> m))
      else None
  | _ => None
  end.

(** A file that is missing or not such an object is an empty map.
    Source: client/src/main.rs:442-449, load_contacts. *)
Definition load_map (path : string) (d : disk) : gmap string string :=
  match d !! path with
  | None => ∅
  | Some content => opt_or (json_parse content ≫= string_map) ∅
  end.

(** Source: client/src/main.rs:451-464, save_contacts. *)
Definition save_map (w : write_end) (path : string) (m : gmap string string) (d : disk)
  : disk * result client_error unit :=
  write_text w path (json_print (str_object (map_to_list m))) d.

(** Source: client/src/main.rs:442-449, load_contacts. *)
Definition load_contacts : disk -> gmap string string := load_map CONTACTS_PATH.
(** Source: client/src/main.rs:451-464, save_contacts. *)
Definition save_contacts (w : write_end) : gmap string string -> disk -> disk * result client_error unit :=
  save_map w CONTACTS_PATH.
(** Source: client/src/main.rs:472-479, load_aliases. *)
Definition load_aliases : disk -> gmap string string := load_map ALIASES_PATH.
(** Source: client/src/main.rs:481-493, save_aliases. *)
Definition save_aliases (w : write_end) : gmap string string -> disk -> disk * result client_error unit :=
  save_map w ALIASES_PATH.
(** Source: client/src/main.rs:527-536, load_delivery_secrets. *)
Definition load_delivery_secrets : disk -> gmap string string := load_map DELIVERY_SECRETS_PATH.
(** Source: client/src/main.rs:538-550, save_delivery_secrets. *)
Definition save_delivery_secrets (w : write_end)
  : gmap string string -> disk -> disk * result client_error unit :=
  save_map w DELIVERY_SECRETS_PATH.

(** Source: client/src/main.rs:495-500, resolve_recipient. *)
Definition resolve_recipient (input : string) (aliases : gmap string string) : string :=
  opt_or (aliases !! input) input.

(** ** The identity *)

(** serde's derived decoder: both fields, as strings. *)
Definition identity_of (v : value) : option ClientRelay.Identity :=
  fp ← get v "fingerprint" ≫= as_str; nid ← get v "null_id" ≫= as_str; Some (mkIdentity fp nid).

(** Source: client/src/main.rs:406-413, Identity::load. *)
Definition load_identity (d : disk) : result client_error ClientRelay.Identity :=
  match d !! IDENTITY_PATH with
  | None => Err (Plain "no identity found — run 'nullnode init' first")
  | Some content => ok_or (json_parse content ≫= identity_of) (Plain "json")
  end.

(** Source: client/src/main.rs:415-428, Identity::save. *)
Definition save_identity (w : write_end) (self : ClientRelay.Identity) (d : disk)
  : disk * result client_error unit :=
  write_text w IDENTITY_PATH
    (json_print (str_object [("fingerprint", fingerprint self); ("null_id", ClientRelay.null_id self)])) d.

(** ** The certificate *)

Context `{Sequoia} `{Age}.

(** What an old bug left behind: the first bytes of a file written as text
    that was not.  Source: client/src/main.rs:333-340, load_cert. *)
Definition corrupt_cert (armored : string) : bool :=
  match str_bytes armored with
  | 239 :: 191 :: 189 :: _ => true
  | 0 :: _ => true
  | _ => false
  end.

Definition parse_cert (what armored : string) : result client_error cert :=
  match cert_from_bytes armored with Ok c => Ok c | Err e => Err (Plain (what +:+ e)) end.

(** The encrypted certificate wins over the plain one; the passphrase, what was
    typed, is only asked for it. Source: client/src/main.rs:307-343, load_cert. *)
Definition load_cert (password : result string string) (d : disk) : result client_error cert :=
  match d !! CERT_AGE with
  | Some armored =>
      let? password := plain password in
      if str_is_empty password then Err (Plain "encrypted own_cert.age requires a passphrase")
      else
        let? plaintext := plain (decrypt_cert_armored armored password) in
        parse_cert "parse decrypted cert: " plaintext
  | None =>
      match d !! CERT_ASC with
      | None => Err (Plain "no identity found — run 'nullnode init' first")
      | Some armored =>
          if corrupt_cert armored then Err (Plain "corrupt identity file detected")
          else parse_cert "parse cert: " armored
      end
  end.

Context `{!SequoiaSecret}.

(** Source: client/src/main.rs:381-386, sign_for_transport. *)
Definition sign_for_transport (now : Z) (password : result string string) (data : string) (d : disk) : result client_error string :=
  let? c := load_cert password d in
  match sign_data (fun text => sign_detached now text c) data with
  | Ok sig => Ok sig
  | Err e => Err (Plain ("sign failed: " +:+ e))
  end.

(** Source: client/src/main.rs:388-397, load_armored_cert. *)
Definition load_armored_cert (password : result string string) (d : disk) : result client_error string :=
  let? c := load_cert password d in
  match tsk_armored c with
  | Ok armored => Ok armored
  | Err e => Err (Plain ("cert armored serialize failed: " +:+ e))
  end.

(** The certificate of a new identity: in the clear without a passphrase;
    with one, encrypted, and a plain one is removed.
    Source: client/src/main.rs:953-982, generate_identity. *)
Definition keep_cert (w : write_end) (password armored : string) : st disk client_error unit :=
  if str_is_empty password then write_text w CERT_ASC armored
  else
    do encrypted <- st_lift (plain (encrypt_cert_armored armored password));
    do! write_text w CERT_AGE encrypted;
    st_modify (delete CERT_ASC).

(** What a call has done to a file. *)
Definition put_file (path : string) (f : option string) (d : disk) : disk :=
  match f with Some text => <[path := text]> d | None => d end.

(** Source: client/src/main.rs:186-218, load_or_create. *)
Definition open_db_key (w : write_end) (random : bytes) : st disk client_error bytes := fun d =>
  let (f, r) := load_or_create w random (d !! DB_KEY_PATH) in (put_file DB_KEY_PATH f d, plain r).

(** The same, but a file that cannot be used is a panic.
    Source: client/src/main.rs:162-184, load_or_create_sync. *)
Definition load_or_create_sync (w : write_end) (random : bytes) : st disk client_error bytes := fun d =>
  let (d', r) := open_db_key w random d in
  (d', match r with Ok key => Ok key | Err _ => Err Panicked end).

(** How the writes of an initialisation end, and its random bytes. *)
Record init_io : Type := mkInitIo {
  i_cert : write_end; i_kyber : bool; i_identity : write_end; i_nonce : bytes;
  i_db_key : write_end; i_db_random : bytes }.

Context `{Kem} `{Aead} `{Hkdf}.

(** The new certificate is what Sequoia's builder [generated]; the passphrase is
    what was typed. Source: client/src/main.rs:924-1014, generate_identity. *)
Definition generate_identity (w : init_io) (password : result string string) (generated : result string cert)
  : st disk client_error ClientRelay.Identity :=
  do crt <- st_lift (match generated with
                     | Ok c => Ok c | Err e => Err (Plain ("key generation failed: " +:+ e)) end);
  let fingerprint := to_uppercase (cert_fingerprint crt) in
  let null_id := compute_null_id fingerprint in
  do armored <- st_lift (match tsk_armored crt with
                         | Ok a => Ok a | Err e => Err (Plain ("serialize armored cert: " +:+ e)) end);
  do password <- st_lift (plain password);
  do! keep_cert (i_cert w) password armored;
  do kyber_kp <- st_lift (derive_kyber null_id);
  do db_key <- load_or_create_sync (i_db_key w) (i_db_random w);
  do! (fun d => match Kyber.save (i_kyber w) (i_nonce w) KYBER_KEY_PATH db_key kyber_kp d with
                | (d', Ok _) => (d', Ok tt)
                | (d', Err e) => (d', Err (Wrapped "kyber keypair save failed: " e))
                end);
  let self := mkIdentity fingerprint null_id in
  do! save_identity (i_identity w) self;
  st_ret self.

(** ** Delivery secrets *)

(** Source: client/src/main.rs:552-574, get_or_create_delivery_secret. *)
Definition get_or_create_delivery_secret (w : write_end) (fresh : bytes) (contact_nid : string)
  : st disk client_error DeliveryMasterSecret :=
  fun d =>
    let secrets := load_delivery_secrets d in
    match secrets !! contact_nid with
    | Some hex =>
        match hex_decode hex with
        | None => (d, Err (Plain "hex"))
        | Some b =>
            if negb (zlen b =? 64) then (d, Err (Plain "invalid delivery secret length"))
            else (d, Ok (mkMaster b))
        end
    | None =>
        let (d', r) := save_delivery_secrets w (<[contact_nid := hex_encode fresh]> secrets) d in
        (d', match r with Ok _ => Ok (mkMaster fresh) | Err e => Err e end)
    end.

(** Source: crypto/src/delivery_tokens.rs:194-203, DeliveryTokenMessage. *)
Record DeliveryTokenMessage : Type := mkTokenMessage {
  tm_token : string; tm_sender_key_hash : string; tm_timestamp : Z }.

(** Source: client/src/main.rs:576-595, generate_delivery_token. *)
Definition generate_delivery_token (w : write_end) (fresh : bytes) (secs : Z) (recipient_nid : string)
    (message_id : Z) : st disk client_error DeliveryTokenMessage :=
  do master <- get_or_create_delivery_secret w fresh recipient_nid;
  let token := derive_token master recipient_nid message_id in
  do d <- st_get;
  do self <- st_lift (load_identity d);
  let pk_hash := sha256_hex (fingerprint self) in
  st_ret (mkTokenMessage (to_hex token) (str_slice 0 16 pk_hash +:+ ":" +:+ str_slice 16 16 pk_hash) (u64 secs)).

(** ** The safety number *)

(** [fps.sort()] on two strings. *)
Definition sort2 (a b : string) : string * string := if String.leb a b then (a, b) else (b, a).

(** Eight groups of eight digits. *)
Definition grouped (h : string) : string :=
  str_slice 0 8 h +:+ " " +:+ str_slice 8 8 h +:+ " " +:+ str_slice 16 8 h +:+ " " +:+ str_slice 24 8 h +:+ " " +:+
  str_slice 32 8 h +:+ " " +:+ str_slice 40 8 h +:+ " " +:+ str_slice 48 8 h +:+ " " +:+ str_slice 56 8 h.

(** Source: client/src/main.rs:2429-2447, safety_number. *)
Definition safety_number (fp1 fp2 : string) : string :=
  let (a, b) := sort2 (to_uppercase fp1) (to_uppercase fp2) in
  grouped (sha256_hex (a +:+ "|" +:+ b)).

(** ** Commands *)

(** Source: client/src/main.rs:2720-2728, main. *)
Definition cmd_add_contact (w : write_end) (null_id fp : string) (d : disk)
  : disk * result client_error unit :=
  if (slen fp <? 32) || negb (str_all is_ascii_hexdigit fp)
  then (d, Err (Plain "invalid fingerprint format — must be 32-40 hex chars"))
  else save_contacts w (<[null_id := to_uppercase fp]> (load_contacts d)) d.

(** Source: client/src/main.rs:2790-2800, main. *)
Definition cmd_alias (w : write_end) (alias null_id : string) (d : disk) : disk * result client_error unit :=
  if bool_decide (is_Some (load_contacts d !! null_id))
  then save_aliases w (<[alias := null_id]> (load_aliases d)) d
  else (d, Err (Plain ("unknown Null ID: " +:+ null_id))).

(** The contact a name stands for.
    Source: client/src/main.rs:2769-2772, main. *)
Definition contact_of (name : string) (d : disk) : result client_error (string * string) :=
  let nid := resolve_recipient name (load_aliases d) in
  let? fp := ok_or (load_contacts d !! nid) (Plain "unknown contact — add with 'add-contact' first") in
  Ok (nid, fp).

(** Source: client/src/main.rs:2768-2789, main. *)
Definition cmd_verify (name : string) (d : disk) : result client_error (string * string) :=
  let? (nid, fp) := contact_of name d in
  let? self := load_identity d in
  Ok (nid, safety_number (fingerprint self) fp).

(** An existing identity is replaced only after the word "yes"; the line typed
    is only asked for then. Source: client/src/main.rs:2622-2652, main. *)
Definition cmd_init (w : init_io) (confirm : result string string) (password : result string string)
    (generated : result string cert) : st disk client_error (option ClientRelay.Identity) :=
  do d <- st_get;
  do confirmed <- st_lift (if is_ok (load_identity d)
                           then let? line := plain confirm in Ok (String.eqb (trim line) "yes") else Ok true);
  if confirmed then do self <- generate_identity w password generated; st_ret (Some self) else st_ret None.
End home.

(** ** Choosing a server *)

Record srv : Type := mkSrv { priority : Z; weight : Z; target : string; port : Z }.

(** The comparison of the sort: priority up, then weight down.
    Source: client/src/main.rs:122-127, query_srv. *)
Definition srv_le (a b : srv) : bool :=
  (priority a <? priority b) || ((priority a =? priority b) && (weight b <=? weight a)).

(** A stable sort puts an element before those it is not above. *)
Fixpoint srv_insert (a : srv) (l : list srv) : list srv :=
  match l with
  | [] => [a]
  | b :: l' => if srv_le a b then a :: l else b :: srv_insert a l'
  end.
Fixpoint srv_sort (l : list srv) : list srv :=
  match l with [] => [] | a :: l' => srv_insert a (srv_sort l') end.

(** [None] when the lookup fails. Source: client/src/main.rs:107-136, query_srv. *)
Definition query_srv (response : option (list srv)) : option string :=
  records ← response;
  best ← head (srv_sort records);
  Some ("wss://" +:+ trim_end "."%char (target best) +:+ ":" +:+ pretty (port best)).

(** Source: client/src/main.rs:55-57, FALLBACK_BOOTSTRAP and FALLBACK_RELAY. *)
Definition FALLBACK_BOOTSTRAP : string := "wss://bootstrap-eu.gnoppix.org/ws".
Definition FALLBACK_RELAY : string := "wss://relay-eu.gnoppix.org/ws".

(** Source: client/src/main.rs:63-105, discover_servers. *)
Definition discover_servers (bootstrap relay : option (list srv)) : string * string :=
  let url r fallback := match query_srv r with
                        | Some u => trim_end "/"%char u +:+ "/ws"
                        | None => fallback
                        end in
  (url bootstrap FALLBACK_BOOTSTRAP, url relay FALLBACK_RELAY).

(** ** What is saved is loaded *)

Section home_props.
Context `{JsonCodec} `{Sha2} `{Hex} `{Hmac} `{Blake2} `{Base64} `{Sequoia} `{!SequoiaSecret} `{Age} `{Kem} `{Aead} `{Hkdf}.

Lemma assoc_elem {A} k (m : list (string * A)) : is_Some (assoc k m) <-> k ∈ m.*1.
Proof.
  induction m as [|[k' v] m IH]; simpl.
  - rewrite elem_of_nil. split; [by intros []|done].
  - rewrite elem_of_cons. destruct (String.eqb_spec k k') as [->|Hne]; [split; [by left|by eexists]|].
    rewrite IH. split; [by right|]. by intros [|].
Qed.

Lemma assoc_map_to_list (m : gmap string string) k : assoc k (map_to_list m) = m !! k.
Proof.
  pose proof (NoDup_fst_map_to_list m) as Hnd. destruct (m !! k) as [v|] eqn:E.
  - apply elem_of_map_to_list in E. revert Hnd E. generalize (map_to_list m). intros l.
    induction l as [|[k' v'] l IH]; [by intros _ ?%elem_of_nil|]. cbn [fmap list_fmap fst assoc].
    intros [Hk Hnd]%NoDup_cons [[= -> ->]|Hin]%elem_of_cons; [by rewrite String.eqb_refl|].
    destruct (String.eqb_spec k k') as [->|]; [|by apply IH].
    exfalso. apply Hk. apply list_elem_of_fmap. by exists (k', v).
  - destruct (assoc k (map_to_list m)) eqn:Ea; [|done].
    assert (Hin : k ∈ (map_to_list m).*1) by (apply assoc_elem; by eexists).
    apply list_elem_of_fmap in Hin as ([k' v] & -> & Hin%elem_of_map_to_list). simpl in E. congruence.
Qed.

Lemma lookup_keyed {A} (f : string -> A) (m : list (string * value)) k :
  (list_to_map ((fun kv => (kv.1, f kv.1)) <$> m) : gmap string A) !! k =
  if decide (is_Some (assoc k m)) then Some (f k) else None.
Proof.
  induction m as [|[k' v] m IH]; [done|]. cbn [fmap list_fmap fst]. rewrite list_to_map_cons. cbn [assoc].
  destruct (String.eqb_spec k k') as [->|Hne].
  - rewrite lookup_insert_eq, decide_True; [done|by eexists].
  - by rewrite lookup_insert_ne.
Qed.

Lemma load_saved path (m : gmap string string) d :
  load_map path (<[path := json_print (str_object (map_to_list m))]> d) = m.
Proof.
  unfold load_map. rewrite lookup_insert_eq.
  destruct (json_parse_print (map_to_list m)) as (m' & -> & Hm); [apply NoDup_fst_map_to_list|].
  assert (Ha : forall k, assoc k m' = VString <$> m !! k) by (intros k; by rewrite Hm, assoc_map_to_list).
  cbn [mbind option_bind string_map].
  assert (Hall : forallb (fun kv => bool_decide (is_Some (assoc kv.1 m' ≫= as_str))) m' = true).
  { apply forallb_forall. intros [k v] Hin%list_elem_of_In. apply bool_decide_eq_true. simpl.
    assert (Hk : is_Some (assoc k m')) by (apply assoc_elem, list_elem_of_fmap; by exists (k, v)).
    rewrite Ha in Hk |- *. apply fmap_is_Some in Hk as [s ->]. by eexists. }
  rewrite Hall. cbn [opt_or]. apply map_eq. intros k.
  rewrite (lookup_keyed (fun k => opt_or (assoc k m' ≫= as_str) "")), Ha.
  by destruct (m !! k).
Qed.

Lemma load_other path path' text d : path <> path' -> load_map path (<[path' := text]> d) = load_map path d.
Proof. intros Hne. unfold load_map. by rewrite lookup_insert_ne. Qed.

(** A write that is not cut short leaves the old contents or the new ones. *)
Definition whole (w : write_end) : bool := match w with CutShort => false | _ => true end.

Lemma save_map_cases w path m d d' r :
  whole w = true -> save_map w path m d = (d', r) ->
  d' = d \/ (d' = <[path := json_print (str_object (map_to_list m))]> d).
Proof. destruct w; intros Hw [= <- <-]; auto; done. Qed.

(** The other files are as before. *)
Lemma write_other w path text d path' :
  path' <> path -> (write_text w path text d).1 !! path' = d !! path'.
Proof. intros Hne. destruct w; simpl; by rewrite ?lookup_insert_ne. Qed.

Lemma save_map_other w path m d path' :
  path' <> path -> load_map path' (save_map w path m d).1 = load_map path' d.
Proof. intros Hne. unfold load_map, save_map. by rewrite write_other. Qed.
End home_props.

(** ** A well-formed home *)

(** A fingerprint as [add-contact] stores it. *)
Definition stored_fp (fp : string) : Prop :=
  32 <= slen fp /\ str_all is_ascii_hexdigit fp = true /\ to_uppercase fp = fp.

(** The secret of a contact is 64 bytes in hexadecimal. *)
Definition stored_secret `{Hex} (hex : string) : Prop := exists b, hex_decode hex = Some b /\ zlen b = 64.

Section well_formed.
Context `{JsonCodec} `{Sha2} `{Hex} `{Hmac} `{Blake2} `{Base64} `{Sequoia} `{!SequoiaSecret} `{Age} `{Kem} `{Aead} `{Hkdf}.

(** A command that changes the files, with how its writes end. *)
Inductive command : Type :=
| AddContact (w : write_end) (null_id fp : string)
| Alias (w : write_end) (alias null_id : string)
| Token (w : write_end) (fresh : bytes) (secs : Z) (recipient_nid : string) (message_id : Z)
| Init (w : init_io) (confirm : result string string) (password : result string string) (generated : result string cert).

Definition whole_command (c : command) : Prop :=
  match c with
  | AddContact w _ _ | Alias w _ _ => whole w = true
  | Token w fresh _ _ _ => whole w = true /\ bytes_ok fresh /\ length fresh = 64%nat
  | Init _ _ _ _ => True
  end.

Definition run_command (d : disk) (c : command) : disk :=
  match c with
  | AddContact w nid fp => (cmd_add_contact w nid fp d).1
  | Alias w a nid => (cmd_alias w a nid d).1
  | Token w fresh secs nid i => (generate_delivery_token w fresh secs nid i d).1
  | Init w confirm password generated => (cmd_init w confirm password generated d).1
  end.

Record home_wf (d : disk) : Prop := {
  wf_contacts nid fp : load_contacts d !! nid = Some fp -> stored_fp fp;
  wf_aliases a nid : load_aliases d !! a = Some nid -> is_Some (load_contacts d !! nid);
  wf_secrets nid hex : load_delivery_secrets d !! nid = Some hex -> stored_secret hex;
}.

Lemma home_wf_empty : home_wf ∅.
Proof.
  assert (E : forall p, load_map p ∅ = ∅) by (intros p; unfold load_map; by rewrite lookup_empty).
  split; unfold load_contacts, load_aliases, load_delivery_secrets; intros x y; rewrite !E, lookup_empty; done.
Qed.

Lemma ascii_upper_idem a : ascii_upper (ascii_upper a) = ascii_upper a.
Proof. destruct a as [[] [] [] [] [] [] [] []]; reflexivity. Qed.
Lemma ascii_upper_hex a : is_ascii_hexdigit a = true -> is_ascii_hexdigit (ascii_upper a) = true.
Proof. destruct a as [[] [] [] [] [] [] [] []]; (discriminate || reflexivity). Qed.

Lemma to_uppercase_idem s : to_uppercase (to_uppercase s) = to_uppercase s.
Proof. unfold to_uppercase. induction s as [|a s IH]; [done|]. simpl. by rewrite ascii_upper_idem, IH. Qed.

Lemma stored_fp_upper fp :
  (slen fp <? 32) || negb (str_all is_ascii_hexdigit fp) = false -> stored_fp (to_uppercase fp).
Proof.
  intros [Hl%Z.ltb_ge Ha%negb_false_iff]%orb_false_iff. split_and!.
  - unfold to_uppercase. by rewrite str_map_length.
  - clear Hl. induction fp as [|a s IH]; [done|]. simpl in Ha |- *. apply andb_true_iff in Ha as [Ha Hs].
    rewrite ascii_upper_hex by done. by apply IH.
  - apply to_uppercase_idem.
Qed.

Lemma add_contact_wf w nid fp d : whole w = true -> home_wf d -> home_wf (cmd_add_contact w nid fp d).1.
Proof.
  intros Hw [Hc Ha Hs]. unfold cmd_add_contact. destruct (_ || _) eqn:E; [done|].
  destruct (save_contacts w _ d) as [d' r] eqn:Es.
  apply (save_map_cases w CONTACTS_PATH _ _ _ _ Hw) in Es as [->| ->]; [done|].
  cbn [fst]. set (m := <[nid := to_uppercase fp]> (load_contacts d)).
  split; unfold load_contacts, load_aliases, load_delivery_secrets; intros x y;
    rewrite ?load_saved, ?(load_other ALIASES_PATH), ?(load_other DELIVERY_SECRETS_PATH) by done.
  - intros [[_ <-]|[_ Hx]]%lookup_insert_Some; [by apply stored_fp_upper|by eapply Hc].
  - intros Hx. unfold m. destruct (decide (nid = y)) as [->|]; [rewrite lookup_insert_eq; by eexists|].
    rewrite lookup_insert_ne by done. by eapply Ha.
  - apply Hs.
Qed.

Lemma alias_wf w a nid d : whole w = true -> home_wf d -> home_wf (cmd_alias w a nid d).1.
Proof.
  intros Hw [Hc Ha Hs]. unfold cmd_alias. case_bool_decide as Hn; [|done].
  destruct (save_aliases w _ d) as [d' r] eqn:Es.
  apply (save_map_cases w ALIASES_PATH _ _ _ _ Hw) in Es as [->| ->]; [done|]. cbn [fst].
  split; unfold load_contacts, load_aliases, load_delivery_secrets; intros x y;
    rewrite ?load_saved, ?(load_other CONTACTS_PATH), ?(load_other DELIVERY_SECRETS_PATH) by done.
  - apply Hc.
  - intros [[_ <-]|[_ Hx]]%lookup_insert_Some; [done|by eapply Ha].
  - apply Hs.
Qed.

Lemma secret_wf w fresh nid d :
  whole w = true -> bytes_ok fresh -> length fresh = 64%nat -> home_wf d ->
  home_wf (get_or_create_delivery_secret w fresh nid d).1.
Proof.
  intros Hw Hb Hl Hwf. unfold get_or_create_delivery_secret. destruct (load_delivery_secrets d !! nid) as [hex|].
  { destruct (hex_decode hex); [by destruct (negb _)|done]. }
  destruct (save_delivery_secrets w _ d) as [d' r] eqn:Es.
  apply (save_map_cases w DELIVERY_SECRETS_PATH _ _ _ _ Hw) in Es as [->| ->]; [done|]. cbn [fst].
  destruct Hwf as [Hc Ha Hs].
  split; unfold load_contacts, load_aliases, load_delivery_secrets; intros x y;
    rewrite ?load_saved, ?(load_other CONTACTS_PATH), ?(load_other ALIASES_PATH) by done.
  - apply Hc.
  - apply Ha.
  - intros [[_ <-]|[_ Hx]]%lookup_insert_Some; [|by eapply Hs].
    exists fresh. split; [by apply hex_decode_encode|]. unfold zlen. by rewrite Hl.
Qed.

(** ** Which files the calls write *)

Lemma touches_kyber_save W C {E} io nonce path key kp (err : CryptoError -> E) :
  path ∈ W ->
  touches W C (fun d => match Kyber.save io nonce path key kp d with
                        | (d', Ok _) => (d', Ok tt)
                        | (d', Err e) => (d', Err (err e))
                        end).
Proof.
  intros Hin d. unfold Kyber.save, write_file, st_bind, st_lift, st_guard, st_modify, st_ret, st_fail.
  destruct (file_key key); [|done]. destruct (ok_or _ _); [|done]. destruct io; [|done].
  apply touched_insert. by left.
Qed.

(** A key file that is there stays as it is. *)
Lemma touches_db_key W C w random : DB_KEY_PATH ∈ C -> touches W C (open_db_key w random).
Proof.
  intros Hin d. unfold open_db_key, load_or_create. destruct (d !! DB_KEY_PATH) as [text|] eqn:E; cbn [put_file].
  - intros p _ _. cbn. destruct (decide (p = DB_KEY_PATH)) as [->|]; [by rewrite lookup_insert_eq|by rewrite lookup_insert_ne].
  - destruct w; cbn; try done; apply touched_insert; by right.
Qed.

Lemma touches_db_key_sync W C w random : DB_KEY_PATH ∈ C -> touches W C (load_or_create_sync w random).
Proof.
  intros Hin d. unfold load_or_create_sync. pose proof (touches_db_key W C w random Hin d) as Ht.
  by destruct (open_db_key w random d) as [d' [key|e]].
Qed.

Lemma touches_save_map W C w path m : path ∈ W -> touches W C (save_map w path m).
Proof. apply touches_write. Qed.

Hint Extern 1 (touches _ _ (fun d => match Kyber.save _ _ _ _ _ d with _ => _ end)) =>
  apply touches_kyber_save; listed : footprint.
Hint Extern 1 (touches _ _ (open_db_key _ _)) => apply touches_db_key; listed : footprint.
Hint Extern 1 (touches _ _ (load_or_create_sync _ _)) => apply touches_db_key_sync; listed : footprint.

(** Without a passphrase the encrypted certificate stays as well. *)
Lemma touches_init_plain w generated :
  touches [CERT_ASC; KYBER_KEY_PATH; IDENTITY_PATH] [DB_KEY_PATH] (generate_identity w (Ok "") generated).
Proof.
  unfold generate_identity, save_identity. do 2 (apply touches_bind_lift; intros ? _; cbv zeta).
  apply touches_bind_lift. intros ? [= <-]. unfold keep_cert. cbn [str_is_empty]. touches.
Qed.

(** The identity is that of the certificate. *)
Lemma init_named w password crt d self :
  (generate_identity w password (Ok crt) d).2 = Ok self ->
  fingerprint self = to_uppercase (cert_fingerprint crt) /\
  ClientRelay.null_id self = compute_null_id (fingerprint self).
Proof.
  revert d self. change (yields (fun self => fingerprint self = to_uppercase (cert_fingerprint crt) /\
    ClientRelay.null_id self = compute_null_id (fingerprint self)) (generate_identity w password (Ok crt))).
  unfold generate_identity. eapply yields_bind; [apply yields_lift|]. intros c [= <-].
  repeat (eapply yields_bind; [apply yields_any|]; intros ? _). by apply yields_ret.
Qed.

Lemma touches_init w confirm password generated :
  touches [CERT_ASC; CERT_AGE; KYBER_KEY_PATH; IDENTITY_PATH] [DB_KEY_PATH] (cmd_init w confirm password generated).
Proof.
  assert (Hg : touches [CERT_ASC; CERT_AGE; KYBER_KEY_PATH; IDENTITY_PATH] [DB_KEY_PATH]
                 (generate_identity w password generated)).
  { unfold generate_identity, keep_cert, save_identity. touches. }
  unfold cmd_init. touches.
Qed.

Lemma home_wf_ext d d' :
  (forall p, p ∈ [CONTACTS_PATH; ALIASES_PATH; DELIVERY_SECRETS_PATH] -> d' !! p = d !! p) ->
  home_wf d -> home_wf d'.
Proof.
  intros He [Hc Ha Hs].
  split; unfold load_contacts, load_aliases, load_delivery_secrets, load_map in *; intros x y;
    rewrite ?(He CONTACTS_PATH), ?(He ALIASES_PATH), ?(He DELIVERY_SECRETS_PATH) by set_solver.
  - apply Hc.
  - apply Ha.
  - apply Hs.
Qed.

Lemma run_command_wf d c : whole_command c -> home_wf d -> home_wf (run_command d c).
Proof.
  destruct c as [w nid fp|w a nid|w fresh secs nid i|w confirm password generated]; cbn [whole_command run_command].
  - apply add_contact_wf.
  - apply alias_wf.
  - intros (Hw & Hb & Hl) Hwf. pose proof (secret_wf w fresh nid d Hw Hb Hl Hwf) as Hs.
    unfold generate_delivery_token, st_bind. destruct (get_or_create_delivery_secret _ _ _ _) as [d' [m|e]]; [|done].
    unfold st_get, st_lift, st_ret. by destruct (load_identity d').
  - intros _. apply home_wf_ext. intros p Hp. apply touches_init; [|left];
      revert p Hp; apply Forall_forall; listed.
Qed.

(** What is in a well-formed home can be used. *)
Lemma home_usable d :
  home_wf d ->
  (forall a nid, load_aliases d !! a = Some nid ->
     exists fp, contact_of a d = Ok (nid, fp) /\ stored_fp fp) /\
  (forall nid hex, load_delivery_secrets d !! nid = Some hex ->
     exists m, forall w fresh, get_or_create_delivery_secret w fresh nid d = (d, Ok m)).
Proof.
  intros Hwf. split.
  - intros a nid Ha. destruct (wf_aliases d Hwf a nid Ha) as [fp Hfp]. exists fp. unfold contact_of, resolve_recipient.
    rewrite Ha. cbn [opt_or]. rewrite Hfp. split; [done|]. by eapply wf_contacts.
  - intros nid hex Hx. destruct (wf_secrets d Hwf nid hex Hx) as (b & Hb & Hl). exists (mkMaster b).
    intros w fresh. unfold get_or_create_delivery_secret. by rewrite Hx, Hb, Hl.
Qed.

(** The home of a client stays well-formed.  Whatever commands are run on
    a fresh home, as long as no write is cut short, every contact has a
    fingerprint of at least 32 hexadecimal digits in upper case, every alias
    leads to a contact, so that the commands that take a name accept it, and
    every delivery secret can be read back. *)
Theorem home_stays_well_formed (cs : list command) :
  Forall whole_command cs ->
  let d := foldl run_command ∅ cs in
  home_wf d /\
  (forall a nid, load_aliases d !! a = Some nid ->
     exists fp, contact_of a d = Ok (nid, fp) /\ stored_fp fp) /\
  (forall nid hex, load_delivery_secrets d !! nid = Some hex ->
     exists m, forall w fresh, get_or_create_delivery_secret w fresh nid d = (d, Ok m)).
Proof.
  intros Hcs d. assert (Hwf : home_wf d).
  { unfold d. generalize home_wf_empty. generalize (∅ : disk). clear d.
    induction Hcs as [|c cs Hc _ IH]; intros d Hd; [done|]. cbn [foldl]. apply IH. by apply run_command_wf. }
  split; [done|by apply home_usable].
Qed.

(** A write of the contacts that is cut short loses all of them. *)
Lemma cut_short_loses_contacts nid fp d :
  json_parse "" = None -> 32 <= slen fp -> str_all is_ascii_hexdigit fp = true ->
  load_contacts (cmd_add_contact CutShort nid fp d).1 = ∅.
Proof.
  intros Hj Hl Ha. unfold cmd_add_contact. rewrite Ha. destruct (Z.ltb_spec (slen fp) 32); [lia|]. simpl.
  unfold load_contacts, load_map. by rewrite lookup_insert_eq, Hj.
Qed.

(** ** A second initialisation *)

(** An identity made again without a passphrase does not take the place
    of one that has one: the new identity and its certificate are written,
    but the certificate that is loaded is still the encrypted one of the old
    identity, so what the client signs is not verified by what it publishes. *)
Theorem reinit_keeps_old_cert (w : init_io) (old_pass old_armored enc : string) (crt old : cert)
    (d d' : disk) (self : ClientRelay.Identity) :
  old_pass <> "" -> str_ok old_armored -> encrypt_cert_armored old_armored old_pass = Ok enc -> cert_from_bytes old_armored = Ok old ->
  d !! CERT_AGE = Some enc ->
  cmd_init w (Ok "yes") (Ok "") (Ok crt) d = (d', Ok (Some self)) ->
  fingerprint self = to_uppercase (cert_fingerprint crt) /\
  load_cert (Ok old_pass) d' = Ok old /\
  (forall p, load_cert (Ok p) d' = Ok crt -> decrypt_cert_armored enc p <> Ok old_armored \/ crt = old).
Proof.
  intros Hp Hok Ha Ho Hd. unfold cmd_init, st_bind at 1 2, st_get, st_lift. cbn [plain rbind].
  change (String.eqb (trim "yes") "yes") with true.
  replace (if is_ok (load_identity d) then Ok true else Ok true) with (Ok (E := client_error) true)
    by (by destruct (is_ok _)). unfold st_bind, st_ret.
  pose proof (touches_init_plain w (Ok crt) d CERT_AGE ltac:(listed) ltac:(left; listed)) as Hage.
  destruct (generate_identity w (Ok "") (Ok crt) d) as [d1 [i|]] eqn:E; [|done]. intros [= <- <-].
  split; [apply (init_named w (Ok "") crt d); by rewrite E|].
  change (d1 !! CERT_AGE = d !! CERT_AGE) in Hage. rewrite Hd in Hage. unfold load_cert. rewrite Hage. cbn [plain rbind]. split.
  - destruct (str_is_empty old_pass) eqn:Ee; [by destruct old_pass|].
    rewrite (decrypt_encrypt_cert _ _ _ Hok Ha). cbn [plain rbind]. unfold parse_cert. by rewrite Ho.
  - intros p. destruct (str_is_empty p); [done|]. destruct (decrypt_cert_armored enc p) as [t|]; [|by left].
    cbn [plain rbind]. intros Ht. destruct (decide (t = old_armored)) as [->|Hne]; [|left; congruence].
    right. unfold parse_cert in Ht. rewrite Ho in Ht. by injection Ht.
Qed.

(** ** The safety number *)

Lemma sort2_comm a b : sort2 a b = sort2 b a.
Proof.
  unfold sort2. destruct (String.leb a b) eqn:E1, (String.leb b a) eqn:E2; try done.
  - by rewrite (String.leb_antisym _ _ E1 E2).
  - destruct (String.leb_total a b); congruence.
Qed.

Lemma filter_app p s t : str_filter p (s +:+ t) = str_filter p s +:+ str_filter p t.
Proof. induction s as [|a s IH]; [done|]. rewrite str_app_cons. simpl. rewrite IH. by destruct (p a). Qed.

Lemma filter_id p s : str_all p s = true -> str_filter p s = s.
Proof.
  induction s as [|a s IH]; [done|]. simpl. intros [Ha Hs]%andb_true_iff. by rewrite Ha, IH.
Qed.

Lemma take_drop_app n s : str_take n s +:+ str_drop n s = s.
Proof. revert s. induction n as [|n IH]; intros s; [done|]. destruct s as [|a s]; [done|].
  cbn [str_take str_drop]. rewrite str_app_cons. f_equal. apply IH.
Qed.

Lemma str_drop_drop a b s : str_drop a (str_drop b s) = str_drop (b + a) s.
Proof. revert s. induction b as [|b IH]; intros s; [done|]. destruct s as [|c s]; [by destruct a|]. apply IH. Qed.

Lemma str_take_all n s : slen s <= Z.of_nat n -> str_take n s = s.
Proof.
  unfold slen. revert s. induction n as [|n IH]; intros [|a s]; cbn [String.length str_take]; intros Hs; [done|done|done|].
  f_equal. apply IH. lia.
Qed.

(** Nothing of the digest is left out of the groups. *)
Lemma grouped_spec h :
  slen h = 64 -> no_char " "%char h = true -> remove_spaces (grouped h) = h /\ slen (grouped h) = 71.
Proof.
  intros Hl Hs. split.
  - assert (Hsl : forall a n, remove_spaces (str_slice a n h) = str_slice a n h)
      by (intros a n; apply filter_id, str_all_slice, Hs).
    unfold grouped, remove_spaces in *. rewrite !filter_app, !Hsl.
    assert (Hsp : forall x, str_filter (fun a => negb (Ascii.eqb a " "%char)) " " +:+ x = x) by done.
    rewrite !Hsp. unfold str_slice.
    assert (Hj : forall a b, b = (a + 8)%nat -> str_take 8 (str_drop a h) +:+ str_drop b h = str_drop a h).
    { intros a b ->. rewrite <- (str_drop_drop 8 a h). apply take_drop_app. }
    rewrite (str_take_all 8 (str_drop 56 h)) by (rewrite str_drop_length; lia).
    rewrite (Hj 48%nat 56%nat), (Hj 40%nat 48%nat), (Hj 32%nat 40%nat), (Hj 24%nat 32%nat), (Hj 16%nat 24%nat),
      (Hj 8%nat 16%nat) by reflexivity. exact (Hj 0%nat 8%nat eq_refl).
  - unfold grouped. rewrite !slen_app, !str_slice_length by (rewrite Hl; vm_compute; discriminate). reflexivity.
Qed.

(** The safety number of two fingerprints is the same at both ends and in any
    case, and shows the whole digest of the pair: equal numbers are equal
    digests. *)
Lemma safety_number_spec (fp1 fp2 : string) :
  safety_number fp1 fp2 = safety_number fp2 fp1 /\
  safety_number (to_uppercase fp1) fp2 = safety_number fp1 fp2 /\
  slen (safety_number fp1 fp2) = 71 /\
  remove_spaces (safety_number fp1 fp2) =
    (let (a, b) := sort2 (to_uppercase fp1) (to_uppercase fp2) in sha256_hex (a +:+ "|" +:+ b)).
Proof.
  unfold safety_number. rewrite to_uppercase_idem, (sort2_comm (to_uppercase fp2)).
  split; [done|]. split; [done|]. destruct (sort2 _ _) as [a b]. set (h := sha256_hex (a +:+ "|" +:+ b)).
  destruct (grouped_spec h) as [E1 E2]; [| |done].
  - unfold h, sha256_hex. rewrite hex_encode_length. unfold zlen. by rewrite sha256_length.
  - unfold h, sha256_hex, no_char. eapply str_all_impl; [|apply hex_encode_digits].
    intros c Hc. apply negb_true_iff, Ascii.eqb_neq. by intros ->.
Qed.
End well_formed.

(** ** The server chosen *)

Lemma srv_le_total a b : srv_le a b = false -> srv_le b a = true.
Proof.
  unfold srv_le. rewrite orb_false_iff, orb_true_iff, !andb_true_iff, andb_false_iff.
  rewrite !Z.ltb_ge, !Z.ltb_lt, !Z.eqb_neq, !Z.eqb_eq, !Z.leb_gt, !Z.leb_le. lia.
Qed.

Lemma srv_le_trans a b c : srv_le a b = true -> srv_le b c = true -> srv_le a c = true.
Proof.
  unfold srv_le. rewrite !orb_true_iff, !andb_true_iff, !Z.ltb_lt, !Z.eqb_eq, !Z.leb_le. lia.
Qed.

Lemma srv_insert_spec a l x : x ∈ srv_insert a l <-> x = a \/ x ∈ l.
Proof.
  induction l as [|b l IH]; simpl; [by rewrite elem_of_cons|].
  destruct (srv_le a b); rewrite !elem_of_cons; [done|]. rewrite IH. tauto.
Qed.

Lemma srv_head l : l <> [] -> exists b, head (srv_sort l) = Some b /\ b ∈ l /\ forall x, x ∈ l -> srv_le b x = true.
Proof.
  assert (Hrefl : forall a, srv_le a a = true).
  { intros a. unfold srv_le. rewrite Z.eqb_refl, Z.leb_refl. apply orb_true_r. }
  induction l as [|a l IH]; [done|]. intros _. destruct l as [|a' l].
  - exists a. split; [done|]. split; [by left|]. intros x ->%list_elem_of_singleton. apply Hrefl.
  - destruct IH as (b & Hb & Hin & Hall); [done|]. cbn [srv_sort] in *. set (s := srv_insert a' (srv_sort l)) in *.
    destruct s as [|b0 s]; [done|]. injection Hb as ->. cbn [srv_insert]. destruct (srv_le a b) eqn:E.
    + exists a. split; [done|]. split; [by left|]. intros x [->|Hx]%elem_of_cons; [apply Hrefl|].
      eapply srv_le_trans; [exact E|by apply Hall].
    + exists b. split; [done|]. split; [by right|]. intros x [->|Hx]%elem_of_cons; [|by apply Hall].
      by apply srv_le_total.
Qed.

(** The server chosen has the least priority, and the greatest weight among
    those of its priority. *)
Lemma query_srv_best l :
  l <> [] ->
  exists b, b ∈ l /\ query_srv (Some l) = Some ("wss://" +:+ trim_end "."%char (target b) +:+ ":" +:+ pretty (port b)) /\
    forall x, x ∈ l -> priority b < priority x \/ (priority b = priority x /\ weight x <= weight b).
Proof.
  intros Hl. destruct (srv_head l Hl) as (b & Hb & Hin & Hall). exists b. split; [done|]. split.
  - unfold query_srv. simpl. by rewrite Hb.
  - intros x Hx. specialize (Hall x Hx). unfold srv_le in Hall.
    rewrite orb_true_iff, andb_true_iff, Z.ltb_lt, Z.eqb_eq, Z.leb_le in Hall. lia.
Qed.

(** ** Concrete homes *)

(** Encryption that writes the passphrase in front of the text. *)
Definition toy_age : Age.
Proof.
  refine {| age_seal := fun pass text => Ok (str_bytes (pass +:+ ":") ++ text);
            age_open := fun pass b =>
              let p := str_bytes (pass +:+ ":") in
              if bool_decide (take (length p) b = p) then Ok (drop (length p) b) else Err "passphrase" |}.
  intros pass text b Ht [= <-]. split; [apply Forall_app; split; [apply str_bytes_ok|done]|].
  cbv zeta. rewrite take_app_length, drop_app_length. by rewrite bool_decide_true.
Defined.

#[local] Existing Instances toy_json toy_sha2 toy_hex toy_hmac toy_blake2 toy_base64 toy_sequoia toy_secret toy_age
  toy_kem toy_aead toy_hkdf.

Definition friend_fp : string := "aabbccddeeff00112233445566778899".

Theorem home_stays_well_formed_witness :
  let cs := [AddContact Written "NN-1" friend_fp; Alias Written "bob" "NN-1"; Alias Written "eve" "NN-2";
             Token Written (replicate 64 5) 7 "NN-1" 1] in
  let d := foldl run_command ∅ cs in
  home_wf d /\ contact_of "bob" d = Ok ("NN-1", to_uppercase friend_fp) /\ is_ok (contact_of "eve" d) = false.
Proof.
  intros cs d. destruct (home_stays_well_formed cs) as (Hwf & _ & _).
  - apply Forall_cons; split; [reflexivity|]. apply Forall_cons; split; [reflexivity|].
    apply Forall_cons; split; [reflexivity|]. apply Forall_cons; split; [|constructor].
    split; [reflexivity|]. split; [apply (bool_decide_unpack _); vm_compute; exact I|reflexivity].
  - split; [exact Hwf|]. split; vm_compute; reflexivity.
Defined.

Definition calm_init : init_io := mkInitIo Written true Written (replicate 12 1) Written (replicate 32 1).

Theorem reinit_keeps_old_cert_witness :
  let d := <[CERT_AGE := "pw:CERT:OLD"]> ∅ in
  exists d' self, cmd_init calm_init (Ok "yes") (Ok "") (Ok ("NEW" : @cert toy_sequoia)) d = (d', Ok (Some self)) /\
    fingerprint self = "NEW" /\ load_cert (Ok "pw") d' = Ok ("OLD" : @cert toy_sequoia).
Proof.
  intros d.
  destruct (cmd_init calm_init (Ok "yes") (Ok "") (Ok ("NEW" : @cert toy_sequoia)) d) as [d' r] eqn:E.
  assert (Hr : match r with Ok (Some self) => fingerprint self = "NEW" | _ => False end).
  { change r with (d', r).2. rewrite <- E. vm_compute. reflexivity. }
  destruct r as [[self|]|]; [|destruct Hr|destruct Hr]. exists d', self. split; [reflexivity|].
  destruct (reinit_keeps_old_cert calm_init "pw" "CERT:OLD" "pw:CERT:OLD" ("NEW" : @cert toy_sequoia)
    ("OLD" : @cert toy_sequoia) d d' self) as (Hf & Hl & _).
  - discriminate.
  - reflexivity.
  - reflexivity.
  - reflexivity.
  - reflexivity.
  - exact E.
  - split; [exact Hr|exact Hl].
Defined.
