(* ===== verification/ClientDht.v ===== *)
(** * The client and the DHT (src/client/src/main.rs)

    Looking up a Null ID, registering one, and the private lookup, over a
    connection to a server: a value that answers each text sent with the frames
    that arrive because of it.  Frames not yet read wait in a buffer.  Random
    identifiers, clocks, the signer and the outcome of the blocking task are
    arguments. *)

From S2P Require Import Prelude Text Primitives Concrete Constants RateLimit DhtStore DhtNode.
From S2P Require Import Json Gpg Pow Identity Envelope CertCache Pir Padding ClientStore ClientRelay.
From S2P Require Import WireText Handshake.
From S2P Require Threads DhtStart DhtThreads DhtSchedules.

(** ** The connection *)

(** [s.replace(from, to)] for a non-empty [from]: occurrences from the left. *)
Fixpoint replace_go (fuel : nat) (from to s : string) : string :=
  match fuel, s with
  | O, _ | _, EmptyString => s
  | S f, String a s' =>
      match strip_prefix from s with
      | Some rest => to +:+ replace_go f from to rest
      | None => String a (replace_go f from to s')
      end
  end.
Definition str_replace (from to s : string) : string := replace_go (String.length s) from to s.

(** Source: client/src/main.rs:1025-1028, dht_lookup. *)
Definition ws_url (seed_url : string) : string :=
  str_replace "https://" "wss://" (str_replace "http://" "ws://" seed_url).

(** A server with its state: a connection to a URL, and a text. *)
Class Server (S : Type) := {
  srv_connect : string -> S -> S * result string unit;
  srv_say : string -> S -> S * result string (list relay_frame);
}.

Section connection.
Context {S : Type} `{Server S}.

(** The server, and the frames that have arrived. *)
Abbreviation link := (st (S * list relay_frame) client_error).

(** Source: client/src/main.rs:506-521, ws_connect. *)
Definition ws_connect (what url : string) : link unit := fun '(s, _) =>
  match srv_connect url s with
  | (s', Ok _) => ((s', []), Ok tt)
  | (s', Err e) => ((s', []), Err (Plain (what +:+ "WebSocket connect failed: " +:+ e)))
  end.

Definition ws_send (what text : string) : link unit := fun '(s, b) =>
  match srv_say text s with
  | (s', Ok fs) => ((s', b ++ fs), Ok tt)
  | (s', Err e) => ((s', b), Err (Plain (what +:+ e)))
  end.

(** [ws.next().await]: [None] when the stream has ended. *)
Definition ws_next : link (option relay_frame) := fun '(s, b) =>
  match b with [] => ((s, []), Ok None) | f :: b' => ((s, b'), Ok (Some f)) end.

(** What a call of these functions finds around it. *)
Record dht_env : Type := mkDhtEnv {
  e_id : nat -> Z;                              (* uuid_hex *)
  e_secs : nat -> Z;                            (* Utc::now().timestamp() *)
  e_sign : string -> result string string;      (* sign_data with our certificate *)
  e_tsk : result string string;                 (* as_tsk().armored() as text *)
  e_join : result string unit;                  (* the blocking task *)
  e_masks : nat -> bytes;                       (* PIR masks *)
  e_public : bytes;                             (* PIR ephemeral key *)
}.

Context `{WireCodec} `{Format} `{JsonCodec} `{Argon2} `{Sha2} `{Base64}.

(** An envelope of this client. Source: client/src/main.rs:1041-1051, dht_lookup. *)
Definition client_envelope (x : dht_env) (k : nat) (t sig : string) (m : list (string * value))
  : WireEnvelope :=
  mkWireEnvelope t (VObject m) (Envelope.uuid_hex (e_id x k)) (f64_of_Z (e_secs x k)) sig.

(** ** Lookup *)

(** Source: client/src/main.rs:1033-1034, dht_lookup. *)
Definition get_sign_data (null_id : string) : string :=
  "dht-get:" +:+ fmt_value (VObject [("key", VString null_id)]) +:+ String (Ascii.ascii_of_nat 10) "".

(** The one frame that is read, whatever it is.
    Source: client/src/main.rs:1057-1068, dht_lookup. *)
Definition read_found : link string :=
  do fr <- ws_next;
  match fr with
  | Some (RText resp_text) =>
      do resp <- st_lift (plain (from_json resp_text));
      let address := opt_or (payload_str resp "value") "" in
      if String.eqb (msg_type resp) "dht-found" && negb (str_is_empty address)
      then st_ret address else st_fail (Plain "recipient not found in DHT")
  | _ => st_fail (Plain "recipient not found in DHT")
  end.

(** The certificate is that of [load_cert].
    Source: client/src/main.rs:1020-1068, dht_lookup. *)
Definition dht_lookup (x : dht_env) (our_cert : result client_error unit) (seed_url null_id : string)
  : link string :=
  do! ws_connect "DHT connect failed: " (ws_url seed_url);
  do! st_lift our_cert;
  do sig <- st_lift (match e_sign x (get_sign_data null_id) with
                     | Ok s => Ok s | Err e => Err (Plain ("sign failed: " +:+ e)) end);
  do! ws_send "DHT send failed: "
        (to_json (client_envelope x 0 "dht-get" sig [("key", VString null_id)]));
  read_found.

(** ** Registration *)

(** Pings are skipped, ten frames at most are read.
    Source: client/src/main.rs:1106-1129, dht_register. *)
Fixpoint await_check (n : nat) : link bool :=
  match n with
  | O => st_ret false
  | Datatypes.S n' =>
      do fr <- ws_next;
      match fr with
      | Some (RText resp_text) =>
          st_ret (match from_json resp_text with
                  | Ok resp => String.eqb (msg_type resp) "dht-found"
                  | Err _ => false
                  end)
      | Some (RPing | RPong | ROther) => await_check n'
      | Some RClose | Some (RError _) | None => st_ret false
      end
  end.

(** Source: client/src/main.rs:1089-1131, dht_register. *)
Definition check_registered (x : dht_env) (null_id : string) : link bool :=
  do! ws_send "DHT check send failed: "
        (to_json (client_envelope x 0 "dht-get" "" [("key", VString null_id)]));
  await_check 10.

(** [Display] of a [PowError]. Source: protocol/src/pow.rs:33-44, PowError. *)
Definition pow_error_text (e : PowError) : string :=
  match e with
  | Argon2Params e => "Argon2id parameter error: " +:+ e
  | Argon2Hash e => "Argon2id hashing error: " +:+ e
  | DifficultyTooHigh => "PoW difficulty too high - no valid nonce found within max attempts"
  | DifficultyTooLow d m =>
      "PoW difficulty " +:+ pretty d +:+ " is below minimum allowed (" +:+ pretty m +:+ ")"
  end.

Definition REGISTER_ATTEMPTS : Z := 10000000.

(** Source: client/src/main.rs:1137-1163, dht_register. *)
Definition register_pow (x : dht_env) (null_id value salt : string) (seq : Z)
  : result client_error Z :=
  let pow_difficulty := if seq =? 0 then 8 else DHT_POW_DIFFICULTY in
  let? _ := match e_join x with
            | Ok _ => Ok tt
            | Err e => Err (Plain ("DHT register: task join error: " +:+ e))
            end in
  match pow_solve (null_id +:+ value +:+ salt +:+ pretty seq) pow_difficulty REGISTER_ATTEMPTS [] with
  | Ok (Some n) => Ok n
  | Ok None => Err (Plain "DHT register: could not solve PoW in time (exhausted attempts)")
  | Err e => Err (Plain ("DHT register: PoW error: " +:+ pow_error_text e))
  end.

(** Source: client/src/main.rs:1184-1194, dht_register. *)
Definition put_members (null_id fp salt : string) (seq nonce : Z) (cert_armored : string)
  : list (string * value) :=
  [("key", VString null_id); ("value", VString fp); ("salt", VString salt); ("seq", json_int seq);
   ("nonce", json_int nonce); ("publisher_fp", VString fp); ("publisher_cert", VString cert_armored)].

(** The request to publish. Source: client/src/main.rs:1134-1195, dht_register. *)
Definition put_request (x : dht_env) (self : ClientRelay.Identity) (registered : bool)
  : result client_error WireEnvelope :=
  let nid := ClientRelay.null_id self in
  let fp := fingerprint self in
  let seq := if registered then e_secs x 1 else 0 in
  let salt := Envelope.uuid_hex (e_id x 1) in
  let? pow_nonce := register_pow x nid fp salt seq in
  let? sig := match e_sign x (put_sign_data nid fp salt seq pow_nonce) with
              | Ok s => Ok s | Err e => Err (Plain ("sign failed: " +:+ e)) end in
  let? cert_armored := match e_tsk x with
                       | Ok t => Ok t | Err e => Err (Plain ("cert serialize failed: " +:+ e)) end in
  Ok (client_envelope x 2 "dht-put" sig (put_members nid fp salt seq pow_nonce cert_armored)).

(** Source: client/src/main.rs:1201-1214, dht_register. *)
Definition read_registered : link unit :=
  do fr <- ws_next;
  match fr with
  | Some (RText resp_text) =>
      do resp <- st_lift (match from_json resp_text with
                          | Ok r => Ok r
                          | Err e => Err (Plain ("DHT register: bad response: " +:+ e)) end);
      if String.eqb (msg_type resp) "dht-found" then st_ret tt
      else st_fail (Plain ("DHT register failed: " +:+ msg_type resp +:+ " (" +:+
                           fmt_value (payload resp) +:+ ")"))
  | _ => st_fail (Plain "DHT register failed: server closed connection")
  end.

(** Source: client/src/main.rs:1070-1209, dht_register. *)
Definition dht_register (x : dht_env) (seed_url : string) (self : ClientRelay.Identity) : link unit :=
  do! ws_connect "DHT connect failed: " (ws_url seed_url);
  do registered <- check_registered x (ClientRelay.null_id self);
  do req <- st_lift (put_request x self registered);
  do! ws_send "DHT send failed: " (to_json req);
  read_registered.

(** ** Private lookup *)

(** Source: client/src/main.rs:1228-1232, pir_dht_lookup. *)
Definition pir_hash (null_id : string) : bytes :=
  sha256 (str_bytes "pir-fp-hash-v1:" ++ str_bytes null_id).

(** Source: client/src/main.rs:1247-1252, pir_dht_lookup. *)
Definition pir_query (x : dht_env) (i : nat) (q : PirQueryToken) : value :=
  VObject [("type", VString "pir-query"); ("bin_index", json_int (bin_index q));
           ("ephemeral_pk", VString (b64_encode (client_pk q)));
           ("nonce", VString (Envelope.uuid_hex (e_id x (3 + i))))].

(** The address in an entry. Source: client/src/main.rs:1279-1285, pir_dht_lookup. *)
Definition entry_address (e : PirContactEntry) : string :=
  trim_end NUL (bytes_str (utf8_lossy (drop 32 (metadata e)))).

(** One answer: [None] to go on with the next query.
    Source: client/src/main.rs:1262-1290, pir_dht_lookup. *)
Definition pir_answer (q : PirQueryToken) (fp_hash : bytes) (fr : relay_frame)
  : result client_error (option string) :=
  match fr with
  | RText resp_text =>
      let? resp_json := ok_or (json_parse resp_text) (Plain "json") in
      if negb (bool_decide (Json.get resp_json "type" ≫= as_str = Some "pir-response")) then Ok None
      else
          let? b64 := ok_or (Json.get resp_json "bin_data" ≫= as_str)
                        (Plain "missing bin_data in PIR response") in
          let? data := ok_or (b64_decode b64) (Plain "PIR bin_data decode") in
          let r := mkResponse data (replicate 32 0) (replicate 8 0) in
          Ok (entry ← process_response r (xor_mask q) fp_hash;
              let addr := entry_address entry in
              if str_is_empty addr then None else Some addr)
  | _ => Ok None
  end.

(** Source: client/src/main.rs:1244-1291, pir_dht_lookup. *)
Fixpoint pir_queries (x : dht_env) (i : nat) (fp_hash : bytes) (qs : list PirQueryToken)
  : link (option string) :=
  match qs with
  | [] => st_ret None
  | q :: qs' =>
      do! ws_send "PIR query send failed: " (json_print (pir_query x i q));
      do fr <- ws_next;
      match fr with
      | None => st_fail (Plain "PIR DHT connection closed")
      | Some (RError e) => st_fail (Plain ("PIR DHT read failed: " +:+ e))
      | Some fr =>
          do a <- st_lift (pir_answer q fp_hash fr);
          match a with
          | Some addr => st_ret (Some addr)
          | None => pir_queries x (Datatypes.S i) fp_hash qs'
          end
      end
  end.

(** Source: client/src/main.rs:1211-1301, pir_dht_lookup. *)
Definition pir_dht_lookup (x : dht_env) (our_cert : result client_error unit)
    (seed_url null_id : string) : link string :=
  let fp_hash := pir_hash null_id in
  let queries := query_contact (e_masks x) (e_public x) fp_hash in
  do! ws_connect "PIR DHT connect failed: " (ws_url seed_url);
  do result <- pir_queries x 0 fp_hash queries;
  match result with
  | Some addr => st_ret addr
  | None => dht_lookup x our_cert seed_url null_id
  end.
End connection.

(** ** A node of the DHT as the server

    The node with the session of the connection, the surroundings of each
    request to come, and how many requests were made. *)
Record peer_node : Type := mkPeerNode { pn_session : DhtNode.session; pn_count : nat }.

Definition pn_store (p : peer_node) : DhtStore := store (s_node (pn_session p)).
Definition pn_seen (p : peer_node) : gmap string (gset Z) := seen_nonces (s_node (pn_session p)).

Section node_server.
Context `{Sequoia} `{Base64} `{Blake2} `{Argon2} `{HashOrder (list f64)} `{WireCodec}.
Variables (node_fingerprint : string) (ip : string) (ctx : nat -> context).

(** A connection that the limiter of its address lets in starts a session. *)
Definition node_connect (_ : string) (p : peer_node) : peer_node * result string unit :=
  let x := ctx (pn_count p) in
  let n := s_node (pn_session p) in
  let (l', ok) := RateLimit.allow (x_limit_now x) ip (conn_limiter n) in
  let n' := set_conn_limiter n l' in
  (mkPeerNode (DhtNode.mkSession n' 0 [] []) (S (pn_count p)),
   if (ok : bool) then Ok tt else Err "connection closed").

(** A text is answered by the envelopes that [handle_text] sends. *)
Definition node_say (text : string) (p : peer_node) : peer_node * result string (list relay_frame) :=
  let s := pn_session p in
  let s' := handle_text node_fingerprint false ip (ctx (pn_count p)) text s in
  (mkPeerNode s' (S (pn_count p)),
   Ok ((fun e => RText (to_json e)) <$> drop (length (s_sent s)) (s_sent s'))).

Definition node_server : Server peer_node := {| srv_connect := node_connect; srv_say := node_say |}.
End node_server.

(** ** What the node answers *)

Section answers.
Context `{Sequoia} `{Base64} `{Blake2} `{Argon2} `{HashOrder (list f64)} `{WireCodec}.
Variables (node_fingerprint : string) (ip : string).
Abbreviation text := (handle_text node_fingerprint false ip).

(** No row, or one that has expired. *)
Definition unseen (x : context) (key : string) (s : DhtStore) : Prop :=
  forall r, kv_store s !! key = Some r -> f64_gtb (expires_at r) (x_store_now x) = false.

(** Such a row is not found. *)
Lemma get_unseen x e n :
  unseen x (str_of e "key") (store n) -> exists k m, handle_get false x e n = dht_error x k m.
Proof.
  intros Hu. unfold handle_get. destruct (validate_null_id _); cbn [negb]; [|eauto].
  unfold DhtStore.get, st_bind, await, st_guard, st_get, st_ret, st_fail.
  destruct (x_io x QSelect); cbn [snd]; [|eauto].
  destruct (kv_store (store n) !! _) as [r|] eqn:Er; [|eauto]. rewrite (Hu r Er). eauto.
Qed.

Lemma put_reply x e n :
  (exists k m, (handle_put node_fingerprint x e n).2 = dht_error x k m) \/
  msg_type (handle_put node_fingerprint x e n).2 = "dht-found".
Proof.
  unfold handle_put. destruct (put_refusal _ _ _ _); [left; cbn [snd]; eauto|].
  destruct (verify_dht_put_signature _ _ _ _ _ _) as [c' [|]]; cbn [negb]; [|left; cbn [snd]; eauto].
  destruct (put _ _ _ _ _) as [s' [[|]|]]; cbn [snd]; [by right|left; eauto..].
Qed.

(** What a refused text leaves: the store, and one more error to be sent. *)
Definition refused (x : context) (s s' : DhtNode.session) : Prop :=
  store (s_node s') = store (s_node s) /\ seen_nonces (s_node s') = seen_nonces (s_node s) /\
  exists k m, s_sent s' = s_sent s ++ [dht_error x k m].

(** Asking for such a row leaves the store alone and is answered by an error,
    whatever else happens. *)
Lemma text_get_unseen x raw e s :
  from_json raw = Ok e -> msg_type e = "dht-get" ->
  unseen x (str_of e "key") (store (s_node s)) -> refused x s (text x raw s).
Proof.
  intros He Ht Hu. unfold refused, handle_text. rewrite He. destruct (stale x e); [simpl; eauto|].
  unfold dispatch. rewrite Ht. cbn [String.eqb Ascii.eqb Bool.eqb].
  destruct (allow _ _ _) as [l [|]]; cbn [negb]; [|simpl; eauto].
  destruct (get_unseen x e (set_get_limiter (s_node s) l) Hu) as (k & m & ->). simpl; eauto.
Qed.

(** A put whose sequence number is not above the stored one is refused, whatever
    else is wrong with it, and the store is as before. *)
Lemma text_put_old x raw e s r :
  from_json raw = Ok e -> msg_type e = "dht-put" ->
  kv_store (store (s_node s)) !! str_of e "key" = Some r -> int_of e "seq" 0 <= DhtStore.seq r ->
  refused x s (text x raw s).
Proof.
  intros He Ht Hr Hs. unfold refused, handle_text. rewrite He. destruct (stale x e); [simpl; eauto|].
  unfold dispatch. rewrite Ht. cbn [String.eqb Ascii.eqb Bool.eqb].
  pose proof (put_reply x e (s_node s)) as Hrep.
  destruct (handle_put _ x e (s_node s)) as [n' rep] eqn:Ep.
  apply handle_put_cases in Ep as [(Hm & Hst & Hsn)|(_ & _ & _ & (_ & _ & Ha) & _)].
  - destruct Hrep as [(k & m & E)|E]; cbn [snd] in E; [subst rep; simpl; eauto|congruence].
  - specialize (Ha r Hr). simpl in Ha. lia.
Qed.
End answers.

(** ** What each end reads *)

Section reading.
Context `{WireCodec} `{JsonCodec} `{!WireText} `{!WireLaws}.

Definition env_ok (x : dht_env) : Prop := forall k, 0 <= e_secs x k < 2 ^ 53.

(** An envelope of the client, as the node reads it. *)
Lemma client_read x k t sg m :
  env_ok x -> NoDup m.*1 -> Forall (fun kv => flat kv.2) m ->
  exists e, from_json (to_json (client_envelope x k t sg m)) = Ok e /\ msg_type e = t /\
    ts e = f64_of_Z (e_secs x k) /\ Envelope.sig e = sg /\
    forall k', payload_field e k' = assoc k' m.
Proof.
  intros Hx Hnd Hf.
  destruct (wire_read (client_envelope x k t sg m) m (e_secs x k)) as (e & ? & ? & ? & ? & ?);
    [|by exists e]. split; [done|]. split; [done|]. split; [done|]. split; [done|apply Hx].
Qed.

(** The time of a reply comes from the clock: it is a number. *)
Definition clock_ok (x : context) : Prop := f64_finite (x_reply_now x) = true.

Lemma error_read x k m :
  clock_ok x -> exists e, from_json (to_json (dht_error x k m)) = Ok e /\ msg_type e = "dht-error".
Proof.
  intros Hc. destruct (from_json_to_json (dht_error x k m) [("key", VString k); ("message", VString m)])
    as (e & He & Ht & _); [done|by apply (bool_decide_eq_true_1 _)|by repeat constructor|done|].
  by exists e.
Qed.

Lemma found_read x k v s q :
  clock_ok x -> 0 <= q < 2 ^ 64 ->
  exists e, from_json (to_json (dht_found x k v s q)) = Ok e /\ msg_type e = "dht-found" /\
    payload_str e "value" = Some v.
Proof.
  intros Hc Hq.
  destruct (from_json_to_json (dht_found x k v s q)
    [("key", VString k); ("value", VString v); ("salt", VString s); ("seq", json_int q)])
    as (e & He & Ht & Hp); [done|by apply (bool_decide_eq_true_1 _)| |done|].
  - apply Forall_cons_2; [exact I|]. apply Forall_cons_2; [exact I|]. apply Forall_cons_2; [exact I|].
    apply Forall_cons_2; [by apply flat_json_int|done].
  - exists e. split_and!; [done|done|]. unfold payload_str. by rewrite Hp.
Qed.
End reading.

(** ** Registering *)

Section registering.
Context `{Sequoia} `{Base64} `{Blake2} `{Argon2} `{HashOrder (list f64)} `{WireCodec} `{JsonCodec}.
Context `{!WireText} `{!WireLaws} `{Format} `{Sha2}.
Variables (node_fingerprint : string) (ip : string) (ctx : nat -> context).

#[local] Instance registering_server : Server peer_node := node_server node_fingerprint ip ctx.

Abbreviation say := (handle_text node_fingerprint false ip).

(** A text that the node refuses reaches the client as one error. *)
Lemma send_refused what raw p b :
  refused (ctx (pn_count p)) (pn_session p) (say (ctx (pn_count p)) raw (pn_session p)) ->
  exists p' k m, ws_send what raw (p, b) =
      ((p', b ++ [RText (to_json (dht_error (ctx (pn_count p)) k m))]), Ok tt) /\
    pn_store p' = pn_store p /\ pn_seen p' = pn_seen p /\ pn_count p' = S (pn_count p).
Proof.
  intros (Hs & Hn & k & m & Hr). eexists _, k, m. split.
  - unfold ws_send. cbn [srv_say registering_server node_server]. unfold node_say.
    rewrite Hr, drop_app_length. done.
  - split; [exact Hs|]. split; [exact Hn|done].
Qed.

Lemma pow_nonce_range data d n :
  pow_solve data d REGISTER_ATTEMPTS [] = Ok (Some n) ->
  0 <= n < REGISTER_ATTEMPTS /\ pow_check data n d [] = Ok true.
Proof.
  unfold pow_solve. destruct (_ <? _) eqn:Ed; [done|]. destruct pow_params as [[]|] eqn:Ep; [|done].
  cbn [rbind]. intros Hs. pose proof (pow_search_spec (Z.to_nat REGISTER_ATTEMPTS) data d [] 0 Ed Ep) as Hp.
  rewrite Hs in Hp. rewrite Z2Nat.id in Hp by done. destruct Hp as (? & ? & _). done.
Qed.

(** What a request to publish is made of. *)
Lemma put_request_ok x self reg e :
  put_request x self reg = Ok e ->
  let nid := ClientRelay.null_id self in
  let seq := if (reg : bool) then e_secs x 1 else 0 in
  exists nonce sg tsk,
    e = client_envelope x 2 "dht-put" sg
          (put_members nid (fingerprint self) (Envelope.uuid_hex (e_id x 1)) seq nonce tsk) /\
    0 <= nonce < REGISTER_ATTEMPTS /\ e_tsk x = Ok tsk /\
    e_sign x (put_sign_data nid (fingerprint self) (Envelope.uuid_hex (e_id x 1)) seq nonce) = Ok sg /\
    pow_check (put_pow_data nid (fingerprint self) (Envelope.uuid_hex (e_id x 1)) seq) nonce
      (put_difficulty seq) [] = Ok true.
Proof.
  intros Hp nid seq. unfold put_request, register_pow in Hp. fold nid seq in Hp.
  destruct (e_join x); [|done]. cbn [rbind] in Hp.
  destruct (pow_solve _ _ _ _) as [[n|]|] eqn:Es; cbn [rbind] in Hp; [|done..].
  destruct (e_sign x _) as [sg|] eqn:Eg; cbn [rbind] in Hp; [|done].
  destruct (e_tsk x) as [tsk|]; cbn [rbind] in Hp; [|done]. injection Hp as <-.
  apply pow_nonce_range in Es as [Hn Hc]. by exists n, sg, tsk.
Qed.

Lemma put_members_flat nid fp salt q n tsk :
  0 <= q < 2 ^ 64 -> 0 <= n < 2 ^ 64 ->
  Forall (fun kv : string * value => flat kv.2) (put_members nid fp salt q n tsk).
Proof.
  intros Hq Hn. unfold put_members.
  repeat (apply Forall_cons_2; [first [exact I|by apply flat_json_int]|]). done.
Qed.

(** The row of a Null ID is there, and every request to come finds it expired. *)
Definition row_expired (nid : string) (r : KvRecord) (p : peer_node) : Prop :=
  kv_store (pn_store p) !! nid = Some r /\
  forall k, f64_gtb (expires_at r) (x_store_now (ctx k)) = false.

Lemma row_expired_unseen nid r p k : row_expired nid r p -> unseen (ctx k) nid (pn_store p).
Proof. intros [Hr He] r' Hr'. rewrite Hr in Hr'. injection Hr' as <-. apply He. Qed.

Lemma get_read x k sg nid :
  env_ok x -> exists e, from_json (to_json (client_envelope x k "dht-get" sg [("key", VString nid)])) = Ok e /\
    msg_type e = "dht-get" /\ str_of e "key" = nid /\ ts e = f64_of_Z (e_secs x k).
Proof.
  intros Hx. destruct (client_read x k "dht-get" sg [("key", VString nid)]) as (e & He & Ht & Hts & _ & Hp);
    [done|by apply (bool_decide_eq_true_1 _)|by repeat constructor|].
  exists e. split_and!; [done|done| |done]. unfold str_of, payload_str. by rewrite Hp.
Qed.

Lemma check_unseen x nid p :
  env_ok x -> clock_ok (ctx (pn_count p)) -> unseen (ctx (pn_count p)) nid (pn_store p) ->
  exists p', check_registered x nid (p, []) = ((p', []), Ok false) /\
    pn_store p' = pn_store p /\ pn_seen p' = pn_seen p /\ pn_count p' = S (pn_count p).
Proof.
  intros Hx Hc Hu. destruct (get_read x 0 "" nid Hx) as (e & Hj & Ht & Hk & _).
  destruct (send_refused "DHT check send failed: " (to_json (client_envelope x 0 "dht-get" "" [("key", VString nid)]))
              p []) as (p' & k & m & Hsend & Hst & Hsn & Hcnt).
  { eapply text_get_unseen; [done|done|]. rewrite Hk. exact Hu. }
  exists p'. split; [|by split_and!]. unfold check_registered. unfold st_bind at 1. rewrite Hsend.
  cbn [app await_check]. unfold st_bind, ws_next. cbn.
  destruct (error_read (ctx (pn_count p)) k m Hc) as (e' & -> & Ht'). by rewrite Ht'.
Qed.

Lemma read_refused x k m (p : peer_node) :
  clock_ok x -> exists er, read_registered (p, [RText (to_json (dht_error x k m))]) = ((p, []), Err er).
Proof.
  intros Hc. destruct (error_read x k m Hc) as (e & He & Ht).
  unfold read_registered, st_bind, ws_next, st_lift, st_fail. rewrite He, Ht. by eexists.
Qed.

Lemma register_expired x url self r p b :
  env_ok x -> (forall k, clock_ok (ctx k)) -> row_expired (ClientRelay.null_id self) r p ->
  0 <= DhtStore.seq r ->
  exists p' b' er, dht_register x url self (p, b) = ((p', b'), Err er) /\ pn_store p' = pn_store p.
Proof.
  intros Hx Hc Hr Hs. unfold dht_register. unfold st_bind at 1. unfold ws_connect.
  cbn [srv_connect registering_server node_server]. unfold node_connect.
  destruct (allow _ _ _) as [l ok]. destruct ok; [|by eexists _, _, _].
  set (p1 := mkPeerNode _ _).
  destruct (check_unseen x (ClientRelay.null_id self) p1 Hx (Hc _) (row_expired_unseen _ r p1 _ Hr))
    as (p2 & Hchk & Hst2 & _).
  unfold st_bind at 1. rewrite Hchk. unfold st_bind at 1, st_lift at 1.
  destruct (put_request x self false) as [req|er] eqn:Eq; [|exists p2, [], er; by rewrite Hst2].
  apply put_request_ok in Eq as (n & sg & tsk & -> & Hn & _).
  set (m := put_members _ _ _ _ _ _).
  destruct (client_read x 2 "dht-put" sg m) as (e & He & Ht & _ & _ & Hp);
    [done|by apply (bool_decide_eq_true_1 _)|apply put_members_flat; unfold REGISTER_ATTEMPTS in Hn; lia|].
  destruct (send_refused "DHT send failed: " (to_json (client_envelope x 2 "dht-put" sg m)) p2 [])
    as (p3 & k & mm & Hsend & Hst3 & _).
  { eapply (text_put_old _ _ _ _ _ _ r); [done|done| |].
    - unfold str_of, payload_str. rewrite Hp. cbn. change (kv_store (pn_store p2) !! ClientRelay.null_id self = Some r).
      rewrite Hst2. apply Hr.
    - unfold int_of, payload_i64. rewrite Hp. cbn. done. }
  unfold st_bind at 1. rewrite Hsend. cbn [app].
  destruct (read_refused (ctx (pn_count p2)) k mm p3 (Hc _)) as (er & ->).
  exists p3, [], er. split; [done|]. by rewrite Hst3, Hst2.
Qed.

(** A client that tries again and again, whatever its clock and its random
    numbers, with whatever it had not read left behind. *)
Fixpoint attempts (url : string) (self : ClientRelay.Identity) (xs : list dht_env)
    (s : peer_node * list relay_frame) : (peer_node * list relay_frame) * list bool :=
  match xs with
  | [] => (s, [])
  | x :: xs' =>
      let (s1, r) := dht_register x url self s in
      let (s2, l) := attempts url self xs' s1 in (s2, is_ok r :: l)
  end.

(** A registration that has expired can never be renewed.  The node keeps
    expired rows, since nothing calls [delete_expired]: it does not find them
    when it is asked, so the client takes its identity for a new one and
    publishes with sequence number 0, but it compares that number with the row
    it kept and refuses.  However often the client tries, whatever the proof of
    work and the signature, every attempt fails and the store stays as it is. *)
Theorem expired_registration_stuck (url : string) (self : ClientRelay.Identity) (xs : list dht_env)
    (r : KvRecord) (p : peer_node) (b : list relay_frame) :
  Forall env_ok xs -> (forall k, clock_ok (ctx k)) ->
  row_expired (ClientRelay.null_id self) r p -> 0 <= DhtStore.seq r ->
  let (s, results) := attempts url self xs (p, b) in
  results = (fun _ => false) <$> xs /\ pn_store s.1 = pn_store p.
Proof.
  intros Hxs Hc Hr Hs. revert p b Hr. induction Hxs as [|x xs Hx _ IH]; intros p b Hr; [done|].
  cbn [attempts].
  destruct (register_expired x url self r p b Hx Hc Hr Hs) as (p' & b' & er & -> & Hst).
  assert (Hr' : row_expired (ClientRelay.null_id self) r p') by (unfold row_expired; by rewrite Hst).
  specialize (IH p' b' Hr'). destruct (attempts url self xs (p', b')) as [s2 l].
  destruct IH as [-> Hs2]. cbn [is_ok fmap list_fmap]. split; [done|]. by rewrite Hs2.
Qed.

(** ** A first registration, and its lookup *)

(** At most [k] entries short of the limit. *)
Definition quota (r : RateLimiter) (key : string) (k : Z) : Prop :=
  zlen (opt_or (buckets r !! key) []) + k <= RateLimit.max r.

Lemma allow_quota now key r k :
  0 <= k -> quota r key (k + 1) ->
  exists r', allow now key r = (r', true) /\ quota r' key k.
Proof.
  intros Hk Hq. unfold allow, quota in *.
  assert (Hm : forall c, zlen (retain c (opt_or (make_room r key !! key) [])) <=
                 zlen (opt_or (buckets r !! key) [])).
  { intros c. assert (Hr : forall l, zlen (retain c l) <= zlen l).
    { intros l. unfold retain, zlen. induction l as [|t l IH]; [done|]. cbn [List.filter].
      destruct (f64_geb t c); cbn [length]; lia. }
    unfold make_room. destruct (_ && bool_decide _) eqn:E; [|apply Hr].
    apply andb_true_iff in E as [_ E%bool_decide_eq_true].
    assert (Hn : forall o, delete o (buckets r) !! key = None).
    { intros o. destruct (decide (o = key)) as [->|]; [apply lookup_delete_eq|by rewrite lookup_delete_ne]. }
    destruct (first_key _) as [o|]; [rewrite Hn, E|rewrite E]; done. }
  specialize (Hm (cutoff r now)). destruct (Z.leb_spec (RateLimit.max r) (zlen (retain (cutoff r now) (opt_or (make_room r key !! key) [])))); [lia|].
  eexists. split; [done|]. cbn [buckets RateLimit.max with_buckets]. rewrite lookup_insert_eq. cbn [opt_or].
  unfold zlen in *. rewrite length_app. cbn [length]. lia.
Qed.


(** A put that passes every check is stored and answered. *)
Lemma text_put_granted x raw e s armored crt txt :
  from_json raw = Ok e -> msg_type e = "dht-put" -> stale x e = false ->
  put_refusal node_fingerprint x e (s_node s) = None ->
  payload_str e "publisher_cert" = Some armored -> cert_from_bytes armored = Ok crt ->
  decode_sig (Envelope.sig e) = Some txt ->
  verify_detached txt (put_sign_data (str_of e "key") (str_of e "value") (str_of e "salt")
                         (int_of e "seq" 0) (int_of e "nonce" 0)) crt = Ok true ->
  x_io x = no_faults -> acceptable (put_arguments e) (store (s_node s)) ->
  let a := put_arguments e in
  store (s_node (say x raw s)) = stored (x_store_now x) (x_clock x) a (store (s_node s)) /\
  s_sent (say x raw s) = s_sent s ++ [dht_found x (p_key a) (p_value a) (p_salt a) (p_seq a)].
Proof.
  intros He Ht Hst Hr Hc Hp Hd Hv Hio Ha a. unfold handle_text. rewrite He, Hst.
  unfold dispatch. rewrite Ht. cbn [String.eqb Ascii.eqb Bool.eqb].
  unfold handle_put. rewrite Hr. fold a.
  unfold verify_dht_put_signature. rewrite Hc, Hp. unfold verify_signature_with_cert.
  change (p_sig a) with (Envelope.sig e). rewrite Hd.
  change (verify_detached txt (put_sign_data (p_key a) (p_value a) (p_salt a) (p_seq a) (p_nonce a)) crt = Ok true) in Hv.
  rewrite Hv. cbn [unwrap_or negb]. rewrite Hio, put_no_faults by done. done.
Qed.

(** The clocks of the client and of the node agree. *)
Definition fresh_for (x : context) (secs : Z) : Prop :=
  f64_gtb (f64_abs (f64_sub (x_now x) (f64_of_Z secs))) (f64_of_Z POW_MAX_AGE) = false.

(** The key of the client signs so that its certificate, as it is sent,
    verifies. *)
Definition signs_for (x : dht_env) : Prop :=
  forall tsk data sg, e_tsk x = Ok tsk -> e_sign x data = Ok sg ->
    sg <> "" /\ exists crt txt, cert_from_bytes tsk = Ok crt /\ decode_sig sg = Some txt /\
      verify_detached txt data crt = Ok true.

(** The identifier is that of the fingerprint, as [init] makes it. *)
Definition identity_ok (self : ClientRelay.Identity) : Prop :=
  validate_fingerprint (fingerprint self) = true /\
  ClientRelay.null_id self = compute_null_id (fingerprint self).

(** The store has room for the identifier and has never seen it. *)
Definition room_for (x : context) (nid : string) (p : peer_node) : Prop :=
  kv_store (pn_store p) !! nid = None /\ (forall z, nonce_log (pn_store p) !! (nid, z) = None) /\
  pn_seen p !! nid = None /\
  MAX_TOTAL_KEYS <=? unwrap_or (count_keys (x_io x) (x_store_now x) (pn_store p)).2 0 = false.

Lemma computed_valid fp : validate_null_id (compute_null_id fp) = true /\ slen (compute_null_id fp) = 12.
Proof.
  split.
  - rewrite validate_null_id_parts. apply null_id_parts_spec, null_id_wf.
  - change (slen (Identity.null_id fp) = 12). destruct (null_id_groups fp) as (a & b & -> & Ha & Hb & _).
    by rewrite !slen_app, Ha, Hb.
Qed.

Lemma fingerprint_len fp : validate_fingerprint fp = true -> 0 < slen fp <= 40.
Proof.
  unfold validate_fingerprint. destruct (Z.eqb_spec (slen fp) 32), (Z.eqb_spec (slen fp) 40);
    cbn [negb andb]; lia.
Qed.

(** The arguments of the request of a first registration. *)
Lemma put_request_arguments e nid fp salt n tsk :
  (forall k, payload_field e k = assoc k (put_members nid fp salt 0 n tsk)) -> 0 <= n < REGISTER_ATTEMPTS ->
  put_arguments e = mkPutArgs nid fp salt 0 fp STORE_TTL (Envelope.sig e) n /\
  payload_str e "publisher_cert" = Some tsk.
Proof.
  intros Hp Hn. unfold put_arguments, DhtNode.put_ttl, str_of, int_of, payload_str, payload_i64.
  rewrite !Hp. split; [|done]. unfold put_members.
  assert (E : as_i64 (json_int n) = Some n)
    by (apply as_i64_json_int; unfold REGISTER_ATTEMPTS, i64_min, i64_max in *; lia).
  cbn [assoc String.eqb Ascii.eqb Bool.eqb mbind option_bind as_str opt_or]. by rewrite E.
Qed.

Lemma first_put_passes x e self salt n tsk (s : DhtNode.session) :
  node_fingerprint = "" -> identity_ok self ->
  (forall k, payload_field e k =
     assoc k (put_members (ClientRelay.null_id self) (fingerprint self) salt 0 n tsk)) ->
  0 <= n < REGISTER_ATTEMPTS -> Envelope.sig e <> "" ->
  pow_check (put_pow_data (ClientRelay.null_id self) (fingerprint self) salt 0) n (put_difficulty 0) [] = Ok true ->
  room_for x (ClientRelay.null_id self) (mkPeerNode s 0) ->
  put_refusal node_fingerprint x e (s_node s) = None /\
  acceptable (put_arguments e) (store (s_node s)).
Proof.
  intros Hnf [Hv Hid] Hp Hn Hsg Hpow (Hkv & Hlog & Hseen & Hroom).
  destruct (put_request_arguments e _ _ _ _ _ Hp Hn) as [Ea _].
  destruct (computed_valid (fingerprint self)) as [Hval Hlen]. rewrite <- Hid in Hval, Hlen.
  pose proof (fingerprint_len _ Hv) as Hfl.
  split; [|rewrite Ea; split_and!; [simpl; unfold STORE_MAX_VALUE_SIZE; lia|apply Hlog|intros r Hr; simpl in Hr]].
  - unfold put_arguments in Ea. injection Ea as Ek Evl Es Eq Ef Et En.
    unfold put_refusal. rewrite Ek, Evl, Es, Eq, Ef, Et, En.
    rewrite Hval. cbn [negb]. rewrite Hlen. cbn [MAX_KEY_SIZE Z.ltb Z.compare].
    assert (Hfull : store_full x (ClientRelay.null_id self) (s_node s) = false).
    { unfold store_full. cbn [pn_store pn_session] in *. by destruct (unwrap_or _ false). }
    rewrite Hfull. destruct (Z.ltb_spec MAX_VALUE_SIZE (slen (fingerprint self))) as [Hm|_];
      [unfold MAX_VALUE_SIZE in Hm; lia|].
    unfold nonce_replayed. unfold pn_seen in Hseen. cbn [pn_session] in Hseen. rewrite Hseen.
    unfold pow_ok. rewrite Hnf. unfold u64. rewrite wrap_small by (unfold REGISTER_ATTEMPTS in Hn; lia).
    change (str_bytes "") with (@nil Z). rewrite Hpow. cbn [unwrap_or negb].
    destruct (Envelope.sig e); [done|]. cbn [str_is_empty]. rewrite Hv, <- Hid, String.eqb_refl. done.
  - unfold pn_store in Hkv. cbn [pn_session] in Hkv. congruence.
Qed.

(** The connection limiter lets the address in once more, the other limiter one
    more question. *)
Definition conn_room (p : peer_node) : Prop := quota (conn_limiter (s_node (pn_session p))) ip 1.
Definition get_room (p : peer_node) : Prop := quota (get_limiter (s_node (pn_session p))) ip 1.

Lemma connect_ok what url p b :
  conn_room p ->
  exists p1, ws_connect what url (p, b) = ((p1, []), Ok tt) /\ pn_store p1 = pn_store p /\
    pn_seen p1 = pn_seen p /\ pn_count p1 = S (pn_count p) /\
    get_limiter (s_node (pn_session p1)) = get_limiter (s_node (pn_session p)).
Proof.
  intros Hq. unfold ws_connect. cbn [srv_connect registering_server node_server]. unfold node_connect.
  destruct (allow_quota (x_limit_now (ctx (pn_count p))) ip _ 0 ltac:(lia) Hq) as (l & -> & _).
  by eexists.
Qed.

Lemma read_found_ok x k v s q (p : peer_node) :
  clock_ok x -> 0 <= q < 2 ^ 64 ->
  read_registered (p, [RText (to_json (dht_found x k v s q))]) = ((p, []), Ok tt) /\
  (v <> "" -> read_found (p, [RText (to_json (dht_found x k v s q))]) = ((p, []), Ok v)).
Proof.
  intros Hc Hq. destruct (found_read x k v s q Hc Hq) as (e & He & Ht & Hv).
  unfold read_registered, read_found, st_bind, ws_next, st_lift, st_ret. rewrite He, Ht. cbn [plain].
  rewrite Hv. split; [done|]. intros Hne. destruct v as [|a v]; [congruence|]. by rewrite Ht.
Qed.

(** A first registration succeeds: the row holds the fingerprint. *)
Lemma register_first x url self p b e :
  node_fingerprint = "" -> env_ok x -> (forall k, clock_ok (ctx k)) -> identity_ok self -> signs_for x ->
  put_request x self false = Ok e ->
  conn_room p ->
  let y := ctx (2 + pn_count p) in
  room_for y (ClientRelay.null_id self) p -> x_io y = no_faults -> fresh_for y (e_secs x 2) ->
  exists p3 row, dht_register x url self (p, b) = ((p3, []), Ok tt) /\
    kv_store (pn_store p3) !! ClientRelay.null_id self = Some row /\
    DhtStore.value row = fingerprint self /\ DhtStore.seq row = 0 /\
    expires_at row = f64_add (x_store_now y) (f64_of_Z STORE_TTL).
Proof.
  intros Hnf Hx Hc Hid Hsg Hreq Hconn y Hroom Hio Hfr.
  pose proof (put_request_ok _ _ _ _ Hreq) as (n & sg & tsk & Ee & Hn & Htsk & Hsig & Hpow). cbn match in *.
  destruct (Hsg _ _ _ Htsk Hsig) as (Hne & crt & txt & Hcrt & Hdec & Hver).
  unfold dht_register. unfold st_bind at 1.
  destruct (connect_ok "DHT connect failed: " (ws_url url) p b Hconn) as (p1 & -> & Hst1 & Hsn1 & Hc1 & _).
  destruct (check_unseen x (ClientRelay.null_id self) p1 Hx (Hc _)) as (p2 & Hchk & Hst2 & Hsn2 & Hc2).
  { intros r Hr. rewrite Hst1, (proj1 Hroom) in Hr. done. }
  unfold st_bind at 1. rewrite Hchk. unfold st_bind at 1, st_lift at 1. rewrite Hreq.
  set (m := put_members _ _ _ _ _ _) in Ee.
  destruct (client_read x 2 "dht-put" sg m) as (e' & He & Ht & Hts & Hes & Hp);
    [done|by apply (bool_decide_eq_true_1 _)|apply put_members_flat; unfold REGISTER_ATTEMPTS in Hn; lia|].
  assert (Hy : ctx (pn_count p2) = y) by (unfold y; by rewrite Hc2, Hc1).
  assert (Hroom2 : room_for y (ClientRelay.null_id self) (mkPeerNode (pn_session p2) 0)).
  { unfold room_for in *. change (pn_store (mkPeerNode (pn_session p2) 0)) with (pn_store p2).
    change (pn_seen (mkPeerNode (pn_session p2) 0)) with (pn_seen p2). by rewrite Hst2, Hst1, Hsn2, Hsn1. }
  destruct (first_put_passes y e' self _ n tsk (pn_session p2) Hnf Hid Hp Hn) as [Hpass Hacc];
    [by rewrite Hes|done|done|].
  destruct (put_request_arguments e' _ _ _ _ _ Hp Hn) as [Ha Hcert].
  destruct (text_put_granted y (to_json e) e' (pn_session p2) tsk crt txt) as (Hst & Hsent);
    [by rewrite Ee|done|unfold stale; by rewrite Hts|done|done|done|by rewrite Hes| |done|done|].
  { pose proof Ha as Ha'. unfold put_arguments in Ha'. injection Ha' as -> -> -> -> _ _ ->. exact Hver. }
  unfold st_bind at 1. unfold ws_send. cbn [srv_say registering_server node_server]. unfold node_say.
  rewrite Hy, Hsent, drop_app_length. cbn [app fmap list_fmap].
  set (p3 := mkPeerNode _ _).
  rewrite Ha. cbn [p_key p_value p_salt p_seq].
  rewrite (proj1 (read_found_ok y (ClientRelay.null_id self) (fingerprint self) _ 0 p3 ltac:(unfold y; apply Hc) ltac:(lia))).
  eexists p3, _. split; [done|]. unfold p3, pn_store. cbn [pn_session]. rewrite Hst, Ha.
  cbn [stored kv_store p_key]. rewrite lookup_insert_eq. done.
Qed.

(** Looking a row up gives its value, whatever that is, as the address. *)
Lemma lookup_row x url nid p b row sg :
  env_ok x -> (forall k, clock_ok (ctx k)) -> validate_null_id nid = true ->
  e_sign x (get_sign_data nid) = Ok sg ->
  kv_store (pn_store p) !! nid = Some row -> DhtStore.value row <> "" -> 0 <= DhtStore.seq row < 2 ^ 63 ->
  conn_room p -> get_room p ->
  let y := ctx (1 + pn_count p) in
  x_io y = no_faults -> fresh_for y (e_secs x 0) -> f64_gtb (expires_at row) (x_store_now y) = true ->
  exists p', dht_lookup x (Ok tt) url nid (p, b) = ((p', []), Ok (DhtStore.value row)).
Proof.
  intros Hx Hc Hnid Hsg Hrow Hv Hs Hconn Hget y Hio Hfr Hexp. unfold dht_lookup. unfold st_bind at 1.
  destruct (connect_ok "DHT connect failed: " (ws_url url) p b Hconn) as (p1 & -> & Hst1 & _ & Hc1 & Hl1).
  unfold st_bind at 1, st_lift at 1. unfold st_bind at 1, st_lift at 1. rewrite Hsg.
  destruct (get_read x 0 sg nid Hx) as (e & He & Ht & Hk & Hts).
  assert (Hy : ctx (pn_count p1) = y) by (unfold y; by rewrite Hc1).
  unfold st_bind at 1, ws_send. cbn [srv_say registering_server node_server]. unfold node_say.
  rewrite Hy. unfold get_room in Hget. rewrite <- Hl1 in Hget.
  destruct (allow_quota (x_limit_now y) ip _ 0 ltac:(lia) Hget) as (l & Hal & _).
  assert (Hrep : s_sent (say y (to_json (client_envelope x 0 "dht-get" sg [("key", VString nid)])) (pn_session p1)) =
            s_sent (pn_session p1) ++ [dht_found y nid (DhtStore.value row) (DhtStore.salt row) (DhtStore.seq row)]).
  { unfold handle_text. rewrite He. unfold stale. rewrite Hts, Hfr.
    unfold dispatch. rewrite Ht. cbn [String.eqb Ascii.eqb Bool.eqb]. rewrite Hal. cbn [negb answer s_sent].
    unfold handle_get. rewrite Hk, Hnid. cbn [negb].
    unfold DhtStore.get, st_bind, await, st_guard, st_get, st_ret, no_faults. rewrite Hio. cbn [no_faults snd].
    change (store (set_get_limiter (s_node (pn_session p1)) l)) with (pn_store p1).
    by rewrite Hst1, Hrow, Hexp. }
  rewrite Hrep, drop_app_length. cbn [app fmap list_fmap].
  set (p2 := mkPeerNode _ _).
  rewrite (proj2 (read_found_ok y nid (DhtStore.value row) (DhtStore.salt row) (DhtStore.seq row) p2
             ltac:(unfold y; apply Hc) ltac:(lia)) Hv). by exists p2.
Qed.

End registering.

(** ** The private lookup *)

Section private.
Context `{Sequoia} `{Base64} `{Blake2} `{Argon2} `{HashOrder (list f64)} `{WireCodec} `{JsonCodec}.
Context `{!WireText} `{Format} `{Sha2}.
Variables (node_fingerprint : string) (ip : string) (ctx : nat -> context).

#[local] Instance private_server : Server peer_node := node_server node_fingerprint ip ctx.

(** A query as it is sent. *)
Definition query_ok (q : PirQueryToken) : Prop := 0 <= bin_index q < 2 ^ 32.

(** The node answers a private query like any text that is no envelope. *)
Lemma query_refused what x i q (p : peer_node) b :
  query_ok q ->
  exists p' m, ws_send what (json_print (pir_query x i q)) (p, b) =
      ((p', b ++ [RText (to_json (dht_error (ctx (pn_count p)) "" m))]), Ok tt) /\
    pn_store p' = pn_store p /\ conn_limiter (s_node (pn_session p')) = conn_limiter (s_node (pn_session p)).
Proof.
  intros Hq. unfold ws_send. cbn [srv_say private_server node_server]. unfold node_say, handle_text.
  destruct (from_json (json_print (pir_query x i q))) as [e|er] eqn:E.
  - exfalso. assert (Hm : is_ok (from_json (json_print (pir_query x i q))) = false); [|by rewrite E in Hm].
    apply wire_missing; [by apply (bool_decide_eq_true_1 _)| |done].
    apply Forall_cons_2; [exact I|]. apply Forall_cons_2; [apply flat_json_int; unfold query_ok in Hq; lia|].
    by repeat apply Forall_cons_2.
  - cbn [fail_once s_sent s_node]. rewrite drop_app_length. by eexists _, _.
Qed.

(** Such an answer is passed over. *)
Lemma error_passed_over x k m q h :
  f64_finite (x_reply_now x) = true -> pir_answer q h (RText (to_json (dht_error x k m))) = Ok None.
Proof.
  intros Hf.
  destruct (wire_members (dht_error x k m) [("key", VString k); ("message", VString m)])
    as (m' & Hj & Ht & _); [done|by apply (bool_decide_eq_true_1 _)|by repeat constructor|done|].
  unfold pir_answer. rewrite Hj. cbn [ok_or rbind Json.get]. by rewrite Ht.
Qed.

Lemma queries_in_vain x h qs : forall i (p : peer_node),
  (forall k, f64_finite (x_reply_now (ctx k)) = true) -> Forall query_ok qs ->
  exists p', pir_queries x i h qs (p, []) = ((p', []), Ok None) /\ pn_store p' = pn_store p /\
    conn_limiter (s_node (pn_session p')) = conn_limiter (s_node (pn_session p)).
Proof.
  induction qs as [|q qs IH]; intros i p Hf Hq; [by exists p|].
  apply Forall_cons in Hq as [Hq Hqs]. cbn [pir_queries]. unfold st_bind at 1.
  destruct (query_refused "PIR query send failed: " x i q p [] Hq) as (p1 & m & -> & Hst & Hl).
  unfold st_bind, ws_next. cbn [app]. unfold st_lift. rewrite error_passed_over by done.
  destruct (IH (Datatypes.S i) p1 Hf Hqs) as (p2 & -> & Hst2 & Hl2).
  exists p2. by rewrite Hst2, Hl2.
Qed.

Lemma query_contact_ok x h : Forall query_ok (query_contact (e_masks x) (e_public x) h).
Proof.
  unfold query_contact. apply Forall_lookup. intros i q. rewrite list_lookup_imap.
  destruct (cuckoo_hash_bins h PIR_CUCKOO_FANOUT !! i) as [idx|] eqn:E; [|done]. intros [= <-].
  unfold query_ok. cbn [bin_index]. unfold cuckoo_hash_bins in E. rewrite list_lookup_fmap in E.
  destruct (ListDef.seq 0 PIR_CUCKOO_FANOUT !! i) as [j|]; [|done]. injection E as <-.
  pose proof (from_be_bytes_range (take 4 (sha256 (str_bytes "pir-cuckoo-v1" ++ h ++ be_bytes 4 (Z.of_nat j)))))
    as Hr. unfold zlen in Hr. rewrite length_take, sha256_length in Hr.
  apply Hr. apply Forall_take, sha256_ok.
Qed.

(** The private lookup hides nothing.  No node answers a private query: each
    one is refused as a malformed envelope, so once the connection is open the
    private lookup always ends as the ordinary one, on a second connection of
    the same client to the same server and with the same store; the request of
    that one names the identifier in clear. *)
Theorem private_lookup_not_private (x : dht_env) (our_cert : result client_error unit)
    (url null_id : string) (p : peer_node) (b : list relay_frame) :
  env_ok x -> (forall k, f64_finite (x_reply_now (ctx k)) = true) ->
  quota (conn_limiter (s_node (pn_session p))) ip 1 ->
  (exists q : peer_node,
     pir_dht_lookup x our_cert url null_id (p, b) = dht_lookup x our_cert url null_id (q, []) /\
     pn_store q = pn_store p) /\
  forall sg, exists e,
    from_json (to_json (client_envelope x 0 "dht-get" sg [("key", VString null_id)])) = Ok e /\
    msg_type e = "dht-get" /\ str_of e "key" = null_id.
Proof.
  intros Hx Hf Hq. split; [|intros sg; destruct (get_read x 0 sg null_id Hx) as (e & ? & ? & ? & _); by exists e]. unfold pir_dht_lookup. unfold st_bind at 1. unfold ws_connect at 1.
  cbn [srv_connect private_server node_server]. unfold node_connect at 1.
  destruct (allow_quota (x_limit_now (ctx (pn_count p))) ip _ 0 ltac:(lia) Hq) as (l & -> & _).
  cbn match. set (p1 := mkPeerNode _ _).
  destruct (queries_in_vain x (pir_hash null_id) (query_contact (e_masks x) (e_public x) (pir_hash null_id)) 0 p1
              Hf (query_contact_ok _ _)) as (p2 & Hqs & Hst & _).
  unfold st_bind at 1. rewrite Hqs. exists p2. split; [done|]. by rewrite Hst.
Qed.
End private.

(** ** Concrete runs *)

Section concrete.
#[local] Existing Instances toy_sequoia toy_base64 toy_blake2 toy_argon2 toy_json toy_format toy_sha2 text_codec
  text_codec_laws text_codec_wire.
#[local] Instance dht_order : HashOrder (list f64) := list_order _.

Definition run_fp : string := victim_fp.
Definition run_id : ClientRelay.Identity := mkIdentity run_fp (compute_null_id run_fp).

Definition run_env (secs : Z) : dht_env :=
  mkDhtEnv (fun k => Z.of_nat k + 7) (fun _ => secs) 
    (fun d => Ok (b64_sig run_fp d)) (Ok ("CERT:" +:+ run_fp))
    (Ok tt) (fun _ => replicate 4032 3) (replicate 32 9).

Definition run_ctx (secs : Z) (k : nat) : context := calm secs.

Definition run_node (s : DhtStore) : peer_node := mkPeerNode (DhtNode.mkSession (new_node s) 0 [] []) 0.

Lemma calm_finite secs : f64_finite (f64_of_Z secs) = true -> forall k, clock_ok (run_ctx secs k).
Proof. intros Hf k. exact Hf. Qed.

Definition old_row : KvRecord := mkKvRecord run_fp "salt" 0 run_fp (f64_of_Z 1000) (f64_of_Z 87400) "sig".
Definition old_store : DhtStore := mkDhtStore {[null_id run_id := old_row]} ∅.

Theorem expired_registration_stuck_witness :
  let c := run_ctx 90000 in
  let (s, results) := @attempts _ _ _ _ _ _ _ "NODE" "1.2.3.4" c "https://seed" run_id
                        [run_env 90000; run_env 90005] (run_node old_store, []) in
  results = [false; false] /\ pn_store s.1 = old_store.
Proof.
  apply (expired_registration_stuck "NODE" "1.2.3.4" (run_ctx 90000) "https://seed" run_id
           [run_env 90000; run_env 90005] old_row (run_node old_store) []).
  - repeat constructor; discriminate.
  - by apply calm_finite.
  - split; [apply lookup_singleton_eq|]. intros k. reflexivity.
  - discriminate.
Defined.

Definition run_request : result client_error WireEnvelope := put_request (run_env 1000) run_id false.


Theorem private_lookup_not_private_witness :
  let server := node_server "" "1.2.3.4" (run_ctx 1000) in
  exists q, @pir_dht_lookup _ server _ _ _ _ _ (run_env 1000) (Ok tt) "https://seed" "NN-AAAA-BBBB" (run_node empty_store, []) =
    @dht_lookup _ server _ _ (run_env 1000) (Ok tt) "https://seed" "NN-AAAA-BBBB" (q, []).
Proof.
  destruct (private_lookup_not_private "" "1.2.3.4" (run_ctx 1000) (run_env 1000) (Ok tt) "https://seed"
              "NN-AAAA-BBBB" (run_node empty_store) []) as [(q & Hq & _) _].
  - intros k. split; [discriminate|reflexivity].
  - intros k. reflexivity.
  - vm_compute. discriminate.
  - exists q. exact Hq.
Defined.
End concrete.
