(* ===== verification/ClientShell.v ===== *)
(** * The client program around its commands (src/client/src/main.rs, main)

    The PID file that keeps a second instance out, the servers a command talks
    to, the commands that only print, the loop of the listener, and the cache
    of contacts by fingerprint hash.  Processes are the identifiers the system
    gave out; random bytes and the order of a hash map are arguments. *)

From S2P Require Import Prelude Text Files Primitives Concrete Json Pow Identity Pir Padding.
From S2P Require Import ClientStore ClientRelay ClientHome ClientDht.

(** ** One instance at a time *)

Definition i32_max : Z := 2147483647.

(** The process that keeps this one from starting: the number in the file, when
    a process with that number lives.  A number that does not parse, or is
    negative, counts as none.
    Source: client/src/main.rs:2541-2553, main. *)
Definition pid_refusal (alive : Z -> bool) (content : option string) : option Z :=
  match content with
  | None => None
  | Some text =>
      let old_pid := opt_or (parse_unsigned i32_max (trim text)) 0 in
      if (0 <? old_pid) && alive old_pid then Some old_pid else None
  end.

(** Source: client/src/main.rs:2557-2559, main. *)
Definition pid_text (pid : Z) : string := pretty pid +:+ String newline "".

(** The file, the processes between the check and the write, and those past it. *)
Record instances : Type := mkInstances { pid_file : option string; started : gset Z; running : gset Z }.

(** [kill(pid, 0)]: the process exists. *)
Definition lives (s : instances) (pid : Z) : bool := bool_decide (pid ∈ started s ∪ running s).

Definition checked (pid : Z) (s : instances) : instances :=
  mkInstances (pid_file s) ({[pid]} ∪ started s) (running s).
Definition written (pid : Z) (s : instances) : instances :=
  mkInstances (Some (pid_text pid)) (started s ∖ {[pid]}) ({[pid]} ∪ running s).

(** What a process does about the file: the check, the write, the removal at
    its end; a process that is killed removes nothing.
    Source: client/src/main.rs:2537-2566, main. *)
Inductive instance_step : instances -> instances -> Prop :=
| step_check pid s : 0 < pid <= i32_max -> lives s pid = false ->
    pid_refusal (lives s) (pid_file s) = None -> instance_step s (checked pid s)
| step_write pid s : pid ∈ started s -> instance_step s (written pid s)
| step_exit pid s : pid ∈ running s ->
    instance_step s (mkInstances None (started s) (running s ∖ {[pid]}))
| step_killed pid s : pid ∈ running s ->
    instance_step s (mkInstances (pid_file s) (started s) (running s ∖ {[pid]})).

(** The same when nothing comes between the check and the write. *)
Inductive atomic_step : instances -> instances -> Prop :=
| atomic_start pid s : 0 < pid <= i32_max -> lives s pid = false ->
    pid_refusal (lives s) (pid_file s) = None -> atomic_step s (written pid (checked pid s))
| atomic_exit pid s : pid ∈ running s ->
    atomic_step s (mkInstances None (started s) (running s ∖ {[pid]}))
| atomic_killed pid s : pid ∈ running s ->
    atomic_step s (mkInstances (pid_file s) (started s) (running s ∖ {[pid]})).

Definition no_instances : instances := mkInstances None ∅ ∅.

(** ** Servers *)

(** The argument, or what discovery found: discovery always finds something.
    Source: client/src/main.rs:2601-2619, main. *)
Definition server_url (arg : option string) (discovered : string) : string := opt_or arg discovered.

(** The registration asks discovery again.
    Source: client/src/main.rs:2812-2818, main. *)
Definition register_url (arg : option string) (discovered : string) : string := discovered.

(** ** Commands that print *)

Section commands.
Context `{JsonCodec} `{Sha2} `{Hex} `{Hmac} `{Blake2} `{Base64}.

(** Source: client/src/main.rs:2653-2657, main. *)
Definition cmd_id (d : disk) : result client_error (string * string) :=
  let? self := load_identity d in Ok (ClientRelay.null_id self, fingerprint self).

(** Source: client/src/main.rs:2709-2719, main. *)
Definition cmd_contacts (d : disk) : list (string * string) := map_to_list (load_contacts d).

(** Source: client/src/main.rs:2801-2811, main. *)
Definition cmd_aliases (d : disk) : list (string * string) := map_to_list (load_aliases d).

Definition BOOTSTRAP_PATH : string := ".nullnode/bootstrap_pin_cache.json".

(** The identity, the number of contacts, whether addresses are pinned.
    Source: client/src/main.rs:2735-2767, main. *)
Definition cmd_status (d : disk) : option (string * string) * Z * bool :=
  (match cmd_id d with Ok i => Some i | Err _ => None end,
   Z.of_nat (size (load_contacts d)), bool_decide (is_Some (d !! BOOTSTRAP_PATH))).

(** ** The listener *)

(** Each connection reads the key file again; one that is missing or does not
    hold 32 bytes ends the connection before it begins.
    Source: client/src/main.rs:2146-2164, run_listener. *)
Definition listener_key (f : option string) : option bytes :=
  text ← f; key ← hex_decode (trim text); if zlen key =? 32 then Some key else None.

(** ** The contact cache *)

(** Source: client/src/main.rs:616-620, PirContactCache::build. *)
Definition contact_hash (fp : string) : result client_error bytes :=
  ok_or (hex_decode (sha256_hex fp)) (Plain "hex").

Definition cache_contact (nid fp : string) : st PirRegistry client_error unit :=
  do hash <- st_lift (contact_hash fp);
  match prepare_registration hash with
  | None => st_fail (Plain "no bin")
  | Some (bin_idx, _) =>
      fun reg => match add_entry bin_idx (entry_new hash (str_bytes nid)) reg with
                 | (reg', Ok _) => (reg', Ok tt)
                 | (reg', Err e) => (reg', Err (Wrapped "" e))
                 end
  end.

(** Source: client/src/main.rs:609-629, PirContactCache::build. *)
Fixpoint cache_build (contacts : list (string * string)) : st PirRegistry client_error unit :=
  match contacts with
  | [] => st_ret tt
  | (nid, fp) :: rest => do! cache_contact nid fp; cache_build rest
  end.

(** Source: client/src/main.rs:643-656, PirContactCache::lookup. *)
Fixpoint cache_scan (reg : PirRegistry) (hash : bytes) (qs : list PirQueryToken) : option string :=
  match qs with
  | [] => None
  | q :: qs' =>
      match r ← handle_query [] [] q reg; e ← process_response r (xor_mask q) hash;
            let nid := entry_address e in if str_is_empty nid then None else Some nid with
      | Some nid => Some nid
      | None => cache_scan reg hash qs'
      end
  end.

(** Source: client/src/main.rs:631-659, PirContactCache::lookup. *)
Definition cache_lookup (rng : nat -> bytes) (pk : bytes) (fp : string) (reg : PirRegistry)
  : result client_error (option string) :=
  let? hash := contact_hash fp in Ok (cache_scan reg hash (query_contact rng pk hash)).
End commands.

(** ** One instance, unless two start together *)

Lemma refusal_of_text alive pid :
  0 < pid <= i32_max -> pid_refusal alive (Some (pid_text pid)) = if alive pid then Some pid else None.
Proof.
  intros Hp. unfold pid_refusal, pid_text. rewrite trim_number by lia. rewrite parse_pretty by lia.
  cbn [opt_or]. destruct (Z.ltb_spec 0 pid); [done|lia].
Qed.

(** Between atomic steps no process is halfway, and one that runs is the one in
    the file. *)
Record one_instance (s : instances) : Prop := {
  oi_started : started s = ∅;
  oi_running pid : pid ∈ running s ->
    0 < pid <= i32_max /\ pid_file s = Some (pid_text pid) /\ running s = {[pid]};
}.

Lemma atomic_one s s' : atomic_step s s' -> one_instance s -> one_instance s'.
Proof.
  intros [pid s0 Hp Hl Hr|pid s0 Hin|pid s0 Hin] [Hst Hrun].
  - assert (Hnone : running s0 = ∅).
    { apply set_eq. intros p. split; [|set_solver]. intros Hpr.
      destruct (Hrun p Hpr) as (Hb & Hf & _). rewrite Hf, refusal_of_text in Hr by done.
      unfold lives in Hr. rewrite bool_decide_eq_true_2 in Hr by set_solver. done. }
    split; cbn; [rewrite Hst; set_solver|]. rewrite Hnone. intros p. rewrite (union_empty_r_L {[pid]}).
    intros ->%elem_of_singleton. split_and!; [apply Hp|apply Hp|done|done].
  - destruct (Hrun pid Hin) as (_ & _ & ->). split; [done|]. cbn. set_solver.
  - destruct (Hrun pid Hin) as (_ & _ & ->). split; [done|]. cbn. set_solver.
Qed.

(** The PID file keeps a second instance out when the instances start one
    after the other: through any starts, ends and kills there is at most one,
    and a file left by a killed one does not stand in the way of the next.  The
    check and the write are two steps, and two instances that both check
    before either writes both run. *)
Theorem one_instance_unless_together :
  (forall s, rtc atomic_step no_instances s ->
     (size (running s) <= 1)%nat /\
     (running s = ∅ -> forall pid, 0 < pid <= i32_max -> atomic_step s (written pid (checked pid s)))) /\
  (forall p q, 0 < p <= i32_max -> 0 < q <= i32_max -> p <> q ->
     exists s, rtc instance_step no_instances s /\ p ∈ running s /\ q ∈ running s).
Proof.
  split.
  - intros s Hs. assert (Hone : one_instance s).
    { remember no_instances as s0 eqn:E0.
      assert (H0 : one_instance s0) by (subst; split; [done|set_solver]). clear E0.
      induction Hs as [|s0 s1 s2 Hstep _ IH]; [done|]. by apply IH, (atomic_one s0). }
    destruct Hone as [Hst Hrun]. split.
    + destruct (decide (running s = ∅)) as [->|Hne]; [by rewrite size_empty; lia|].
      apply set_choose_L in Hne as [pid Hin]. destruct (Hrun pid Hin) as (_ & _ & ->).
      by rewrite size_singleton.
    + intros Hr pid Hp. constructor; [done| |].
      * unfold lives. apply bool_decide_eq_false_2. rewrite Hst, Hr. set_solver.
      * unfold pid_refusal. destruct (pid_file s); [|done].
        unfold lives. rewrite bool_decide_eq_false_2 by (rewrite Hst, Hr; set_solver).
        by rewrite andb_false_r.
  - intros p q Hp Hq Hne.
    exists (written q (written p (checked q (checked p no_instances)))). split; [|cbn; set_solver].
    eapply rtc_l; [apply (step_check p); [done|by apply bool_decide_eq_false_2|done]|].
    eapply rtc_l; [apply (step_check q); [done|apply bool_decide_eq_false_2; cbn; set_solver|done]|].
    eapply rtc_l; [apply (step_write p); cbn; set_solver|].
    apply rtc_once, (step_write q). cbn. set_solver.
Qed.

(** A first instance that ends removes the file of the second. *)
Lemma exit_removes_the_others_file p q s :
  p ∈ running s -> q ∈ running s -> p <> q ->
  exists s', instance_step s s' /\ q ∈ running s' /\ pid_file s' = None.
Proof. intros Hp Hq Hne. eexists. split; [by apply (step_exit p)|]. cbn. set_solver. Qed.

Theorem one_instance_unless_together_witness :
  exists s, rtc instance_step no_instances s /\ 100 ∈ running s /\ 200 ∈ running s.
Proof. apply (proj2 one_instance_unless_together 100 200); unfold i32_max; lia. Defined.

(** ** The listener and the registration *)

Section shell_props.
Context `{Aead} `{Base64} `{Hex} `{Sha2} `{JsonCodec} `{Hmac} `{Blake2}.

(** The listener works with the key the database was opened with. *)
Lemma listener_key_agrees w random f key :
  (load_or_create w random (Some f)).2 = Ok key <-> listener_key (Some f) = Some key.
Proof.
  unfold load_or_create, listener_key. cbn.
  destruct (hex_decode (trim f)) as [k|]; cbn; [|done]. destruct (zlen k =? 32); [|done].
  split; by intros [= ->].
Qed.

(** [--seed] does not reach the registration. *)
Lemma register_ignores_seed arg discovered : register_url (Some arg) discovered = discovered.
Proof. done. Qed.

(** ** The contact cache, with masks that hide nothing *)

Lemma contact_hash_ok fp : contact_hash fp = Ok (sha256 (str_bytes fp)).
Proof. unfold contact_hash, sha256_hex. by rewrite hex_decode_encode by apply sha256_ok. Qed.

Lemma entry_new_ok hash meta :
  length hash = 32%nat -> empty_slot hash = false -> Pir.entry_ok (entry_new hash meta).
Proof.
  intros Hl He. unfold Pir.entry_ok, entry_new. cbn [metadata fingerprint_hash].
  rewrite (take_ge hash) by lia. split_and!.
  - rewrite !length_app, length_take, length_replicate. unfold PIR_ENTRY_SIZE. lia.
  - rewrite take_app_le by lia. by apply take_ge; lia.
  - unfold empty_slot in *. rewrite forallb_app. by rewrite He.
Qed.

(** The identifier in an entry, when it fits and has no zero byte. *)
Lemma address_of_entry hash nid :
  length hash = 32%nat -> (length (str_bytes nid) <= 192)%nat -> str_ok nid ->
  str_all (fun a => negb (Ascii.eqb a NUL)) nid = true ->
  entry_address (entry_new hash (str_bytes nid)) = nid.
Proof.
  intros Hh Hn Hs Hz. unfold entry_address, entry_new. cbn [metadata].
  rewrite (take_ge hash) by lia. rewrite drop_app_length' by done.
  rewrite (take_ge (str_bytes nid)) by (unfold PIR_ENTRY_SIZE; lia).
  rewrite utf8_lossy_valid by exact Hs.
  set (k := (PIR_ENTRY_SIZE - 32 - _)%nat).
  assert (Hr : utf8_lossy (replicate k 0) = replicate k 0).
  { clear. induction k as [|k IH]; [done|]. cbn [replicate utf8_lossy]. by rewrite IH. }
  rewrite Hr. rewrite bytes_str_app, bytes_str_bytes. apply trim_end_body; [done|].
  clear. induction k as [|k IH]; [done|]. cbn [replicate]. exact IH.
Qed.

(** A cache of one contact finds it, when no byte of the masks is set. *)
Lemma cache_of_one rng pk nid fp :
  (forall i, rng i = replicate PIR_BIN_SIZE 0) -> nid <> "" ->
  (length (str_bytes nid) <= 192)%nat -> str_ok nid ->
  str_all (fun a => negb (Ascii.eqb a NUL)) nid = true -> empty_slot (sha256 (str_bytes fp)) = false ->
  exists reg, cache_build [(nid, fp)] ∅ = (reg, Ok tt) /\ cache_lookup rng pk fp reg = Ok (Some nid).
Proof.
  intros Hrng Hne Hn Hs Hz He. set (hash := sha256 (str_bytes fp)) in *.
  assert (Hl : length hash = 32%nat) by apply sha256_length.
  set (e := entry_new hash (str_bytes nid)).
  assert (Hok : Pir.entry_ok e) by by apply entry_new_ok.
  set (idx := from_be_bytes (take 4 (sha256 (str_bytes "pir-cuckoo-v1" ++ hash ++ be_bytes 4 0)))).
  set (bin := concat (to_bytes e :: replicate 17 zero_slot)).
  assert (Hb : bin_holds bin [e]).
  { split; [apply Nat.leb_le; reflexivity|]. split; [by constructor|]. reflexivity. }
  exists (<[idx := bin]> (<[idx := new_bin]> ∅)). split.
  - unfold cache_build, cache_contact, st_bind, st_lift. rewrite contact_hash_ok. fold hash.
    change (prepare_registration hash) with (Some (idx, entry_new hash [])). cbn iota beta.
    fold e. unfold add_entry, st_bind, st_get, st_put, st_modify. rewrite lookup_empty. cbn [opt_or].
    rewrite (bin_slots new_bin [] new_bin_holds), (fill_slots _ [] _) by constructor. reflexivity.
  - assert (Hp : forall r, bin_data r = bin ->
        process_response r (replicate PIR_BIN_SIZE 0) hash = Some (entry_from_bytes (metadata e))).
    { intros r Hr. unfold process_response. rewrite Hr, <- (bin_length bin [e] Hb), xor_zero_mask.
      rewrite (bin_slots bin [e] Hb), scan_entries by (done || by constructor). cbn [List.find].
      unfold matches. by rewrite bool_decide_eq_true_2. }
    unfold cache_lookup. rewrite contact_hash_ok. fold hash. cbn [rbind]. f_equal.
    unfold query_contact, cuckoo_hash_bins, PIR_CUCKOO_FANOUT. cbn [seq fmap list_fmap imap cache_scan].
    unfold handle_query at 1, get_bin. cbn [bin_index xor_mask]. fold idx. rewrite lookup_insert_eq, Hrng.
    cbn [mbind option_bind]. rewrite Hp by done. cbn [mbind option_bind].
    change (entry_address (entry_from_bytes (metadata e))) with (entry_address e).
    unfold e at 1 2. rewrite address_of_entry by done. by destruct nid.
Qed.
End shell_props.
