(* ===== verification/ClientDirect.v ===== *)
(** * Direct messages (src/client/src/main.rs)

    [send_message] and [handle_incoming_connection]: one client greets the
    other over a websocket, both agree on a ratchet session, and a message, an
    acknowledgement and a receipt are exchanged.  The sender runs against a
    [Server]; the listener reads a list of frames and writes texts.  A network
    with a listener at one address and anything at the others
    ([around_server]) shows that no message is delivered directly
    ([direct_delivery_impossible]). *)

From S2P Require Import Prelude Text Files Primitives Concrete Constants Pow Identity CertCache.
From S2P Require Import DeliveryTokens Ratchet Kyber Padding ClientStore ClientRelay ClientRelayProps.
From S2P Require Import ClientHome ClientDht.
From S2P Require Import Json Envelope Handshake WireText.

(** [&s[..n]]: panics beyond the end and inside a character. *)
Definition str_prefix (n : nat) (s : string) : option string :=
  if (Z.of_nat n <=? slen s) &&
     match drop n (str_bytes s) with b :: _ => negb (cont b) | [] => true end
  then Some (str_take n s) else None.

(** [&text[text.find('{').unwrap_or(0)..]] *)
Definition from_brace (text : string) : string := str_drop (opt_or (str_find "{"%char text) O) text.

Definition line_feed : string := String newline "".

(** What the sender prints about its message. *)
Inductive event : Type :=
| Delivered
| ReadByPeer (received_at : f64)
| HashMismatch
| BadReceipt
| SocketError (e : string).

(** What a call finds around it, besides the surroundings of [ClientRelay]. *)
Record direct_env : Type := mkDirectEnv {
  d_stamp : nat -> stamp;       (* envelopes *)
  d_challenge : Z;              (* uuid_hex *)
  d_instant : Z;                (* certificate cache *)
  d_secs : nat -> Z;            (* Utc::now().timestamp() *)
  d_store_io : bool;            (* store_message *)
  d_store_nonce : bytes;
  d_store_time : string;
  d_token_write : write_end;    (* generate_delivery_token *)
  d_token_fresh : bytes;
  d_coins : bytes;              (* encapsulation of the message *)
}.

Section direct.
Context `{Kem} `{Aead} `{Hkdf} `{Hmac} `{Hex} `{Base64} `{Sha2} `{Blake2} `{Argon2} `{Sequoia}.
Context `{JsonCodec} `{WireCodec} `{Format} `{SessionCodec}.

(** The certificates cached by this process; a lookup only reads them. *)
Variable certs : cert_cache.

Definition peer_verifies (now : Z) (data sig fp : string) : bool :=
  (verify_signature now data sig fp certs).2.

(** Source: client/src/main.rs:2352-2366, verify_receipt_signature. *)
Definition verify_receipt_signature (now : Z) (msg_hash : string) (received_at : f64)
    (signature recipient_fp : string) : bool :=
  if str_is_empty signature then false
  else
    let sig_data := "p2p-receipt:" +:+ msg_hash +:+ ":" +:+ fmt_f64 received_at +:+ ":" +:+ pretty 1 in
    peer_verifies now sig_data signature recipient_fp.

Definition sha256_hex_bytes (b : bytes) : string := hex_encode (sha256 b).

(** [v.get(k).and_then(|x| x.as_str()).unwrap_or(d)] at the top level. *)
Definition top_str (v : value) (k d : string) : string := opt_or (Json.get v k ≫= as_str) d.

(** ** The listener *)

(** The files and the database, the frames still to come, the texts written. *)
Abbreviation home := (disk * MessageStore)%type.
Abbreviation listening := (st (home * (list relay_frame * list string)) client_error).

Definition on_home {A} (m : st home client_error A) : listening A := fun '(s, w) =>
  let (s', r) := m s in ((s', w), r).
Definition next_frame : listening (option relay_frame) := fun '(s, (fs, out)) =>
  match fs with [] => ((s, ([], out)), Ok None) | f :: fs' => ((s, (fs', out)), Ok (Some f)) end.
Definition write_frame (text : string) : listening unit := fun '(s, (fs, out)) =>
  ((s, (fs, out ++ [text])), Ok tt).

(** What the listener requires of a greeting: who sent it, and the Kyber key it
    brings. Source: client/src/main.rs:2184-2215, handle_incoming_connection. *)
Definition check_hello (now : Z) (hello_text : string) : result client_error (string * option enc_key) :=
  let? hello := ok_or (json_parse hello_text) (Plain "json") in
  if negb (bool_decide (Json.get hello "type" ≫= as_str = Some "p2p-hello")) then Err (Plain "expected p2p-hello")
  else
    let peer_sig := top_str hello "sig" "" in
    let peer_fp := top_str hello "public_key" "unknown" in
    if str_is_empty peer_sig then Err (Plain "p2p-hello has no signature — rejecting (MITM risk)")
    else if negb (peer_verifies now ("p2p-hello:" +:+ from_brace hello_text +:+ line_feed) peer_sig peer_fp)
    then Err (Plain ("p2p-hello signature verification failed for " +:+ peer_fp))
    else
      Ok (peer_fp,
          kyber_b64 ← Json.get hello "kyber_enc_key" ≫= as_str;
          match decode_enc_key kyber_b64 with Ok k => Some k | Err _ => None end).

(** [sign_for_transport]. *)
Definition signed (x : surroundings) (data : string) : result client_error string := plain (x_sign x data).

(** The answer. Source: client/src/main.rs:2221-2239, handle_incoming_connection. *)
Definition hello_ack (x : surroundings) (y : direct_env) (self : ClientRelay.Identity) (our_kyber : keypair)
  : result client_error WireEnvelope :=
  let our_kyber_enc_b64 := encode_enc_key (enc our_kyber) in
  let challenge := Envelope.uuid_hex (d_challenge y) in
  let ack_sig_data := "p2p-hello-ack:" +:+ fmt_value
    (VObject [("public_key", VString (fingerprint self)); ("nonce", json_int 1); ("pow_bits", json_int 16);
              ("server_challenge", VString challenge); ("kyber_enc_key", VString our_kyber_enc_b64)])
    +:+ line_feed in
  let? ack_sig := signed x ack_sig_data in
  Ok (build_p2p_hello_ack_signed (d_stamp y 0) (fingerprint self) 1 16 challenge our_kyber_enc_b64 ack_sig).

(** A session over a fresh encapsulation, saved before it is used; the
    ciphertext of the encapsulation is dropped.
    Source: client/src/main.rs:2241-2262, handle_incoming_connection. *)
Definition fresh_session (x : surroundings) (self : ClientRelay.Identity) (peer_fp : string)
    (initiator : bool) (peer_kyber : enc_key) : st home client_error RatchetState :=
  let (_, shared_secret) := encapsulate peer_kyber (x_coins x) in
  let peer_nid := Identity.null_id peer_fp in
  do session <- st_lift (wrapped "ratchet init: "
                  (Ratchet.new peer_fp peer_nid (fingerprint self) initiator shared_secret));
  do! (fun s => let (s', r) := keep_session x peer_nid session s in
                (s', match r with Err (Plain e) => Err (Plain ("ratchet save: " +:+ e)) | r => r end));
  st_ret session.

(** Source: client/src/main.rs:2299-2323, handle_incoming_connection. *)
Definition receipts (x : surroundings) (y : direct_env) (ciphertext plaintext : string) : listening unit :=
  let hash := sha256_hex plaintext in
  do ack_sig <- st_lift (signed x ("p2p-ack:" +:+
                  fmt_value (VObject [("seq", json_int 1); ("msg_hash", VString hash)]) +:+ line_feed));
  do! write_frame (to_json (build_p2p_ack_signed (d_stamp y 1) 1 hash ack_sig));
  do receipt_sig <- st_lift (signed x ("p2p-receipt:" +:+ sha256_hex ciphertext +:+ ":" +:+
                      fmt_f64 (f64_of_Z (d_secs y 0)) +:+ ":" +:+ pretty 1));
  write_frame (to_json (build_p2p_receipt (d_stamp y 2) hash (f64_of_Z (d_secs y 1)) 1 receipt_sig)).

(** What is printed about the signature of a message.
    Source: client/src/main.rs:2269-2284, handle_incoming_connection. *)
Inductive notice : Type := Unsigned | Unverified | Verified.

Definition message_notice (now : Z) (peer_fp msg_text : string) (msg : value) : notice :=
  let msg_sig := top_str msg "sig" "" in
  if str_is_empty msg_sig then Unsigned
  else if peer_verifies now ("p2p-message:" +:+ from_brace msg_text +:+ line_feed) msg_sig peer_fp then Verified
  else Unverified.

(** One message of a greeted peer: the plaintext shown, and the notice.
    Source: client/src/main.rs:2264-2330, handle_incoming_connection. *)
Definition incoming_message (x : surroundings) (y : direct_env) (self : ClientRelay.Identity)
    (our_kyber : keypair) (peer_fp : string) (session : RatchetState) (msg_text : string)
  : listening (option (string * notice)) :=
  do msg <- st_lift (ok_or (json_parse msg_text) (Plain "json"));
  if negb (bool_decide (Json.get msg "type" ≫= as_str = Some "p2p-message")) then st_ret None
  else
    let noted := message_notice (d_instant y) peer_fp msg_text msg in
    let ciphertext := top_str msg "ciphertext" "" in
    let (_, r) := decrypt_message ciphertext (dec our_kyber) session in
    do padded_plaintext <- st_lift (wrapped "decrypt failed: " r);
    do plaintext <- st_lift (plain (unpad_message_bucket padded_plaintext));
    do! on_home (fun '(d, m) =>
          ((d, (store_message (d_store_io y) (d_store_nonce y) (d_store_time y) peer_fp
                  (ClientRelay.null_id self) ciphertext m).1), Ok tt));
    do! receipts x y ciphertext plaintext;
    st_ret (Some (plaintext, noted)).

(** The plaintext shown, if any. Source: client/src/main.rs:2173-2339, handle_incoming_connection. *)
Definition handle_incoming_connection (x : surroundings) (y : direct_env) (self : ClientRelay.Identity)
  : listening (option (string * notice)) :=
  do fr <- next_frame;
  match fr with
  | Some (RText hello_text) =>
      do (peer_fp, peer_kyber_enc) <- st_lift (check_hello (d_instant y) hello_text);
      do our_kyber <- on_home (load_or_generate_kyber x (ClientRelay.null_id self));
      do ack <- st_lift (hello_ack x y self our_kyber);
      do! write_frame (to_json ack);
      do peer_kyber <- st_lift (ok_or peer_kyber_enc (Plain "no peer Kyber key"));
      do session <- on_home (fresh_session x self peer_fp false peer_kyber);
      do fr <- next_frame;
      match fr with
      | Some (RText msg_text) => incoming_message x y self our_kyber peer_fp session msg_text
      | _ => st_ret None
      end
  | _ => st_ret None
  end.

(** ** The sender *)

Context {S : Type} `{Server S}.

(** The files and the database, and the connection. *)
Abbreviation sending := (st (home * (S * list relay_frame)) client_error).

Definition at_home {A} (m : st home client_error A) : sending A := fun '(s, w) =>
  let (s', r) := m s in ((s', w), r).
Definition on_link {A} (m : st (S * list relay_frame) client_error A) : sending A := fun '(s, w) =>
  let (w', r) := m w in ((s, w'), r).

(** The greeting: its signature covers the payload as it is printed.
    Source: client/src/main.rs:1933-1943, send_message. *)
Definition signed_hello (x : surroundings) (y : direct_env) (self : ClientRelay.Identity) (our_kyber : keypair)
  : result client_error WireEnvelope :=
  let our_kyber_enc_b64 := encode_enc_key (enc our_kyber) in
  let hello := build_p2p_hello (d_stamp y 0) (fingerprint self) 1 16 our_kyber_enc_b64 "" in
  let? hello_sig := signed x ("p2p-hello:" +:+ fmt_value (payload hello) +:+ line_feed) in
  Ok (build_p2p_hello_signed (d_stamp y 1) (fingerprint self) 1 16 our_kyber_enc_b64 "" hello_sig).

(** What the sender requires of the answer: the Kyber key it brings.
    Source: client/src/main.rs:1949-1990, send_message. *)
Definition check_ack (now : Z) (fr : option relay_frame) : result client_error (option enc_key) :=
  match fr with
  | Some (RText resp) =>
      let? ack := ok_or (json_parse resp) (Plain "json") in
      if negb (bool_decide (Json.get ack "type" ≫= as_str = Some "p2p-hello-ack"))
      then Err (Plain ("Unexpected response: " +:+ resp))
      else
        let ack_sig := top_str ack "sig" "" in
        let ack_fp := top_str ack "public_key" "unknown" in
        if str_is_empty ack_sig then Err (Plain "p2p-hello-ack has no signature — rejecting (MITM risk)")
        else if negb (peer_verifies now ("p2p-hello-ack:" +:+ line_feed +:+ from_brace resp) ack_sig ack_fp)
        then Err (Plain ("p2p-hello-ack signature verification failed for " +:+ ack_fp +:+ " — possible MITM"))
        else
          Ok (kyber_b64 ← Json.get ack "kyber_enc_key" ≫= as_str;
              match decode_enc_key kyber_b64 with Ok k => Some k | Err _ => None end)
  | _ => Err (Plain "No hello-ack received")
  end.

(** The message and what is printed and stored of it.
    Source: client/src/main.rs:2012-2032, send_message. *)
Definition direct_message (x : surroundings) (y : direct_env) (session : RatchetState) (peer_kyber : enc_key)
    (message : string) : result client_error (WireEnvelope * string * string) :=
  let? padded_message := ok_or (pad_message_bucket (x_padding x) message) Panicked in
  let? encrypted_msg := wrapped "" (encrypt_message (x_nonce x) (d_coins y) padded_message peer_kyber session).2 in
  let encrypted_msg_b64 := b64_encode encrypted_msg in
  let msg_hash := sha256_hex_bytes encrypted_msg in
  let? msg_sig := signed x ("p2p-message:" +:+
    fmt_value (VObject [("seq", json_int 1); ("ciphertext", VString encrypted_msg_b64);
                        ("msg_hash", VString msg_hash)])) in
  Ok (build_p2p_message_signed (d_stamp y 2) 1 encrypted_msg_b64 msg_hash msg_sig, encrypted_msg_b64, msg_hash).

(** Source: crypto/src/delivery_tokens.rs:194-203, DeliveryTokenMessage. *)
Definition token_text (t : DeliveryTokenMessage) : string :=
  json_print (VObject [("token", VString (tm_token t)); ("sender_key_hash", VString (tm_sender_key_hash t));
                       ("timestamp", json_int (tm_timestamp t))]).

(** A receipt. The prefixes of both hashes are printed when they differ.
    Source: client/src/main.rs:2063-2098, send_message. *)
Definition read_receipt (now : Z) (recipient_fp msg_hash : string) (msg_val : value) : result client_error event :=
  let field k := Json.get msg_val "payload" ≫= (fun p => Json.get p k) in
  let receipt_msg_hash := opt_or (field "msg_hash" ≫= as_str) "" in
  let received_at := opt_or (field "received_at" ≫= as_f64) (f64_of_Z 0) in
  let receipt_sig := top_str msg_val "sig" "" in
  if verify_receipt_signature now receipt_msg_hash received_at receipt_sig recipient_fp then
    if String.eqb receipt_msg_hash msg_hash then Ok (ReadByPeer received_at)
    else
      let? _ := ok_or (str_prefix 16 msg_hash) Panicked in
      let? _ := ok_or (str_prefix 16 receipt_msg_hash) Panicked in
      Ok HashMismatch
  else Ok BadReceipt.

(** The loop: it ends when both an acknowledgement and a receipt have come, when
    the connection ends or after ten seconds of silence (the end of the list).
    Source: client/src/main.rs:2041-2115, send_message. *)
Fixpoint await_receipts (now : Z) (recipient_fp msg_hash : string) (ack receipt : bool) (fs : list relay_frame)
  : list event * result client_error unit :=
  match fs with
  | [] => ([], Ok tt)
  | RText resp :: fs' =>
      match json_parse resp with
      | None => ([], Err (Plain "json"))
      | Some msg_val =>
          let t := top_str msg_val "type" "" in
          if String.eqb t "p2p-ack" then
            if receipt then ([Delivered], Ok tt)
            else let (l, r) := await_receipts now recipient_fp msg_hash true receipt fs' in (Delivered :: l, r)
          else if String.eqb t "p2p-receipt" then
            match read_receipt now recipient_fp msg_hash msg_val with
            | Err e => ([], Err e)
            | Ok ev =>
                if ack then ([ev], Ok tt)
                else let (l, r) := await_receipts now recipient_fp msg_hash ack true fs' in (ev :: l, r)
            end
          else if ack && receipt then ([], Ok tt)
          else await_receipts now recipient_fp msg_hash ack receipt fs'
      end
  | RError e :: _ => ([SocketError e], Ok tt)
  | _ :: fs' => await_receipts now recipient_fp msg_hash ack receipt fs'
  end.

(** What follows a connection. Source: client/src/main.rs:1929-2135, send_message. *)
Definition send_direct (x : surroundings) (y : direct_env) (self : ClientRelay.Identity)
    (recipient_nid recipient_fp message : string) : sending (list event) :=
  do our_kyber <- at_home (load_or_generate_kyber x (ClientRelay.null_id self));
  do hello <- st_lift (signed_hello x y self our_kyber);
  do! on_link (ws_send "P2P hello failed: " (to_json hello));
  do fr <- on_link ws_next;
  do peer_kyber_enc <- st_lift (check_ack (d_instant y) fr);
  do peer_kyber <- st_lift (ok_or peer_kyber_enc (Plain "no peer Kyber key"));
  do session <- at_home (fresh_session x self recipient_fp true peer_kyber);
  do (p2p_msg, encrypted_msg_b64, msg_hash) <- st_lift (direct_message x y session peer_kyber message);
  do token <- at_home (fun '(d, m) =>
       let (d', r) := generate_delivery_token (d_token_write y) (d_token_fresh y) (d_secs y 0) recipient_nid 1 d in
       ((d', m), r));
  do! (fun s => ((on_link (ws_send "" (token_text token)) s).1, Ok tt));
  do! on_link (ws_send "P2P send failed: " (to_json p2p_msg));
  fun '((d, m), (s, fs)) =>
    let (events, r) := await_receipts (d_instant y) recipient_fp msg_hash false false fs in
    match r with
    | Err e => (((d, m), (s, [])), Err e)
    | Ok _ =>
        (((d, (store_message (d_store_io y) (d_store_nonce y) (d_store_time y) (ClientRelay.null_id self)
                 recipient_nid encrypted_msg_b64 m).1), (s, [])), Ok events)
    end.

(** [send_via_relay] over a connection: connected first, kept when the relay has
    answered ok. Source: client/src/main.rs:1496-1644, send_via_relay. *)
Definition relay_send (x : surroundings) (relay_url : string) (self : ClientRelay.Identity)
    (recipient_nid recipient_fp message : string) : sending unit :=
  do! on_link (ws_connect "Relay connect failed: " (ws_url relay_url));
  do (payload, session) <- at_home (prepare x self recipient_nid recipient_fp message);
  do! on_link (ws_send "relay-store send failed: " (json_print (store_request x payload)));
  do! on_link (fun '(s, fs) => ((s, []), await_ok fs));
  at_home (keep_session x recipient_nid session).

(** How a message went. *)
Inductive delivery : Type := Direct (events : list event) | ByRelay.

(** A message goes to the address found in the DHT, and through the relay when
    there is none or nobody answers there; a failure after that is final.
    Source: client/src/main.rs:1886-2122, send_message. *)
Definition send_message (x : surroundings) (y : direct_env) (relay_url : string) (self : ClientRelay.Identity)
    (recipient_nid message : string) (lookup : st (S * list relay_frame) client_error string)
  : sending delivery := fun '((d, m), w) =>
  match load_contacts d !! recipient_nid with
  | None => (((d, m), w), Err (Plain "unknown contact — add with 'add-contact' first"))
  | Some recipient_fp =>
      let (w1, recipient_addr) := lookup w in
      let relayed w := (do! relay_send x relay_url self recipient_nid recipient_fp message; st_ret ByRelay) ((d, m), w) in
      match recipient_addr with
      | Err _ => relayed w1
      | Ok addr =>
          match ws_connect "" (ws_url addr) w1 with
          | (w2, Err _) => relayed w2
          | (w2, Ok _) =>
              (do events <- send_direct x y self recipient_nid recipient_fp message; st_ret (Direct events)) ((d, m), w2)
          end
      end
  end.

(** A request that [send_via_relay] would send is sent, and the same session is
    kept, when the server takes it and answers ok. *)
Lemma relay_send_ok x url self nid fp message dm dm' req s s1 s2 b fs :
  send_via_relay x self nid fp message dm = (dm', Some req, Ok tt) ->
  srv_connect (ws_url url) s = (s1, Ok tt) -> srv_say (json_print req) s1 = (s2, Ok fs) -> await_ok fs = Ok tt ->
  relay_send x url self nid fp message (dm, (s, b)) = ((dm', (s2, [])), Ok tt).
Proof.
  unfold send_via_relay, relay_send. intros Hs Hc Hsay Hok.
  unfold st_bind at 1, on_link at 1, ws_connect. rewrite Hc. unfold st_bind at 1, at_home at 1.
  destruct (prepare x self nid fp message dm) as [dm1 [[p k]|e]]; [|done].
  unfold st_bind, st_lift in Hs. destruct (await_ok (x_frames x)) as [[]|e]; [|by injection Hs].
  destruct (keep_session x nid k dm1) as [dm2 r] eqn:Ek. injection Hs as -> <- ->.
  unfold st_bind at 1, on_link at 1, ws_send. rewrite Hsay. cbn [app].
  unfold st_bind, on_link, at_home. by rewrite Hok, Ek.
Qed.
End direct.

(** ** What the listener accepts *)

Lemma st_bind_ok {S E A B} (a : A) (k : A -> st S E B) s : st_bind (st_lift (Ok a)) k s = k a s.
Proof. done. Qed.

Section accepting.
Context `{Kem} `{Aead} `{Hkdf} `{Hmac} `{Hex} `{Base64} `{Sha2} `{Blake2} `{Argon2} `{Sequoia}.
Context `{JsonCodec} `{WireCodec} `{Format} `{SessionCodec} `{!WireText}.
Variable certs : cert_cache.

Abbreviation listen := (handle_incoming_connection certs).
Abbreviation check := (check_hello certs).

(** Without a fingerprint nobody is verified; neither is anyone whose
    certificate is not cached, and nothing in the client caches one. *)
Lemma unknown_not_verified now data sg : peer_verifies certs now data sg "unknown" = false.
Proof. done. Qed.

Lemma empty_cache_verifies_none now data sg fp : peer_verifies None now data sg fp = false.
Proof.
  unfold peer_verifies, verify_signature. destruct (validate_fingerprint fp); [|done]. cbn [negb].
  by destruct (decode_sig sg).
Qed.

(** The greeting a client sends is not one a client accepts: its fields are in
    the payload, and are looked for beside it. *)
Lemma hello_refused x y self kp e now :
  signed_hello x y self kp = Ok e -> f64_finite (st_now (d_stamp y 1)) = true ->
  exists er, check now (to_json e) = Err er.
Proof.
  unfold signed_hello. destruct (signed x _) as [sg|]; [|done]. cbn [rbind]. intros [= <-] Hf.
  set (e := build_p2p_hello_signed _ _ _ _ _ _ _).
  destruct (wire_members e
    [("public_key", VString (fingerprint self)); ("nonce", json_int 1); ("pow_bits", json_int 16);
     ("kyber_enc_key", VString (encode_enc_key (enc kp))); ("sealed_identity", VString "")])
    as (m & Hj & Ht & Hn); [done|by apply (bool_decide_eq_true_1 _)|by repeat constructor|done|].
  unfold check_hello. rewrite Hj. cbn [ok_or rbind]. unfold top_str, Json.get. rewrite Ht.
  cbn [mbind option_bind as_str]. rewrite bool_decide_true by done. cbn [negb].
  rewrite (Hn "public_key") by (by apply (bool_decide_eq_true_1 _)). cbn [mbind option_bind opt_or].
  destruct (str_is_empty _); [by eexists|]. rewrite unknown_not_verified. by eexists.
Qed.

(** A refused greeting ends the connection without a word. *)
Lemma refused_silently x y self s text fs out er :
  check (d_instant y) text = Err er ->
  listen x y self (s, (RText text :: fs, out)) = ((s, (fs, out)), Err er).
Proof.
  intros Hc. unfold handle_incoming_connection, st_bind at 1, next_frame.
  unfold st_bind at 1, st_lift. by rewrite Hc.
Qed.

(** The token that goes before the message is taken for the message. *)
Lemma token_taken_for_message x y self kp fp session t w :
  0 <= tm_timestamp t < 2 ^ 64 ->
  incoming_message certs x y self kp fp session (token_text t) w = (w, Ok None).
Proof.
  intros Ht. unfold token_text.
  destruct (json_parse_print_flat [("token", VString (tm_token t));
    ("sender_key_hash", VString (tm_sender_key_hash t)); ("timestamp", json_int (tm_timestamp t))])
    as (m & Hj & Hm); [by apply (bool_decide_eq_true_1 _)| |].
  { apply Forall_cons_2; [exact I|]. apply Forall_cons_2; [exact I|].
    apply Forall_cons_2; [by apply flat_json_int|done]. }
  unfold incoming_message, st_bind at 1, st_lift. rewrite Hj. cbn [ok_or].
  assert (E : Json.get (VObject m) "type" = None) by (unfold Json.get; apply (Hm "type")).
  by rewrite E.
Qed.

(** A receipt is signed over the digest of the ciphertext and carries the digest
    of the plaintext, over which it is verified: the two texts agree only when
    the two digests do. *)
Lemma receipt_over_another_hash ct pt time time' :
  "p2p-receipt:" +:+ sha256_hex ct +:+ ":" +:+ time = "p2p-receipt:" +:+ sha256_hex pt +:+ ":" +:+ time' ->
  sha256 (str_bytes ct) = sha256 (str_bytes pt).
Proof.
  assert (Hn : forall s, no_char ":"%char (sha256_hex s) = true).
  { intros s. eapply str_all_impl; [|apply hex_encode_digits]. intros a Ha. apply negb_true_iff.
    destruct (Ascii.eqb_spec a ":"%char) as [->|]; done. }
  intros E. apply (f_equal (split_on ":"%char)) in E.
  assert (Hs : forall s t, split_on ":"%char ("p2p-receipt:" +:+ sha256_hex s +:+ ":" +:+ t) =
                 "p2p-receipt" :: sha256_hex s :: split_on ":"%char t).
  { intros s t. change ("p2p-receipt:" +:+ sha256_hex s +:+ ":" +:+ t)
      with ("p2p-receipt" +:+ String ":" (sha256_hex s +:+ String ":" t)).
    rewrite split_on_app by done. by rewrite split_on_app by apply Hn. }
  rewrite !Hs in E. injection E as E _. apply (f_equal hex_decode) in E. unfold sha256_hex in E.
  rewrite !hex_decode_encode in E by apply sha256_ok. by injection E.
Qed.

(** What is shown, whatever was printed about the signature. *)
Definition shown {S E A B} (o : S * result E (option (A * B))) : S * result E (option A) :=
  (o.1, match o.2 with Ok r => Ok (fst <$> r) | Err e => Err e end).

(** The signature of a message decides nothing but a remark.  Two texts of
    the same type with the same ciphertext are treated alike by a listener that
    has accepted the greeting, whether they are signed, unsigned or signed by
    somebody else: the same plaintext is shown, stored and acknowledged, or the
    same error ends the connection. *)
Theorem message_signature_ignored (x : surroundings) (y : direct_env) (self : ClientRelay.Identity)
    (kp : keypair) (peer_fp : string) (session : RatchetState) (t1 t2 : string) (v1 v2 : value)
    (w : (disk * MessageStore) * (list relay_frame * list string)) :
  json_parse t1 = Some v1 -> json_parse t2 = Some v2 ->
  Json.get v1 "type" = Json.get v2 "type" -> Json.get v1 "ciphertext" = Json.get v2 "ciphertext" ->
  shown (incoming_message certs x y self kp peer_fp session t1 w) =
  shown (incoming_message certs x y self kp peer_fp session t2 w).
Proof.
  intros Ht1 Ht2 Ht Hc. unfold incoming_message, top_str. rewrite Ht1, Ht2. cbn [ok_or].
  rewrite !st_bind_ok, Ht, Hc. destruct (negb _); [done|].
  set (ct := opt_or _ _). destruct (decrypt_message ct (dec kp) session) as [session' r].
  destruct (wrapped _ r) as [padded|]; [|done]. rewrite !st_bind_ok.
  destruct (plain _) as [pt|]; [|done]. rewrite !st_bind_ok.
  unfold st_bind. set (w1 := on_home _ w). destruct w1 as [w2 [u|]]; [|done].
  by destruct (receipts x y ct pt w2) as [w3 [u'|]].
Qed.
End accepting.

(** ** Two clients *)

(** A listener as the server of a sender: its files and database before the
    connection and now, the frames received and the texts written since. *)
Record listener : Type := mkListener {
  li_before : disk * MessageStore;
  li_home : disk * MessageStore;
  li_in : list relay_frame;
  li_out : list string;
}.

(** A listener that nobody is connected to. *)
Definition idle (h : disk * MessageStore) : listener := mkListener h h [] [].

(** The listener, everything else (the relay, the DHT, whoever else), and
    whether the open connection is to the listener. *)
Record Around (D : Type) : Type := mkAround { a_listener : listener; a_rest : D; a_here : bool }.
Arguments mkAround {D} _ _ _.
Arguments a_listener {D} _.
Arguments a_rest {D} _.
Arguments a_here {D} _.

Section two_clients.
Context `{Kem} `{Aead} `{Hkdf} `{Hmac} `{Hex} `{Base64} `{Sha2} `{Blake2} `{Argon2} `{Sequoia}.
Context `{JsonCodec} `{WireCodec} `{Format} `{SessionCodec} `{!WireText}.
Context {D : Type} `{Server D}.
(** The caches of the two, the surroundings of the listener, and where it listens. *)
Variables (certs certs' : cert_cache) (x' : surroundings) (y' : direct_env) (peer : ClientRelay.Identity).
Variable endpoint : string.

(** The listener runs on all it has received since the connection came: what it
    leaves in its files and its database is there, and what it writes beyond
    what was already delivered arrives. *)
Definition hear (text : string) (l : listener) : listener * result string (list relay_frame) :=
  let fs := li_in l ++ [RText text] in
  let '((h, (_, out)), _) := handle_incoming_connection certs' x' y' peer (li_before l, (fs, [])) in
  (mkListener (li_before l) h fs out, Ok (RText <$> drop (length (li_out l)) out)).

(** One address leads to the listener, every other to the rest. *)
Definition around_server : Server (Around D) := {|
  srv_connect url n :=
    if String.eqb url endpoint then (mkAround (idle (li_home (a_listener n))) (a_rest n) true, Ok tt)
    else let (d, r) := srv_connect url (a_rest n) in (mkAround (a_listener n) d false, r);
  srv_say raw n :=
    if a_here n then let (l, r) := hear raw (a_listener n) in (mkAround l (a_rest n) true, r)
    else let (d, r) := srv_say raw (a_rest n) in (mkAround (a_listener n) d false, r) |}.
#[local] Existing Instance around_server.

(** The key is loaded, or written to its file, and to nothing else. *)
Lemma load_or_generate_files x nid d m :
  exists d' r, load_or_generate_kyber x nid (d, m) = ((d', m), r) /\ forall p, p <> KYBER_KEY_PATH -> d' !! p = d !! p.
Proof.
  unfold load_or_generate_kyber. destruct (d !! KYBER_KEY_PATH); [by eexists _, _|].
  destruct (derive_kyber nid) as [kp|er]; [|by eexists _, _].
  destruct (save _ _ _ _ _ _) as [d' r] eqn:Es.
  assert (E : forall p, p <> KYBER_KEY_PATH -> d' !! p = d !! p).
  { intros p Hp. pose proof (save_other (x_file_io x) (x_file_nonce x) KYBER_KEY_PATH (db_key m) kp d p Hp) as Ho.
    by rewrite Es in Ho. }
  by destruct r as [u|er]; eexists _, _.
Qed.

(** The listener hears the greeting and says nothing. *)
Lemma hello_unanswered x y self kp e h rest b :
  signed_hello x y self kp = Ok e -> f64_finite (st_now (d_stamp y 1)) = true ->
  ws_send "P2P hello failed: " (to_json e) (mkAround (D := D) (idle h) rest true, b) =
    ((mkAround (mkListener h h [RText (to_json e)] []) rest true, b), Ok tt).
Proof.
  intros He Hf. destruct (hello_refused certs' x y self kp e (d_instant y') He Hf) as [er Hr].
  unfold ws_send. cbn [srv_say around_server a_here a_listener a_rest]. unfold hear.
  cbn [li_in li_before li_out idle app].
  rewrite (refused_silently certs' x' y' peer h _ [] [] er Hr). cbn. by rewrite app_nil_r.
Qed.

(** What the listener has heard of a greeting: nothing, or the greeting. *)
Definition greeted (x : surroundings) (y : direct_env) (self : ClientRelay.Identity) (fs : list relay_frame) : Prop :=
  fs = [] \/ exists kp e, signed_hello x y self kp = Ok e /\ fs = [RText (to_json e)].

Lemma direct_fails x y self recipient_nid recipient_fp message d m h rest :
  f64_finite (st_now (d_stamp y 1)) = true ->
  exists d' fs b' er,
    send_direct certs x y self recipient_nid recipient_fp message ((d, m), (mkAround (D := D) (idle h) rest true, [])) =
      (((d', m), (mkAround (mkListener h h fs []) rest true, b')), Err er) /\
    greeted x y self fs /\ forall p, p <> KYBER_KEY_PATH -> d' !! p = d !! p.
Proof.
  intros Hf. unfold send_direct. unfold st_bind at 1, at_home at 1.
  destruct (load_or_generate_files x (ClientRelay.null_id self) d m) as (d' & [kp|er] & -> & Hd);
    [|eexists d', [], [], _; by repeat split; [..|left|]].
  unfold st_bind at 1, st_lift at 1.
  destruct (signed_hello x y self kp) as [e|er] eqn:He; [|eexists d', [], [], _; by repeat split; [..|left|]].
  unfold st_bind at 1, on_link at 1. rewrite (hello_unanswered x y self kp e h rest [] He Hf).
  eexists d', _, _, _. split; [done|]. split; [|done]. right. by exists kp, e.
Qed.

(** C23: no message is ever delivered directly.  Let a contact's address be
    found, whatever the lookup did, and let another client listen there; every
    other address leads to an arbitrary rest of the network, the relay included.
    Whatever certificates either has cached (time stamps are finite numbers):
    sending ends with an error.  All that the listener has heard is the
    greeting, if the sender could make one, and it answers nothing; running its
    handler leaves its files and its database as they were.  The rest of the
    network is as the lookup left it: although the code falls back to the relay
    when nobody listens, nothing goes through the relay.  The sender has stored
    no message and no session, and written no file but that of its Kyber key. *)
Theorem direct_delivery_impossible (x : surroundings) (y : direct_env) (self : ClientRelay.Identity)
    (relay_url recipient_nid recipient_fp message addr : string)
    (lookup : st (Around D * list relay_frame) client_error string)
    (d : disk) (m : MessageStore) (w : Around D * list relay_frame) (n1 : Around D) (b1 : list relay_frame) :
  load_contacts d !! recipient_nid = Some recipient_fp ->
  lookup w = ((n1, b1), Ok addr) -> ws_url addr = endpoint -> f64_finite (st_now (d_stamp y 1)) = true ->
  let h := li_home (a_listener n1) in
  exists d' fs b' er,
    send_message certs x y relay_url self recipient_nid message lookup ((d, m), w) =
      (((d', m), (mkAround (mkListener h h fs []) (a_rest n1) true, b')), Err er) /\
    greeted x y self fs /\ forall p, p <> KYBER_KEY_PATH -> d' !! p = d !! p.
Proof.
  intros Hc Hl Ha Hf h. unfold send_message. rewrite Hc, Hl. unfold ws_connect. cbn [srv_connect around_server].
  rewrite Ha, String.eqb_refl. fold h.
  destruct (direct_fails x y self recipient_nid recipient_fp message d m h (a_rest n1) Hf)
    as (d' & fs & b' & er & Hs & Hg). exists d', fs, b', er. split; [|done]. unfold st_bind. by rewrite Hs.
Qed.
End two_clients.

(** ** Concrete runs *)

Section concrete.
#[local] Existing Instances toy_kem toy_aead toy_hkdf toy_hmac toy_hex toy_base64 toy_sha2 toy_blake2 toy_argon2
  toy_sequoia toy_json toy_format toy_session_codec text_codec text_codec_laws.

Definition calm_direct : direct_env :=
  mkDirectEnv (fun k => mkStamp (Z.of_nat k) (f64_of_Z 1000)) 5 7 (fun _ => 1000) true (replicate 12 3) "now"
    Written (replicate 64 4) [9; 9].

Definition bob_fp : string := "AABBCCDDEEFF00112233445566778899".
Definition alice_home : disk := {[CONTACTS_PATH := json_print (str_object [("NN-1", bob_fp)])]}.

(** A relay that keeps what it is sent. *)
#[local] Instance keeps_all : Server (list string) := {|
  srv_connect := fun _ l => (l, Ok tt);
  srv_say := fun text l => (l ++ [text], Ok []) |}.

Theorem direct_delivery_impossible_witness :
  let here := "ws://10.0.0.1:9000" in
  let server := around_server None (ClientRelayProps.calm 2) calm_direct (mkIdentity bob_fp "NN-1") here in
  let h := (∅, open (replicate 32 2)) : disk * MessageStore in
  let m := open (replicate 32 1) in
  exists d' fs b' er,
    @send_message _ _ _ _ _ _ _ _ _ _ _ _ _ None _ server (ClientRelayProps.calm 1) calm_direct "wss://relay"
      (mkIdentity "F1" "NN-0") "NN-1" "hello" (st_ret "http://10.0.0.1:9000")
      ((alice_home, m), (mkAround (idle h) [] false, [])) =
      (((d', m), (mkAround (mkListener h h fs []) [] true, b')), Err er) /\
    d' !! CONTACTS_PATH = alice_home !! CONTACTS_PATH.
Proof.
  intros here server h m.
  destruct (direct_delivery_impossible None None (ClientRelayProps.calm 2) calm_direct (mkIdentity bob_fp "NN-1")
    here (ClientRelayProps.calm 1) calm_direct (mkIdentity "F1" "NN-0") "wss://relay" "NN-1" bob_fp "hello"
    "http://10.0.0.1:9000" (st_ret "http://10.0.0.1:9000") alice_home m
    (mkAround (idle h) [] false, []) (mkAround (idle h) [] false) [])
    as (d' & fs & b' & er & Hs & _ & Hd).
  - vm_compute. reflexivity.
  - reflexivity.
  - vm_compute. reflexivity.
  - reflexivity.
  - exists d', fs, b', er. split; [exact Hs|]. apply Hd. discriminate.
Defined.

Definition p2p_text (sg ct : string) : string :=
  json_print (str_object [("type", "p2p-message"); ("sig", sg); ("ciphertext", ct)]).

Definition some_pair : keypair := mkKeypair (ek_of (dk_from_seed [1])) (dk_from_seed [1]).
Definition some_session : RatchetState :=
  mkRatchetState bob_fp "NN-1" "F1" false (replicate 32 1) (replicate 32 2) (replicate 32 3) 0 0 ∅.

Theorem message_signature_ignored_witness :
  let at_listener sg :=
    shown (incoming_message None (ClientRelayProps.calm 1) calm_direct (mkIdentity "F1" "NN-0") some_pair bob_fp
      some_session (p2p_text sg "AAAA") ((∅, open (replicate 32 1)), ([], []))) in
  at_listener "" = at_listener "forged" /\ is_ok (at_listener "").2 = false.
Proof.
  split; [|vm_compute; reflexivity].
  apply (message_signature_ignored None (ClientRelayProps.calm 1) calm_direct (mkIdentity "F1" "NN-0") some_pair bob_fp
           some_session (p2p_text "" "AAAA") (p2p_text "forged" "AAAA")
           (opt_or (json_parse (p2p_text "" "AAAA")) VNull) (opt_or (json_parse (p2p_text "forged" "AAAA")) VNull));
    vm_compute; reflexivity.
Defined.
End concrete.
