(* ===== verification/ClientFetch.v ===== *)
(** * Reading the mailbox (src/client/src/main.rs)

    [relay_fetch], [relay_purge], the [read] command and the onion route, over
    the files and the database of the client and a connection to a relay. *)

From S2P Require Import Prelude Text Files Primitives Concrete Constants Pow Identity.
From S2P Require Import Ratchet Kyber Padding ClientStore ClientRelay ClientHome ClientDht ClientDirect.
From S2P Require Import Json Envelope Handshake.

Section fetch.
Context `{Kem} `{Aead} `{Hkdf} `{Hex} `{Base64} `{Sha2} `{Blake2} `{Sequoia} `{JsonCodec} `{Format} `{SessionCodec}.
Context {S : Type} `{Server S}.

Abbreviation home := (disk * MessageStore)%type.
Abbreviation online := (st (home * (S * list relay_frame)) client_error).

(** ** Fetching *)

(** Source: client/src/main.rs:1367-1367, relay_fetch. *)
Definition fetch_data (null_id : string) (timestamp : f64) (nonce : string) : string :=
  "relay-fetch:" +:+ null_id +:+ ":" +:+ fmt_f64 timestamp +:+ ":" +:+ nonce.

(** The certificate sent along is the secret key.
    Source: client/src/main.rs:1371-1385, relay_fetch. *)
Definition fetch_payload (self : ClientRelay.Identity) (null_id sig cert_armored : string) (timestamp : f64)
    (nonce : string) : value :=
  VObject [("recipient_nid", VString null_id); ("requester_fp", VString (fingerprint self));
           ("sender_sig", VString sig); ("sender_cert", VString cert_armored);
           ("timestamp", VNumber (Float timestamp)); ("nonce", VString nonce); ("auth_hmac", VString "")].

(** Source: client/src/main.rs:1371-1385, relay_fetch. *)
Definition fetch_request (x : surroundings) (payload : value) : value :=
  VObject [("msg_type", VString "relay-fetch"); ("msg_id", VString (x_msg_id x));
           ("ts", VNumber (Float (x_secs x))); ("sig", VString ""); ("payload", payload)].

(** Whatever is no text is skipped. Source: client/src/main.rs:1393-1406, relay_fetch. *)
Fixpoint first_text (fs : list relay_frame) : list relay_frame * result client_error string :=
  match fs with
  | [] => ([], Err (Plain "Relay closed connection without response"))
  | RText text :: fs' => (fs', Ok text)
  | RError e :: fs' => (fs', Err (Plain ("Relay websocket error: " +:+ e)))
  | _ :: fs' => first_text fs'
  end.

(** The entries of a reply: [None] when it has none.
    Source: client/src/main.rs:1407-1416, relay_fetch. *)
Definition reply_entries (resp_text : string) : result client_error (option (list value)) :=
  let? resp := ok_or (json_parse resp_text) (Plain "json") in
  match Json.get resp "error" ≫= as_str with
  | Some error => Err (Plain ("Relay error: " +:+ error))
  | None => Ok (data ← Json.get resp "data"; Json.get data "entries" ≫= as_array)
  end.

(** The identity, the key and the certificate are loaded, the request is signed
    and sent, and what is read is decrypted entry by entry, each with
    surroundings of its own. Source: client/src/main.rs:1338-1451, relay_fetch. *)
Definition relay_fetch (x : surroundings) (xs : nat -> surroundings) (nonce : Z) (relay_url null_id : string)
  : online (list string) :=
  do! on_link (ws_connect "Relay connect failed: " (ws_url relay_url));
  do self <- at_home (fun '(d, m) => ((d, m), load_identity d));
  do! at_home (load_or_generate_kyber x null_id);
  do cert_armored <- st_lift (plain (x_cert x));
  let nonce := Envelope.uuid_hex nonce in
  do sig <- st_lift (signed x (fetch_data null_id (x_secs x) nonce));
  do! on_link (ws_send "Relay send failed: "
        (json_print (fetch_request x (fetch_payload self null_id sig cert_armored (x_secs x) nonce))));
  do our_kyber <- at_home (load_or_generate_kyber x null_id);
  do resp_text <- on_link (fun '(s, fs) => let (fs', r) := first_text fs in ((s, fs'), r));
  do entries <- st_lift (reply_entries resp_text);
  match entries with
  | None => st_ret []
  | Some entries =>
      at_home (fun s => let (s', l) := read_entries (fingerprint self) our_kyber
                                         (imap (fun i e => (xs i, e)) entries) s in (s', Ok l))
  end.

(** ** Purging *)

Inductive purge_note : Type := Purged | PurgeWarning (e : string) | NoNote.

(** Source: client/src/main.rs:1470-1478, relay_purge. *)
Definition purge_request (self : ClientRelay.Identity) (null_id sig : string) (timestamp : f64) (nonce : string)
  : value :=
  VObject [("type", VString "relay-purge"); ("recipient_nid", VString null_id);
           ("requester_fp", VString (fingerprint self)); ("sender_sig", VString sig);
           ("timestamp", VNumber (Float timestamp)); ("nonce", VString nonce); ("auth_hmac", VString "")].

(** Source: client/src/main.rs:1453-1495, relay_purge. *)
Definition relay_purge (x : surroundings) (nonce : Z) (relay_url null_id : string) : online purge_note :=
  do! on_link (ws_connect "Relay connect failed for purge: " (ws_url relay_url));
  do self <- at_home (fun '(d, m) => ((d, m), load_identity d));
  let nonce := Envelope.uuid_hex nonce in
  do sig <- st_lift (signed x ("relay-purge:" +:+ null_id +:+ ":" +:+ fmt_f64 (x_secs x) +:+ ":" +:+ nonce));
  do! on_link (ws_send "Relay purge send failed: "
        (json_print (purge_request self null_id sig (x_secs x) nonce)));
  do fr <- on_link ws_next;
  match fr with
  | Some (RText resp) =>
      do resp_val <- st_lift (ok_or (json_parse resp) (Plain "json"));
      st_ret (if bool_decide ((Json.get resp_val "ok" ≫= as_bool) = Some true) then Purged
              else match Json.get resp_val "error" ≫= as_str with
                   | Some err => PurgeWarning err
                   | None => NoNote
                   end)
  | _ => st_ret NoNote
  end.

(** ** The read command *)

(** The first forty bytes of a stored text. Source: client/src/main.rs:2699-2704, main. *)
Definition preview (ciphertext : string) : option string :=
  if 40 <? slen ciphertext then (fun s => s +:+ "...") <$> str_prefix 40 ciphertext else Some ciphertext.

(** What is fetched is stored as it is shown: the decrypted text.
    Source: client/src/main.rs:2676-2684, main. *)
Fixpoint keep_fetched (io : nat -> bool * bytes * string) (i : nat) (nid : string) (texts : list string)
    (m : MessageStore) : MessageStore :=
  match texts with
  | [] => m
  | text :: texts' =>
      let '(ok, nonce, time) := io i in
      keep_fetched io (Datatypes.S i) nid texts' (store_message ok nonce time "relay" nid text m).1
  end.

(** Source: client/src/main.rs:2693-2706, main. *)
Definition show_stored (select : bool) : online (list string) :=
  do stored <- at_home (fun '(d, m) => ((d, m), plain (get_messages select 20 m)));
  st_lift (ok_or (mapM (fun sm => preview (sm_ciphertext sm)) stored) Panicked).

(** The lines printed: what was fetched, then the stored messages.
    Source: client/src/main.rs:2665-2708, main. *)
Definition cmd_read (x : surroundings) (xs : nat -> surroundings) (io : nat -> bool * bytes * string)
    (nonce nonce' : Z) (select : bool) (relay_url : string) : online (list string * list string) :=
  do self <- at_home (fun '(d, m) => ((d, m), load_identity d));
  let nid := ClientRelay.null_id self in
  do texts <- relay_fetch x xs nonce relay_url nid;
  do! match texts with
      | [] => st_ret tt
      | _ =>
          do! at_home (fun '(d, m) => ((d, keep_fetched io 0 nid texts m), Ok tt));
          fun s => ((relay_purge x nonce' relay_url nid s).1, Ok tt)
      end;
  do previews <- show_stored select;
  st_ret (texts, previews).

(** ** The onion route *)

(** The session with a relay, under a name of its own; the peer is named by our
    own fingerprint. Source: client/src/main.rs:1676-1693, send_via_onion. *)
Definition onion_session (x : surroundings) (coins : bytes) (self : ClientRelay.Identity) (name what : string)
    (k : enc_key) : st home client_error RatchetState :=
  do session_json <- session_of x name;
  match session_json with
  | Some json => st_lift (wrapped "ratchet load: " (session_from_json json))
  | None =>
      let (_, shared_secret) := encapsulate k coins in
      st_lift (wrapped (what +:+ " ratchet init: ")
                 (Ratchet.new (fingerprint self) name (fingerprint self) true shared_secret))
  end.

(** Source: client/src/main.rs:1700-1709, send_via_onion. *)
Definition inner_payload (self : ClientRelay.Identity) (recipient_nid : string) (inner : bytes) : value :=
  VObject [("type", VString "relay-store"); ("recipient_nid", VString recipient_nid);
           ("signed_blob", json_bytes inner); ("sender_nid", VString "anonymous"); ("sender_fp", VString "");
           ("sender_sig", VString ""); ("sender_cert", VString "");
           ("sealed_sender", VString (b64_encode (str_bytes (ClientRelay.null_id self))))].

(** Source: client/src/main.rs:1742-1746, send_via_onion. *)
Definition outer_payload (exit_relay_url : string) (outer : bytes) : value :=
  VObject [("type", VString "onion-v1"); ("exit_relay_url", VString exit_relay_url);
           ("ciphertext", json_bytes outer)].

(** Randomness of the two layers: the encapsulations of the sessions and of the
    messages, and the nonces. *)
Record onion_env : Type := mkOnionEnv {
  o_exit_coins : bytes; o_exit_nonce : bytes; o_exit_msg : bytes;
  o_entry_coins : bytes; o_entry_nonce : bytes; o_entry_msg : bytes;
}.

(** What is sent, and the sessions to keep.
    Source: client/src/main.rs:1666-1746, send_via_onion. *)
Definition wrap_onion (x : surroundings) (o : onion_env) (self : ClientRelay.Identity)
    (recipient_nid message entry_relay_url exit_relay_url : string)
  : st home client_error (value * RatchetState * RatchetState) :=
  do! load_or_generate_kyber x (ClientRelay.null_id self);
  do exit_kyber <- st_lift (lookup_kyber_for_nid exit_relay_url);
  do exit_s <- onion_session x (o_exit_coins o) self "__onion_exit__" "onion" exit_kyber;
  let (exit_s, r) := encrypt_message (o_exit_nonce o) (o_exit_msg o) message exit_kyber exit_s in
  do inner <- st_lift (wrapped "onion inner encrypt: " r);
  do padded <- st_lift (ok_or (pad_message_bucket (x_padding x)
                                 (json_print (inner_payload self recipient_nid inner))) Panicked);
  do entry_kyber <- st_lift (lookup_kyber_for_nid entry_relay_url);
  do entry_s <- onion_session x (o_entry_coins o) self "__onion_entry__" "entry" entry_kyber;
  let (entry_s, r) := encrypt_message (o_entry_nonce o) (o_entry_msg o) (b64_encode (str_bytes padded))
                        entry_kyber entry_s in
  do outer <- st_lift (wrapped "onion outer encrypt: " r);
  st_ret (outer_payload exit_relay_url outer, entry_s, exit_s).

(** The sessions are kept when the relay answers ["relay-ok"].
    Source: client/src/main.rs:1646-1778, send_via_onion. *)
Definition send_via_onion (x : surroundings) (o : onion_env) (self : ClientRelay.Identity)
    (recipient_nid message entry_relay_url exit_relay_url : string) : online unit :=
  do (outer, entry_s, exit_s) <- at_home (wrap_onion x o self recipient_nid message entry_relay_url exit_relay_url);
  do! on_link (ws_connect "onion entry relay connect failed: " (ws_url entry_relay_url));
  do! on_link (ws_send "onion entry relay send failed: " (json_print outer));
  do fr <- on_link ws_next;
  match fr with
  | Some (RText resp) =>
      do resp_val <- st_lift (ok_or (json_parse resp) (Plain "json"));
      if bool_decide (Json.get resp_val "type" ≫= as_str = Some "relay-ok") then
        do! at_home (keep_session x "__onion_entry__" entry_s);
        at_home (keep_session x "__onion_exit__" exit_s)
      else st_fail (Plain ("onion entry relay error: " +:+ resp))
  | _ => st_fail (Plain "no response from entry relay")
  end.
End fetch.

(** ** Previews *)

(** [&s[..n]] works at the end of the string and in front of a character. *)
Lemma str_prefix_ascii n s :
  str_all (fun a => code a <? 128) s = true -> Z.of_nat n <= slen s -> str_prefix n s = Some (str_take n s).
Proof.
  intros Ha Hn. unfold str_prefix. destruct (Z.leb_spec (Z.of_nat n) (slen s)); [|lia]. cbn [andb].
  assert (Hc : match drop n (str_bytes s) with b :: _ => negb (cont b) | [] => true end = true); [|by rewrite Hc].
  clear Hn. revert n H. induction s as [|a s IH]; intros n H; [by destruct n|].
  cbn [str_all] in Ha. apply andb_true_iff in Ha as [Ha Hs]. destruct n as [|n]; cbn [str_bytes drop].
  - unfold cont. apply Z.ltb_lt in Ha. unfold code in Ha. destruct (Z.leb_spec 128 (Z.of_N (Ascii.N_of_ascii a))); [lia|done].
  - apply IH; [done|]. unfold slen in *. cbn [String.length] in H. lia.
Qed.

(** Texts of ASCII characters always have a preview. *)
Lemma preview_ascii s : str_all (fun a => code a <? 128) s = true -> is_Some (preview s).
Proof.
  intros Ha. unfold preview. destruct (Z.ltb_spec 40 (slen s)); [|by eexists].
  rewrite str_prefix_ascii by (done || lia). by eexists.
Qed.

Section previews.
Context `{Aead} `{Base64}.

(** Among the twenty newest rows there is one whose text has no preview. *)
Definition unprintable (m : MessageStore) : Prop :=
  exists before row after sm, messages m = before ++ row :: after /\ (length after < 20)%nat /\
    read_row (db_key m) row = Some sm /\ preview (sm_ciphertext sm) = None.

Lemma mapM_none {A B} (f : A -> option B) l x : x ∈ l -> f x = None -> mapM f l = None.
Proof.
  intros Hin Hf. induction l as [|y l IH]; [by apply elem_of_nil in Hin|]. cbn [mapM].
  apply elem_of_cons in Hin as [<-|Hin]; [by rewrite Hf|].
  destruct (f y); [|done]. cbn [mbind option_bind]. by rewrite IH.
Qed.

Lemma unprintable_listed m :
  unprintable m -> exists l, get_messages true 20 m = Ok l /\ mapM (fun sm => preview (sm_ciphertext sm)) l = None.
Proof.
  intros (before & row & after & sm & Hm & Hl & Hr & Hp). eexists. split; [done|].
  apply (mapM_none _ _ sm); [|done]. apply list_elem_of_omap. exists row. split; [|done].
  unfold newest_first. rewrite Hm, reverse_app, reverse_cons. change (20 <? 0) with false. cbn match.
  rewrite <- app_assoc. change (Z.to_nat 20) with 20%nat.
  rewrite take_app, length_reverse. apply elem_of_app. right.
  rewrite take_app. apply elem_of_app. left.
  destruct (20 - length after)%nat eqn:E; [lia|]. cbn [take]. by left.
Qed.

Lemma keep_fetched_last io nid l : forall i t m,
  keep_fetched io i nid (l ++ [t]) m =
  let '(ok, nonce, time) := io (i + length l)%nat in
  (store_message ok nonce time "relay" nid t (keep_fetched io i nid l m)).1.
Proof.
  induction l as [|u l IH]; intros i t m; cbn [app keep_fetched length].
  - rewrite Nat.add_0_r. by destruct (io i) as [[??]?].
  - destruct (io i) as [[ok nonce] time]. rewrite IH. by rewrite Nat.add_succ_r.
Qed.

(** A text that was just stored is the newest row. *)
Lemma stored_unprintable nonce time nid t m :
  nonce_ok nonce -> str_ok t -> slen t < 2 ^ 32 -> preview t = None ->
  unprintable (store_message true nonce time "relay" nid t m).1.
Proof.
  intros Hn Ht Hl Hp. unfold store_message.
  destruct (encrypt_total nonce (db_key m) t Hl) as [c Hc]. rewrite Hc. cbn [fst].
  eexists (messages m), _, [], _. split; [done|]. split; [simpl; lia|].
  unfold read_row. cbn [row_ciphertext db_key]. rewrite (decrypt_encrypt _ _ _ _ Hn Ht Hc). done.
Qed.
End previews.

(** ** The read command *)

Section reading.
Context `{Kem} `{Aead} `{Hkdf} `{Hex} `{Base64} `{Sha2} `{Blake2} `{Sequoia} `{JsonCodec} `{Format} `{SessionCodec}.
Context {S : Type} `{Server S}.

(** A fetch that nothing stands in the way of: the entries of the reply are
    read one by one. *)
Lemma relay_fetch_ok x xs nonce url nid self kp c sig d m s s1 s2 b resp entries :
  load_identity d = Ok self -> load_or_generate_kyber x nid (d, m) = ((d, m), Ok kp) ->
  x_cert x = Ok c -> x_sign x (fetch_data nid (x_secs x) (Envelope.uuid_hex nonce)) = Ok sig ->
  srv_connect (ws_url url) s = (s1, Ok tt) ->
  srv_say (json_print (fetch_request x (fetch_payload self nid sig c (x_secs x) (Envelope.uuid_hex nonce)))) s1
    = (s2, Ok [RText resp]) ->
  reply_entries resp = Ok (Some entries) ->
  relay_fetch x xs nonce url nid ((d, m), (s, b)) =
    let (dm', l) := read_entries (fingerprint self) kp (imap (fun i e => (xs i, e)) entries) (d, m) in
    ((dm', (s2, [])), Ok l).
Proof.
  intros Hid Hk Hc Hsig Hcon Hsay Hr. unfold relay_fetch.
  unfold st_bind at 1, on_link at 1, ws_connect. rewrite Hcon.
  unfold st_bind at 1, at_home at 1. rewrite Hid. unfold st_bind at 1, at_home at 1. rewrite Hk.
  unfold st_bind at 1, st_lift at 1. rewrite Hc. cbn [plain].
  unfold st_bind at 1, st_lift at 1, signed. rewrite Hsig. cbn [plain].
  unfold st_bind at 1, on_link at 1, ws_send. rewrite Hsay. cbn [app].
  unfold st_bind at 1, at_home at 1. rewrite Hk.
  unfold st_bind at 1, on_link at 1. cbn [first_text].
  unfold st_bind at 1, st_lift at 1. rewrite Hr. unfold at_home. by destruct (read_entries _ _ _ _).
Qed.

(** Purging touches neither the files nor the database. *)
Lemma relay_purge_home x nonce url nid d m w :
  exists w' r, relay_purge x nonce url nid ((d, m), w) = (((d, m), w'), r).
Proof.
  unfold relay_purge, st_bind, on_link, at_home, st_lift, st_ret.
  destruct (ws_connect _ _ w) as [w1 [u|e]]; [|by eexists _, _].
  destruct (load_identity d) as [self|e]; [|by eexists _, _].
  destruct (signed x _) as [sg|e]; [|by eexists _, _].
  destruct (ws_send _ _ w1) as [w2 [u'|e]]; [|by eexists _, _].
  destruct (ws_next w2) as [w3 [[[]|]|e]]; try by eexists _, _.
  destruct (ok_or _ _); by eexists _, _.
Qed.

(** One text can make the read command fail for good.  The command prints
    the first forty bytes of the newest stored texts, decrypted ones among
    them, and cutting a text inside a character panics: when the fortieth byte
    of one of the twenty newest does not end a character, the command panics
    after whatever it fetched, stored and purged, and leaves the database such
    that the next one does the same. *)
Theorem read_command_panics (x : surroundings) (xs : nat -> surroundings) (io : nat -> bool * bytes * string)
    (nonce nonce' : Z) (url : string) (self : ClientRelay.Identity) (texts : list string)
    (d d1 : disk) (m m1 : MessageStore) (w w1 : S * list relay_frame) :
  load_identity d = Ok self ->
  relay_fetch x xs nonce url (ClientRelay.null_id self) ((d, m), w) = (((d1, m1), w1), Ok texts) ->
  unprintable (keep_fetched io 0 (ClientRelay.null_id self) texts m1) ->
  exists w2, cmd_read x xs io nonce nonce' true url ((d, m), w) =
    (((d1, keep_fetched io 0 (ClientRelay.null_id self) texts m1), w2), Err Panicked).
Proof.
  intros Hid Hf Hu. unfold cmd_read. unfold st_bind at 1, at_home at 1. rewrite Hid.
  unfold st_bind at 1. rewrite Hf.
  set (kept := keep_fetched _ _ _ _ _) in *.
  assert (Hend : forall w2 : S * list relay_frame,
    show_stored true ((d1, kept), w2) = (((d1, kept), w2), Err Panicked)).
  { intros w2. destruct (unprintable_listed _ Hu) as (l & Hl & Hn).
    unfold show_stored, st_bind, at_home, st_lift. rewrite Hl. cbn [plain]. by rewrite Hn. }
  destruct texts as [|t texts].
  - exists w1. pose proof (Hend w1) as E. unfold kept in *. cbn [keep_fetched] in *.
    unfold st_bind at 1, st_ret at 1. unfold st_bind at 1. by rewrite E.
  - unfold st_bind at 1 2, at_home at 1. fold kept.
    destruct (relay_purge_home x nonce' url (ClientRelay.null_id self) d1 kept w1) as (w2 & r & ->).
    exists w2. unfold st_bind at 1. cbn [fst]. by rewrite (Hend w2).
Qed.
End reading.

Section concrete.
#[local] Existing Instances toy_kem toy_aead toy_hkdf toy_hex toy_base64 toy_sha2 toy_blake2
  toy_sequoia toy_json toy_format ClientRelayProps.toy_session_codec.

(** A relay with nothing in the mailbox. *)
#[local] Instance empty_relay : Server unit := {|
  srv_connect := fun _ s => (s, Ok tt);
  srv_say := fun _ s => (s, Ok [RText ClientRelayProps.ok_text]) |}.

(** Thirty-nine letters and a two-byte character. *)
Definition split_text : string :=
  "abcdefghijklmnopqrstuvwxyzabcdefghijklm" +:+ bytes_str [195; 164].

Definition reader_home : disk :=
  {[IDENTITY_PATH := json_print (str_object [("fingerprint", "F1"); ("null_id", "NN-1")])]}.
Definition reader_store : MessageStore :=
  (store_message true (replicate 12 3) "now" "relay" "NN-1" split_text (open (replicate 32 1))).1.

Definition no_io (i : nat) : bool * bytes * string := (true, replicate 12 7, "later").

Theorem read_command_panics_witness :
  let run := cmd_read (ClientRelayProps.calm 1) (fun _ => ClientRelayProps.calm 2) no_io 5 6 true "wss://relay"
     ((reader_home, reader_store), (tt, [])) in
  run.2 = Err Panicked /\ run.1.1.2 = reader_store.
Proof.
  destruct (relay_fetch (ClientRelayProps.calm 1) (fun _ => ClientRelayProps.calm 2) 5 "wss://relay" "NN-1"
              ((reader_home, reader_store), (tt, []))) as [[[d1 m1] w1] r] eqn:E.
  assert (Er : r = Ok [] /\ m1 = reader_store).
  { split.
    - apply (f_equal snd) in E. cbn [snd] in E. rewrite <- E. vm_compute. reflexivity.
    - apply (f_equal (fun y => y.1.1.2)) in E. cbn [fst snd] in E. rewrite <- E. reflexivity. }
  destruct Er as [-> ->].
  destruct (read_command_panics (ClientRelayProps.calm 1) (fun _ => ClientRelayProps.calm 2) no_io 5 6 "wss://relay"
              (mkIdentity "F1" "NN-1") [] reader_home d1 reader_store reader_store (tt, []) w1) as (w2 & Hr).
  - vm_compute. reflexivity.
  - exact E.
  - apply stored_unprintable.
    + split; [reflexivity|]. apply Forall_replicate. split; [discriminate|reflexivity].
    + reflexivity.
    + reflexivity.
    + reflexivity.
  - cbv zeta. rewrite Hr. split; reflexivity.
Defined.
End concrete.
