(* ===== verification/ClientMain.v ===== *)
(** * The client program, whole (src/client/src/main.rs, main)

    A command line from its arguments to its end: the PID file, the servers,
    the files and the database of the home, the commands of the other files of
    the client and what they print.  A command runs against a [Server], which
    is everything at the other end of the network.  What the environment
    decides is in a record: typed lines, writes, random bytes, clocks. *)

From S2P Require Import Prelude Text Files Primitives Concrete Json Gpg Pow Identity CertCache DeliveryTokens Kyber.
From S2P Require Import Ratchet ClientStore ClientRelay ClientRelayProps ClientHome ClientDht ClientShell ClientDirect.
From S2P Require Import ClientFetch Constants Envelope.

(** ** Command lines *)

(** Source: client/src/main.rs:2477-2529, Commands. *)
Inductive Commands : Type :=
| Init
| Id
| Send (to message : string) (pir : bool)
| Read
| Contacts
| AddContact (null_id fingerprint : string)
| Listen
| Status
| Verify (null_id : string)
| SafetyNumber (null_id : string)
| Alias (alias null_id : string)
| Aliases
| Register.

(** Source: client/src/main.rs:2460-2475, Args. *)
Record Args : Type := mkArgs { cmd : Commands; seed : option string; relay : option string }.

(** What a command prints; the order of a map is that of [map_to_list]. *)
Inductive printed : Type :=
| Initialized (self : option ClientRelay.Identity)
| Shown (id : string * string)
| Sent (how : delivery)
| Mail (texts previews : list string)
| Listed (l : list (string * string))
| StatusOf (id : option (string * string)) (contacts : Z) (pins : bool) (seed_url relay_url : string)
| Number (nid number : string)
| Done.

(** Source: client/src/main.rs:2537-2541, main. *)
Definition PID_PATH : string := ".nullnode/nullnode.pid".

Section program.
Context `{Kem} `{Aead} `{Hkdf} `{Hmac} `{Hex} `{Base64} `{Sha2} `{Blake2} `{Argon2}.
Context `{Sequoia} `{!SequoiaSecret} `{Age} `{JsonCodec} `{WireCodec} `{Format} `{SessionCodec}.

(** A connection to the listener. *)
Record incoming : Type := mkIncoming { in_x : surroundings; in_y : direct_env; in_frames : list relay_frame }.

(** What a run finds around it.  A passphrase is typed once and again whenever it
    is asked for; of [e_around], [e_each] and [e_dht] the signer and the
    certificate are not used, they come from the files. *)
Record program_env : Type := mkProgramEnv {
  e_pid : Z;
  e_alive : Z -> bool;                             (* kill(pid, 0) *)
  e_pid_write : write_end;
  e_srv : nat -> option (list srv);                (* DNS answers, in the order asked *)
  e_open : result string unit;                     (* the directory, the connection, the tables *)
  e_db_write : write_end;
  e_db_random : bytes;
  e_write : write_end;                             (* contacts, aliases *)
  e_confirm : result string string;
  e_password : result string string;
  e_generated : result string cert;
  e_init : init_io;
  e_now : Z;                                       (* the time in signatures *)
  e_around : surroundings;
  e_each : nat -> surroundings;                    (* one for each fetched message *)
  e_direct : direct_env;
  e_dht : dht_env;
  e_nonces : Z * Z;                                (* of a fetch and of a purge *)
  e_log : nat -> bool * bytes * string;            (* store_message of fetched texts *)
  e_select : bool;
  e_bind : result string unit;                     (* the listener's socket *)
  e_incoming : list incoming;
  e_accept : string;                               (* why it stops accepting *)
}.

(** ** The key of the home *)

(** An error of [load_cert] is a text. *)
Definition as_text {A} (r : result client_error A) : result string A :=
  match r with Ok a => Ok a | Err (Plain m) => Err m | Err _ => Err "" end.

(** [sign_for_transport] and [load_armored_cert] with the files of [d].
    Source: client/src/main.rs:381-397, sign_for_transport and load_armored_cert. *)
Definition own (e : program_env) (d : disk) (x : surroundings) : surroundings :=
  mkSurroundings (x_file_io x) (x_file_nonce x) (x_coins x) (x_nonce x) (x_padding x) (x_nanos x) (x_secs x)
    (x_msg_id x) (x_select x) (x_save x) (x_save_nonce x) (x_save_time x)
    (fun data => as_text (sign_for_transport (e_now e) (e_password e) data d))
    (as_text (load_armored_cert (e_password e) d)) (x_frames x).

(** Source: client/src/main.rs:1035-1037, dht_lookup. *)
Definition own_dht (e : program_env) (d : disk) : dht_env :=
  let x := e_dht e in
  let crt := as_text (load_cert (e_password e) d) in
  mkDhtEnv (e_id x) (e_secs x)
    (fun data => let? c := crt in sign_data (fun text => sign_detached (e_now e) text c) data)
    (let? c := crt in tsk_armored c) (e_join x) (e_masks x) (e_public x).

(** ** The database *)

(** The same tables under another key. *)
Definition with_key (key : bytes) (m : MessageStore) : MessageStore :=
  mkStore (messages m) (last_id m) (ratchet_sessions m) key.

Context {S : Type} `{Server S}.

Abbreviation online := (st ((disk * MessageStore) * (S * list relay_frame)) client_error).

Definition on_files {A} (m : st disk client_error A) : online A :=
  at_home (fun '(d, m0) => let (d', r) := m d in ((d', m0), r)).
Definition look {A} (f : disk -> result client_error A) : online A := on_files (fun d => (d, f d)).

(** Source: client/src/main.rs:689-743, open. *)
Definition open_store (e : program_env) : online unit :=
  do! st_lift (plain (e_open e));
  do key <- on_files (open_db_key (e_db_write e) (e_db_random e));
  at_home (fun '(d, m) => ((d, with_key key m), Ok tt)).

(** ** The listener *)

(** A connection is served with the key in the file, or not at all; how it ends
    is logged and forgotten. Source: client/src/main.rs:2140-2169, run_listener. *)
Definition serve (self : ClientRelay.Identity) (i : incoming) (dm : disk * MessageStore) : disk * MessageStore :=
  let (d, m) := dm in
  match listener_key (d !! DB_KEY_PATH) with
  | None => dm
  | Some key =>
      let '((d', m'), _) := (handle_incoming_connection None (in_x i) (in_y i) self
                               ((d, with_key key m), (in_frames i, []))).1 in
      (d', with_key (db_key m) m')
  end.

(** The connections, one after the other, and the error that ends the loop.
    Source: client/src/main.rs:2128-2171, run_listener. *)
Definition run_listener (e : program_env) (self : ClientRelay.Identity) : online unit :=
  do! st_lift (plain (e_bind e));
  do d <- look Ok;
  let of_run i := mkIncoming (own e d (in_x i)) (in_y i) (in_frames i) in
  do! at_home (fun dm => (foldl (fun dm i => serve self (of_run i) dm) dm (e_incoming e), Ok tt));
  st_fail (Plain (e_accept e)).

(** ** The commands *)

(** Source: client/src/main.rs:1906-1911, send_message. *)
Definition find_recipient (e : program_env) (d : disk) (seed_url nid : string) (pir : bool)
  : st (S * list relay_frame) client_error string :=
  let our_cert := let? _ := load_cert (e_password e) d in Ok tt in
  if pir then pir_dht_lookup (own_dht e d) our_cert seed_url nid
  else dht_lookup (own_dht e d) our_cert seed_url nid.

(** Source: client/src/main.rs:2658-2664, main. *)
Definition run_send (e : program_env) (seed_url relay_url to message : string) (pir : bool) : online printed :=
  do! open_store e;
  do self <- look load_identity;
  do d <- look Ok;
  let resolved_to := resolve_recipient to (load_aliases d) in
  do how <- send_message None (own e d (e_around e)) (e_direct e) relay_url self resolved_to message
              (find_recipient e d seed_url resolved_to pir);
  st_ret (Sent how).

(** Source: client/src/main.rs:2665-2708, main. *)
Definition run_read (e : program_env) (relay_url : string) : online printed :=
  do! open_store e;
  do d <- look Ok;
  do (texts, previews) <- cmd_read (own e d (e_around e)) (e_each e) (e_log e) (e_nonces e).1 (e_nonces e).2
                            (e_select e) relay_url;
  st_ret (Mail texts previews).

(** Source: client/src/main.rs:2812-2818, main. *)
Definition run_register (e : program_env) (a : Args) : online printed :=
  do self <- look load_identity;
  do! look (load_cert (e_password e));
  do d <- look Ok;
  let discovered := (discover_servers (e_srv e 2%nat) (e_srv e 3%nat)).1 in
  do! on_link (dht_register (own_dht e d) (register_url (seed a) discovered) self);
  st_ret Done.

(** Source: client/src/main.rs:2601-2822, main. *)
Definition run (e : program_env) (a : Args) : online printed :=
  let (srv_seed, srv_relay) := discover_servers (e_srv e 0%nat) (e_srv e 1%nat) in
  let seed_url := server_url (seed a) srv_seed in
  let relay_url := server_url (relay a) srv_relay in
  match cmd a with
  | Init => do self <- on_files (cmd_init (e_init e) (e_confirm e) (e_password e) (e_generated e));
            st_ret (Initialized self)
  | Id => do id <- look cmd_id; st_ret (Shown id)
  | Send to message pir => run_send e seed_url relay_url to message pir
  | Read => run_read e relay_url
  | Contacts => do l <- look (fun d => Ok (cmd_contacts d)); st_ret (Listed l)
  | AddContact nid fp => do! on_files (cmd_add_contact (e_write e) nid fp); st_ret Done
  | Listen =>
      do! open_store e;
      do self <- look load_identity;
      do! run_listener e self;
      st_ret Done
  | Status => do s <- look (fun d => Ok (cmd_status d));
              let '(id, contacts, pins) := s in st_ret (StatusOf id contacts pins seed_url relay_url)
  | Verify nid | SafetyNumber nid => do r <- look (cmd_verify nid); st_ret (Number r.1 r.2)
  | Alias alias nid => do! on_files (cmd_alias (e_write e) alias nid); st_ret Done
  | Aliases => do l <- look (fun d => Ok (cmd_aliases d)); st_ret (Listed l)
  | Register => run_register e a
  end.

(** The PID file is there while the command runs, and removed however it ends.
    Source: client/src/main.rs:2537-2566, main. *)
Definition client_main (e : program_env) (a : Args) : online printed := fun '((d, m), w) =>
  match pid_refusal (e_alive e) (d !! PID_PATH) with
  | Some old => (((d, m), w), Err (Plain ("Another nullnode instance is already running (PID " +:+ pretty old
                                          +:+ "). Kill it first.")))
  | None =>
      match write_text (e_pid_write e) PID_PATH (pid_text (e_pid e)) d with
      | (d', Err (Plain er)) => (((d', m), w), Err (Plain ("Cannot write PID file " +:+ PID_PATH +:+ ": " +:+ er)))
      | (d', Err er) => (((d', m), w), Err er)
      | (d', Ok _) => let '(((d'', m'), w'), r) := run e a ((d', m), w) in (((delete PID_PATH d'', m'), w'), r)
      end
  end.
End program.

(** ** Which files a command writes *)

Section footprint.
Context `{Kem} `{Aead} `{Hkdf} `{Hmac} `{Hex} `{Base64} `{Sha2} `{Blake2} `{Argon2}.
Context `{Sequoia} `{!SequoiaSecret} `{Age} `{JsonCodec} `{WireCodec} `{Format} `{SessionCodec}.
Context {S : Type} `{Server S}.

Abbreviation online := (st ((disk * MessageStore) * (S * list relay_frame)) client_error).
Abbreviation listening := (st ((disk * MessageStore) * (list relay_frame * list string)) client_error).

Section for_files.
Variables W C : list string.
Abbreviation fits m := (touches W C m).

Lemma touches_at_home {A} (m : st (disk * MessageStore) client_error A) :
  fits m -> fits (at_home m : online A).
Proof. intros Hm [s w]. unfold at_home. specialize (Hm s). by destruct (m s). Qed.

Lemma touches_on_home {A} (m : st (disk * MessageStore) client_error A) :
  fits m -> fits (on_home m : listening A).
Proof. intros Hm [s w]. unfold on_home. specialize (Hm s). by destruct (m s). Qed.

Lemma touches_on_link {A} (m : st (S * list relay_frame) client_error A) : fits (on_link m : online A).
Proof. apply touches_pure. intros [s w]. unfold on_link. by destruct (m w). Qed.

Lemma touches_on_files {A} (m : st disk client_error A) : fits m -> fits (on_files m : online A).
Proof.
  intros Hm. apply touches_at_home. intros [d m0]. specialize (Hm d). by destruct (m d).
Qed.

Lemma touches_look {A} (f : disk -> result client_error A) : fits (look f : online A).
Proof. apply touches_on_files. by apply touches_pure. Qed.

Lemma touches_session_of x nid : fits (session_of x nid).
Proof. by apply touches_pure. Qed.

Lemma touches_keep_session x nid s : fits (keep_session x nid s).
Proof. apply touches_pure. intros [d m]. unfold keep_session. by destruct (save_session _ _ _ _ _ m). Qed.

Lemma touches_next_frame : fits (next_frame : listening _).
Proof. apply touches_pure. by intros [s [[|f fs] out]]. Qed.

Lemma touches_write_frame text : fits (write_frame text : listening _).
Proof. apply touches_pure. by intros [s [fs out]]. Qed.

Lemma touches_kyber x nid : KYBER_KEY_PATH ∈ C -> fits (load_or_generate_kyber x nid).
Proof.
  intros Hin [d m]. unfold load_or_generate_kyber. destruct (d !! KYBER_KEY_PATH) eqn:E; [done|].
  destruct (derive_kyber nid) as [kp|]; [|done].
  unfold Kyber.save, write_file, st_bind, st_lift, st_guard, st_modify, st_ret, st_fail.
  destruct (file_key _); [|done]. destruct (ok_or _ _); [|done]. destruct (x_file_io x); [|done].
  apply (touched_insert W C KYBER_KEY_PATH). by right.
Qed.
End for_files.

Hint Resolve touches_on_link touches_look touches_session_of touches_keep_session touches_next_frame
  touches_write_frame : footprint.
Hint Extern 1 (touches _ _ (load_or_generate_kyber _ _)) => apply touches_kyber; listed : footprint.

(** The commands of the client make the key files they miss and write the
    delivery secrets; [W] holds those and the files of the caller. *)
Definition made : list string := [DB_KEY_PATH; KYBER_KEY_PATH].

Lemma touches_open_store e : touches [] made (open_store e : online unit).
Proof.
  unfold open_store. apply touches_bind; [auto with footprint|intros _].
  apply touches_bind; [apply touches_on_files, touches_db_key; listed|intros key].
  apply touches_at_home, touches_pure. by intros [d m].
Qed.

Lemma touches_token w fresh secs nid i :
  touches [DELIVERY_SECRETS_PATH] made (generate_delivery_token w fresh secs nid i).
Proof.
  unfold generate_delivery_token. apply touches_bind; [|intros ?; touches].
  intros d. unfold get_or_create_delivery_secret. destruct (load_delivery_secrets d !! nid) as [hex|].
  { destruct (hex_decode hex); [by destruct (negb _)|done]. }
  pose proof (touches_save_map [DELIVERY_SECRETS_PATH] made w DELIVERY_SECRETS_PATH
    (<[nid := hex_encode fresh]> (load_delivery_secrets d)) ltac:(listed) d) as Ht.
  unfold save_delivery_secrets. by destruct (save_map _ _ _ d).
Qed.

Lemma touches_prepare x self nid fp message : touches [] made (prepare x self nid fp message).
Proof. unfold prepare. touches. Qed.

Lemma touches_relay_send x url self nid fp message :
  touches [] made (relay_send x url self nid fp message : online unit).
Proof.
  unfold relay_send. apply touches_bind; [auto with footprint|intros _].
  apply touches_bind; [apply touches_at_home, touches_prepare|intros [payload session]].
  apply touches_bind; [auto with footprint|intros _]. apply touches_bind; [auto with footprint|intros _].
  apply touches_at_home. auto with footprint.
Qed.

Ltac commands :=
  repeat first [ progress touches | apply touches_at_home | apply touches_on_home | apply touches_on_files ].

(** A step that ends well whatever came of it. *)
Lemma touches_ignored {T E A B} `{OnDisk T} W C (m : st T E A) (b : B) :
  touches W C m -> touches W C (fun s => ((m s).1, Ok (E := E) b)).
Proof. intros Hm s. apply Hm. Qed.

Lemma touches_store_message {E B} W C (f : MessageStore -> MessageStore) (b : B) :
  touches W C (fun '(d, m) => ((d, f m) : disk * MessageStore, Ok (E := E) b)).
Proof. apply touches_pure. by intros [d m]. Qed.

Lemma touches_fresh_session W C x self fp i ek : touches W C (fresh_session x self fp i ek).
Proof.
  unfold fresh_session. destruct (encapsulate ek (x_coins x)). touches.
  apply touches_pure. intros dm. pose proof (touches_keep_session W C x (Identity.null_id fp) a dm) as _.
  unfold keep_session. destruct dm as [d m]. destruct (save_session _ _ _ _ _ m) as [m' [|]]; done.
Qed.

Lemma touches_send_direct certs x y self nid fp message :
  touches [DELIVERY_SECRETS_PATH] made (send_direct certs x y self nid fp message : online _).
Proof.
  unfold send_direct. commands.
  - apply touches_fresh_session.
  - intros [d m]. pose proof (touches_token (d_token_write y) (d_token_fresh y) (d_secs y 0) nid 1 d) as Ht.
    by destruct (generate_delivery_token _ _ _ _ _ d).
  - apply touches_pure. intros [[d m] [net fs]]. destruct (await_receipts _ _ _ _ _ _ fs) as [ev [|]]; done.
Qed.

Lemma touches_send_message certs x y url self nid message lookup :
  touches [DELIVERY_SECRETS_PATH] made (send_message certs x y url self nid message lookup : online _).
Proof.
  intros [[d m] w]. unfold send_message. destruct (load_contacts d !! nid) as [fp|]; [|done].
  destruct (lookup w) as [w1 [addr|e]]; [destruct (ws_connect "" (ws_url addr) w1) as [w2 [|]]|].
  1: refine (touches_bind _ _ (send_direct certs x y self nid fp message) _ _ _ ((d, m), w2)).
  3: refine (touches_bind _ _ (relay_send x url self nid fp message) _ _ _ ((d, m), w2)).
  5: refine (touches_bind _ _ (relay_send x url self nid fp message) _ _ _ ((d, m), w1)).
  1: apply touches_send_direct.
  all: intros; try (eapply (touches_mono [] made), touches_relay_send; set_solver); auto with footprint.
Qed.

(** ** Reading *)

Lemma touches_decrypt x blob nid fp our kp : touches [] made (relay_decrypt_message x blob nid fp our kp).
Proof. unfold relay_decrypt_message. touches. Qed.

Lemma touches_entries our kp es : forall dm, touched [] made (the_disk dm) (the_disk (read_entries our kp es dm).1).
Proof.
  induction es as [|[x e] es IH]; intros dm; [done|]. cbn [read_entries].
  destruct (get e "signed_blob" ≫= as_str) as [blob|]; [|apply IH].
  pose proof (touches_decrypt x blob (str_field e "sender_nid") (str_field e "sender_fp") our kp dm) as Hd.
  destruct (relay_decrypt_message _ _ _ _ _ _ dm) as [dm1 r]. specialize (IH dm1).
  destruct (read_entries our kp es dm1) as [dm2 l]. etransitivity; [exact Hd|exact IH].
Qed.

Lemma touches_fetch x xs nonce url nid : touches [] made (relay_fetch x xs nonce url nid : online _).
Proof.
  unfold relay_fetch. commands; try (apply touches_pure; intros [d m]; reflexivity).
  intros dm. pose proof (touches_entries (fingerprint a0) a5 (imap (fun i e => (xs i, e)) l) dm) as Ht.
  by destruct (read_entries _ _ _ dm).
Qed.

Lemma touches_purge x nonce url nid : touches [] made (relay_purge x nonce url nid : online _).
Proof. unfold relay_purge. commands; apply touches_pure; intros [d m]; reflexivity. Qed.

Hint Resolve touches_fetch touches_purge : footprint.

Lemma touches_read x xs io n n' sel url : touches [] made (cmd_read x xs io n n' sel url : online _).
Proof.
  unfold cmd_read, show_stored.
  commands; try (apply touches_pure; intros [d m]; reflexivity).
Qed.

(** ** The listener *)

Hint Resolve touches_fresh_session : footprint.

Lemma touches_incoming certs x y self kp fp session text :
  touches [] made (incoming_message certs x y self kp fp session text).
Proof.
  unfold incoming_message, receipts. commands; try (apply touches_pure; intros [d m]; reflexivity).
Qed.
Hint Resolve touches_incoming : footprint.

Lemma touches_connection certs x y self : touches [] made (handle_incoming_connection certs x y self).
Proof. unfold handle_incoming_connection. commands. Qed.

Lemma touched_serve self i dm : touched [] made (the_disk dm) (the_disk (serve self i dm)).
Proof.
  destruct dm as [d m]. unfold serve. destruct (listener_key _) as [key|]; [|done].
  pose proof (touches_connection None (in_x i) (in_y i) self ((d, with_key key m), (in_frames i, []))) as Ht.
  by destruct (handle_incoming_connection _ _ _ _ _) as [[[d' m'] w] r].
Qed.

Lemma touches_listener e self : touches [] made (run_listener e self : online unit).
Proof.
  unfold run_listener. apply touches_bind; [auto with footprint|intros _].
  apply touches_bind; [auto with footprint|intros d]. cbv zeta.
  apply touches_bind; [|auto with footprint]. apply touches_at_home.
  intros dm. cbn [fst]. revert dm. induction (e_incoming e) as [|i l IH]; intros dm; [done|]. cbn [foldl].
  etransitivity; [apply touched_serve|apply IH].
Qed.

(** ** Every command *)

(** The files a command writes whatever they hold, and those it makes. *)
Definition writes (c : Commands) : list string :=
  match c with
  | Init => [CERT_ASC; CERT_AGE; KYBER_KEY_PATH; IDENTITY_PATH]
  | Send _ _ _ => [DELIVERY_SECRETS_PATH]
  | AddContact _ _ => [CONTACTS_PATH]
  | Alias _ _ => [ALIASES_PATH]
  | _ => []
  end.
Definition makes (c : Commands) : list string :=
  match c with
  | Init => [DB_KEY_PATH]
  | Send _ _ _ | Read | Listen => made
  | _ => []
  end.

Lemma touches_run e a : touches (writes (cmd a)) (makes (cmd a)) (run e a : online printed).
Proof.
  unfold run. destruct (discover_servers _ _). destruct (cmd a) as [| |to message pir| | |nid fp| | |nid|nid|al nid| |];
    cbn [writes makes]; try solve [commands].
  - apply touches_bind; [apply touches_on_files, touches_init|auto with footprint].
  - unfold run_send. apply touches_bind; [eapply (touches_mono [] made), touches_open_store; set_solver|intros _].
    apply touches_bind; [auto with footprint|intros self]. apply touches_bind; [auto with footprint|intros d]. cbv zeta.
    apply touches_bind; [|auto with footprint]. apply touches_send_message.
  - unfold run_read. apply touches_bind; [apply touches_open_store|intros _].
    apply touches_bind; [auto with footprint|intros d]. apply touches_bind; [apply touches_read|].
    intros [texts previews]. auto with footprint.
  - apply touches_bind; [|auto with footprint]. apply touches_on_files. intros d. unfold cmd_add_contact.
    destruct (_ || _); [done|]. apply touches_save_map. listed.
  - apply touches_bind; [apply touches_open_store|intros _]. apply touches_bind; [auto with footprint|intros self].
    apply touches_bind; [apply touches_listener|auto with footprint].
  - apply touches_bind; [|auto with footprint]. apply touches_on_files. intros d. unfold cmd_alias.
    case_bool_decide; [|done]. apply touches_save_map. listed.
Qed.

Lemma touches_client_main e a : touches (PID_PATH :: writes (cmd a)) (makes (cmd a)) (client_main e a : online printed).
Proof.
  intros [[d m] w]. unfold client_main. destruct (pid_refusal _ _); [done|].
  assert (Hw : touched (PID_PATH :: writes (cmd a)) (makes (cmd a)) d
                 (write_text (e_pid_write e) PID_PATH (pid_text (e_pid e)) d).1)
    by (apply (touches_write _ _ Plain); set_solver).
  destruct (write_text _ _ _ d) as [d' [u|er]]; [|by destruct er].
  pose proof (touches_run e a ((d', m), w)) as Hr.
  eapply (touched_mono _ _ (PID_PATH :: writes (cmd a)) (makes (cmd a))) in Hr; [|set_solver..].
  destruct (run e a _) as [[[d'' m'] w'] r]. cbn [fst the_disk pair_on_disk disk_on_disk] in *.
  etransitivity; [exact Hw|]. etransitivity; [exact Hr|].
  intros p Hp _. apply lookup_delete_ne. set_solver.
Qed.

(** ** The home stays well-formed *)

(** A call leaves a well-formed home well-formed. *)
Definition tame {T E A} `{OnDisk T} (m : st T E A) : Prop :=
  forall s, home_wf (the_disk s) -> home_wf (the_disk (m s).1).

Lemma tame_bind {T E A B} `{OnDisk T} (m : st T E A) (k : A -> st T E B) :
  tame m -> (forall a, tame (k a)) -> tame (st_bind m k).
Proof.
  intros Hm Hk s Hs. unfold st_bind. specialize (Hm s Hs). destruct (m s) as [s' [a|e]]; cbn [fst] in *; [|done].
  by apply Hk.
Qed.

Lemma wf_touched W C d d' :
  touched W C d d' -> Forall (fun p => p ∉ W /\ p ∉ C) [CONTACTS_PATH; ALIASES_PATH; DELIVERY_SECRETS_PATH] ->
  home_wf d -> home_wf d'.
Proof.
  intros Ht Hf. apply home_wf_ext. intros p Hp. rewrite Forall_forall in Hf. destruct (Hf p Hp) as [Hw Hc].
  apply Ht; [done|by left].
Qed.

Lemma tame_touches {T E A} `{OnDisk T} W C (m : st T E A) :
  touches W C m -> Forall (fun p => p ∉ W /\ p ∉ C) [CONTACTS_PATH; ALIASES_PATH; DELIVERY_SECRETS_PATH] -> tame m.
Proof. intros Hm Hf s. by eapply wf_touched. Qed.

Lemma tame_at_home {A} (m : st (disk * MessageStore) client_error A) : tame m -> tame (at_home m : online A).
Proof. intros Hm [s w] Hs. unfold at_home. specialize (Hm s Hs). by destruct (m s). Qed.

Lemma tame_on_files {A} (m : st disk client_error A) : tame m -> tame (on_files m : online A).
Proof. intros Hm. apply tame_at_home. intros [d m0] Hd. specialize (Hm d Hd). by destruct (m d). Qed.

(** The writes of a run are not cut short and its secrets have 64 bytes. *)
Definition secret_fits (y : direct_env) : Prop :=
  whole (d_token_write y) = true /\ bytes_ok (d_token_fresh y) /\ length (d_token_fresh y) = 64%nat.
Definition whole_env (e : program_env) : Prop := whole (e_write e) = true /\ secret_fits (e_direct e).

Lemma tame_made {T E A} `{OnDisk T} (m : st T E A) : touches [] made m -> tame m.
Proof. intros Hm. eapply tame_touches; [exact Hm|]. repeat constructor; listed. Qed.

Lemma tame_token y nid : secret_fits y ->
  tame (generate_delivery_token (d_token_write y) (d_token_fresh y) (d_secs y 0) nid 1).
Proof.
  intros (Hw & Hb & Hl). unfold generate_delivery_token. apply tame_bind; [|intros ?].
  - intros d. by apply secret_wf.
  - apply tame_made. touches.
Qed.

Lemma tame_send_direct certs x y self nid fp message :
  secret_fits y -> tame (send_direct certs x y self nid fp message : online _).
Proof.
  intros Hy. unfold send_direct.
  apply tame_bind; [apply tame_made; commands|intros kp]. apply tame_bind; [apply tame_made; commands|intros hello].
  apply tame_bind; [apply tame_made; commands|intros ?]. apply tame_bind; [apply tame_made; commands|intros fr].
  apply tame_bind; [apply tame_made; commands|intros ?]. apply tame_bind; [apply tame_made; commands|intros ?].
  apply tame_bind; [apply tame_made; commands; apply touches_fresh_session|intros session].
  apply tame_bind; [apply tame_made; commands|intros [[msg text] hash]].
  apply tame_bind; [|intros token].
  { apply tame_at_home. intros [d m] Hd. pose proof (tame_token y nid Hy d Hd) as Ht.
    by destruct (generate_delivery_token _ _ _ _ _ d). }
  apply tame_made. commands. apply touches_pure. intros [[d m] [net fs]].
  destruct (await_receipts _ _ _ _ _ _ fs) as [ev [|]]; done.
Qed.

Lemma tame_relay_send x url self nid fp message : tame (relay_send x url self nid fp message : online unit).
Proof. apply tame_made, touches_relay_send. Qed.

Lemma tame_ret {A} (a : A) : tame (st_ret a : online A).
Proof. by intros s. Qed.

Lemma tame_send_message certs x y url self nid message lookup :
  secret_fits y -> tame (send_message certs x y url self nid message lookup : online _).
Proof.
  intros Hy [[d m] w] Hd. unfold send_message. destruct (load_contacts d !! nid) as [fp|]; [|done].
  destruct (lookup w) as [w1 [addr|e]]; [destruct (ws_connect "" (ws_url addr) w1) as [w2 [|]]|].
  - by apply (tame_bind _ _ (tame_send_direct certs x y self nid fp message Hy) (fun ev => tame_ret (Direct ev)) ((d, m), w2)).
  - by apply (tame_bind _ _ (tame_relay_send x url self nid fp message) (fun _ => tame_ret ByRelay) ((d, m), w2)).
  - by apply (tame_bind _ _ (tame_relay_send x url self nid fp message) (fun _ => tame_ret ByRelay) ((d, m), w1)).
Qed.

Lemma tame_run e a : whole_env e -> tame (run e a : online printed).
Proof.
  intros [Hw Hy]. pose proof (touches_run e a) as Ht.
  assert (Ho : Forall (fun p => p ∉ writes (cmd a) /\ p ∉ makes (cmd a))
                 [CONTACTS_PATH; ALIASES_PATH; DELIVERY_SECRETS_PATH] -> tame (run e a : online printed)).
  { by apply tame_touches. }
  unfold run in *. destruct (discover_servers _ _).
  destruct (cmd a) as [| |to message pir| | |nid fp| | |nid|nid|al nid| |]; try (apply Ho; repeat constructor; listed).
  - unfold run_send. apply tame_bind; [apply tame_made, touches_open_store|intros _].
    apply tame_bind; [apply tame_made; auto with footprint|intros self].
    apply tame_bind; [apply tame_made; auto with footprint|intros d]. cbv zeta.
    apply tame_bind; [by apply tame_send_message|intros how; apply tame_ret].
  - apply tame_bind; [|intros ?; apply tame_ret]. apply tame_on_files. intros d. by apply add_contact_wf.
  - apply tame_bind; [|intros ?; apply tame_ret]. apply tame_on_files. intros d. by apply alias_wf.
Qed.

Lemma tame_client_main e a : whole_env e -> tame (client_main e a : online printed).
Proof.
  intros He [[d m] w] Hd. unfold client_main. destruct (pid_refusal _ _); [done|].
  assert (Hpid : forall d', touched [PID_PATH] [] d d' -> home_wf d').
  { intros d' Ht. eapply wf_touched; [exact Ht| |exact Hd]. repeat constructor; listed. }
  specialize (Hpid (write_text (e_pid_write e) PID_PATH (pid_text (e_pid e)) d).1
    (touches_write (E := client_error) [PID_PATH] [] Plain (e_pid_write e) PID_PATH _ ltac:(listed) d)).
  destruct (write_text _ _ _ d) as [d' [u|er]]; [|by destruct er].
  pose proof (tame_run e a He ((d', m), w) Hpid) as Hr. destruct (run e a _) as [[[d'' m'] w'] r].
  apply (wf_touched [PID_PATH] [] d''); [|repeat constructor; listed|exact Hr].
  exact (touches_delete (E := client_error) [PID_PATH] [] PID_PATH ltac:(listed) d'').
Qed.
End footprint.

(** ** Any number of runs *)

Section runs.
Context `{Kem} `{Aead} `{Hkdf} `{Hmac} `{Hex} `{Base64} `{Sha2} `{Blake2} `{Argon2}.
Context `{Sequoia} `{!SequoiaSecret} `{Age} `{JsonCodec} `{WireCodec} `{Format} `{SessionCodec}.
Context {S : Type} `{Server S}.

(** A command line in its surroundings, with the network it finds. *)
Record invocation : Type := mkInvocation { v_env : program_env; v_args : Args; v_net : S * list relay_frame }.

(** The files and the database after it. *)
Definition invoke (dm : disk * MessageStore) (v : invocation) : disk * MessageStore :=
  (client_main (v_env v) (v_args v) (dm, v_net v)).1.1.

Lemma invoke_touched dm v :
  touched (PID_PATH :: writes (cmd (v_args v))) (makes (cmd (v_args v))) dm.1 (invoke dm v).1.
Proof. exact (touches_client_main (v_env v) (v_args v) (dm, v_net v)). Qed.

Lemma runs_touched W C vs dm :
  Forall (fun v => PID_PATH :: writes (cmd (v_args v)) ⊆ W /\ makes (cmd (v_args v)) ⊆ C) vs ->
  touched W C dm.1 (foldl invoke dm vs).1.
Proof.
  intros Hvs. revert dm. induction Hvs as [|v vs [HW HC] _ IH]; intros dm; [done|]. cbn [foldl].
  etransitivity; [|apply IH]. eapply touched_mono; [exact HW|exact HC|apply invoke_touched].
Qed.

Definition key_files : list string := [IDENTITY_PATH; CERT_ASC; CERT_AGE].
Definition home_files : list string := [PID_PATH; CONTACTS_PATH; ALIASES_PATH; DELIVERY_SECRETS_PATH].

Lemma any_command c :
  PID_PATH :: writes c ⊆ home_files ++ KYBER_KEY_PATH :: key_files /\ makes c ⊆ made.
Proof. destruct c; split; cbn [writes makes]; unfold home_files, key_files, made; set_solver. Qed.

Lemma no_init_command c : c <> Init -> PID_PATH :: writes c ⊆ home_files /\ makes c ⊆ made.
Proof. destruct c; try done; intros _; split; cbn [writes makes]; unfold home_files, made; set_solver. Qed.

(** C25: what any number of command lines leave of a home.  Through any commands,
    successful or not, against any servers and with any connections to the
    listener, as long as no write of the contacts, aliases or secrets is cut
    short: every contact has a fingerprint of at least 32 upper-case digits,
    every alias leads to a contact, every delivery secret can be read back; the
    key of the database, once made, never changes; and as long as no [init] is
    among them, neither the identity nor its certificate changes, nor the Kyber
    key once there is one. *)
Theorem commands_keep_home (vs : list invocation) (dm : disk * MessageStore) :
  home_wf dm.1 -> Forall (fun v => whole_env (v_env v)) vs ->
  let d := (foldl invoke dm vs).1 in
  (home_wf d /\
   (forall a nid, load_aliases d !! a = Some nid -> exists fp, contact_of a d = Ok (nid, fp) /\ stored_fp fp) /\
   (forall nid hex, load_delivery_secrets d !! nid = Some hex ->
      exists m, forall w fresh, get_or_create_delivery_secret w fresh nid d = (d, Ok m))) /\
  (forall text, dm.1 !! DB_KEY_PATH = Some text -> d !! DB_KEY_PATH = Some text) /\
  (Forall (fun v => cmd (v_args v) <> Init) vs ->
   Forall (fun p => d !! p = dm.1 !! p) key_files /\
   forall text, dm.1 !! KYBER_KEY_PATH = Some text -> d !! KYBER_KEY_PATH = Some text).
Proof.
  intros Hwf Hvs d. assert (Hd : home_wf d).
  { unfold d. clear d. revert dm Hwf. induction Hvs as [|v vs Hv _ IH]; intros dm Hwf; [done|]. cbn [foldl].
    apply IH. exact (tame_client_main (v_env v) (v_args v) Hv (dm, v_net v) Hwf). }
  split; [split; [done|by apply home_usable]|].
  pose proof (runs_touched (home_files ++ KYBER_KEY_PATH :: key_files) made vs dm) as Hany.
  split.
  - intros text Ht. rewrite <- Ht. apply Hany; [apply Forall_forall; intros; apply any_command|listed|].
    right. by rewrite Ht.
  - intros Hno. pose proof (runs_touched home_files made vs dm) as Hrest.
    assert (Hf : touched home_files made dm.1 d).
    { apply Hrest. eapply Forall_impl; [exact Hno|]. intros v. apply no_init_command. }
    split.
    + unfold key_files. repeat constructor; apply Hf; try listed; left; listed.
    + intros text Ht. rewrite <- Ht. apply Hf; [listed|]. right. by rewrite Ht.
Qed.
End runs.

(** ** A concrete home *)

#[local] Existing Instances toy_json toy_sha2 toy_hex toy_hmac toy_blake2 toy_base64 toy_sequoia toy_secret toy_age
  toy_kem toy_aead toy_hkdf toy_argon2 toy_format ClientRelayProps.toy_session_codec WireText.text_codec.

(** No server at all. *)
#[local] Instance no_server : Server unit := {|
  srv_connect := fun _ s => (s, Err "refused");
  srv_say := fun _ s => (s, Err "closed") |}.

Definition quiet_dht : dht_env :=
  mkDhtEnv (fun k => Z.of_nat k) (fun _ => 100) (fun _ => Err "") (Err "") (Ok tt) (fun _ => []) [].

Definition quiet_env : program_env :=
  mkProgramEnv 42 (fun _ => false) Written (fun _ => None) (Ok tt) Written (replicate 32 9) Written (Ok "yes") (Ok "")
    (Ok ("NEW" : @cert toy_sequoia)) calm_init 100 (ClientRelayProps.calm 1) (fun _ => ClientRelayProps.calm 2)
    calm_direct quiet_dht (7, 8) (fun _ => (true, replicate 12 3, "now")) true (Ok tt) [] "closed".

Definition quietly (c : Commands) : invocation (S := unit) :=
  mkInvocation quiet_env (mkArgs c None None) (tt, []).

(** [init], then commands that leave the keys alone. *)
Theorem commands_keep_home_witness :
  let dm := invoke (∅, open []) (quietly Init) in
  let vs := [quietly (AddContact "NN-1" friend_fp); quietly (Alias "bob" "NN-1"); quietly (Alias "eve" "NN-2");
             quietly (Send "bob" "hello" false); quietly Read] in
  let d := (foldl invoke dm vs).1 in
  contact_of "bob" d = Ok ("NN-1", to_uppercase friend_fp) /\
  d !! DB_KEY_PATH = Some (hex_encode (replicate 32 1)) /\ Forall (fun p => d !! p = dm.1 !! p) key_files.
Proof.
  intros dm vs d. assert (He : whole_env quiet_env).
  { split; [reflexivity|]. split; [reflexivity|]. split; [|reflexivity].
    apply Forall_replicate. split; [discriminate|reflexivity]. }
  destruct (commands_keep_home vs dm) as ((Hwf & Hal & _) & Hkey & Hno).
  - apply (tame_client_main quiet_env (mkArgs Init None None) He ((∅, open []), (tt, []))). exact home_wf_empty.
  - unfold vs, quietly. repeat (apply Forall_cons; split; [exact He|]). constructor.
  - split; [vm_compute; reflexivity|]. split.
    + apply Hkey. vm_compute. reflexivity.
    + apply Hno. unfold vs, quietly. repeat (apply Forall_cons; split; [discriminate|]). constructor.
Defined.
