(* ===== verification/Settled.v ===== *)
(** * A home that is set up (src/client/src/main.rs)

    What [init] leaves behind and every later command relies on: an identity,
    its certificate, the key of the database and the Kyber key, each of which
    loads; [init] makes such a home, and no other command spoils it. *)

From S2P Require Import Prelude Text Files Primitives Concrete Json Gpg Pow Identity CertCache DeliveryTokens Kyber.
From S2P Require Import Ratchet ClientStore ClientRelay ClientRelayProps ClientHome ClientDht ClientShell ClientDirect.
From S2P Require Import ClientFetch ClientMain Constants Envelope.

Section settled.
Context `{Kem} `{Aead} `{Hkdf} `{Hmac} `{Hex} `{Base64} `{Sha2} `{Blake2} `{Argon2}.
Context `{Sequoia} `{!SequoiaSecret} `{Age} `{JsonCodec} `{WireCodec} `{Format} `{SessionCodec}.

(** The parts of a home, under the passphrase typed. *)
Record settled (pass : result string string) (self : ClientRelay.Identity) (crt : cert) (key : bytes) (kp : keypair)
    (d : disk) : Prop := mkSettled {
  s_self : load_identity d = Ok self;
  s_cert : load_cert pass d = Ok crt;
  s_key : d !! DB_KEY_PATH = Some (hex_encode key);
  s_key_ok : key_ok key;
  s_kyber_file : is_Some (d !! KYBER_KEY_PATH);
  s_kyber : Kyber.load KYBER_KEY_PATH key d = Some (Ok kp);
  s_derived : derive_kyber (ClientRelay.null_id self) = Ok kp;
  s_named : fingerprint self = to_uppercase (cert_fingerprint crt);
  s_nid : ClientRelay.null_id self = compute_null_id (fingerprint self);
}.

(** ** Loading depends on the file alone *)

Lemma load_kyber_same key d d' :
  d' !! KYBER_KEY_PATH = d !! KYBER_KEY_PATH -> Kyber.load KYBER_KEY_PATH key d' = Kyber.load KYBER_KEY_PATH key d.
Proof. intros E. unfold Kyber.load, load_fields, read_json. by rewrite E. Qed.

Lemma load_cert_same pass d d' :
  d' !! CERT_AGE = d !! CERT_AGE -> d' !! CERT_ASC = d !! CERT_ASC -> load_cert pass d' = load_cert pass d.
Proof. intros Ea Ep. unfold load_cert. by rewrite Ea, Ep. Qed.

Lemma load_identity_same d d' :
  d' !! IDENTITY_PATH = d !! IDENTITY_PATH -> load_identity d' = load_identity d.
Proof. intros E. unfold load_identity. by rewrite E. Qed.

(** Any command but [init] leaves the home set up. *)
Lemma settled_touched pass self crt key kp d d' :
  touched home_files made d d' -> settled pass self crt key kp d -> settled pass self crt key kp d'.
Proof.
  intros Ht [Hs Hc Hk Hok Hf Hl Hd Hn Hi].
  assert (Hkf : d' !! KYBER_KEY_PATH = d !! KYBER_KEY_PATH) by (apply Ht; [listed|by right]).
  split; try done.
  - rewrite (load_identity_same d d'); [done|]. apply Ht; [listed|left; listed].
  - rewrite (load_cert_same _ d d'); [done| |]; (apply Ht; [listed|left; listed]).
  - rewrite <- Hk. apply Ht; [listed|]. right. by rewrite Hk.
  - by rewrite Hkf.
  - by rewrite (load_kyber_same _ d d').
Qed.

Lemma settled_run {S} `{Server S} pass self crt key kp (v : invocation (S := S)) dm :
  cmd (v_args v) <> Init -> settled pass self crt key kp dm.1 -> settled pass self crt key kp (invoke dm v).1.
Proof.
  intros Hc. apply settled_touched. destruct (no_init_command (cmd (v_args v)) Hc) as [HW HC].
  eapply touched_mono; [exact HW|exact HC|apply invoke_touched].
Qed.

(** ** What [init] makes *)

(** Nothing goes wrong during [init], and what it is given has its length. *)
Record smooth_init (e : program_env) (pass : string) (crt : cert) (armored : string) : Prop := mkSmoothInit {
  i_pid : e_pid_write e = Written;
  i_new : e_generated e = Ok crt;
  i_armored : tsk_armored crt = Ok armored;
  i_sane : corrupt_cert armored = false;
  i_pass : e_password e = Ok pass;
  i_sealed : pass <> "" -> is_ok (encrypt_cert_armored armored pass) = true;
  i_writes : i_cert (e_init e) = Written /\ i_kyber (e_init e) = true /\ i_identity (e_init e) = Written /\
             i_db_key (e_init e) = Written;
  i_random : nonce_ok (i_nonce (e_init e)) /\ key_ok (i_db_random (e_init e));
}.

Lemma cert_kept pass crt armored d :
  tsk_armored crt = Ok armored -> corrupt_cert armored = false ->
  (pass <> "" -> is_ok (encrypt_cert_armored armored pass) = true) -> d !! CERT_AGE = None ->
  exists d', keep_cert Written pass armored d = (d', Ok tt) /\ load_cert (Ok pass) d' = Ok crt.
Proof.
  intros Ha Hc Hp Hd. destruct (tsk_armored_parses crt armored Ha) as (_ & Hutf & Hparse). unfold keep_cert, load_cert.
  destruct (str_is_empty pass) eqn:Ep.
  - eexists. split; [done|]. cbn [fst snd]. rewrite lookup_insert_ne by done. rewrite Hd, lookup_insert_eq, Hc.
    unfold parse_cert. by rewrite Hparse.
  - assert (Hne : pass <> "") by (by intros ->). specialize (Hp Hne).
    destruct (encrypt_cert_armored armored pass) as [enc|] eqn:Ee; [|done]. unfold st_bind, st_lift, st_modify. cbn [plain].
    eexists. split; [done|]. rewrite lookup_delete_ne by done. rewrite lookup_insert_eq. cbn [plain rbind].
    rewrite Ep, (decrypt_encrypt_cert _ _ _ Hutf Ee). cbn [plain rbind]. unfold parse_cert. by rewrite Hparse.
Qed.

Lemma saved_identity_loads self d : load_identity (save_identity Written self d).1 = Ok self.
Proof.
  unfold load_identity, save_identity, Files.write_file. cbn [fst]. rewrite lookup_insert_eq.
  destruct (json_parse_print [("fingerprint", fingerprint self); ("null_id", ClientRelay.null_id self)])
    as (m & Hp & Hm); [cbn; repeat constructor; set_solver|].
  rewrite Hp. cbn [mbind option_bind]. unfold identity_of. cbn [get]. rewrite !Hm. by destruct self.
Qed.

Lemma saved_kyber_loads nonce key kp d :
  nonce_ok nonce -> exists d', Kyber.save true nonce KYBER_KEY_PATH key kp d = (d', Ok tt) /\
    Kyber.load KYBER_KEY_PATH key d' = Some (Ok kp) /\ is_Some (d' !! KYBER_KEY_PATH) /\
    touched [KYBER_KEY_PATH] [] d d'.
Proof.
  intros [Hn Hb].
  assert (Hfk : exists k, file_key key = Ok k).
  { unfold file_key. destruct (hkdf_expand_ok key (str_bytes "nullnode-kyber-key-enc-v1") 32)
      as (o & -> & _); [apply Nat.leb_le; reflexivity|]. by eexists. }
  destruct Hfk as [k Hfk]. destruct (aes_encrypt_total k nonce (dk_to_bytes (dec kp))) as [ct Hct].
  { unfold zlen. rewrite dk_to_bytes_length. done. }
  destruct (save_load nonce key KYBER_KEY_PATH kp d ct k) as [Hs Hl]; [done..|].
  rewrite Hs. eexists. split_and!; [done|done|by rewrite lookup_insert_eq|].
  apply touched_insert. left. listed.
Qed.

Lemma fresh_db_key key d :
  d !! DB_KEY_PATH = None ->
  load_or_create_sync Written key d = (<[DB_KEY_PATH := hex_encode key]> d, Ok key).
Proof. intros Hd. unfold load_or_create_sync, open_db_key, load_or_create. by rewrite Hd. Qed.

Lemma touches_keep_cert W C w pass armored :
  CERT_ASC ∈ W -> CERT_AGE ∈ W -> touches W C (keep_cert w pass armored).
Proof.
  intros Hp Ha. unfold keep_cert. destruct (str_is_empty pass); [by apply touches_write|].
  apply touches_bind; [auto with footprint|intros enc]. apply touches_bind; [by apply touches_write|intros _].
  by apply touches_delete.
Qed.

(** The identity that goes with a certificate. *)
Definition named (crt : cert) : ClientRelay.Identity :=
  mkIdentity (to_uppercase (cert_fingerprint crt)) (compute_null_id (to_uppercase (cert_fingerprint crt))).

Lemma generated_settled e pass crt armored d :
  smooth_init e pass crt armored -> d !! CERT_AGE = None -> d !! DB_KEY_PATH = None ->
  exists d' kp, generate_identity (e_init e) (e_password e) (e_generated e) d = (d', Ok (named crt)) /\
    settled (e_password e) (named crt) crt (i_db_random (e_init e)) kp d'.
Proof.
  intros [_ Hnew Harm Hsane Hpass Hseal (Hw1 & Hw2 & Hw3 & Hw4) [Hno Hkey]] Hage Hdb.
  set (self := named crt).
  destruct (cert_kept pass crt armored d Harm Hsane Hseal Hage) as (d1 & Hk & Hc).
  pose proof (touches_keep_cert [CERT_ASC; CERT_AGE] [] Written pass armored ltac:(listed) ltac:(listed) d) as Ht1.
  rewrite Hk in Ht1. cbn in Ht1.
  assert (Hdb1 : d1 !! DB_KEY_PATH = None) by (rewrite <- Hdb; apply Ht1; [listed|left; listed]).
  destruct (derive_kyber_total (ClientRelay.null_id self)) as (kp & Hkp & _).
  set (d2 := <[DB_KEY_PATH := hex_encode (i_db_random (e_init e))]> d1).
  destruct (saved_kyber_loads (i_nonce (e_init e)) (i_db_random (e_init e)) kp d2 Hno) as (d3 & Hs3 & Hl3 & Hf3 & Ht3).
  set (d4 := (save_identity Written self d3).1).
  assert (Ht4 : touched [IDENTITY_PATH] [] d3 d4)
    by exact (touches_write (E := client_error) [IDENTITY_PATH] [] Plain Written IDENTITY_PATH _ ltac:(listed) d3).
  exists d4, kp. split.
  - unfold generate_identity, st_bind, st_lift. rewrite Hnew, Harm, Hpass, Hw1. cbn [plain]. rewrite Hk.
    change (compute_null_id (to_uppercase (cert_fingerprint crt))) with (ClientRelay.null_id self).
    rewrite Hkp, Hw4, (fresh_db_key _ d1 Hdb1), Hw2. fold d2. rewrite Hs3, Hw3. done.
  - assert (Hd2 : forall q, q <> DB_KEY_PATH -> d2 !! q = d1 !! q) by (intros q Hq; by apply lookup_insert_ne).
    assert (H34 : forall q, q ∉ [KYBER_KEY_PATH; IDENTITY_PATH] -> d4 !! q = d2 !! q).
    { intros q Hq. rewrite (Ht4 q) by (set_solver || (left; listed)). apply Ht3; [set_solver|left; listed]. }
    assert (Hk4 : d4 !! KYBER_KEY_PATH = d3 !! KYBER_KEY_PATH) by (apply Ht4; [listed|left; listed]).
    split; rewrite ?Hpass, ?Hk4, ?(load_kyber_same _ d3 d4 Hk4); try done.
    + apply saved_identity_loads.
    + rewrite (load_cert_same _ d1 d4); [done| |]; rewrite H34, Hd2 by (done || listed); done.
    + rewrite H34 by listed. apply lookup_insert_eq.
Qed.

(** ** Running a command *)

Context {S : Type} `{Server S}.

Abbreviation files := (disk * MessageStore)%type.

Definition with_pid (e : program_env) (d : disk) : disk := <[PID_PATH := pid_text (e_pid e)]> d.

(** With the PID file out of the way, a command line is its command. *)
Lemma main_runs (e : program_env) a d m (w : S * list relay_frame) d' m' w' r :
  d !! PID_PATH = None -> e_pid_write e = Written ->
  run e a ((with_pid e d, m), w) = (((d', m'), w'), r) ->
  client_main e a ((d, m), w) = (((delete PID_PATH d', m'), w'), r).
Proof.
  intros Hp Hw Hr. unfold client_main. rewrite Hp, Hw. cbn [pid_refusal].
  change (write_text Written PID_PATH (pid_text (e_pid e)) d) with (with_pid e d, Ok (E := client_error) tt).
  cbv iota beta. by rewrite Hr.
Qed.

(** The database opens with the key in its file, and the file stays as it is. *)
Lemma open_settled (e : program_env) pass self crt key kp d m (w : S * list relay_frame) :
  settled pass self crt key kp d -> e_open e = Ok tt ->
  open_store e ((d, m), w) = (((d, with_key key m), w), Ok tt).
Proof.
  intros Hs Ho. unfold open_store. rewrite Ho. cbn [plain]. unfold st_bind at 1, st_lift.
  destruct (s_key_ok _ _ _ _ _ _ Hs) as [Hb Hl].
  assert (Hk : open_db_key (e_db_write e) (e_db_random e) d = (d, Ok key)).
  { unfold open_db_key. rewrite (s_key _ _ _ _ _ _ Hs). cbn [load_or_create].
    rewrite trim_hex by apply hex_encode_digits. rewrite hex_decode_encode by done. cbn [ok_or rbind].
    unfold zlen. rewrite Hl. cbn. f_equal. apply insert_id, Hs. }
  unfold st_bind, on_files, at_home. by rewrite Hk.
Qed.

Lemma with_pid_touched (e : program_env) d : touched home_files made d (with_pid e d).
Proof. apply touched_insert. left. listed. Qed.

Lemma without_pid_touched d : touched home_files made d (delete PID_PATH d).
Proof. exact (touches_delete (E := client_error) home_files made PID_PATH ltac:(listed) d). Qed.

Lemma settled_with_pid (e : program_env) pass self crt key kp d :
  settled pass self crt key kp d -> settled pass self crt key kp (with_pid e d).
Proof. apply settled_touched, with_pid_touched. Qed.

Lemma run_files {A} (m : st disk client_error A) d m0 (w : S * list relay_frame) d' r :
  m d = (d', r) -> on_files (S := S) m ((d, m0), w) = (((d', m0), w), r).
Proof. intros E. unfold on_files, at_home. by rewrite E. Qed.

(** [init] on an empty home. *)
Lemma init_run (e : program_env) pass crt armored sd rl m (w : S * list relay_frame) :
  smooth_init e pass crt armored ->
  exists d kp, client_main e (mkArgs Init sd rl) ((∅, m), w) = (((d, m), w), Ok (Initialized (Some (named crt)))) /\
    settled (e_password e) (named crt) crt (i_db_random (e_init e)) kp d /\
    load_contacts d = ∅ /\ load_aliases d = ∅ /\ d !! PID_PATH = None.
Proof.
  intros Hs. destruct (generated_settled e pass crt armored (with_pid e ∅) Hs) as (d' & kp & Hg & Hset).
  { unfold with_pid. by rewrite lookup_insert_ne, lookup_empty by done. }
  { unfold with_pid. by rewrite lookup_insert_ne, lookup_empty by done. }
  assert (Hi : cmd_init (e_init e) (e_confirm e) (e_password e) (e_generated e) (with_pid e ∅)
               = (d', Ok (Some (named crt)))).
  { unfold cmd_init, st_bind at 1, st_get. unfold load_identity, with_pid.
    rewrite lookup_insert_ne, lookup_empty by done. unfold st_bind at 1, st_lift. cbn [is_ok].
    unfold with_pid in Hg. unfold st_bind. by rewrite Hg. }
  exists (delete PID_PATH d'), kp. split.
  - apply main_runs; [by rewrite lookup_empty|apply Hs|]. unfold run. destruct (discover_servers _ _). cbn [cmd].
    unfold st_bind. by rewrite (run_files _ _ _ _ _ _ Hi).
  - split; [by eapply settled_touched, Hset; apply without_pid_touched|].
    pose proof (touches_init (e_init e) (e_confirm e) (e_password e) (e_generated e) (with_pid e ∅)) as Ht.
    rewrite Hi in Ht. cbn [fst] in Ht.
    assert (Hno : forall p, p ∈ [CONTACTS_PATH; ALIASES_PATH] -> delete PID_PATH d' !! p = None).
    { intros p Hp. rewrite lookup_delete_ne by set_solver. transitivity (with_pid e ∅ !! p).
      - apply Ht; [set_solver|left; set_solver].
      - unfold with_pid. rewrite lookup_insert_ne by set_solver. apply lookup_empty. }
    unfold load_contacts, load_aliases, load_map. rewrite !Hno by listed. split_and!; [done|done|apply lookup_delete_eq].
Qed.

(** [add-contact] with a fingerprint it takes. *)
Lemma add_contact_run (e : program_env) nid fp sd rl d m (w : S * list relay_frame) :
  d !! PID_PATH = None -> e_pid_write e = Written -> e_write e = Written -> stored_fp fp ->
  exists d', client_main e (mkArgs (AddContact nid fp) sd rl) ((d, m), w) = (((d', m), w), Ok Done) /\
    touched home_files made d d' /\ load_contacts d' = <[nid := fp]> (load_contacts d) /\
    load_aliases d' = load_aliases d /\ d' !! PID_PATH = None.
Proof.
  intros Hp Hw Hww (Hl & Hx & Hu).
  set (d1 := with_pid e d). set (m1 := <[nid := fp]> (load_contacts d1)).
  assert (Hc : cmd_add_contact (e_write e) nid fp d1 =
               (<[CONTACTS_PATH := json_print (str_object (map_to_list m1))]> d1, Ok tt)).
  { unfold cmd_add_contact. destruct (Z.ltb_spec (slen fp) 32); [lia|]. rewrite Hx, Hu, Hww. done. }
  eexists. split; [|split; [|split_and!]].
  - apply main_runs; [done|done|]. unfold run. destruct (discover_servers _ _). cbn [cmd].
    unfold st_bind. by rewrite (run_files _ _ _ _ _ _ Hc).
  - etransitivity; [apply with_pid_touched|]. etransitivity; [|apply without_pid_touched].
    apply touched_insert. left. listed.
  - unfold load_contacts, load_map. rewrite lookup_delete_ne by done. fold (load_map CONTACTS_PATH).
    pose proof (load_saved CONTACTS_PATH m1 d1) as E. unfold load_map in E. rewrite E. unfold m1, d1, with_pid.
    f_equal. unfold load_contacts, load_map. by rewrite lookup_insert_ne by done.
  - unfold load_aliases, load_map. rewrite lookup_delete_ne, lookup_insert_ne by done.
    unfold d1, with_pid. by rewrite lookup_insert_ne.
  - apply lookup_delete_eq.
Qed.
End settled.
