(* ===== verification/Interop.v ===== *)
(** * What a client stores, the relay accepts and hands on

    [send_via_relay] of the client against [handle_store] and the mailboxes of
    the relay: the two programs agree on the fields of the request and on the
    text that is signed. *)

From S2P Require Import Prelude Text Primitives Concrete Json Gpg Identity RateLimit.
From S2P Require Import Mailbox RelayAuth Federation RelayState Relay RelayProps.
From S2P Require Ratchet Kyber Padding ClientStore ClientRelay ClientRelayProps.

(** serde's derived decoder of the request, from an object with every field. *)
Class StoreRequestLaw `{RelayCodec} : Prop := {
  store_request_of_members m r :
    assoc "recipient_nid" m = Some (VString (ms_recipient_nid r)) ->
    assoc "signed_blob" m = Some (VString (ms_signed_blob r)) ->
    assoc "sender_nid" m = Some (VString (ms_sender_nid r)) ->
    assoc "sender_fp" m = Some (VString (ms_sender_fp r)) ->
    assoc "seq" m = Some (json_int (ms_seq r)) -> i64_min <= ms_seq r <= i64_max ->
    assoc "sender_sig" m = Some (VString (ms_sender_sig r)) ->
    assoc "timestamp" m = Some (VNumber (Float (ms_timestamp r))) ->
    assoc "nonce" m = Some (VString (ms_nonce r)) ->
    assoc "sender_cert" m = Some (VString (ms_sender_cert r)) ->
    assoc "sealed_sender" m = Some (VString (ms_sealed_sender r)) ->
    store_request_of (VObject m) = Ok r;
}.

Section interop.
Context `{Sequoia} `{Base64} `{Blake2} `{Hmac} `{Hex} `{Aead} `{Format} `{StoreRequestLaw}.
Context `{Kem} `{Hkdf} `{Sha2} `{JsonCodec} `{ClientRelay.SessionCodec}.

(** A request was sent only after signing and loading the certificate. *)
Lemma send_inv xs self nid fp message dm dm' req r :
  ClientRelay.send_via_relay xs self nid fp message dm = (dm', Some req, r) ->
  exists blob sig c,
    ClientRelay.x_sign xs (ClientRelay.transport_data xs self nid) = Ok sig /\
    ClientRelay.x_cert xs = Ok c /\
    req = ClientRelay.store_request xs (ClientRelay.store_payload xs self nid blob sig c).
Proof.
  unfold ClientRelay.send_via_relay. destruct (ClientRelay.prepare _ _ _ _ _ _) as [dm1 [[p s']|e]] eqn:E; [|done].
  destruct (st_bind _ _ _) as [dm2 r2]. intros [= <- <- <-].
  unfold ClientRelay.prepare, st_bind, st_lift, st_ret, ClientRelay.plain, ok_or in E.
  repeat (case_match; simplify_eq; try done).
  all: eexists _, _, _; split_and!; try done; by f_equal.
Qed.

(** The decoded request. *)
Definition decoded (xs : ClientRelay.surroundings) (self : ClientRelay.Identity) (nid blob sig c : string)
  : MailboxStoreRequest :=
  mkMailboxStoreRequest nid blob (ClientRelay.null_id self) (ClientRelay.fingerprint self) 1 sig
    (ClientRelay.x_secs xs) (pretty (ClientRelay.x_nanos xs)) c "".

Lemma payload_decodes xs self nid blob sig c :
  store_request_of (ClientRelay.store_payload xs self nid blob sig c) = Ok (decoded xs self nid blob sig c).
Proof. by apply store_request_of_members. Qed.

(** The client signs what the relay verifies. *)
Lemma signed_alike xs self nid blob sig c :
  store_signing_data (decoded xs self nid blob sig c) = ClientRelay.transport_data xs self nid.
Proof. done. Qed.

Lemma pending_last x req enc nid rows :
  nid = ms_recipient_nid req ->
  entry_of (x_secs x) req ∈ pending nid (rows ++ [mkRow nid (entry_of (x_secs x) req) false enc]).
Proof.
  intros ->. unfold pending. rewrite List.filter_app, fmap_app. apply elem_of_app. right.
  cbn [List.filter]. unfold undelivered. cbn [r_recipient r_delivered]. rewrite String.eqb_refl. cbn. by left.
Qed.

(** A key signs: what it signs verifies under the certificate. *)
Definition signs (sign : string -> result string string) (crt : cert) : Prop :=
  forall data sig, sign data = Ok sig ->
    sig <> "" /\ exists raw text, b64_decode sig = Some raw /\ from_utf8 raw = Some text /\
      verify_detached text data crt = Ok true.

(** A message sent reaches its recipient's mailbox.  The request that
    [send_via_relay] builds is decoded by the relay, passes the check of its
    signature when the sender's key made it and the relay has no other certificate
    for the sender, and is stored; the recipient's next fetch then hands
    on the blob and the names of the sender as they were sent. *)
Theorem client_message_reaches (xs : ClientRelay.surroundings) (rx fx : context)
    (self : ClientRelay.Identity) (nid fp message c : string) (dm dm' : gmap string string * ClientStore.MessageStore)
    (req : value) (r : result ClientRelay.client_error unit) (crt : cert) (s : RelayState) (rows : list row) :
  let me := ClientRelay.fingerprint self in
  ClientRelay.send_via_relay xs self nid fp message dm = (dm', Some req, r) ->
  ClientRelay.x_cert xs = Ok c -> c <> "" -> cert_from_bytes c = Ok crt ->
  signs (ClientRelay.x_sign xs) crt ->
  cert_cache s !! me = None \/ cert_cache s !! me = Some c -> can_write (x_locks rx) = true -> can_read (x_locks rx) = true ->
  check_timestamp_freshness (x_now rx) (ClientRelay.x_secs xs) = Ok tt ->
  unused me (pretty (ClientRelay.x_nanos xs)) s ->
  db_pool s = Some rows -> x_db rx = true -> x_db fx = true ->
  slen (ClientRelay.null_id self) + slen me + 1 < 2 ^ 32 ->
  exists p s' e, get req "payload" = Some p /\
    handle_store rx p s = (s', Ok [ROk None]) /\
    e ∈ fetch_messages fx nid s' /\
    (str_field (entry_value e) "signed_blob", str_field (entry_value e) "sender_nid",
     str_field (entry_value e) "sender_fp") = ClientRelayProps.handed_on req.
Proof.
  intros me Hsend Hc Hne Hcrt Hsigns Hcache Hw Hr Hts Hun Hdb Hdbr Hdbf Hl.
  apply send_inv in Hsend as (blob & sig & c' & Hsig & Hc' & ->).
  rewrite Hc in Hc'. injection Hc' as <-.
  destruct (Hsigns _ _ Hsig) as (Hsne & raw & text & Hraw & Htext & Hv).
  set (q := decoded xs self nid blob sig c).
  destruct (store_granted rx (ClientRelay.store_payload xs self nid blob sig c) q crt raw text s
    (payload_decodes _ _ _ _ _ _)) as (n & s' & Hok & Hst & _); [done..|].
  exists (ClientRelay.store_payload xs self nid blob sig c), s', (entry_of (x_secs rx) q).
  split; [reflexivity|]. split; [exact Hok|]. split; [|reflexivity].
  set (s2 := set_nonces n _) in Hst.
  destruct (store_message_rows rx q s2 _ rows Hdb Hst) as (_ & enc & E). rewrite E.
  assert (Hp := pending_last rx q enc nid rows eq_refl).
  rewrite (fetch_rows fx nid _ (rows ++ [mkRow nid (entry_of (x_secs rx) q) false enc])).
  - by rewrite select_rows_perm.
  - unfold insert_row, set_mail, store_in_memory. cbn [db_pool].
    change (db_pool s2) with (db_pool s). by rewrite Hdb.
  - done.
  - intros Hnil. rewrite Hnil in Hp. by apply elem_of_nil in Hp.
Qed.
End interop.

(** ** A concrete delivery *)

#[local] Existing Instances toy_sequoia toy_base64 toy_blake2 toy_hmac toy_hex toy_aead toy_format toy_relay
  toy_kem toy_hkdf toy_sha2 toy_json ClientRelayProps.toy_session_codec.

#[local] Instance toy_store_law : StoreRequestLaw.
Proof.
  constructor. intros m r E1 E2 E3 E4 E5 Hq E6 E7 E8 E9 E10. cbn [store_request_of toy_relay].
  unfold toy_time, str_field, i64_field, f64_field. cbn [get].
  rewrite E1, E2, E3, E4, E5, E6, E7, E8, E9, E10. cbn [mbind option_bind as_str opt_or].
  rewrite as_i64_json_int by done. cbn [opt_or]. by destruct r.
Qed.

Definition key_signs (key data : string) : result string string :=
  Ok (b64_encode (str_bytes (toy_sign key data))).

Lemma toy_verifies key data : verify_detached (toy_sign key data) data key = Ok true.
Proof.
  unfold verify_detached. rewrite toy_packets. cbn [cert_keys toy_sequoia check_packets hash_context].
  by rewrite (toy_verify_hash key data).
Qed.

Lemma toy_signs key : signs (key_signs key) key.
Proof.
  intros data sig E. assert (sig = b64_encode (str_bytes (toy_sign key data))) as -> by (unfold key_signs in E; congruence).
  split; [discriminate|].
  exists (str_bytes (toy_sign key data)), (toy_sign key data). split; [apply b64_decode_encode, str_bytes_ok|].
  split; [|apply toy_verifies]. apply from_utf8_str, toy_sign_ok.
Qed.

(** Alice's command and the relay it goes to. *)
Definition alice_calm : ClientRelay.surroundings :=
  let x := ClientRelayProps.calm 1 in
  ClientRelay.mkSurroundings (ClientRelay.x_file_io x) (ClientRelay.x_file_nonce x) (ClientRelay.x_coins x)
    (ClientRelay.x_nonce x) (ClientRelay.x_padding x) (ClientRelay.x_nanos x) (f64_of_Z 100)
    (ClientRelay.x_msg_id x) (ClientRelay.x_select x) (ClientRelay.x_save x) (ClientRelay.x_save_nonce x)
    (ClientRelay.x_save_time x) (key_signs "AAAA") (Ok "CERT:AAAA") (ClientRelay.x_frames x).

Definition alice_sends :=
  ClientRelay.send_via_relay alice_calm ClientRelayProps.alice victim_nid "VICTIM" "hello"
    (ClientRelayProps.fresh ClientRelayProps.alice 1).

Theorem client_message_reaches_witness :
  exists req p s' e, alice_sends.1.2 = Some req /\ get req "payload" = Some p /\
    handle_store sample_context p victim_state = (s', Ok [ROk None]) /\
    e ∈ fetch_messages sample_context victim_nid s'.
Proof.
  destruct alice_sends as [[dm' [req|]] r] eqn:E.
  - destruct (client_message_reaches alice_calm sample_context sample_context ClientRelayProps.alice
      victim_nid "VICTIM" "hello" "CERT:AAAA" (ClientRelayProps.fresh ClientRelayProps.alice 1) dm' req r
      ("AAAA" : @cert toy_sequoia) victim_state [mkRow victim_nid (sample_entry "FRIEND" 1) false ""])
      as (p & s' & e & Hp & Hs & He & _).
    + exact E.
    + reflexivity.
    + discriminate.
    + reflexivity.
    + apply toy_signs.
    + by left.
    + reflexivity.
    + reflexivity.
    + vm_compute. reflexivity.
    + vm_compute. reflexivity.
    + reflexivity.
    + reflexivity.
    + reflexivity.
    + vm_compute. reflexivity.
    + exists req, p, s', e. split; [reflexivity|]. split; [exact Hp|]. split; [exact Hs|exact He].
  - apply (f_equal (fun y => bool_decide (is_Some y.1.2))) in E. vm_compute in E. discriminate.
Defined.
