(* ===== verification/InteropFetch.v ===== *)
(** * What a client asks of its mailbox, as the relay sees it

    [relay_fetch] and [relay_purge] of the client (src/client/src/main.rs)
    against the requests of the relay (src/relay/src/main.rs): the one is
    served, the other is never understood. *)

From S2P Require Import Prelude Text Primitives Concrete Json JsonTree Gpg Identity RateLimit.
From S2P Require Import Mailbox RelayAuth Federation RelayState Relay RelayProps Interop.
From S2P Require Envelope ClientRelay ClientRelayProps ClientDirect ClientFetch.

(** serde's derived decoder of the request, from an object with every field; and
    of an envelope, from an object without a type. *)
Class FetchRequestLaw `{RelayCodec} `{JsonCodec} : Prop := {
  fetch_request_of_members m r :
    assoc "recipient_nid" m = Some (VString (mf_recipient_nid r)) ->
    assoc "auth_hmac" m = Some (VString (mf_auth_hmac r)) ->
    assoc "sender_sig" m = Some (VString (mf_sender_sig r)) ->
    assoc "requester_fp" m = Some (VString (mf_requester_fp r)) ->
    assoc "timestamp" m = Some (VNumber (Float (mf_timestamp r))) ->
    assoc "nonce" m = Some (VString (mf_nonce r)) ->
    assoc "sender_cert" m = Some (VString (mf_sender_cert r)) ->
    fetch_request_of (VObject m) = Ok r;
  envelope_needs_type m :
    assoc "msg_type" m = None -> is_ok (relay_from_json (json_print (VObject m))) = false;
}.

Section interop.
Context `{Sequoia} `{Base64} `{Blake2} `{Hmac} `{Hex} `{Aead} `{Format} `{FetchRequestLaw}.

(** With an accepted signature, a fresh time and an unused nonce the owner of a
    mailbox is let in. *)
Lemma owner_granted x what nid fp sig data cert key time k s :
  nid = compute_null_id fp -> check_timestamp_freshness (x_now x) time = Ok tt ->
  check_gpg x sig data fp cert s = (set_certs k s, Ok true) -> unused fp key s ->
  exists n, authorize_owner x what nid fp sig data cert key time s = (set_nonces n (set_certs k s), Ok tt).
Proof.
  intros Hnid Hts Hk Hun. destruct (check_nonce_spec x fp key (set_certs k s)) as (n & b & Hn & Hb).
  assert (b = true) as -> by (apply Hb; exact Hun). exists n.
  unfold authorize_owner, st_bind, st_lift, st_guard, st_ret. rewrite Hts.
  by rewrite <- Hnid, String.eqb_refl, Hk, Hn.
Qed.

(** A fetch signed by the owner of the mailbox: what waits is handed on, and
    only the certificate and the nonce are recorded. *)
Lemma fetch_granted rx p q crt raw text s :
  let fp := mf_requester_fp q in
  let nid := mf_recipient_nid q in
  fetch_request_of p = Ok q -> mf_sender_sig q <> "" -> fp <> "" -> nid = compute_null_id fp ->
  mf_sender_cert q <> "" -> cert_from_bytes (mf_sender_cert q) = Ok crt ->
  b64_decode (mf_sender_sig q) = Some raw -> from_utf8 raw = Some text ->
  verify_detached text (fetch_signing_data q) crt = Ok true ->
  cert_cache s !! fp = None \/ cert_cache s !! fp = Some (mf_sender_cert q) -> shared_secret s = None ->
  can_write (x_locks rx) = true -> can_read (x_locks rx) = true ->
  check_timestamp_freshness (x_now rx) (mf_timestamp q) = Ok tt -> unused fp (fp +:+ ":" +:+ mf_nonce q) s ->
  exists n, handle_fetch rx p s =
    (set_nonces n (set_certs (<[fp := mf_sender_cert q]> (cert_cache s)) s), Ok [ROk (Some (fetch_value (fetch_messages rx nid s)))]).
Proof.
  intros fp nid Hp Hsig Hfp Hnid Hne Hcrt Hraw Htext Hv Hcache Hsec Hw Hr Hts Hun.
  set (k := <[fp := mf_sender_cert q]> (cert_cache s)).
  assert (Hk : check_gpg rx (mf_sender_sig q) (fetch_signing_data q) fp (mf_sender_cert q) s = (set_certs k s, Ok true))
    by (by eapply verify_gpg_own).
  destruct (owner_granted rx "fetch" nid fp _ _ _ _ _ k s Hnid Hts Hk Hun) as [n Hn]. exists n.
  unfold handle_fetch, st_bind at 1, st_lift at 1. rewrite Hp. cbn [decode].
  unfold st_bind at 1, st_guard at 1. fold fp.
  rewrite (proj2 (str_is_empty_false (mf_sender_sig q)) Hsig), (proj2 (str_is_empty_false fp) Hfp). cbn [orb negb].
  unfold st_bind at 1. change (mf_recipient_nid q) with nid. fold fp nid.
  unfold st_ret at 1. rewrite Hn.
  unfold require_hmac, st_bind, st_get. change (shared_secret (set_nonces n (set_certs k s))) with (shared_secret s).
  by rewrite Hsec.
Qed.

(** A purge signed by an owner whose certificate is on file: the mailbox is
    empty afterwards. *)
Lemma purge_granted rx p armored crt raw text s :
  let fp := Json.str_field p "requester_fp" in
  let nid := Json.str_field p "recipient_nid" in
  let time := f64_field p "timestamp" (f64_of_Z 0) in
  let nonce := Json.str_field p "nonce" in
  fp <> "" -> Json.str_field p "sender_sig" <> "" -> nid = compute_null_id fp ->
  cert_cache s !! fp = Some armored -> cert_from_bytes armored = Ok crt ->
  b64_decode (Json.str_field p "sender_sig") = Some raw -> from_utf8 raw = Some text ->
  verify_detached text (purge_signing_data nid time nonce) crt = Ok true ->
  shared_secret s = None -> can_read (x_locks rx) = true ->
  check_timestamp_freshness (x_now rx) time = Ok tt -> unused fp ("purge:" +:+ fp +:+ ":" +:+ nonce) s ->
  exists n k, handle_purge rx p s =
    (purge_all_messages rx nid (set_nonces n (set_certs k s)), Ok [ROk None]).
Proof.
  intros fp nid time nonce Hfp Hsig Hnid Hc Hcrt Hraw Htext Hv Hsec Hr Hts Hun.
  assert (Hk : check_gpg rx (Json.str_field p "sender_sig") (purge_signing_data nid time nonce) fp "" s
               = (set_certs (cert_cache s) s, Ok true)).
  { unfold check_gpg, verify_gpg_detached. cbn [str_is_empty]. unfold st_bind, st_guard, st_get, st_lift, st_ret.
    rewrite Hr, Hraw. cbn [ok_or]. rewrite Hc. cbn [ok_or]. rewrite Hcrt, Htext. cbn [ok_or]. by rewrite Hv. }
  destruct (owner_granted rx "purge" nid fp _ _ "" _ _ _ s Hnid Hts Hk Hun) as [n Hn].
  exists n, (cert_cache s). unfold handle_purge. fold fp nid time nonce.
  unfold require_hmac. unfold st_bind at 1 2, st_get. rewrite Hsec. unfold st_ret at 1.
  unfold st_bind at 1, st_guard at 1.
  rewrite (proj2 (str_is_empty_false fp) Hfp), (proj2 (str_is_empty_false _) Hsig). cbn [orb negb].
  unfold st_bind at 1, st_ret at 1. by rewrite Hn.
Qed.

(** The decoded request. *)
Definition decoded_fetch (self : ClientRelay.Identity) (nid sig c : string) (time : f64) (nonce : string)
  : MailboxFetchRequest :=
  mkMailboxFetchRequest nid "" sig (ClientRelay.fingerprint self) time nonce c.

(** A client reads its own mailbox.  The request of [relay_fetch], signed by
    the key whose certificate it carries, is served by a relay without a shared
    secret that has no other certificate on file for the client: whatever waits
    for the identifier is handed on, nothing of it is removed, and only the
    certificate and the nonce are recorded. *)
Theorem client_fetch_served (rx : context) (self : ClientRelay.Identity) (sign : string -> result string string)
    (sig c nonce : string) (time : f64) (crt : cert) (s : RelayState) :
  let me := ClientRelay.fingerprint self in
  let nid := ClientRelay.null_id self in
  nid = compute_null_id me -> me <> "" ->
  signs sign crt -> sign (ClientFetch.fetch_data nid time nonce) = Ok sig ->
  c <> "" -> cert_from_bytes c = Ok crt ->
  cert_cache s !! me = None \/ cert_cache s !! me = Some c -> shared_secret s = None ->
  can_write (x_locks rx) = true -> can_read (x_locks rx) = true ->
  check_timestamp_freshness (x_now rx) time = Ok tt -> unused me (me +:+ ":" +:+ nonce) s ->
  exists s', handle_fetch rx (ClientFetch.fetch_payload self nid sig c time nonce) s =
      (s', Ok [ROk (Some (fetch_value (fetch_messages rx nid s)))]) /\
    fetch_messages rx nid s' = fetch_messages rx nid s.
Proof.
  intros me nid Hnid Hme Hsigns Hsig Hne Hcrt Hcache Hsec Hw Hr Hts Hun.
  destruct (Hsigns _ _ Hsig) as (Hsne & raw & text & Hraw & Htext & Hv).
  destruct (fetch_granted rx (ClientFetch.fetch_payload self nid sig c time nonce)
    (decoded_fetch self nid sig c time nonce) crt raw text s) as (n & E); try done.
  { by apply fetch_request_of_members. }
  eexists. by rewrite E.
Qed.

(** A purge empties nothing.  The request of [relay_purge] has its fields at
    the top and no message type, so the relay cannot read it: it answers with
    an error and stays as it was, whoever signs. *)
Theorem client_purge_ignored `{HashOrder (list f64)} (rx : context) (self : ClientRelay.Identity)
    (nid sig nonce : string) (time : f64) (s : RelayState) :
  exists e, handle_text rx (json_print (ClientFetch.purge_request self nid sig time nonce)) s =
    (s, [RError ("invalid JSON: " +:+ e)]).
Proof.
  unfold handle_text. assert (Hm : is_ok (relay_from_json (json_print (ClientFetch.purge_request self nid sig time nonce))) = false).
  { by apply envelope_needs_type. }
  destruct (relay_from_json _) as [e|e]; [done|]. by exists e.
Qed.
End interop.

(** ** Concrete requests *)

#[local] Existing Instances toy_sequoia toy_base64 toy_blake2 toy_hmac toy_hex toy_aead toy_format tree_json.

(** The requests of [toy_relay], and envelopes as the JSON text of their
    members. *)
Definition wire_to_json (e : RelayEnvelope) : string :=
  tree_print (VObject [("msg_type", VString (re_type e)); ("payload", re_payload e);
                       ("msg_id", VString (re_id e)); ("ts", VNumber (Float (re_ts e)))]).

Definition wire_from_json (s : string) : result string RelayEnvelope :=
  ok_or (v ← tree_parse s; t ← get v "msg_type" ≫= as_str; p ← get v "payload";
         i ← get v "msg_id" ≫= as_str; x ← get v "ts" ≫= as_f64; Some (mkRelayEnvelope t p i x))
    "missing field".

Definition wire_relay : RelayCodec := {|
  store_request_of := @store_request_of toy_relay; fetch_request_of := @fetch_request_of toy_relay;
  route_count_of := @route_count_of toy_relay; who_has_of := @who_has_of toy_relay;
  peer_auth_of := @peer_auth_of toy_relay; peer_auth_reply_of := @peer_auth_reply_of toy_relay;
  forward_of := @forward_of toy_relay; forward_value := @forward_value toy_relay;
  relay_to_json := wire_to_json; relay_from_json := wire_from_json;
  forward_of_value := @forward_of_value toy_relay |}.

#[local] Existing Instance wire_relay.

Lemma wire_fetch_law : FetchRequestLaw.
Proof.
  constructor.
  - intros m r E1 E2 E3 E4 E5 E6 E7. cbn [fetch_request_of wire_relay toy_relay].
    unfold toy_time, str_field, f64_field. cbn [get].
    rewrite E1, E2, E3, E4, E5, E6, E7. by destruct r.
  - intros m Hm. cbn [relay_from_json wire_relay json_print tree_json]. unfold wire_from_json.
    rewrite tree_parse_print. cbn [mbind option_bind get]. by rewrite Hm.
Qed.

#[local] Existing Instance wire_fetch_law.

Definition friend : ClientRelay.Identity := ClientRelay.mkIdentity "VICTIM" victim_nid.

Theorem client_fetch_served_witness :
  exists sig s', key_signs "VICTIM" (ClientFetch.fetch_data victim_nid (f64_of_Z 100) "n1") = Ok sig /\
    handle_fetch sample_context (ClientFetch.fetch_payload friend victim_nid sig "CERT:VICTIM" (f64_of_Z 100) "n1")
      victim_state = (s', Ok [ROk (Some (fetch_value [sample_entry "FRIEND" 1]))]).
Proof.
  destruct (key_signs "VICTIM" (ClientFetch.fetch_data victim_nid (f64_of_Z 100) "n1")) as [sig|e] eqn:E;
    [|apply (f_equal is_ok) in E; vm_compute in E; discriminate E].
  destruct (client_fetch_served sample_context friend (key_signs "VICTIM") sig "CERT:VICTIM" "n1" (f64_of_Z 100)
              ("VICTIM" : @cert toy_sequoia) victim_state) as (s' & Hs & _).
  - reflexivity.
  - discriminate.
  - apply toy_signs.
  - exact E.
  - discriminate.
  - reflexivity.
  - left. reflexivity.
  - reflexivity.
  - reflexivity.
  - reflexivity.
  - vm_compute. reflexivity.
  - vm_compute. reflexivity.
  - exists sig, s'. split; [reflexivity|]. exact (eq_trans Hs eq_refl).
Defined.
