(* ===== verification/EndToEnd.v ===== *)
(** * A message, from one client to the other

    The commands of two clients (src/client/src/main.rs) and the relay between
    them (src/relay/src/main.rs), connected by the texts they exchange: every
    request and every reply is printed by one program and parsed by the other.
    [ClientRelayProps.deliver] hands the request of the sender to the reader; here
    it goes through [handle_text] of the relay, its stores and its replies, into a
    mailbox where other mail may wait. *)

From S2P Require Import Prelude Text Primitives Concrete Json JsonTree Gpg Identity RateLimit.
From S2P Require Import Mailbox RelayAuth Federation RelayState Relay RelayProps RelayLink Interop InteropFetch.
From S2P Require Files Envelope Kyber ClientStore ClientRelay ClientRelayProps ClientHome ClientDht ClientDirect ClientFetch.

(** serde's decoder of an envelope, from the text of an object that has its
    members; others are ignored. *)
Class EnvelopeLaw `{RelayCodec} `{JsonCodec} : Prop := {
  envelope_read m t p i x :
    printable (VObject m) ->
    assoc "msg_type" m = Some (VString t) -> assoc "payload" m = Some p ->
    assoc "msg_id" m = Some (VString i) -> assoc "ts" m = Some (VNumber (Float x)) ->
    exists e, relay_from_json (json_print (VObject m)) = Ok e /\ re_type e = t /\
      same_json p (re_payload e) /\ same_number (Float x) (Float (re_ts e));
}.

(** An object written out: its keys are distinct, and a goal for every member
    that is not printable at once. *)
Ltac members :=
  apply printable_object;
    [cbn; repeat constructor; set_solver
    |repeat (apply Forall_cons_2; [cbn [snd]; try (constructor; fail)|]); try apply Forall_nil_2].

Lemma printable_int n : 0 <= n < 2 ^ 64 -> printable (json_int n).
Proof. intros Hn. unfold json_int. destruct (Z.ltb_spec n 0); [lia|]. by constructor. Qed.

Section network.
Context `{Sequoia} `{Base64} `{Blake2} `{Hmac} `{Hex} `{Aead} `{Format} `{RelayCodec} `{JsonCodec}.
Context `{!StoreRequestLaw} `{!FetchRequestLaw} `{!EnvelopeLaw} `{!JsonLaw}.
Context `{HashOrder (list f64)} `{Kem} `{Hkdf} `{Sha2} `{ClientRelay.SessionCodec}.

(** ** The connection to a relay *)

Definition frame_of (r : reply) : ClientRelay.relay_frame :=
  match reply_text r with Some t => ClientRelay.RText t | None => ClientRelay.RPong end.

(** A relay that lets the connection in, at the time of [x]. *)
Definition relay_server (x : context) : ClientDht.Server RelayState := {|
  ClientDht.srv_connect _ s := (s, Ok tt);
  ClientDht.srv_say raw s := let (s', rs) := handle_text x raw s in (s', Ok (frame_of <$> rs)) |}.

(** [send_via_relay] against a relay. *)
Definition send_over (rx : context) :=
  let _ : ClientDht.Server RelayState := relay_server rx in ClientDirect.relay_send (S := RelayState).

(** [relay_fetch] against a relay. *)
Definition fetch_from (fx : context) :=
  let _ : ClientDht.Server RelayState := relay_server fx in ClientFetch.relay_fetch (S := RelayState).

(** ** What a client needs for the relay to believe it *)

(** The relay has no other certificate on file for its fingerprint, its clock
    shows whole seconds and agrees with that of the relay, and the nonce is new. *)
Record admitted (x : ClientRelay.surroundings) (rx : context) (fp key c : string) (s : RelayState) : Prop := mkAdmitted {
  t_known : cert_cache s !! fp = None \/ cert_cache s !! fp = Some c;
  t_write : can_write (x_locks rx) = true;
  t_read : can_read (x_locks rx) = true;
  t_secs : exists z, ClientRelay.x_secs x = f64_of_Z z;
  t_finite : f64_finite (ClientRelay.x_secs x) = true;
  t_fresh : check_timestamp_freshness (x_now rx) (ClientRelay.x_secs x) = Ok tt;
  t_envelope : f64_gtb (f64_abs (f64_sub (x_env_now rx) (ClientRelay.x_secs x)))
                 (f64_of_Z STORE_TIMESTAMP_TOLERANCE_SECS) = false;
  t_unused : unused fp key s;
}.

(** Besides, its key signs and its certificate parses. *)
Record trusted (x : ClientRelay.surroundings) (rx : context) (fp key c : string) (crt : cert) (s : RelayState)
  : Prop := mkTrusted {
  t_admitted : admitted x rx fp key c s;
  t_cert : ClientRelay.x_cert x = Ok c;
  t_armored : c <> "";
  t_parses : cert_from_bytes c = Ok crt;
  t_signs : signs (ClientRelay.x_sign x) crt;
}.

(** ** Requests, as the relay reads them *)

Lemma request_read rx s x m t p :
  printable (VObject m) ->
  assoc "msg_type" m = Some (VString t) -> assoc "payload" m = Some p ->
  (exists i, assoc "msg_id" m = Some (VString i)) ->
  assoc "ts" m = Some (VNumber (Float (ClientRelay.x_secs x))) ->
  (exists z, ClientRelay.x_secs x = f64_of_Z z) ->
  f64_gtb (f64_abs (f64_sub (x_env_now rx) (ClientRelay.x_secs x)))
    (f64_of_Z STORE_TIMESTAMP_TOLERANCE_SECS) = false ->
  exists e, re_type e = t /\ same_json p (re_payload e) /\
    handle_text rx (json_print (VObject m)) s =
      match handle_message rx e s with (s', Ok rs) => (s', rs) | (s', Err er) => (s', [RError er]) end.
Proof.
  intros Hp Ht Hpay [i Hi] Hts [z Hz] Hf.
  destruct (envelope_read m t p i _ Hp Ht Hpay Hi Hts) as (e & He & Het & Hs & Hn).
  exists e. split_and!; [done|done|]. unfold handle_text. rewrite He.
  simpl in Hn. rewrite (Hn z Hz). by rewrite Hf.
Qed.

Lemma store_read xs self nid blob sig c p :
  (exists z, ClientRelay.x_secs xs = f64_of_Z z) ->
  same_json (ClientRelay.store_payload xs self nid blob sig c) p ->
  store_request_of p = Ok (decoded xs self nid blob sig c).
Proof.
  intros [z Hz] Hs. destruct (same_members Hs) as (m & -> & _).
  apply store_request_of_members; cbn [decoded ms_recipient_nid ms_signed_blob ms_sender_nid ms_sender_fp ms_seq
    ms_sender_sig ms_timestamp ms_nonce ms_sender_cert ms_sealed_sender];
    try by apply (member_string Hs).
  - by apply (member_int Hs _ 1).
  - done.
  - rewrite Hz. apply (member_time Hs). by rewrite <- Hz.
Qed.

Lemma fetch_read self nid sig c time nonce p :
  (exists z, time = f64_of_Z z) ->
  same_json (ClientFetch.fetch_payload self nid sig c time nonce) p ->
  fetch_request_of p = Ok (decoded_fetch self nid sig c time nonce).
Proof.
  intros [z ->] Hs. destruct (same_members Hs) as (m & -> & _).
  apply fetch_request_of_members; cbn [decoded_fetch mf_recipient_nid mf_auth_hmac mf_sender_sig mf_requester_fp
    mf_timestamp mf_nonce mf_sender_cert]; try by apply (member_string Hs).
  by apply (member_time Hs).
Qed.

(** ** Replies, as the client reads them *)

Lemma reply_read data :
  printable data -> exists v, json_parse (send_ok (Some data)) = Some v /\
    same_json (VObject [("ok", VBool true); ("error", VNull); ("data", data)]) v.
Proof. intros Hd. apply json_parse_print_tree. by members. Qed.

Lemma stored_heard : ClientRelay.await_ok [frame_of (ROk None)] = Ok tt.
Proof.
  destruct (json_parse_print_tree (VObject [("ok", VBool true); ("error", VNull); ("data", VNull)])) as (v & Hp & Hs).
  { members. }
  unfold frame_of, reply_text, send_ok, response. cbn [opt_or fmap option_fmap option_map].
  cbn [ClientRelay.await_ok]. rewrite Hp. by rewrite (member_bool Hs "ok" true eq_refl).
Qed.

Definition small_entry (e : MailboxEntry) : Prop := 0 <= seq e < 2 ^ 63.

Lemma entries_heard es :
  Forall small_entry es -> zlen es < 2 ^ 64 ->
  exists vs, ClientFetch.reply_entries (send_ok (Some (fetch_value es))) = Ok (Some vs) /\
    Forall2 same_json (entry_value <$> es) vs.
Proof.
  intros He Hl. destruct (reply_read (fetch_value es)) as (v & Hp & Hs).
  { members.
    - constructor. apply Forall_fmap. eapply Forall_impl; [exact He|]. intros e Hse. unfold small_entry in Hse.
      unfold entry_value. members. apply printable_int. lia.
    - apply printable_int. unfold zlen in *. lia. }
  unfold ClientFetch.reply_entries. rewrite Hp. cbn [ok_or rbind].
  rewrite (member_null Hs "error" eq_refl). cbn [mbind option_bind as_str].
  destruct (same_member Hs "data" _ eq_refl) as (d & -> & Hd). cbn [mbind option_bind].
  destruct (member_array Hd "entries" _ eq_refl) as (vs & -> & Hvs). cbn. by exists vs.
Qed.

(** ** The message in the mailbox *)

Lemma request_printable xs self nid blob sig c :
  f64_finite (ClientRelay.x_secs xs) = true ->
  printable (ClientRelay.store_request xs (ClientRelay.store_payload xs self nid blob sig c)).
Proof.
  intros Hf. unfold ClientRelay.store_request, ClientRelay.store_payload. members; [by constructor|].
  members; [by apply printable_int|by constructor].
Qed.

(** The mailbox has the message, besides what waited. *)
Lemma store_over xs rx fx self nid blob sig c crt s rows :
  let me := ClientRelay.fingerprint self in
  let q := decoded xs self nid blob sig c in
  trusted xs rx me (pretty (ClientRelay.x_nanos xs)) c crt s ->
  ClientRelay.x_sign xs (ClientRelay.transport_data xs self nid) = Ok sig ->
  slen (ClientRelay.null_id self) + slen me + 1 < 2 ^ 32 ->
  db_pool s = Some rows -> x_db rx = true -> x_db fx = true ->
  exists s1, handle_text rx (json_print (ClientRelay.store_request xs (ClientRelay.store_payload xs self nid blob sig c))) s
      = (s1, [ROk None]) /\
    fetch_messages fx nid s1 ≡ₚ entry_of (x_secs rx) q :: pending nid rows /\
    shared_secret s1 = shared_secret s /\ cert_cache s1 = <[me := c]> (cert_cache s) /\
    (forall fp key, fp <> me -> unused fp key s -> unused fp key s1).
Proof.
  intros me q T Hsig Hl Hdb Hdbr Hdbf. destruct T. destruct t_admitted0.
  destruct (t_signs0 _ _ Hsig) as (Hsne & raw & text & Hraw & Htext & Hv).
  destruct (request_read rx s xs _ "relay-store" (ClientRelay.store_payload xs self nid blob sig c)
    (request_printable xs self nid blob sig c t_finite0)) as (e & Ht & Hpay & E); try done; [by eexists|].
  pose proof (store_read xs self nid blob sig c (re_payload e) t_secs0 Hpay) as Hq.
  destruct (store_granted rx (re_payload e) q crt raw text s) as (n & s1 & Hok & Hst & _ & Hun); try done.
  exists s1. unfold ClientRelay.store_request. rewrite E. unfold handle_message. rewrite Ht. cbn [String.eqb Ascii.eqb Bool.eqb].
  rewrite Hok. split; [done|]. set (s0 := set_nonces n _) in Hst.
  destruct (store_message_rows rx q s0 s1 rows Hdb Hst) as (_ & enc & Es1).
  assert (Hrows : db_pool s1 = Some (rows ++ [mkRow nid (entry_of (x_secs rx) q) false enc])).
  { rewrite Es1. unfold insert_row, set_mail, store_in_memory. cbn [db_pool].
    change (db_pool s0) with (db_pool s). by rewrite Hdb. }
  assert (Hpend : pending nid (rows ++ [mkRow nid (entry_of (x_secs rx) q) false enc])
    = pending nid rows ++ [entry_of (x_secs rx) q]).
  { unfold pending. rewrite List.filter_app, fmap_app. f_equal. cbn [List.filter].
    unfold undelivered. cbn [r_recipient r_delivered]. by rewrite String.eqb_refl. }
  split_and!; [|by rewrite Es1|by rewrite Es1|exact Hun].
  rewrite (fetch_rows fx nid s1 _ Hrows Hdbf) by (rewrite Hpend; by destruct (pending nid rows)).
  rewrite select_rows_perm, Hpend. by rewrite Permutation_app_comm.
Qed.

(** ** The message fetched *)

Lemma fetch_over x fx self sig c nonce crt s :
  let me := ClientRelay.fingerprint self in
  let nid := ClientRelay.null_id self in
  trusted x fx me (me +:+ ":" +:+ nonce) c crt s ->
  nid = compute_null_id me -> me <> "" -> shared_secret s = None ->
  ClientRelay.x_sign x (ClientFetch.fetch_data nid (ClientRelay.x_secs x) nonce) = Ok sig ->
  exists s1, handle_text fx (json_print (ClientFetch.fetch_request x
        (ClientFetch.fetch_payload self nid sig c (ClientRelay.x_secs x) nonce))) s
      = (s1, [ROk (Some (fetch_value (fetch_messages fx nid s)))]) /\
    fetch_messages fx nid s1 = fetch_messages fx nid s /\ cert_cache s1 = <[me := c]> (cert_cache s).
Proof.
  intros me nid T Hnid Hme Hsec Hsig. destruct T. destruct t_admitted0.
  destruct (t_signs0 _ _ Hsig) as (Hsne & raw & text & Hraw & Htext & Hv).
  assert (Hprint : printable (ClientFetch.fetch_request x
    (ClientFetch.fetch_payload self nid sig c (ClientRelay.x_secs x) nonce))).
  { unfold ClientFetch.fetch_request, ClientFetch.fetch_payload. members; [by constructor|]. members. by constructor. }
  destruct (request_read fx s x _ "relay-fetch" (ClientFetch.fetch_payload self nid sig c (ClientRelay.x_secs x) nonce)
    Hprint) as (e & Ht & Hpay & E); try done; [by eexists|].
  pose proof (fetch_read self nid sig c _ nonce (re_payload e) t_secs0 Hpay) as Hq.
  destruct (fetch_granted fx (re_payload e) _ crt raw text s Hq) as (n & Hok); try done.
  eexists. split; [unfold ClientFetch.fetch_request; rewrite E; unfold handle_message; rewrite Ht;
    cbn [String.eqb Ascii.eqb Bool.eqb]; by rewrite Hok|]. done.
Qed.

(** ** The reply, read *)

(** What the reader takes from an entry. *)
Definition taken (e : MailboxEntry) : string * string * string := (signed_blob e, sender_nid e, sender_fp e).

Lemma entry_reads e v : same_json (entry_value e) v -> ClientRelayProps.reads_as v (taken e).
Proof.
  intros Hv. unfold ClientRelayProps.reads_as, taken, str_field. cbn [fst snd].
  rewrite (member_string Hv "signed_blob" (signed_blob e) eq_refl),
    (member_string Hv "sender_nid" (sender_nid e) eq_refl),
    (member_string Hv "sender_fp" (sender_fp e) eq_refl). done.
Qed.

Lemma entries_read (ys : nat -> ClientRelay.surroundings) es vs :
  Forall2 same_json (entry_value <$> es) vs ->
  Forall2 (fun xv e => ClientRelayProps.reads_as xv.2 e) (imap (fun i v => (ys i, v)) vs) (taken <$> es).
Proof.
  revert ys vs. induction es as [|e es IH]; intros ys vs Hall.
  { by apply Forall2_nil_inv_l in Hall as ->. }
  apply Forall2_cons_inv_l in Hall as (v & vs' & Hv & Hall & ->). cbn [imap].
  constructor; [by apply entry_reads|]. by apply (IH (fun i => ys (S i))).
Qed.

(** An entry that leaves alone what the reader has for a sender. *)
Definition leaves_alone (b : ClientRelay.Identity) (kb : Kyber.keypair) (key : bytes) (from : string)
    (row : option ClientStore.SessionRow) (e : MailboxEntry) : Prop :=
  ClientRelayProps.apart key (ClientRelay.fingerprint b) kb from row (signed_blob e) (sender_nid e) (sender_fp e).

(** The one entry among the others. *)
Lemma entry_amid ys kb b e es old vs db (after : nat -> gmap string string * ClientStore.MessageStore) text :
  let from := ClientRelay.sender_id (sender_nid e) (sender_fp e) in
  let row (dm : gmap string string * ClientStore.MessageStore) := ClientStore.ratchet_sessions dm.2 !! from in
  es ≡ₚ e :: old -> Forall2 same_json (entry_value <$> es) vs ->
  (forall i, (i <= length old)%nat ->
     ClientRelay.relay_decrypt_message (ys i) (signed_blob e) (sender_nid e) (sender_fp e)
       (ClientRelay.fingerprint b) kb db = (after i, Ok text)) ->
  Forall (fun f => leaves_alone b kb (ClientStore.db_key db.2) from (row db) f /\
                   forall i, leaves_alone b kb (ClientStore.db_key db.2) from (row (after i)) f) old ->
  exists dm i l1 l2,
    ClientRelay.read_entries (ClientRelay.fingerprint b) kb (imap (fun i v => (ys i, v)) vs) db = (dm, l1 ++ text :: l2) /\
    (i <= length old)%nat /\ row dm = row (after i) /\ (length (l1 ++ l2) <= length old)%nat.
Proof.
  intros from row Hes Hall Hread Hold.
  assert (He : e ∈ es) by (rewrite Hes; by left). apply list_elem_of_split in He as (es1 & es2 & ->).
  assert (Hperm : old ≡ₚ es1 ++ es2).
  { apply (Permutation_cons_inv (a := e)). rewrite <- Hes. by rewrite Permutation_middle. }
  assert (Hlen : (length es1 + length es2 = length old)%nat) by (rewrite Hperm, length_app; lia).
  rewrite fmap_app, fmap_cons in Hall. apply Forall2_app_inv_l in Hall as (vs1 & vs2' & Hv1 & Hv2 & ->).
  apply Forall2_cons_inv_l in Hv2 as (v & vs2 & Hv & Hv2 & ->).
  pose proof (Forall2_length _ _ _ Hv1) as Hl1. rewrite length_fmap in Hl1.
  rewrite Hperm in Hold. apply Forall_app in Hold as [Ho1 Ho2].
  rewrite imap_app. cbn [imap]. set (i := length vs1).
  destruct (ClientRelayProps.read_amid (ClientRelay.fingerprint b) kb (ys (i + 0)%nat) v (signed_blob e) (sender_nid e)
    (sender_fp e) (imap (fun i v => (ys i, v)) vs1) (imap (fun j v => (ys (i + S j)%nat, v)) vs2) (taken <$> es1) (taken <$> es2)
    db (after (i + 0)%nat) text (row (after (i + 0)%nat))) as (dm & l1 & l2 & Hr & Hrow & Hn1 & Hn2).
  - exact (entry_reads e v Hv).
  - by apply entries_read.
  - by apply (entries_read (fun j => ys (i + S j)%nat)).
  - apply Hread. lia.
  - done.
  - apply Forall_fmap. eapply Forall_impl; [exact Ho1|]. by intros f [Hf _].
  - apply Forall_fmap. eapply Forall_impl; [exact Ho2|]. intros f [_ Hf]. apply Hf.
  - rewrite !length_fmap in *. exists dm, (i + 0)%nat, l1, l2. split_and!; [exact Hr|lia|exact Hrow|].
    rewrite length_app. lia.
Qed.

(** ** The two commands *)

(** What [deliver] did. *)
Lemma deliver_inv xs xr a b message text da db da' db' kb :
  ClientRelayProps.deliver xs xr a b message da db = (da', db', Some text) ->
  ClientRelayProps.device b db kb ->
  exists blob sig c, let req := ClientRelay.store_request xs
      (ClientRelay.store_payload xs a (ClientRelay.null_id b) blob sig c) in
    ClientRelay.send_via_relay xs a (ClientRelay.null_id b) (ClientRelay.fingerprint b) message da
      = (da', Some req, Ok tt) /\
    ClientRelay.x_sign xs (ClientRelay.transport_data xs a (ClientRelay.null_id b)) = Ok sig /\
    ClientRelay.x_cert xs = Ok c /\
    ClientRelay.relay_decrypt_message xr blob (ClientRelay.null_id a) (ClientRelay.fingerprint a)
      (ClientRelay.fingerprint b) kb db = (db', Ok text).
Proof.
  unfold ClientRelayProps.deliver. intros E Hd.
  destruct (ClientRelay.send_via_relay _ _ _ _ _ _) as [[df [req|]] [[]|e]] eqn:Es; try done.
  destruct (send_inv _ _ _ _ _ _ _ _ _ Es) as (blob & sig & c & Hsig & Hc & ->).
  exists blob, sig, c. unfold ClientRelayProps.handed_on in E. cbn in E. unfold st_bind in E.
  rewrite (ClientRelayProps.load_device xr b db kb Hd) in E.
  destruct (ClientRelay.relay_decrypt_message _ _ _ _ _ _ _) as [dt [t|er]] eqn:Er; [|done].
  injection E as -> -> ->. done.
Qed.

Lemma deliver_device xs xr a b message text da db da' db' kb :
  ClientRelayProps.deliver xs xr a b message da db = (da', db', Some text) ->
  ClientRelayProps.device b db kb -> ClientRelayProps.device b db' kb /\ db'.1 = db.1.
Proof.
  intros E Hd. destruct (deliver_inv _ _ _ _ _ _ _ _ _ _ _ E Hd) as (blob & sig & c & _ & _ & _ & Hr).
  destruct (ClientRelayProps.decrypt_frame xr blob (ClientRelay.null_id a) (ClientRelay.fingerprint a)
    (ClientRelay.fingerprint b) kb db) as (Hf & Hk & _). rewrite Hr in Hf, Hk. cbn [fst snd] in Hf, Hk.
  split; [|done]. destruct Hd as (Hx & Hl & Hder). split_and!; [by rewrite Hf|by rewrite Hf, Hk|done].
Qed.

(** What waits for the recipient can be printed, and leaves alone what the
    recipient has for the sender, before the message is read and after. *)
Definition waits_apart (b : ClientRelay.Identity) (kb : Kyber.keypair) (from : string)
    (db : gmap string string * ClientStore.MessageStore) (after : nat -> gmap string string * ClientStore.MessageStore)
    (e : MailboxEntry) : Prop :=
  let row (dm : gmap string string * ClientStore.MessageStore) := ClientStore.ratchet_sessions dm.2 !! from in
  small_entry e /\ leaves_alone b kb (ClientStore.db_key db.2) from (row db) e /\
  forall i, leaves_alone b kb (ClientStore.db_key db.2) from (row (after i)) e.

(** A message that the recipient would read goes through the relay: the request
    of the sender is stored, that of the recipient is served, and the entry in
    the reply is read like the request itself. *)
Lemma through_relay xs x (xr : nat -> ClientRelay.surroundings) rx fx a b ca cb crta crtb key sig message text da db da'
    (after : nat -> gmap string string * ClientStore.MessageStore) kb s rows :
  let nid := ClientRelay.null_id b in
  let old := pending nid rows in
  let from := ClientRelay.sender_id (ClientRelay.null_id a) (ClientRelay.fingerprint a) in
  (forall i, (i <= length old)%nat -> ClientRelayProps.deliver xs (xr i) a b message da db = (da', after i, Some text)) ->
  ClientRelayProps.device b db kb ->
  trusted xs rx (ClientRelay.fingerprint a) (pretty (ClientRelay.x_nanos xs)) ca crta s ->
  trusted x fx (ClientRelay.fingerprint b) (ClientRelay.fingerprint b +:+ ":" +:+ key) cb crtb s ->
  ClientRelay.x_sign x (ClientFetch.fetch_data nid (ClientRelay.x_secs x) key) = Ok sig ->
  ClientRelay.fingerprint b <> ClientRelay.fingerprint a ->
  nid = compute_null_id (ClientRelay.fingerprint b) -> ClientRelay.fingerprint b <> "" ->
  slen (ClientRelay.null_id a) + slen (ClientRelay.fingerprint a) + 1 < 2 ^ 32 ->
  shared_secret s = None -> db_pool s = Some rows -> x_db rx = true -> x_db fx = true ->
  zlen old < 2 ^ 63 -> Forall (waits_apart b kb from db after) old ->
  exists s1 s2 req es vs,
    ClientRelay.send_via_relay xs a nid (ClientRelay.fingerprint b) message da = (da', Some req, Ok tt) /\
    handle_text rx (json_print req) s = (s1, [ROk None]) /\
    handle_text fx (json_print (ClientFetch.fetch_request x
        (ClientFetch.fetch_payload b nid sig cb (ClientRelay.x_secs x) key))) s1 = (s2, [ROk (Some (fetch_value es))]) /\
    ClientFetch.reply_entries (send_ok (Some (fetch_value es))) = Ok (Some vs) /\
    (fetch_messages fx nid s1 = es /\ fetch_messages fx nid s2 = es /\ length es = S (length old)) /\
    cert_cache s2 = <[ClientRelay.fingerprint b := cb]> (<[ClientRelay.fingerprint a := ca]> (cert_cache s)) /\
    forall ys : nat -> ClientRelay.surroundings,
      (forall i, (i <= length old)%nat -> ClientRelay.relay_decrypt_message (ys i) = ClientRelay.relay_decrypt_message (xr i)) ->
      exists dm i l1 l2,
        ClientRelay.read_entries (ClientRelay.fingerprint b) kb (imap (fun i e => (ys i, e)) vs) db = (dm, l1 ++ text :: l2) /\
        (i <= length old)%nat /\
        ClientStore.ratchet_sessions dm.2 !! from = ClientStore.ratchet_sessions (after i).2 !! from /\
        (length (l1 ++ l2) <= length old)%nat.
Proof.
  intros nid old from Hdel Hdev Ta Tb Hsig Hne Hnid Hb Hl Hsec Hdb Hdbr Hdbf Hlen Hold.
  destruct (deliver_inv _ _ _ _ _ _ _ _ _ _ _ (Hdel 0%nat ltac:(lia)) Hdev) as (blob & siga & c & Hsend & Hsiga & Hc & _).
  rewrite (t_cert _ _ _ _ _ _ _ Ta) in Hc. injection Hc as <-.
  destruct (store_over xs rx fx a nid blob siga ca crta s rows Ta Hsiga Hl Hdb Hdbr Hdbf)
    as (s1 & Hst & Hfetch & Hsec1 & Hcc & Hun).
  assert (Tb1 : trusted x fx (ClientRelay.fingerprint b) (ClientRelay.fingerprint b +:+ ":" +:+ key) cb crtb s1).
  { destruct Tb. destruct t_admitted0. do 2 (constructor; try done); [by rewrite Hcc, lookup_insert_ne|by apply Hun]. }
  destruct (fetch_over x fx b sig cb key crtb s1 Tb1 Hnid Hb ltac:(by rewrite Hsec1) Hsig) as (s2 & Hf & Hsame & Hcc2).
  fold nid in Hf, Hsame. fold old in Hfetch.
  set (e := entry_of (x_secs rx) (decoded xs a nid blob siga ca)) in Hfetch.
  destruct (entries_heard (fetch_messages fx nid s1)) as (vs & Hvs & Hall).
  { rewrite Hfetch. constructor; [unfold small_entry; cbn; lia|]. eapply Forall_impl; [exact Hold|]. by intros f [Hf' _]. }
  { unfold zlen in *. rewrite Hfetch. cbn [length]. lia. }
  eexists s1, s2, _, _, vs. split_and!; [exact Hsend|exact Hst|exact Hf|exact Hvs|done|exact Hsame| | |].
  { by rewrite Hfetch. }
  { by rewrite Hcc2, Hcc. }
  intros ys Hys. eapply (entry_amid ys kb b e); [exact Hfetch|exact Hall| |].
  - intros i Hi. rewrite Hys by exact Hi.
    destruct (deliver_inv _ _ _ _ _ _ _ _ _ _ _ (Hdel i Hi) Hdev) as (blob' & siga' & c' & Hsend' & Hsiga' & Hc' & Hread).
    rewrite Hsend in Hsend'. injection Hsend' as E. by rewrite <- E in Hread.
  - eapply Forall_impl; [exact Hold|]. by intros f (_ & Hf1 & Hf2).
Qed.

(** C2: what two clients and a relay do together is what is proved of the two
    clients alone.  Suppose the recipient would read a text from the request of
    the sender handed to it; the relay has a database that works and no shared
    secret, and holds for neither of the two another certificate than the one
    that comes with the request (none at first, the same one later); clocks
    agree, nonces are new, both keys sign; and what already waits in the mailbox
    of the recipient, if anything, is from other senders or cannot be read with
    what the recipient has for this sender, neither before nor after the text.
    Then the request is printed, parsed and stored by the relay, whose reply
    makes the sender keep the same session; the recipient's fetch is printed,
    parsed and served, what it reads from the reply contains the text, once for
    this entry and with at most one text for each of the others, and the session
    with the sender is the one it would have kept.  All messages stay in the
    mailbox, and both certificates are on file, so that the next message finds
    the relay as this one did. *)
Theorem mail_delivered (xs x : ClientRelay.surroundings) (xr : nat -> ClientRelay.surroundings)
    (rx fx : context) (a b : ClientRelay.Identity) (ca cb : string) (crta crtb : cert) (nonce : Z)
    (url sig message text : string) (da db da' : gmap string string * ClientStore.MessageStore)
    (after : nat -> gmap string string * ClientStore.MessageStore)
    (kb : Kyber.keypair) (s : RelayState) (rows : list row) :
  let nid := ClientRelay.null_id b in
  let key := Envelope.uuid_hex nonce in
  let old := pending nid rows in
  let from := ClientRelay.sender_id (ClientRelay.null_id a) (ClientRelay.fingerprint a) in
  (forall i, (i <= length old)%nat -> ClientRelayProps.deliver xs (xr i) a b message da db = (da', after i, Some text)) ->
  ClientRelayProps.device b db kb -> ClientHome.load_identity db.1 = Ok b ->
  trusted xs rx (ClientRelay.fingerprint a) (pretty (ClientRelay.x_nanos xs)) ca crta s ->
  trusted x fx (ClientRelay.fingerprint b) (ClientRelay.fingerprint b +:+ ":" +:+ key) cb crtb s ->
  ClientRelay.x_sign x (ClientFetch.fetch_data nid (ClientRelay.x_secs x) key) = Ok sig ->
  ClientRelay.fingerprint b <> ClientRelay.fingerprint a ->
  nid = compute_null_id (ClientRelay.fingerprint b) -> ClientRelay.fingerprint b <> "" ->
  slen (ClientRelay.null_id a) + slen (ClientRelay.fingerprint a) + 1 < 2 ^ 32 ->
  shared_secret s = None -> db_pool s = Some rows -> x_db rx = true -> x_db fx = true ->
  zlen old < 2 ^ 63 -> Forall (waits_apart b kb from db after) old ->
  exists s1 s2 dm i l1 l2,
    send_over rx xs url a nid (ClientRelay.fingerprint b) message (da, (s, [])) = ((da', (s1, [])), Ok tt) /\
    fetch_from fx x xr nonce url nid (db, (s1, [])) = ((dm, (s2, [])), Ok (l1 ++ text :: l2)) /\
    (i <= length old)%nat /\
    ClientStore.ratchet_sessions dm.2 !! from = ClientStore.ratchet_sessions (after i).2 !! from /\
    (length (l1 ++ l2) <= length old)%nat /\
    fetch_messages fx nid s2 = fetch_messages fx nid s1 /\ length (fetch_messages fx nid s1) = S (length old) /\
    cert_cache s2 !! ClientRelay.fingerprint a = Some ca /\ cert_cache s2 !! ClientRelay.fingerprint b = Some cb.
Proof.
  intros nid key old from Hdel Hdev Hid Ta Tb Hsig Hne Hnid Hb Hl Hsec Hdb Hdbr Hdbf Hlen Hold.
  destruct (through_relay xs x xr rx fx a b ca cb crta crtb key sig message text da db da' after kb s rows)
    as (s1 & s2 & req & es & vs & Hsend & Hst & Hf & Hvs & (Hs1 & Hs2 & Hl1) & Hcc & Hread); [done..|].
  destruct (Hread xr (fun _ _ => eq_refl)) as (dm & i & l1 & l2 & Hr & Hi & Hrow & Hn).
  fold nid in Hsend, Hf, Hs1, Hs2. exists s1, s2, dm, i, l1, l2. split_and!; try done.
  - unfold send_over. let _ := constr:(relay_server rx) in
    eapply (ClientDirect.relay_send_ok (S := RelayState)); [exact Hsend|done| |exact stored_heard].
    cbn. by rewrite Hst.
  - destruct db as [d m]. pose proof (ClientRelayProps.load_device x b (d, m) kb Hdev) as Hld.
    unfold fetch_from. let _ := constr:(relay_server fx) in
    rewrite (ClientFetch.relay_fetch_ok (S := RelayState) x xr nonce url nid b kb cb sig d m s1 s1 s2 []
      (send_ok (Some (fetch_value es))) vs); [|done|done|apply Tb|done|done| |done].
    2: { unfold ClientDht.srv_say, relay_server. fold key. by rewrite Hf. }
    by rewrite Hr.
  - by rewrite Hs1, Hs2.
  - by rewrite Hs1.
  - by rewrite Hcc, lookup_insert_ne, lookup_insert_eq.
  - by rewrite Hcc, lookup_insert_eq.
Qed.
End network.

(** ** A concrete delivery *)

#[local] Existing Instances toy_sequoia toy_base64 toy_blake2 toy_hmac toy_hex toy_aead toy_format tree_json
  wire_relay wire_fetch_law tree_json_law toy_kem toy_hkdf toy_sha2 ClientRelayProps.toy_session_codec.

#[local] Instance wire_order : HashOrder (list f64) := list_order _.

#[local] Instance wire_store_law : StoreRequestLaw.
Proof. constructor. exact (@store_request_of_members toy_relay toy_store_law). Qed.

#[local] Instance wire_envelope_law : EnvelopeLaw.
Proof.
  constructor. intros m t p i x _ Ht Hp Hi Hx. eexists. cbn [relay_from_json wire_relay json_print tree_json].
  unfold wire_from_json. rewrite tree_parse_print. cbn [mbind option_bind get]. rewrite Ht, Hp, Hi, Hx.
  split; [reflexivity|]. split; [done|]. split; [apply same_json_refl|]. by intros z ->.
Qed.

(** Bob, whose identifier is that of his fingerprint, and his files. *)
Definition bob : ClientRelay.Identity := ClientRelay.mkIdentity "BBBB" (compute_null_id "BBBB").

Definition files (i : ClientRelay.Identity) (key : Z) : gmap string string * ClientStore.MessageStore :=
  let '((d, m), _) := ClientRelay.load_or_generate_kyber (ClientRelayProps.calm 9) (ClientRelay.null_id i)
                        (∅, ClientStore.open (replicate 32 key)) in
  ((ClientHome.save_identity Files.Written i d).1, m).

(** A client with its key and certificate; the number varies its randomness. *)
Definition ordinary (key : string) (n : Z) : ClientRelay.surroundings :=
  let x := ClientRelayProps.calm n in
  ClientRelay.mkSurroundings (ClientRelay.x_file_io x) (ClientRelay.x_file_nonce x) (ClientRelay.x_coins x)
    (ClientRelay.x_nonce x) (ClientRelay.x_padding x) (ClientRelay.x_nanos x) (f64_of_Z 100)
    (ClientRelay.x_msg_id x) (ClientRelay.x_select x) (ClientRelay.x_save x) (ClientRelay.x_save_nonce x)
    (ClientRelay.x_save_time x) (key_signs key) (Ok ("CERT:" +:+ key))
    [ClientRelay.RText (tree_print (VObject [("ok", VBool true)]))].

(** Nothing else on file. *)
Lemma ordinary_trusted key n fp nonce certs rows :
  certs !! fp = None \/ certs !! fp = Some ("CERT:" +:+ key) ->
  trusted (ordinary key n) sample_context fp nonce ("CERT:" +:+ key) (key : @cert toy_sequoia)
    (set_certs certs (sample_state rows)).
Proof.
  intros Hc. constructor; try reflexivity; [|discriminate|apply toy_signs].
  constructor; try reflexivity; [exact Hc|by exists 100].
Qed.

Lemma files_device i key :
  exists kp, ClientRelayProps.device i (files i key) kp /\ ClientHome.load_identity (files i key).1 = Ok i.
Proof.
  unfold files.
  destruct (ClientRelayProps.first_device (ClientRelayProps.calm 9) i ∅ (ClientStore.open (replicate 32 key)))
    as ([d m] & kp & Hl & Hd & Hm); [by rewrite lookup_empty|done| |].
  { split; [done|]. apply Forall_replicate. unfold byte_ok. cbn. lia. }
  exists kp. rewrite Hl. unfold ClientHome.save_identity. cbn [fst snd]. split.
  - destruct Hd as (Hf & Hk & Hder). unfold ClientHome.write_text, Files.write_file.
    split_and!; [|unfold Kyber.load, Kyber.load_fields, Kyber.read_json in *|exact Hder]; cbn [fst snd] in *;
      rewrite lookup_insert_ne by done; done.
  - unfold ClientHome.write_text, Files.write_file, ClientHome.load_identity. cbn [fst]. rewrite lookup_insert_eq.
    cbn [json_parse json_print tree_json]. rewrite tree_parse_print. by destruct i.
Qed.

Abbreviation home := (gmap string string * ClientStore.MessageStore)%type.

(** Alice writes twice; Bob has read the first. *)
Definition sent : home * home * option string :=
  ClientRelayProps.deliver (ordinary "AAAA" 1) (ordinary "BBBB" 2) ClientRelayProps.alice bob "hello"
    (files ClientRelayProps.alice 1) (files bob 2).

Definition sent_again : home * home * option string :=
  ClientRelayProps.deliver (ordinary "AAAA" 3) (ordinary "BBBB" 4) ClientRelayProps.alice bob "again" sent.1.1 sent.1.2.

Lemma sent_text : sent.2 = Some "hello" /\ sent_again.2 = Some "again".
Proof. split; vm_compute; reflexivity. Qed.

(** The relay knows both, and somebody else has written to Bob. *)
Definition waiting : list row := [mkRow (ClientRelay.null_id bob) (sample_entry "FRIEND" 1) false ""].

Definition knowing : RelayState :=
  set_certs {["AAAA" := "CERT:AAAA"; "BBBB" := "CERT:BBBB"]} (sample_state waiting).

Lemma bob_device : exists kb, ClientRelayProps.device bob sent.1.2 kb /\ ClientHome.load_identity sent.1.2.1 = Ok bob.
Proof.
  destruct (files_device bob 2) as (kb & Hd & Hid). exists kb.
  assert (E : sent = (sent.1.1, sent.1.2, Some "hello")).
  { rewrite <- (proj1 sent_text). by destruct sent as [[? ?] ?]. }
  destruct (deliver_device _ _ _ _ _ _ _ _ _ _ kb E Hd) as [Hd' ->]. by split.
Qed.

Theorem mail_delivered_witness :
  exists s1 s2 dm l1 l2,
    send_over sample_context (ordinary "AAAA" 3) "wss://relay" ClientRelayProps.alice (ClientRelay.null_id bob) "BBBB"
      "again" (sent.1.1, (knowing, [])) = ((sent_again.1.1, (s1, [])), Ok tt) /\
    fetch_from sample_context (ordinary "BBBB" 3) (fun _ => ordinary "BBBB" 4) 7 "wss://relay"
      (ClientRelay.null_id bob) (sent.1.2, (s1, [])) = ((dm, (s2, [])), Ok (l1 ++ "again" :: l2)) /\
    (length (l1 ++ l2) <= 1)%nat.
Proof.
  assert (E : ClientRelayProps.deliver (ordinary "AAAA" 3) (ordinary "BBBB" 4) ClientRelayProps.alice bob "again"
                sent.1.1 sent.1.2 = (sent_again.1.1, sent_again.1.2, Some "again")).
  { rewrite <- (proj2 sent_text). fold sent_again. by destruct sent_again as [[? ?] ?]. }
  destruct (key_signs "BBBB" (ClientFetch.fetch_data (ClientRelay.null_id bob) (f64_of_Z 100) (Envelope.uuid_hex 7)))
    as [sig|er] eqn:Es; [|apply (f_equal is_ok) in Es; vm_compute in Es; discriminate Es].
  destruct bob_device as (kb & Hdev & Hid).
  destruct (mail_delivered (ordinary "AAAA" 3) (ordinary "BBBB" 3) (fun _ => ordinary "BBBB" 4)
    sample_context sample_context ClientRelayProps.alice bob "CERT:AAAA" "CERT:BBBB" ("AAAA" : @cert toy_sequoia)
    ("BBBB" : @cert toy_sequoia) 7 "wss://relay" sig "again" "again" sent.1.1 sent.1.2
    sent_again.1.1 (fun _ => sent_again.1.2) kb knowing waiting) as (s1 & s2 & dm & i & l1 & l2 & Hs & Hf & _ & _ & Hn & _).
  - intros _ _. exact E.
  - exact Hdev.
  - exact Hid.
  - apply ordinary_trusted. right. reflexivity.
  - apply ordinary_trusted. right. reflexivity.
  - exact Es.
  - discriminate.
  - reflexivity.
  - discriminate.
  - vm_compute. reflexivity.
  - reflexivity.
  - reflexivity.
  - reflexivity.
  - reflexivity.
  - vm_compute. reflexivity.
  - constructor; [|constructor]. split; [split; vm_compute; [discriminate|reflexivity]|].
    split; [|intros _]; left; vm_compute; discriminate.
  - exists s1, s2, dm, l1, l2. split; [exact Hs|]. split; [exact Hf|exact Hn].
Defined.
