(* ===== verification/FirstMail.v ===== *)
(** * The first message, command by command (src/client/src/main.rs, src/relay/src/main.rs)

    Two people with empty homes, a relay, and whatever else the network holds:
    each runs [init], one adds the other as a contact and sends a message, the
    other reads.  Every step is a command line through [ClientMain.client_main],
    every text between the programs goes through [handle_text] of the relay. *)

From S2P Require Import Prelude Text Files Primitives Concrete Json JsonTree Gpg Identity RateLimit CertCache.
From S2P Require Import Mailbox RelayAuth Federation RelayState Relay RelayProps Interop InteropFetch EndToEnd.
From S2P Require Import Kyber Padding ClientStore ClientRelay ClientRelayProps ClientHome ClientDht ClientShell.
From S2P Require Import ClientDirect ClientFetch ClientMain Settled.
From S2P Require DhtNode Envelope Ratchet.

(** ** The network *)

(** The relay, everything else, and whether the open connection is to the relay. *)
Record Net (D : Type) : Type := mkNet { n_relay : RelayState; n_rest : D; n_here : bool }.
Arguments mkNet {D} _ _ _.
Arguments n_relay {D} _.
Arguments n_rest {D} _.
Arguments n_here {D} _.

Section net.
Context `{Sequoia} `{Base64} `{Blake2} `{Hmac} `{Hex} `{Aead} `{Format} `{RelayCodec} `{JsonCodec} `{HashOrder (list f64)}.
Context {D : Type} `{Server D}.

(** Names lead to hosts: one URL to the relay, at the time of [x], every other
    to the rest. *)
Definition net_server (relay_ws : string) (x : context) : Server (Net D) := {|
  srv_connect url n :=
    if String.eqb url relay_ws then (mkNet (n_relay n) (n_rest n) true, Ok tt)
    else let (d, r) := srv_connect url (n_rest n) in (mkNet (n_relay n) d false, r);
  srv_say raw n :=
    if n_here n then let (s, rs) := handle_text x raw (n_relay n) in
                     (mkNet s (n_rest n) true, Ok (frame_of <$> rs))
    else let (d, r) := srv_say raw (n_rest n) in (mkNet (n_relay n) d false, r) |}.

Section elsewhere.
Variables (relay_ws : string) (x : context).
#[local] Instance the_net : Server (Net D) := net_server relay_ws x.

Abbreviation link := (st (Net D * list relay_frame) client_error).

(** A call over a connection to another host leaves the relay alone; so does one
    that begins with such a connection. *)
Definition aside {A} (m : link A) : Prop :=
  forall n b, n_here n = false -> n_relay (m (n, b)).1.1 = n_relay n /\ n_here (m (n, b)).1.1 = false.
Definition away {A} (m : link A) : Prop :=
  forall n b, n_relay (m (n, b)).1.1 = n_relay n /\ n_here (m (n, b)).1.1 = false.

Lemma aside_bind {A B} (m : link A) (k : A -> link B) :
  aside m -> (forall a, aside (k a)) -> aside (st_bind m k).
Proof.
  intros Hm Hk n b Hn. unfold st_bind. destruct (Hm n b Hn) as [Hr Hh].
  destruct (m (n, b)) as [[n' b'] [a|e]]; cbn [fst] in *; [|done].
  destruct (Hk a n' b' Hh) as [Hr' Hh']. by rewrite Hr'.
Qed.

Lemma away_bind {A B} (m : link A) (k : A -> link B) :
  away m -> (forall a, aside (k a)) -> away (st_bind m k).
Proof.
  intros Hm Hk n b. unfold st_bind. destruct (Hm n b) as [Hr Hh].
  destruct (m (n, b)) as [[n' b'] [a|e]]; cbn [fst] in *; [|done].
  destruct (Hk a n' b' Hh) as [Hr' Hh']. by rewrite Hr'.
Qed.

Lemma aside_away {A} (m : link A) : away m -> aside m.
Proof. intros Hm n b _. apply Hm. Qed.

Lemma aside_lift {A} (r : result client_error A) : aside (st_lift r).
Proof. by intros n b Hn. Qed.
Lemma aside_ret {A} (a : A) : aside (st_ret a).
Proof. by intros n b Hn. Qed.
Lemma aside_fail {A} e : aside (st_fail (A := A) e).
Proof. by intros n b Hn. Qed.

Lemma aside_send what text : aside (ws_send what text).
Proof.
  intros n b Hn. unfold ws_send. cbn [srv_say the_net net_server]. rewrite Hn.
  by destruct (srv_say text (n_rest n)) as [d [fs|e]].
Qed.

Lemma aside_next : aside ws_next.
Proof. intros n [|f b] Hn; done. Qed.

Lemma away_connect what url : url <> relay_ws -> away (ws_connect what url).
Proof.
  intros Hne n b. unfold ws_connect. cbn [srv_connect the_net net_server].
  destruct (String.eqb_spec url relay_ws); [done|]. by destruct (srv_connect url (n_rest n)) as [d [u|e]].
Qed.
End elsewhere.

End net.

(** Step by step through a call over another connection. *)
Ltac stay_aside :=
  repeat first
    [ apply aside_bind; [|intros ?] | apply aside_lift | apply aside_ret | apply aside_fail | apply aside_send
    | apply aside_next | progress cbv zeta
    | match goal with |- aside (match ?r with _ => _ end) => destruct r end ].

Section lookups.
Context `{Sequoia} `{Base64} `{Blake2} `{Hmac} `{Hex} `{Aead} `{Format} `{RelayCodec} `{JsonCodec} `{HashOrder (list f64)}.
Context `{Envelope.WireCodec} `{Argon2} `{Sha2}.
Context {D : Type} `{Server D}.
Variables (relay_ws : string) (x : context).
#[local] Instance some_net : Server (Net D) := net_server relay_ws x.

Lemma away_lookup e our_cert seed_url nid :
  ws_url seed_url <> relay_ws -> away (D := D) (dht_lookup e our_cert seed_url nid).
Proof.
  intros Hne. unfold dht_lookup. apply away_bind; [by apply away_connect|intros _].
  unfold read_found. stay_aside.
Qed.

Lemma aside_queries e h qs : forall i, aside (D := D) (pir_queries e i h qs).
Proof.
  induction qs as [|q qs IH]; intros i; [apply aside_ret|]. cbn [pir_queries]. stay_aside; apply IH.
Qed.

Lemma away_pir_lookup e our_cert seed_url nid :
  ws_url seed_url <> relay_ws -> away (D := D) (pir_dht_lookup e our_cert seed_url nid).
Proof.
  intros Hne. unfold pir_dht_lookup. apply away_bind; [by apply away_connect|intros _].
  apply aside_bind; [apply aside_queries|intros [addr|]]; [apply aside_ret|].
  by apply aside_away, away_lookup.
Qed.
End lookups.

(** ** What a home that is set up gives a command *)

Section home.
Context `{Kem} `{Aead} `{Hkdf} `{Hmac} `{Hex} `{Base64} `{Sha2} `{Blake2} `{Argon2}.
Context `{Sequoia} `{!SequoiaSecret} `{Age} `{JsonCodec} `{Envelope.WireCodec} `{Format} `{SessionCodec}.

(** A fingerprint that a contact can have. *)
Definition fits_contact (crt : cert) : Prop :=
  stored_fp (to_uppercase (cert_fingerprint crt)) /\ slen (to_uppercase (cert_fingerprint crt)) <= 1000.

Lemma b64_char_ascii a : is_b64_char a = true -> is_ascii a = true.
Proof.
  destruct a as [b0 b1 b2 b3 b4 b5 b6 b7].
  destruct b0, b1, b2, b3, b4, b5, b6, b7; (done || discriminate).
Qed.

Lemma null_id_name fp : name_ok (compute_null_id fp).
Proof.
  split; [|by rewrite (proj2 (computed_valid fp))]. apply ascii_str_ok.
  change (compute_null_id fp) with (Identity.null_id fp).
  destruct (null_id_groups fp) as (a & b & -> & _ & _ & Ha & Hb).
  rewrite !str_all_app. repeat (apply andb_true_iff; split); try done;
    (eapply str_all_impl; [|done]; apply b64_char_ascii).
Qed.

Lemma named_ok crt : fits_contact crt -> ClientRelayProps.identity_ok (named crt).
Proof.
  intros [(Hl & Hx & _) Hm]. split_and!; cbn [ClientRelay.null_id fingerprint named].
  - apply null_id_name.
  - split; [|done]. apply ascii_str_ok. eapply str_all_impl; [|done]. apply hex_ascii.
  - intros E. pose proof (proj2 (computed_valid (to_uppercase (cert_fingerprint crt)))) as Hn.
    rewrite E in Hn. discriminate.
Qed.

(** The statements succeed and the random bytes have their lengths: [sound]
    without what the home provides. *)
Definition able (x : surroundings) : Prop :=
  (x_select x = true /\ x_save x = true /\ nonce_ok (x_save_nonce x)) /\
  bytes_ok (x_nonce x) /\ length (x_nonce x) = Ratchet.NONCE_SIZE /\ fills (x_padding x).

(** With another answer of the relay, which the connection replaces. *)
Definition answered (x : surroundings) (fs : list relay_frame) : surroundings :=
  mkSurroundings (x_file_io x) (x_file_nonce x) (x_coins x) (x_nonce x) (x_padding x) (x_nanos x) (x_secs x)
    (x_msg_id x) (x_select x) (x_save x) (x_save_nonce x) (x_save_time x) (x_sign x) (x_cert x) fs.

Lemma b64_nonempty b : bytes_ok b -> b <> [] -> b64_encode b <> "".
Proof.
  intros Hb Hn E. destruct (b64_encode_form b Hb) as (body & pad & E' & _ & Hl & _).
  rewrite E in E'. destruct body; [|discriminate]. change (slen "") with 0 in Hl.
  assert (1 <= zlen b) by (destruct b; [done|unfold zlen; cbn; lia]).
  pose proof (Z.div_le_mono 6 (4 * zlen b + 2) 3 ltac:(lia) ltac:(lia)) as Hq. change (6 / 3) with 2 in Hq. lia.
Qed.

Section own.
Context (e : program_env) (pass : result string string) (self : ClientRelay.Identity) (crt : cert) (key : bytes) (kp : keypair) (d : disk).
Hypothesis Hset : settled pass self crt key kp d.
Hypothesis Hpass : e_password e = pass.
Variables (armored : string).
Hypothesis Harm : tsk_armored crt = Ok armored.

Lemma own_cert x : x_cert (own e d x) = Ok armored /\ armored <> "" /\ cert_from_bytes armored = Ok crt.
Proof.
  destruct (tsk_armored_parses crt armored Harm) as (Hne & _ & Hp). split; [|done].
  unfold own, load_armored_cert. cbn [x_cert]. rewrite Hpass, (s_cert _ _ _ _ _ _ Hset). cbn [rbind].
  by rewrite Harm.
Qed.

Lemma own_sign x data :
  x_sign (own e d x) data = match sign_detached (e_now e) data crt with
                            | Ok txt => Ok (b64_encode (str_bytes txt))
                            | Err er => Err ("sign failed: " +:+ er)
                            end.
Proof.
  unfold own, sign_for_transport. cbn [x_sign]. rewrite Hpass, (s_cert _ _ _ _ _ _ Hset). cbn [rbind].
  unfold sign_data. by destruct (sign_detached _ _ _).
Qed.

Lemma own_signs x : signs (x_sign (own e d x)) crt.
Proof.
  intros data sig. rewrite own_sign. destruct (sign_detached _ data crt) as [txt|] eqn:Es; [|done]. intros [= <-].
  destruct (verify_sign _ _ _ _ Es) as (Hv & Hne & Hok). split.
  - apply b64_nonempty; [apply str_bytes_ok|]. by destruct txt.
  - exists (str_bytes txt), txt. split_and!; [apply b64_decode_encode, str_bytes_ok|by apply from_utf8_str|done].
Qed.

Lemma own_sound x fs :
  (forall data, exists txt, sign_detached (e_now e) data crt = Ok txt) -> able x -> await_ok fs = Ok tt ->
  sound (answered (own e d x) fs).
Proof.
  intros Hs [Hsel Hrnd] Hf. split_and!; [apply Hsel..|apply Hrnd|apply Hrnd|apply Hrnd| | |done].
  - intros data. destruct (Hs data) as [txt E]. exists (b64_encode (str_bytes txt)).
    unfold answered. cbn [x_sign]. rewrite own_sign. by rewrite E.
  - exists armored. apply own_cert.
Qed.

Lemma own_device m : device self (d, with_key key m) kp.
Proof. destruct Hset. done. Qed.
End own.
End home.

(** ** Commands that succeed *)

Section log.
Context `{Kem} `{Aead} `{Hkdf} `{Hex} `{Base64} `{Sha2} `{Blake2} `{JsonCodec} `{Format} `{SessionCodec}.

(** Reading leaves the log of messages alone. *)
Definition quiet {A} (m : st (disk * MessageStore) client_error A) : Prop :=
  forall dm, messages (m dm).1.2 = messages dm.2.

Lemma quiet_bind {A B} (m : st (disk * MessageStore) client_error A) (k : A -> st _ _ B) :
  quiet m -> (forall a, quiet (k a)) -> quiet (st_bind m k).
Proof.
  intros Hm Hk dm. unfold st_bind. specialize (Hm dm). destruct (m dm) as [dm' [a|e]]; cbn [fst] in *; [|done].
  rewrite <- Hm. apply Hk.
Qed.

Lemma quiet_lift {A} (r : result client_error A) : quiet (st_lift r).
Proof. by intros dm. Qed.

Lemma decrypt_quiet x blob nid fp our kp : quiet (relay_decrypt_message x blob nid fp our kp).
Proof.
  unfold relay_decrypt_message. cbv zeta.
  repeat first [apply quiet_bind; [apply quiet_lift|intros ?]
               |apply quiet_bind; [intros dm; unfold st_guard; by destruct (negb _)|intros ?]
               |apply quiet_bind; [by intros dm|intros ?]].
  destruct (Ratchet.decrypt_message _ _ _) as [session' r].
  do 2 (apply quiet_bind; [apply quiet_lift|intros ?]). apply quiet_bind; [|by intros ? dm].
  intros [d m]. unfold keep_session, save_session. cbn [snd].
  destruct (encrypt _ _ _); [|done]. by destruct (x_save x).
Qed.

Lemma entries_quiet our kp es : forall dm, messages (read_entries our kp es dm).1.2 = messages dm.2.
Proof.
  induction es as [|[x e] es IH]; intros dm; [done|]. cbn [read_entries].
  destruct (get e "signed_blob" ≫= as_str) as [blob|]; [|apply IH].
  pose proof (decrypt_quiet x blob (str_field e "sender_nid") (str_field e "sender_fp") our kp dm) as Hd.
  destruct (relay_decrypt_message _ _ _ _ _ _ dm) as [dm1 r]. specialize (IH dm1).
  destruct (read_entries our kp es dm1) as [dm2 l]. cbn [fst] in *. by rewrite IH, Hd.
Qed.
End log.

Section commands.
Context `{Kem} `{Aead} `{Hkdf} `{Hmac} `{Hex} `{Base64} `{Sha2} `{Blake2} `{Argon2}.
Context `{Sequoia} `{!SequoiaSecret} `{Age} `{JsonCodec} `{Envelope.WireCodec} `{Format} `{SessionCodec}.
Context {S : Type} `{Server S}.

(** Nobody is found, or nobody listens where somebody is said to be; what is
    left is the relay. *)
Definition found_nobody (lookup : st (S * list relay_frame) client_error string) (w w1 : S * list relay_frame) : Prop :=
  match lookup w with
  | (w', Err _) => w1 = w'
  | (w', Ok addr) => exists er, ws_connect "" (ws_url addr) w' = (w1, Err er)
  end.

(** Nothing stands in the way of a command on a home that is set up. *)
Record smooth_run (e : program_env) (pass : string) : Prop := mkSmoothRun {
  r_pid : e_pid_write e = Written;
  r_open : e_open e = Ok tt;
  r_pass : e_password e = Ok pass;
}.

Lemma look_ok {A} (f : disk -> result client_error A) d m (w : S * list relay_frame) :
  look f ((d, m), w) = (((d, m), w), f d).
Proof. done. Qed.

Lemma run_send_ok e seed_url relay_url to fp message pir pass self crt key kp d m w w1 dm' w2 :
  settled (Ok pass) self crt key kp d -> smooth_run e pass ->
  load_contacts d !! to = Some fp -> load_aliases d !! to = None ->
  found_nobody (find_recipient e d seed_url to pir) w w1 ->
  relay_send (own e d (e_around e)) relay_url self to fp message ((d, with_key key m), w1) = ((dm', w2), Ok tt) ->
  run_send e seed_url relay_url to message pir ((d, m), w) = ((dm', w2), Ok (Sent ByRelay)).
Proof.
  intros Hset [_ Ho _] Hc Ha Hn Hs. unfold run_send, st_bind at 1.
  rewrite (open_settled e (Ok pass) self crt key kp d m w Hset Ho).
  unfold st_bind at 1. rewrite look_ok, (s_self _ _ _ _ _ _ Hset). unfold st_bind at 1. rewrite look_ok.
  cbv zeta. unfold resolve_recipient. rewrite Ha. cbn [opt_or]. unfold st_bind at 1, send_message. rewrite Hc.
  unfold found_nobody in Hn. destruct (find_recipient e d seed_url to pir w) as [w' [addr|er]].
  - destruct Hn as [er ->]. unfold st_bind at 1. by rewrite Hs.
  - subst w1. unfold st_bind at 1. by rewrite Hs.
Qed.

Lemma stored_shown nonce time nid text p m :
  messages m = [] -> nonce_ok nonce -> str_ok text -> slen text < 2 ^ 32 -> preview text = Some p ->
  let m' := (ClientStore.store_message true nonce time "relay" nid text m).1 in
  exists l, get_messages true 20 m' = Ok l /\ mapM (fun sm => preview (sm_ciphertext sm)) l = Some [p].
Proof.
  intros Hm Hn Ht Hl Hp m'. unfold m', ClientStore.store_message.
  destruct (encrypt_total nonce (db_key m) text Hl) as [c Hc]. rewrite Hc. cbn [fst].
  eexists. split; [done|]. cbn [messages db_key]. rewrite Hm. cbn [app].
  unfold newest_first. change (20 <? 0) with false. cbn match. cbn [reverse rev_append take Z.to_nat].
  rewrite take_ge by (cbn; lia). change (reverse [?x]) with [x]. cbn [omap list_omap].
  unfold read_row. cbn [row_ciphertext]. rewrite (decrypt_encrypt _ _ _ _ Hn Ht Hc).
  cbn [mapM sm_ciphertext]. by rewrite Hp.
Qed.

Lemma cmd_read_ok x xs io nonce nonce' url self text p d m d1 m1 w w1 kn time :
  load_identity d = Ok self ->
  relay_fetch x xs nonce url (ClientRelay.null_id self) ((d, m), w) = (((d1, m1), w1), Ok [text]) ->
  messages m1 = [] -> io 0%nat = (true, kn, time) -> nonce_ok kn -> str_ok text -> slen text < 2 ^ 32 ->
  preview text = Some p ->
  exists m2 w2, cmd_read x xs io nonce nonce' true url ((d, m), w) = (((d1, m2), w2), Ok ([text], [p])).
Proof.
  intros Hid Hf Hm Hio Hn Ht Hl Hp. unfold cmd_read. unfold st_bind at 1, at_home at 1. rewrite Hid.
  unfold st_bind at 1. rewrite Hf.
  set (m2 := (ClientStore.store_message true kn time "relay" (ClientRelay.null_id self) text m1).1).
  assert (Hk : keep_fetched io 0 (ClientRelay.null_id self) [text] m1 = m2) by (cbn [keep_fetched]; by rewrite Hio).
  unfold st_bind at 1 2, at_home at 1. rewrite Hk.
  destruct (relay_purge_home x nonce' url (ClientRelay.null_id self) d1 m2 w1) as (w2 & r & ->). cbn [fst].
  destruct (stored_shown kn time (ClientRelay.null_id self) text p m1 Hm Hn Ht Hl Hp) as (l & Hg & Hmp). fold m2 in Hg.
  exists m2, w2. unfold st_bind at 1, show_stored, st_bind at 1, at_home, st_lift. rewrite Hg. cbn [plain].
  by rewrite Hmp.
Qed.
End commands.

(** ** Two homes and a network *)

Section story.
Context `{Kem} `{Aead} `{Hkdf} `{Hmac} `{Hex} `{Base64} `{Sha2} `{Blake2} `{Argon2}.
Context `{Sequoia} `{!SequoiaSecret} `{Age} `{JsonCodec} `{Envelope.WireCodec} `{Format} `{SessionCodec}.
Context `{RelayCodec} `{!StoreRequestLaw} `{!FetchRequestLaw} `{!EnvelopeLaw} `{!JsonLaw} `{HashOrder (list f64)}.
Context {D : Type} `{Server D}.

(** A command line of the one or the other, and what the relay finds around it
    when it is given. *)
Record act : Type := mkAct { a_first : bool; a_env : program_env; a_args : Args; a_now : context }.

Record world : Type := mkWorld {
  w_first : disk * MessageStore; w_second : disk * MessageStore; w_net : Net D * list relay_frame }.

Definition perform (relay_ws : string) (a : act) (w : world) : world * result client_error printed :=
  let _ : Server (Net D) := net_server relay_ws (a_now a) in
  let home := if a_first a then w_first w else w_second w in
  let '((home', net'), r) := client_main (a_env a) (a_args a) (home, w_net w) in
  (if a_first a then mkWorld home' (w_second w) net' else mkWorld (w_first w) home' net', r).

(** What the command lines print, one after the other. *)
Fixpoint play (relay_ws : string) (acts : list act) (w : world) : list (result client_error printed) :=
  match acts with
  | [] => []
  | a :: acts' => let (w', r) := perform relay_ws a w in r :: play relay_ws acts' w'
  end.

Lemma perform_first ws x e a h1 h2 w h' w' r :
  (let _ : Server (Net D) := net_server ws x in client_main e a (h1, w)) = ((h', w'), r) ->
  perform ws (mkAct true e a x) (mkWorld h1 h2 w) = (mkWorld h' h2 w', r).
Proof. intros E. unfold perform. cbn [a_first a_env a_args a_now w_first w_net]. cbv zeta in E. by rewrite E. Qed.

Lemma perform_second ws x e a h1 h2 w h' w' r :
  (let _ : Server (Net D) := net_server ws x in client_main e a (h2, w)) = ((h', w'), r) ->
  perform ws (mkAct false e a x) (mkWorld h1 h2 w) = (mkWorld h1 h' w', r).
Proof. intros E. unfold perform. cbn [a_first a_env a_args a_now w_second w_net]. cbv zeta in E. by rewrite E. Qed.

(** Nothing has happened yet. *)
Definition nothing : disk * MessageStore := (∅, ClientStore.open []).

(** ** Over this network *)

Section one_time.
Variables (relay_url : string) (x : context).
#[local] Instance now_net : Server (Net D) := net_server (ws_url relay_url) x.

(** Whoever the directory names does not answer. *)
Definition nobody_there (e : program_env) (seed_url nid : string) (pir : bool) (n : Net D) : Prop :=
  forall d b w addr, find_recipient e d seed_url nid pir (n, b) = (w, Ok addr) ->
    is_ok (ws_connect "" (ws_url addr) w).2 = false.

Lemma nobody_found e seed_url nid pir n d b :
  ws_url seed_url <> ws_url relay_url -> nobody_there e seed_url nid pir n ->
  exists w1, found_nobody (find_recipient e d seed_url nid pir) (n, b) w1 /\ n_relay w1.1 = n_relay n.
Proof.
  intros Hne Hn. assert (Ha : away (D := D) (find_recipient e d seed_url nid pir)).
  { unfold find_recipient. destruct pir; [by apply away_pir_lookup|by apply away_lookup]. }
  specialize (Ha n b). specialize (Hn d b). unfold found_nobody.
  destruct (find_recipient e d seed_url nid pir (n, b)) as [w' [addr|er]]; [|exists w'; split; [done|apply Ha]].
  specialize (Hn w' addr eq_refl). destruct w' as [n' b']. cbn [fst] in Ha.
  destruct (String.eqb_spec (ws_url addr) (ws_url relay_url)) as [E|E].
  { exfalso. unfold ws_connect in Hn. cbn [srv_connect now_net net_server] in Hn. rewrite E, String.eqb_refl in Hn. done. }
  destruct (away_connect (ws_url relay_url) x "" (ws_url addr) E n' b') as [Hr _]. fold now_net in Hr.
  destruct (ws_connect "" (ws_url addr) (n', b')) as [w1 [u|er]]; [done|]. cbn [fst] in Hr.
  exists w1. split; [by exists er|]. by rewrite Hr, (proj1 Ha).
Qed.

(** The relay, whatever was connected before. *)
Lemma net_send y self nid fp message dm dm' req (n : Net D) s1 b :
  send_via_relay y self nid fp message dm = (dm', Some req, Ok tt) ->
  handle_text x (json_print req) (n_relay n) = (s1, [ROk None]) ->
  exists w2, relay_send y relay_url self nid fp message (dm, (n, b)) = ((dm', w2), Ok tt) /\ n_relay w2.1 = s1.
Proof.
  intros Hs Ht. exists (mkNet s1 (n_rest n) true, []). split; [|done].
  eapply (relay_send_ok (S := Net D)); [exact Hs| | |exact stored_heard].
  - cbn. by rewrite String.eqb_refl.
  - cbn. by rewrite Ht.
Qed.

Lemma net_fetch y ys nonce nid self kp c sig d m (n : Net D) b s2 data vs :
  load_identity d = Ok self -> load_or_generate_kyber y nid (d, m) = ((d, m), Ok kp) -> x_cert y = Ok c ->
  x_sign y (fetch_data nid (x_secs y) (Envelope.uuid_hex nonce)) = Ok sig ->
  handle_text x (json_print (fetch_request y (fetch_payload self nid sig c (x_secs y) (Envelope.uuid_hex nonce))))
    (n_relay n) = (s2, [ROk (Some data)]) ->
  reply_entries (RelayLink.send_ok (Some data)) = Ok (Some vs) ->
  exists w2, relay_fetch y ys nonce relay_url nid ((d, m), (n, b)) =
    let (dm', l) := read_entries (fingerprint self) kp (imap (fun i e => (ys i, e)) vs) (d, m) in ((dm', w2), Ok l).
Proof.
  intros Hid Hk Hc Hsig Ht Hr. exists (mkNet s2 (n_rest n) true, []).
  eapply (relay_fetch_ok (S := Net D)); try done; [cbn; by rewrite String.eqb_refl|].
  unfold srv_say, now_net, net_server. cbn [n_here n_relay n_rest]. by rewrite Ht.
Qed.

Abbreviation line c seed_url := (mkArgs c (Some seed_url) (Some relay_url)).

(** [send] of a home that is set up, given what it sends. *)
Lemma send_main e seed_url to fp message pir pass self crt key kp d m dm' req n b s1 fs :
  settled (Ok pass) self crt key kp d -> smooth_run e pass -> d !! PID_PATH = None ->
  load_contacts d !! to = Some fp -> load_aliases d !! to = None ->
  ws_url seed_url <> ws_url relay_url -> nobody_there e seed_url to pir n ->
  let d1 := with_pid e d in
  send_via_relay (answered (own e d1 (e_around e)) fs) self to fp message (d1, with_key key m) = (dm', Some req, Ok tt) ->
  handle_text x (json_print req) (n_relay n) = (s1, [ROk None]) ->
  exists h w, client_main e (line (Send to message pir) seed_url) ((d, m), (n, b)) = ((h, w), Ok (Sent ByRelay)) /\
    n_relay w.1 = s1.
Proof.
  intros Hset Hrun Hpid Hc Ha Hne Hno d1 Hs Ht.
  destruct (nobody_found e seed_url to pir n d1 b Hne Hno) as ([n1 b1] & Hf & Hr). cbn [fst] in Hr.
  rewrite <- Hr in Ht. destruct (net_send _ _ _ _ _ _ _ _ n1 s1 b1 Hs Ht) as (w2 & Hsend & Hr2).
  destruct dm' as [d' m']. exists (delete PID_PATH d', m'), w2. split; [|exact Hr2]. destruct w2 as [n2 b2].
  apply main_runs; [done|apply Hrun|]. unfold run. destruct (discover_servers _ _). cbn [cmd seed relay].
  eapply run_send_ok; try done; [by apply settled_with_pid| |].
  - rewrite <- Hc. unfold d1, with_pid, load_contacts. by rewrite (load_other CONTACTS_PATH PID_PATH).
  - rewrite <- Ha. unfold d1, with_pid, load_aliases. by rewrite (load_other ALIASES_PATH PID_PATH).
Qed.

(** [read] of a home that is set up, given what it is answered. *)
Lemma read_main e seed_url pass self crt key kp c sig p d m m' n b s2 data vs text kn time :
  settled (Ok pass) self crt key kp d -> smooth_run e pass -> d !! PID_PATH = None ->
  e_select e = true -> e_log e 0%nat = (true, kn, time) -> nonce_ok kn -> messages m = [] ->
  str_ok text -> slen text < 2 ^ 32 -> preview text = Some p ->
  let d1 := with_pid e d in
  let y := own e d1 (e_around e) in
  let key_n := Envelope.uuid_hex (e_nonces e).1 in
  let nid := ClientRelay.null_id self in
  x_cert y = Ok c -> x_sign y (fetch_data nid (x_secs y) key_n) = Ok sig ->
  handle_text x (json_print (fetch_request y (fetch_payload self nid sig c (x_secs y) key_n)))
    (n_relay n) = (s2, [ROk (Some data)]) ->
  reply_entries (RelayLink.send_ok (Some data)) = Ok (Some vs) ->
  read_entries (fingerprint self) kp (imap (fun i e' => (e_each e i, e')) vs) (d1, with_key key m) = (m', [text]) ->
  exists h w, client_main e (line Read seed_url) ((d, m), (n, b)) = ((h, w), Ok (Mail [text] [p])).
Proof.
  intros Hset Hrun Hpid Hsel Hlog Hkn Hm Ht Hl Hp d1 y key_n nid Hc Hsig Hsay Hr Hread.
  assert (Hset1 : settled (Ok pass) self crt key kp d1) by (by apply settled_with_pid).
  pose proof (load_device y self (d1, with_key key m) kp (own_device (Ok pass) self crt key kp d1 Hset1 m)) as Hk.
  destruct (net_fetch y (e_each e) (e_nonces e).1 nid self kp c sig d1 (with_key key m) n b s2 data vs) as (w2 & Hf);
    [apply Hset1|done..|].
  rewrite Hread in Hf. destruct m' as [d2 m2].
  assert (Hm2 : messages m2 = []).
  { pose proof (entries_quiet (fingerprint self) kp (imap (fun i e' => (e_each e i, e')) vs) (d1, with_key key m)) as Hq.
    rewrite Hread in Hq. cbn in Hq. by rewrite Hq. }
  destruct (cmd_read_ok y (e_each e) (e_log e) (e_nonces e).1 (e_nonces e).2 relay_url self text p d1 (with_key key m)
    d2 m2 (n, b) w2 kn time) as (m3 & w3 & Hcmd); [apply Hset1|done..|].
  exists (delete PID_PATH d2, m3), w3. destruct w3 as [n3 b3].
  apply main_runs; [done|apply Hrun|]. unfold run. destruct (discover_servers _ _). cbn [cmd seed relay].
  unfold run_read, st_bind at 1. rewrite (open_settled e (Ok pass) self crt key kp _ m _ Hset1) by apply Hrun.
  unfold st_bind at 1. rewrite look_ok. unfold st_bind. change (server_url (Some relay_url) _) with relay_url.
  rewrite Hsel. fold d1. fold y. by rewrite Hcmd.
Qed.
End one_time.

(** ** The story *)

Lemma admitted_own e d y fs x fp key c s :
  admitted y x fp key c s -> admitted (answered (own e d y) fs) x fp key c s.
Proof. intros A. destruct A. by constructor. Qed.

Lemma own_trusted (e : program_env) pass self crt key kp d armored y fs x fp k s :
  settled (Ok pass) self crt key kp d -> smooth_run e pass -> tsk_armored crt = Ok armored ->
  admitted y x fp k armored s -> trusted (answered (own e d y) fs) x fp k armored crt s.
Proof.
  intros Hset Hrun Harm A. destruct (own_cert e (Ok pass) self crt key kp d Hset (r_pass _ _ Hrun) armored Harm y)
    as (Hc & Hne & Hp).
  constructor; [by apply admitted_own|exact Hc|done|done|].
  exact (own_signs e (Ok pass) self crt key kp d Hset (r_pass _ _ Hrun) y).
Qed.

Definition heard : list relay_frame := [frame_of (ROk None)].

(** What [send] and [read] do between two homes that are set up. *)
Lemma first_delivery sa rb passa passb crta crtb arma armb keya keyb kpa kpb da db message kn x1 x2 s rows :
  let alice := named crta in let bob := named crtb in
  let xs := answered (own sa da (e_around sa)) heard in
  let y := own rb db (e_around rb) in
  let k := Envelope.uuid_hex kn in
  settled (Ok passa) alice crta keya kpa da -> settled (Ok passb) bob crtb keyb kpb db ->
  smooth_run sa passa -> smooth_run rb passb -> tsk_armored crta = Ok arma -> tsk_armored crtb = Ok armb ->
  fits_contact crta -> fits_contact crtb -> fingerprint bob <> fingerprint alice ->
  (forall data, exists txt, sign_detached (e_now sa) data crta = Ok txt) ->
  (forall data, exists txt, sign_detached (e_now rb) data crtb = Ok txt) ->
  able (e_around sa) -> able (e_each rb 0%nat) -> text_ok message ->
  (forall kp, derive_kyber (ClientRelay.null_id bob) = Ok kp ->
     first_fits (e_around sa) alice (ClientRelay.null_id bob) (fingerprint bob) message kp) ->
  admitted (e_around sa) x1 (fingerprint alice) (pretty (x_nanos (e_around sa))) arma s ->
  admitted (e_around rb) x2 (fingerprint bob) (fingerprint bob +:+ ":" +:+ k) armb s ->
  shared_secret s = None -> db_pool s = Some rows -> x_db x1 = true -> x_db x2 = true ->
  pending (ClientRelay.null_id bob) rows = [] ->
  exists sig dm' m' req s1 s2 data vs,
    send_via_relay xs alice (ClientRelay.null_id bob) (fingerprint bob) message (da, with_key keya (ClientStore.open []))
      = (dm', Some req, Ok tt) /\
    handle_text x1 (json_print req) s = (s1, [ROk None]) /\
    x_sign y (fetch_data (ClientRelay.null_id bob) (x_secs y) k) = Ok sig /\
    handle_text x2 (json_print (fetch_request y (fetch_payload bob (ClientRelay.null_id bob) sig armb (x_secs y) k))) s1
      = (s2, [ROk (Some data)]) /\
    reply_entries (RelayLink.send_ok (Some data)) = Ok (Some vs) /\
    read_entries (fingerprint bob) kpb (imap (fun i e => (e_each rb i, e)) vs)
      (db, with_key keyb (ClientStore.open [])) = (m', [message]).
Proof.
  intros alice bob xs y k Hsa Hsb Hra Hrb Haa Hab Hfa Hfb Hne Hsiga Hsigb Hxa Hxb Htext Hfirst Ta Tb Hsec Hdb Hd1 Hd2 Hp.
  set (xr := answered (own rb db (e_each rb 0%nat)) heard).
  destruct (deliver_first xs xr alice bob message (da, with_key keya (ClientStore.open [])) (db, with_key keyb (ClientStore.open []))
    kpa kpb) as (dm' & m' & Hdel & _); try done.
  { by eapply own_device. }
  { by eapply own_device. }
  { by apply named_ok. }
  { by apply named_ok. }
  { eapply own_sound; [exact Hsa|apply Hra|exact Haa|done|done|exact stored_heard]. }
  { eapply own_sound; [exact Hsb|apply Hrb|exact Hab|done|done|exact stored_heard]. }
  { apply Hfirst, Hsb. }
  destruct (Hsigb (fetch_data (ClientRelay.null_id bob) (x_secs y) k)) as [txt Htxt].
  assert (Hsig : x_sign y (fetch_data (ClientRelay.null_id bob) (x_secs y) k) = Ok (b64_encode (str_bytes txt))).
  { pose proof (own_sign rb (Ok passb) bob crtb keyb kpb db Hsb (r_pass _ _ Hrb) (e_around rb)
      (fetch_data (ClientRelay.null_id bob) (x_secs y) k)) as E. by rewrite Htxt in E. }
  destruct (through_relay xs (answered y (x_frames y)) (fun _ => xr) x1 x2 alice bob arma armb crta crtb k (b64_encode (str_bytes txt))
    message message (da, with_key keya (ClientStore.open [])) (db, with_key keyb (ClientStore.open [])) dm' (fun _ => m') kpb s rows)
    as (s1 & s2 & req & es & vs & Hsend & Hst & Hf & Hvs & _ & _ & Hread); try done.
  { by eapply own_device. }
  { by eapply own_trusted. }
  { by eapply own_trusted. }
  { destruct Hfb as [(Hl & _) _]. change (32 <= slen (fingerprint bob)) in Hl. intros E. rewrite E in Hl. done. }
  { destruct Hfa as [_ Hl]. change (slen (fingerprint alice) <= 1000) in Hl.
    pose proof (proj2 (computed_valid (fingerprint alice))) as Hn. change (compute_null_id (fingerprint alice))
      with (ClientRelay.null_id alice) in Hn. lia. }
  { by rewrite Hp. }
  { by rewrite Hp. }
  rewrite Hp in Hread. destruct (Hread (e_each rb)) as (m2 & i & l1 & l2 & Hr & _ & _ & Hn).
  { intros i Hi. cbn [length] in Hi. by replace i with 0%nat by lia. }
  destruct l1, l2; cbn in Hn; try lia.
  eexists _, dm', m2, req, s1, s2, _, vs. split_and!; [exact Hsend|exact Hst|exact Hsig|exact Hf|exact Hvs|exact Hr].
Qed.

(** What a sender and a reader need of their surroundings, besides a home. *)
Record can_send (e : program_env) (pass : string) (crt : cert) : Prop := mkCanSend {
  c_run : smooth_run e pass;
  c_signs : forall data, exists txt, sign_detached (e_now e) data crt = Ok txt;
  c_able : able (e_around e);
}.
Record can_read (e : program_env) (pass : string) (crt : cert) : Prop := mkCanRead {
  d_run : smooth_run e pass;
  d_signs : forall data, exists txt, sign_detached (e_now e) data crt = Ok txt;
  d_able : able (e_each e 0%nat);
  d_select : e_select e = true;
  d_log : exists kn time, e_log e 0%nat = (true, kn, time) /\ nonce_ok kn;
}.

(** C1: the first message, from nothing.  Two people whose homes are empty run
    [init]; the one adds the other, by the identifier and fingerprint that [init]
    showed, and sends a text; the other reads.  Whatever passphrases they chose,
    the five commands print: the two identities, that the contact was added, that
    the message went by the relay, and, to the reader, exactly the text that was
    sent, with its preview.  This holds when
    - nothing fails on the two machines, the two fingerprints differ and have the
      form and length that a contact may have;
    - the text is one that the padding gives back, that is, of at most 65535
      bytes and filled up with fewer than 256 (which leaves out the texts of about
      512 to 767 bytes), and its preview is not cut inside a character, which
      would be a panic;
    - the tag of the first ciphertext does not end in what looks like the length
      of a Kyber ciphertext;
    - the relay has a database that works, no shared secret, nothing waiting for
      the reader, and for neither of the two another certificate than the one
      [init] made; its clock agrees with theirs, and the nonces are new;
    - the directory is not reached through the relay's URL, and whoever it names
      as the recipient does not answer. *)
Theorem first_mail (ia ib ac sa rb : program_env) (passa passb : string) (crta crtb : cert) (arma armb : string)
    (message shown seed_url relay_url : string) (pir : bool) (x0 x1 x2 : context) (n : Net D) (rows : list row) :
  let alice := named crta in
  let bob := named crtb in
  let line c := mkArgs c (Some seed_url) (Some relay_url) in
  smooth_init ia passa crta arma -> smooth_init ib passb crtb armb ->
  fits_contact crta -> fits_contact crtb -> fingerprint bob <> fingerprint alice ->
  e_pid_write ac = Written -> e_write ac = Written ->
  can_send sa passa crta -> can_read rb passb crtb ->
  text_ok message -> preview message = Some shown ->
  (forall kp, derive_kyber (ClientRelay.null_id bob) = Ok kp ->
     first_fits (e_around sa) alice (ClientRelay.null_id bob) (fingerprint bob) message kp) ->
  admitted (e_around sa) x1 (fingerprint alice) (pretty (x_nanos (e_around sa))) arma (n_relay n) ->
  admitted (e_around rb) x2 (fingerprint bob) (fingerprint bob +:+ ":" +:+ Envelope.uuid_hex (e_nonces rb).1) armb (n_relay n) ->
  shared_secret (n_relay n) = None -> db_pool (n_relay n) = Some rows -> x_db x1 = true -> x_db x2 = true ->
  pending (ClientRelay.null_id bob) rows = [] ->
  ws_url seed_url <> ws_url relay_url ->
  nobody_there relay_url x1 sa seed_url (ClientRelay.null_id bob) pir n ->
  play (ws_url relay_url)
    [mkAct true ia (line Init) x0; mkAct false ib (line Init) x0;
     mkAct true ac (line (AddContact (ClientRelay.null_id bob) (fingerprint bob))) x0;
     mkAct true sa (line (Send (ClientRelay.null_id bob) message pir)) x1; mkAct false rb (line Read) x2]
    (mkWorld nothing nothing (n, [])) =
  [Ok (Initialized (Some alice)); Ok (Initialized (Some bob)); Ok Done; Ok (Sent ByRelay); Ok (Mail [message] [shown])].
Proof.
  intros alice bob line Hia Hib Hfa Hfb Hne Hpid Hw Hsa Hrb Htext Hshown Hfirst Ta Tb Hsec Hdb Hd1 Hd2 Hp Hurl Hno.
  pose (I0 := net_server (D := D) (ws_url relay_url) x0).
  destruct Hsa as [Hra Hga Hxa], Hrb as [Hrr Hgb Hxb Hsel (kn & time & Hlog & Hkn)].
  destruct (init_run (S := Net D) ia passa crta arma (Some seed_url) (Some relay_url) (ClientStore.open []) (n, []) Hia)
    as (da & kpa & Hra1 & Hseta & Hca & Haa & Hpa). rewrite (i_pass _ _ _ _ Hia) in Hseta.
  destruct (init_run (S := Net D) ib passb crtb armb (Some seed_url) (Some relay_url) (ClientStore.open []) (n, []) Hib)
    as (db & kpb & Hrb1 & Hsetb & _ & _ & Hpb). rewrite (i_pass _ _ _ _ Hib) in Hsetb.
  destruct (add_contact_run (S := Net D) ac (ClientRelay.null_id bob) (fingerprint bob) (Some seed_url) (Some relay_url) da
    (ClientStore.open []) (n, []) Hpa Hpid Hw (proj1 Hfb)) as (da' & Hadd & Ht & Hc & Ha & Hpa').
  eapply settled_touched in Hseta; [|exact Ht].
  destruct (first_delivery sa rb passa passb crta crtb arma armb (i_db_random (e_init ia)) (i_db_random (e_init ib))
    kpa kpb (with_pid sa da') (with_pid rb db) message
    (e_nonces rb).1 x1 x2 (n_relay n) rows) as (sig & dm' & m' & req & s1 & s2 & data & vs & Hsend & Hst & Hsig & Hf & Hvs & Hread);
    try done; [by apply settled_with_pid|by apply settled_with_pid|apply Hia|apply Hib|].
  destruct (send_main relay_url x1 sa seed_url (ClientRelay.null_id bob) (fingerprint bob) message pir passa alice crta _ kpa da'
    (ClientStore.open []) dm' req n [] s1 heard Hseta Hra Hpa') as (ha & [n1 b1] & Hs & Hr); try done.
  { rewrite Hc. apply lookup_insert_eq. }
  { by rewrite Ha, Haa. }
  cbn [fst] in Hr. subst s1.
  destruct (read_main relay_url x2 rb seed_url passb bob crtb _ kpb armb sig shown db (ClientStore.open []) m' n1 b1 s2 data vs
    message kn time Hsetb Hrr Hpb Hsel Hlog Hkn) as (hb & w2 & Hm); try done.
  { apply Htext. }
  { destruct Htext as (_ & Hl & _). lia. }
  { eapply own_cert; [by apply settled_with_pid|apply Hrr|apply Hib]. }
  cbn [play]. unfold nothing, line. rewrite (perform_first _ _ _ _ _ _ _ _ _ _ Hra1), (perform_second _ _ _ _ _ _ _ _ _ _ Hrb1),
    (perform_first _ _ _ _ _ _ _ _ _ _ Hadd), (perform_first _ _ _ _ _ _ _ _ _ _ Hs).
  by rewrite (perform_second _ _ _ _ _ _ _ _ _ _ Hm).
Qed.
End story.

(** ** Two people *)

#[local] Existing Instances toy_sequoia toy_secret toy_age toy_base64 toy_blake2 toy_argon2 toy_hmac toy_hex toy_aead
  toy_format tree_json wire_relay wire_fetch_law tree_json_law toy_kem toy_hkdf toy_sha2 toy_session_codec
  wire_order wire_store_law wire_envelope_law WireText.text_codec.

(** Nobody else is there. *)
#[local] Instance deserted : Server unit := {|
  srv_connect := fun _ s => (s, Err "refused");
  srv_say := fun _ s => (s, Err "closed") |}.

Definition some_dht : dht_env :=
  mkDhtEnv (fun k => Z.of_nat k) (fun _ => 100) (fun _ => Err "") (Err "") (Ok tt) (fun _ => []) [].

(** A person with a key and a passphrase, on a machine where nothing fails. *)
Definition person (fp pass : string) (n : Z) : program_env :=
  mkProgramEnv (40 + n) (fun _ => false) Written (fun _ => None) (Ok tt) Written [] Written (Ok "yes") (Ok pass)
    (Ok (fp : @cert toy_sequoia))
    (mkInitIo Written true Written (replicate 12 n) Written (replicate 32 n)) 100 (ordinary fp n)
    (fun k => ordinary fp (n + 1 + Z.of_nat k)) calm_direct some_dht (7, 8)
    (fun k => (true, replicate 12 (Z.of_nat k), "now")) true (Ok tt) [] "closed".

Definition anna_fp : string := "00112233445566778899AABBCCDDEEFF".
Definition bert_fp : string := "FFEEDDCCBBAA99887766554433221100".
Definition anna : program_env := person anna_fp "" 1.
Definition bert : program_env := person bert_fp "open sesame" 2.

Lemma person_init fp pass n :
  0 <= n < 100 -> str_ok ("CERT:" +:+ fp) -> str_ok ((pass +:+ ":") +:+ "CERT:" +:+ fp) -> corrupt_cert ("CERT:" +:+ fp) = false ->
  smooth_init (person fp pass n) pass fp ("CERT:" +:+ fp).
Proof.
  intros Hn Hu Hpu Hc. assert (Hr : forall k, bytes_ok (replicate k n)) by (intros k; apply Forall_replicate; unfold byte_ok; lia).
  assert (Ht : tsk_armored (fp : @cert toy_sequoia) = Ok ("CERT:" +:+ fp)).
  { cbn [tsk_armored toy_secret]. by rewrite from_utf8_str. }
  assert (He : is_ok (encrypt_cert_armored ("CERT:" +:+ fp) pass) = true).
  { unfold encrypt_cert_armored. cbn [age_seal toy_age]. rewrite <- str_bytes_app. by rewrite from_utf8_str. }
  constructor; try done; split; split; try done; apply Hr.
Qed.

Lemma ordinary_able fp n : 0 <= n < 100 -> able (ordinary fp n).
Proof. intros Hn. pose proof (calm_sound n Hn) as Hs. split; apply Hs. Qed.

Lemma person_signs fp pass n data : exists txt, sign_detached (e_now (person fp pass n)) data (fp : @cert toy_sequoia) = Ok txt.
Proof.
  unfold sign_detached. cbn [cert_keys toy_sequoia head ok_or rbind key_secret toy_secret sign_stream].
  rewrite from_utf8_str by apply toy_sign_ok. by eexists.
Qed.

Lemma ordinary_admitted fp n key rows :
  admitted (ordinary fp n) sample_context fp key ("CERT:" +:+ fp) (sample_state rows).
Proof. apply (ordinary_trusted fp n fp key ∅ rows). by left. Qed.

Lemma first_fits_anna kp :
  derive_kyber (ClientRelay.null_id (named (bert_fp : @cert toy_sequoia))) = Ok kp ->
  first_fits (e_around anna) (named (anna_fp : @cert toy_sequoia)) (ClientRelay.null_id (named (bert_fp : @cert toy_sequoia)))
    bert_fp "hello" kp.
Proof. apply fits_first. vm_compute. reflexivity. Qed.

Theorem first_mail_witness :
  let alice := named (anna_fp : @cert toy_sequoia) in
  let bob := named (bert_fp : @cert toy_sequoia) in
  let line c := mkArgs c (Some "wss://dht") (Some "wss://relay") in
  play "wss://relay"
    [mkAct true anna (line Init) sample_context; mkAct false bert (line Init) sample_context;
     mkAct true anna (line (AddContact (ClientRelay.null_id bob) bert_fp)) sample_context;
     mkAct true anna (line (Send (ClientRelay.null_id bob) "hello" false)) sample_context;
     mkAct false bert (line Read) sample_context]
    (mkWorld nothing nothing (mkNet (sample_state []) tt false, [])) =
  [Ok (Initialized (Some alice)); Ok (Initialized (Some bob)); Ok Done; Ok (Sent ByRelay); Ok (Mail ["hello"] ["hello"])].
Proof.
  apply (first_mail anna bert anna anna bert "" "open sesame" (anna_fp : @cert toy_sequoia) (bert_fp : @cert toy_sequoia)
    ("CERT:" +:+ anna_fp) ("CERT:" +:+ bert_fp) "hello" "hello" "wss://dht" "wss://relay" false
    sample_context sample_context sample_context (mkNet (sample_state []) tt false) []).
  - apply person_init; [lia|reflexivity|reflexivity|reflexivity].
  - apply person_init; [lia|reflexivity|reflexivity|reflexivity].
  - split; [split_and!; (discriminate || reflexivity)|discriminate].
  - split; [split_and!; (discriminate || reflexivity)|discriminate].
  - discriminate.
  - reflexivity.
  - reflexivity.
  - constructor; [by constructor|apply person_signs|apply ordinary_able; lia].
  - constructor; [by constructor|apply person_signs|apply ordinary_able; lia|reflexivity|].
    eexists _, _. split; [reflexivity|]. split; [reflexivity|]. apply Forall_replicate. split; [discriminate|reflexivity].
  - apply text_ok_small; reflexivity.
  - reflexivity.
  - exact first_fits_anna.
  - apply ordinary_admitted.
  - apply ordinary_admitted.
  - reflexivity.
  - reflexivity.
  - reflexivity.
  - reflexivity.
  - reflexivity.
  - discriminate.
  - intros d b w addr E. unfold find_recipient, dht_lookup, st_bind, ws_connect in E. cbn in E. discriminate E.
Defined.
