(* ===== verification/KeyExposure.v ===== *)
(** * What a client gives away with its requests (src/client/src/main.rs)

    [load_armored_cert] writes the certificate out with [as_tsk], that is with
    its secret keys, and every request to a relay carries the result.  Whoever
    reads one request can do to the mailboxes of its sender, at any relay, what
    the sender can.  The plain certificate file of a home has the secrets too,
    and [export_pubkey] of src/crypto-utils hands it out as the public key. *)

From S2P Require Import Prelude Text Files Primitives Concrete Json JsonTree Gpg Identity RateLimit CertCache CryptoUtils.
From S2P Require Import Mailbox RelayAuth Federation RelayState Relay RelayProps Interop InteropFetch EndToEnd.
From S2P Require Import Kyber Padding ClientStore ClientRelay ClientRelayProps ClientHome ClientDht ClientShell.
From S2P Require Import ClientDirect ClientFetch ClientMain Settled FirstMail.
From S2P Require DhtNode Envelope Ratchet.

Abbreviation nid_of := ClientRelay.null_id.
Abbreviation fp_of := ClientRelay.fingerprint.

(** ** What a reader of a request can make of it *)

Section exposure.
Context `{Sequoia} `{!SequoiaSecret} `{Age} `{JsonCodec} `{Envelope.WireCodec} `{Format} `{SessionCodec}.
Context `{Base64} `{Blake2} `{Hmac} `{Hex} `{Aead} `{Kem} `{Hkdf} `{Sha2} `{RelayCodec} `{!FetchRequestLaw} `{HashOrder (list f64)}.

(** The certificate that a request carries, as text and parsed. *)
Definition carried (req : value) : option (string * cert) :=
  p ← get req "payload"; armored ← get p "sender_cert" ≫= as_str;
  match cert_from_bytes armored with Ok crt => Some (armored, crt) | Err _ => None end.

(** A signature with it, made the way the client makes its own. *)
Definition forged_sig (now : Z) (crt : cert) (data : string) : option string :=
  match sign_data (fun text => sign_detached now text crt) data with Ok sig => Some sig | Err _ => None end.

(** The request of [relay_fetch] in the name of the certificate. *)
Definition forged_fetch (now : Z) (time : f64) (nonce : string) (req : value) : option value :=
  '(armored, crt) ← carried req;
  sig ← forged_sig now crt (fetch_data (nid_of (named crt)) time nonce);
  Some (fetch_payload (named crt) (nid_of (named crt)) sig armored time nonce).

(** A purge with the fields that the relay reads. *)
Definition purge_payload (self : ClientRelay.Identity) (sig : string) (time : f64) (nonce : string) : value :=
  VObject [("recipient_nid", VString (nid_of self)); ("requester_fp", VString (fp_of self));
           ("sender_sig", VString sig); ("timestamp", VNumber (Float time)); ("nonce", VString nonce)].

Definition forged_purge (now : Z) (time : f64) (nonce : string) (req : value) : option value :=
  '(_, crt) ← carried req;
  sig ← forged_sig now crt (purge_signing_data (nid_of (named crt)) time nonce);
  Some (purge_payload (named crt) sig time nonce).

Lemma forged_sig_verifies now crt data :
  (exists txt, sign_detached now data crt = Ok txt) ->
  exists sig raw text, forged_sig now crt data = Some sig /\ sig <> "" /\
    b64_decode sig = Some raw /\ from_utf8 raw = Some text /\ verify_detached text data crt = Ok true.
Proof.
  intros [txt E]. destruct (verify_sign _ _ _ _ E) as (Hv & Hne & Hok).
  exists (b64_encode (str_bytes txt)), (str_bytes txt), txt. unfold forged_sig, sign_data. rewrite E. cbn [rbind].
  split; [done|]. split; [apply b64_nonempty; [apply str_bytes_ok|by destruct txt]|].
  split; [apply b64_decode_encode, str_bytes_ok|]. split; [by apply from_utf8_str|done].
Qed.

(** What a sent message carries. *)
Lemma sent_carries e d xs self nid fp message dm dm' req r crt armored :
  load_cert (e_password e) d = Ok crt -> tsk_armored crt = Ok armored ->
  send_via_relay (own e d xs) self nid fp message dm = (dm', Some req, r) ->
  armored <> "" /\ cert_from_bytes armored = Ok crt /\ carried req = Some (armored, crt).
Proof.
  intros Hc Ha Hs. destruct (tsk_armored_parses crt armored Ha) as (Hne & _ & Hp).
  apply send_inv in Hs as (blob & sig & c & _ & Hx & ->).
  assert (c = armored) as ->.
  { unfold own, load_armored_cert in Hx. cbn [x_cert] in Hx. rewrite Hc in Hx. cbn [rbind] in Hx.
    rewrite Ha in Hx. by injection Hx. }
  split; [done|]. split; [done|]. unfold carried. cbn. by rewrite Hp.
Qed.

(** C11: one request gives its sender away.  A message sent over a relay carries
    the certificate with its secret keys.  Whoever reads that request, the relay
    for one, makes of it alone a fetch and a purge in the sender's name, at a
    time and with a nonce of their own; a relay without a shared secret that
    knows the sender serves them like the sender's: the fetch hands over
    whatever waits, the purge leaves nothing to be fetched. *)
Theorem request_gives_the_key_away (e : program_env) (d : gmap string string) (xs : surroundings)
    (self : ClientRelay.Identity) (nid fp message : string) (dm dm' : gmap string string * MessageStore)
    (req : value) (r : result client_error unit) (crt : cert) (armored : string)
    (now : Z) (rx : context) (s : RelayState) (time : f64) (nonce : string) :
  let victim := named crt in
  let me := fp_of victim in
  load_cert (e_password e) d = Ok crt -> tsk_armored crt = Ok armored -> me <> "" ->
  (forall data, exists txt, sign_detached now data crt = Ok txt) ->
  send_via_relay (own e d xs) self nid fp message dm = (dm', Some req, r) ->
  cert_cache s !! me = Some armored -> shared_secret s = None ->
  RelayAuth.can_write (x_locks rx) = true -> RelayAuth.can_read (x_locks rx) = true -> x_db rx = true ->
  check_timestamp_freshness (x_now rx) time = Ok tt ->
  unused me (me +:+ ":" +:+ nonce) s -> unused me ("purge:" +:+ me +:+ ":" +:+ nonce) s ->
  exists f g s1 s2,
    forged_fetch now time nonce req = Some f /\ forged_purge now time nonce req = Some g /\
    handle_fetch rx f s = (s1, Ok [ROk (Some (fetch_value (fetch_messages rx (nid_of victim) s)))]) /\
    handle_purge rx g s = (s2, Ok [ROk None]) /\ fetch_messages rx (nid_of victim) s2 = [].
Proof.
  intros victim me Hc Ha Hme Hsign Hsend Hpin Hsec Hw Hr Hdb Hts Hun1 Hun2.
  destruct (sent_carries _ _ _ _ _ _ _ _ _ _ _ _ _ Hc Ha Hsend) as (Hne & Hp & Hcar).
  destruct (forged_sig_verifies now crt (fetch_data (nid_of victim) time nonce) (Hsign _))
    as (sf & rf & tf & Ef & Nf & Bf & Uf & Vf).
  destruct (forged_sig_verifies now crt (purge_signing_data (nid_of victim) time nonce) (Hsign _))
    as (sg & rg & tg & Eg & Ng & Bg & Ug & Vg).
  unfold forged_fetch, forged_purge. rewrite Hcar. cbn [mbind option_bind]. fold victim. rewrite Ef, Eg.
  cbn [mbind option_bind].
  destruct (fetch_granted rx (fetch_payload victim (nid_of victim) sf armored time nonce)
    (decoded_fetch victim (nid_of victim) sf armored time nonce) crt rf tf s) as (n & E1); try done.
  { by apply fetch_request_of_members. }
  { by right. }
  destruct (purge_granted rx (purge_payload victim sg time nonce) armored crt rg tg s) as (n' & k' & E2); try done.
  eexists _, _, _, _. split; [reflexivity|]. split; [reflexivity|]. split; [exact E1|]. split; [exact E2|].
  apply (purge_fetch_same rx rx (nid_of victim)), Hdb.
Qed.

(** ** The file of the certificate *)

(** A home made without a passphrase, seen by [export_pubkey]: the exported text
    parses to the certificate with everything it can sign. *)
Lemma exported_secret w crt armored d d' (m : machine) h :
  tsk_armored crt = Ok armored -> i_cert w = Written ->
  keep_cert (i_cert w) "" armored d = (d', Ok tt) ->
  CryptoUtils.home_dir m = Some h -> (forall p, CryptoUtils.files m !! (h +:+ "/" +:+ p) = d' !! p) ->
  export_pubkey m = Ok armored /\ cert_from_bytes armored = Ok crt.
Proof.
  intros Ha Hw Hk Hh Hf. rewrite Hw in Hk. destruct (tsk_armored_parses crt armored Ha) as (_ & _ & Hp).
  split; [|done]. unfold export_pubkey, in_home. rewrite Hh. cbn [rbind]. unfold read_to_string.
  rewrite Hf. unfold keep_cert in Hk. cbn in Hk. injection Hk as <-. cbn. by rewrite lookup_insert_eq.
Qed.
End exposure.

(** ** A concrete exposure *)

#[local] Existing Instances toy_sequoia toy_secret toy_age toy_base64 toy_blake2 toy_argon2 toy_hmac toy_hex toy_aead
  toy_format tree_json wire_relay wire_fetch_law toy_kem toy_hkdf toy_sha2 toy_session_codec
  wire_order wire_store_law wire_envelope_law WireText.text_codec.

(** Anna's home, her command, and a relay that knows her and keeps a message for her. *)
Definition anna_named : ClientRelay.Identity := named (anna_fp : @cert toy_sequoia).
Definition anna_home : gmap string string := {[ CERT_ASC := "CERT:" +:+ anna_fp ]}.
Definition anna_around : surroundings := own anna anna_home (ordinary anna_fp 1).
Definition anna_relay : RelayState :=
  set_certs {[ anna_fp := "CERT:" +:+ anna_fp ]}
    (sample_state [RelayState.mkRow (nid_of anna_named) (Mailbox.sample_entry "FRIEND" 1) false ""]).

Lemma anna_sound : sound anna_around.
Proof.
  destruct (ordinary_able anna_fp 1 ltac:(lia)) as [Hsel Hrnd].
  split_and!; [apply Hsel..|apply Hrnd|apply Hrnd|apply Hrnd| | |reflexivity].
  - intros data. destruct (person_signs anna_fp "" 1 data) as [txt E]. exists (b64_encode (str_bytes txt)).
    unfold anna_around, own, sign_for_transport. cbn [x_sign].
    change (load_cert (e_password anna) anna_home) with (Ok (E := client_error) (anna_fp : @cert toy_sequoia)).
    change (e_now (person anna_fp "" 1)) with (e_now anna) in E. cbn [rbind]. unfold sign_data. by rewrite E.
  - exists ("CERT:" +:+ anna_fp). reflexivity.
Qed.

Lemma anna_sends : exists da' req,
  send_via_relay anna_around anna_named victim_nid "VICTIM" "hello" (files anna_named 1) = (da', Some req, Ok tt).
Proof.
  destruct (files_device anna_named 1) as (ka & Hd & _).
  destruct (derive_kyber_total victim_nid) as (k & Hk & _).
  destruct (first_message anna_around anna_named victim_nid "VICTIM" "hello" (files anna_named 1) ka k)
    as (da' & req & _ & _ & Hs & _); [exact Hd| | | |exact anna_sound| |exact Hk|reflexivity| |by exists da', req].
  - split_and!; [apply ClientRelayProps.named; reflexivity..|discriminate].
  - apply ClientRelayProps.named; reflexivity.
  - apply ClientRelayProps.named; reflexivity.
  - apply text_ok_small; reflexivity.
  - apply fits_first; [vm_compute; reflexivity|exact Hk].
Qed.

Theorem request_gives_the_key_away_witness :
  exists req f g s1 s2,
    (send_via_relay anna_around anna_named victim_nid "VICTIM" "hello" (files anna_named 1)).1.2 = Some req /\
    forged_fetch 100 (f64_of_Z 100) "n1" req = Some f /\ forged_purge 100 (f64_of_Z 100) "n1" req = Some g /\
    handle_fetch sample_context f anna_relay =
      (s1, Ok [ROk (Some (fetch_value [Mailbox.sample_entry "FRIEND" 1]))]) /\
    handle_purge sample_context g anna_relay = (s2, Ok [ROk None]) /\
    fetch_messages sample_context (nid_of anna_named) s2 = [].
Proof.
  destruct anna_sends as (dm' & req & E).
  destruct (request_gives_the_key_away anna anna_home (ordinary anna_fp 1) anna_named victim_nid "VICTIM" "hello"
    (files anna_named 1) dm' req (Ok tt) (anna_fp : @cert toy_sequoia) ("CERT:" +:+ anna_fp) 100 sample_context anna_relay
    (f64_of_Z 100) "n1") as (f & g & s1 & s2 & Ef & Eg & E1 & E2 & E3).
  - reflexivity.
  - reflexivity.
  - discriminate.
  - intros data. exact (person_signs anna_fp "" 1 data).
  - exact E.
  - reflexivity.
  - reflexivity.
  - reflexivity.
  - reflexivity.
  - reflexivity.
  - vm_compute. reflexivity.
  - reflexivity.
  - reflexivity.
  - exists req, f, g, s1, s2. split; [exact (f_equal (fun y => y.1.2) E)|].
    split; [exact Ef|]. split; [exact Eg|]. split; [exact (eq_trans E1 eq_refl)|]. split; [exact E2|exact E3].
Defined.
